(* ===== verification/_CoqProject ===== *)
-Q . S2P
Prelude.v
Report.v
Platform.v
Assert.v
ImplStorage.v
FileViewBase.v
FileViewPosix.v
FileViewWindows.v
FileView.v
PosixModel.v
FileViewTheorems.v
Source.v
Testing.v
SourceFacts.v
UnicodeTables.v
Unicode.v
Utf16.v
WindowsModel.v
ConsoleReporter.v
Token.v
Keywords.v
Flags.v
Lexer.v
LexerWords.v
LexerFacts.v
LexerSpec.v
LexerScanners.v
LexerHandlers.v
LexerFlags.v
LexerCorrect.v
LexerTokens.v
Memory.v
Arena.v
ArenaFacts.v
ArenaTheorems.v
Ast.v
Outline.v
AstCompare.v
AstCompareTheorems.v
Evaluator.v
Parser.v
Grammar.v
GrammarFacts.v
ParserFacts.v
ParserSound.v
ParserComplete.v
ParserRecovery.v
ParserTheorems.v
Printer.v
PrinterFacts.v
PrinterTheorems.v
Pipeline.v
Spelling.v
Layout.v
LayoutTheorems.v
TreeTypes.v
Build.v
BuildTheorems.v
SymbolTable.v
TypeChecker.v
TypeCheckerTheorems.v
TestSuite.v
