(* ===== verification/Prelude.v ===== *)
(** * Cero: a verified model of the compiler's front end

    Cero is a compiler front end in C++ (namespaces [cero] and [util] under
    src/cero/). A build (compile/build.cc) locks a source, which is a string or a
    memory-mapped file, lexes it, parses the tokens to a syntax tree that lives in
    a memory arena, and hands the tree to a semantic analyzer that is still being
    written. Every stage sends its diagnostics to one reporter. This library is a
    model of these parts in Rocq with the theorems that make them correct. The
    definitions follow the C++ function by function and evaluate; the repository's
    own test cases are checked by evaluation in TestSuite.v.

    ** How the code is modelled

    - A [char] is a byte ([ascii]); strings and string views are lists of bytes;
      unsigned integers are [Z] with the wrap-around written out ([u8], [u32],
      [u64], the 24-bit offsets of tokens and nodes).
    - A member function of a class with state [S] is a value of [M S A]: from a
      state to [Done] (it returns), [Thrown] (a [ParseError] propagates), [Aborted]
      (a failed [cero_assert], a standard exception that nothing catches, undefined
      behaviour such as an access out of bounds or a double delete) or [OutOfFuel] (a loop or recursion that used up its bound). The
      theorems exclude the last two where the code never gets there; so they state
      termination and the absence of failed assertions, not only the results.
    - Loops are [loop], whose fuel is a measure of the state at loop entry (the
      characters or tokens left); [wp_loop] asks each iteration to lower it. The
      parser's recursion has the tokens left as fuel; every recursive call comes
      after a token was consumed.
    - The effect on the reporter is the sequence of its [handle_report] calls, kept
      in the state as a list that only grows; [ReportHandler] and [deliver] replay
      it on a concrete reporter.
    - Code outside the repository is a class: [Fmt] (the fmt library's vformat),
      [Posix] and [Windows] with [PosixLaws] and [WindowsLaws] (the calls of the two
      operating systems and what they do to handles and mappings: [munmap] needs the
      length of the mapping, and closing a file may fail), [CodePages] with
      [CodePagesLaws] (the conversions between UTF-8 and UTF-16), [ConsoleLaws] (the
      console), [Allocator] with [AllocatorLaws] (operator new), [SystemMessages]
      (std::error_condition::message), [StdHash] (std::hash). Concrete instances, with
      which the examples evaluate, are in Testing.v, PosixModel.v, WindowsModel.v,
      Utf16.v and ArenaTheorems.v; the laws are proved for them.
    - The two variants that the build files choose from are the two constructors of
      [Platform]; code that uses the system is generic in it, and the theorems about
      builds hold for both.

    ** Files

    Diagnostics and files
    - Prelude.v: bytes, integers, the outcome monad, loops, weakest preconditions.
    - Report.v: report/ (locations, messages, format strings, arguments,
      [Reporter::report] as [make_report]). Theorem: the number of arguments that
      [valid_for_message] asks for is the number of replacement fields.
    - Platform.v: the operating system as an interface, util/system_error.cc.
    - Assert.v: util/assert.cc: what a failed assertion prints before the process ends.
    - ImplStorage.v: util/impl_storage.hh, sizes and alignments of classes.
    - FileViewBase.v, FileViewPosix.v, FileViewWindows.v, FileView.v,
      FileViewTheorems.v: util/file_view.hh with file_view.posix.cc, file_view.win.cc,
      utf16.win.cc and push_state.hh. [FileViewContract] is what a variant promises;
      both are shown to keep it, and the rest of the development uses the contract
      only. Theorem: [FileView::from] leaks nothing on any failing path and a view
      owns exactly what destroying it gives back; the only other outcome is the failed
      assertion when the system refuses to close what was opened. PosixModel.v and WindowsModel.v are
      in-memory systems.
    - Utf16.v: the conversions of utf16.win.cc invert each other: their buffers are
      long enough.
    - ConsoleReporter.v: report/console_reporter.win.cc and .posix.cc. Theorem: what
      setting up the console does, and that it misses the output code page.
    - Source.v, SourceFacts.v: syntax/source.cc, source_cursor.hh. Theorem: [locate]
      computes line and column, without overflow for sources up to 2^24-1 bytes.
    - Testing.v: tests/common/test_reporter.cc and a concrete [Fmt].

    Lexer
    - UnicodeTables.v, Unicode.v: syntax/unicode.cc. Theorems: the binary search of
      the XID tables decides membership; decoding inverts UTF-8 encoding.
    - Token.v, Keywords.v, Flags.v: token.cc, token_list.cc, token_cursor.hh,
      keywords.hh, util/flags.hh.
    - Lexer.v: syntax/lexer.cc, one definition per member function of [struct Lexer].
    - LexerSpec.v: the lexical grammar and the reference definitions (nested
      comments, quoted literals, digit sequences); [lexed] says that a text consists
      of the texts of tokens and of gaps.
    - LexerWords.v, LexerFacts.v, LexerScanners.v, LexerHandlers.v, LexerFlags.v: the
      lexer's functions as runs ([runs]): what each reads, puts and reports.
    - LexerCorrect.v: the lexer is total; its tokens and the trivia between them make
      up the source; keywords are recognised exactly; oversized sources are refused.
    - LexerTokens.v: identifiers, maximal munch for operators, digit sequences,
      nested comments, quoted literals, the [emit_comments] flag.
    - Spelling.v: the lexer from the side of a writer. [spells] says that a text is a
      layout of a sequence of words; every layout is read back as the tokens of its
      words, and [spell] writes a layout of any valid words. The converse does not
      hold: the lexer also accepts malformed UTF-8, literals that the end of the
      source cuts off, and [>>>], which [spells] leaves out.

    Syntax tree, arena, parser
    - Memory.v: the memory that the arena works on: allocated blocks, bytes that may be
      indeterminate, objects of trivially copyable types as bytes ([Trivial]). Every
      load, store, copy and deletion is checked.
    - Arena.v, ArenaFacts.v, ArenaTheorems.v: util/memory_arena.cc and the array in
      it. The list of blocks is the linked list of headers in memory. Theorems, for
      sizes below 2^62 and the alignments 1, 2, 4 and 8: the regions an arena hands
      out are aligned, disjoint and inside the blocks it owns; created objects keep
      their values; [put] appends to what a loop over the array reads; [release]
      deletes exactly the arena's blocks. Two faults: allocation after [release], and
      alignment 16.
    - Ast.v: syntax/ast.hh and ast_visitor.hh; nodes are inductive types, the visitor
      is a class.
    - Outline.v: what a tree says apart from the places of its tokens, as a relation
      and as a function.
    - AstCompare.v, AstCompareTheorems.v: tests/syntax/ast_compare.cc, the recorder
      with which the tests compare trees. Theorem: a recording without literals passes
      exactly on the trees with the recorded outlines; one with a literal never does.
    - Parser.v: syntax/parser.cc, one definition per member function of
      [struct Parser]; recursion is tied in [parse].
    - Grammar.v, GrammarFacts.v: the abstract specification, a relation between
      tokens and trees without cursor, exceptions or recovery; derived trees respect
      precedence and left associativity.
    - ParserFacts.v, ParserSound.v, ParserComplete.v, ParserTheorems.v: the parser is
      total on every list of tokens with one end of file at its end, implements the
      grammar exactly, and recovers from errors where it is meant to.
    - ParserRecovery.v: a stretch that starts with a stray token is reported once and
      skipped up to the next [public], [private], [struct], [enum] or the end of file,
      with the definitions without an access modifier in it; all definitions outside
      of such stretches get into the tree.
    - Printer.v, PrinterFacts.v, PrinterTheorems.v: a printer of trees; the trees the
      parser can return without a report are the canonical ones, and parsing inverts
      printing on them.

    From the text to the tree
    - Pipeline.v: the lexer establishes what the parser relies on, for every source.
    - Layout.v, LayoutTheorems.v: derivations over tokens of the same kinds and texts
      have the same outline; so two layouts of the same words are both accepted or
      both not, and their trees say the same.
    - TreeTypes.v: accepted trees are well formed: sorts and numbers of children, names
      that are identifiers, literals in the class of their kind.

    Builds and semantic analysis
    - Build.v, BuildTheorems.v: compile/build.cc. Theorems: the lexer establishes the
      parser's precondition for every source; a build always ends and gives its
      resources back, or fails the assertion that its file was closed; what is reported when a source cannot be read; a build is
      silent exactly when the lexer is and the grammar derives the tokens.
    - SymbolTable.v: sema/symbol_table.cc. Theorems: [find] finds the innermost
      declaration; [SymbolTable::put] declares nothing.
    - TypeChecker.v, TypeCheckerTheorems.v: sema/type_checker.cc, tir_tree.cc, as far
      as they go: an accepted program is type checked to the end, one TIR function
      per definition.
    - Evaluator.v: sema/evaluator.cc and type_context.hh, which do nothing yet.
    - TestSuite.v: the repository's test cases as examples.

    The interfaces between the stages are predicates: [lexed] (what the lexer gives),
    [good] (what the parser asks for), [parses_root] (what the parser gives), and the
    canonical trees; Pipeline.v and BuildTheorems.v connect them.

    ** Not modelled

    The syntax tree as objects in the arena (the arena stores objects of any trivially
    copyable type as bytes, but the nodes of the tree are values, and the parser model
    returns them instead of pointers to them) and the reserve of vectors; the bytes of
    [ImplStorage] (the storage is the value it holds). sema/evaluator.cc and
    sema/type_context.hh have no behaviour yet. The files of sema/ that use
    [AstVisitor] without its template argument do not compile as they are; they are
    modelled as their visitor functions read.

    ** Where the development may grow

    The syntax tree in the arena as a store of nodes with addresses, shown to represent
    the tree values; reports as a specification of the first error. *)

From Stdlib Require Import Ascii String.
From Stdlib Require Export ZArith Lia.
From stdpp Require Export base tactics numbers list.

#[global] Open Scope Z_scope.
#[global] Unset Asymmetric Patterns.

#[global] Arguments Z.add : simpl never.
#[global] Arguments Z.sub : simpl never.
#[global] Arguments Z.mul : simpl never.
#[global] Arguments Z.of_nat : simpl never.
#[global] Arguments Z.to_nat : simpl never.
#[global] Arguments Z.modulo : simpl never.

Declare Scope cero_scope.
Delimit Scope cero_scope with cero.
#[global] Open Scope cero_scope.

(** * Text *)

(** A [char] is one of 256 bytes. [std::string] and [std::string_view] are
    sequences of bytes. *)
Definition char : Type := ascii.
Definition text : Type := list ascii.

(** String literals of the C++ code. *)
Definition lit (s : string) : text := list_ascii_of_string s.

(** The value of a byte, as [uint8_t]. *)
Definition byte_val (c : ascii) : Z := Z.of_N (N_of_ascii c).

#[export] Instance ascii_eq_dec : EqDecision ascii := ascii_dec.

(** [std::string_view::substr(pos, n)]: throws [std::out_of_range] (here
    [None]) when [pos] is past the end and clamps [n] to what is left. *)
Definition substr (s : text) (pos n : Z) : option text :=
  let size := Z.of_nat (length s) in
  if size <? pos then None
  else Some (take (Z.to_nat (Z.min n (size - pos))) (drop (Z.to_nat pos) s)).

(** * Fixed-width unsigned integers *)

Definition u8 (z : Z) : Z := z mod 2 ^ 8.
Definition u32 (z : Z) : Z := z mod 2 ^ 32.
Definition u64 (z : Z) : Z := z mod 2 ^ 64.

(** * The effect of a C++ member function *)

(** A member function of a class with state [S] that returns an [A] either
    returns, lets a [ParseError] propagate, runs into a failed [cero_assert],
    an uncaught standard exception or an out-of-bounds access ([Aborted]), or
    exhausts the fuel given to one of its loops or recursive calls
    ([OutOfFuel], which stands for nontermination). *)
Inductive Outcome (S A : Type) : Type :=
| Done (a : A) (s : S)
| Thrown (s : S)
| Aborted
| OutOfFuel.
Arguments Done {S A} a s.
Arguments Thrown {S A} s.
Arguments Aborted {S A}.
Arguments OutOfFuel {S A}.

Definition M (S A : Type) : Type := S -> Outcome S A.

Definition ret {S A} (a : A) : M S A := fun s => Done a s.

Definition bind {S A B} (m : M S A) (k : A -> M S B) : M S B :=
  fun s =>
    match m s with
    | Done a s' => k a s'
    | Thrown s' => Thrown s'
    | Aborted => Aborted
    | OutOfFuel => OutOfFuel
    end.

Definition throw {S A} : M S A := fun s => Thrown s.
Definition abort {S A} : M S A := fun _ => Aborted.
Definition diverge {S A} : M S A := fun _ => OutOfFuel.

(** [try { m } catch (ParseError) { h }] *)
Definition catch {S A} (m h : M S A) : M S A :=
  fun s => match m s with Thrown s' => h s' | o => o end.

Definition get {S} : M S S := fun s => Done s s.
Definition read {S A} (f : S -> A) : M S A := fun s => Done (f s) s.
Definition modify {S} (f : S -> S) : M S unit := fun s => Done tt (f s).

(** A value that must be there: [None] is the abnormal case. *)
Definition expect_some {S A} (o : option A) : M S A :=
  match o with Some a => ret a | None => abort end.

Notation "x <- m ;; k" := (bind m (fun x => k))
  (at level 100, m at next level, right associativity) : cero_scope.
Notation "m ;; k" := (bind m (fun _ => k))
  (at level 100, k at level 200, right associativity) : cero_scope.

(** ** Loops *)

(** One iteration of a loop either goes on with new values of the loop's local
    variables ([Continue]) or leaves the loop with a result ([Break]). *)
Inductive Loop (B A : Type) : Type :=
| Continue (b : B)
| Break (a : A).
Arguments Continue {B A} b.
Arguments Break {B A} a.

Fixpoint loop_fuel {S B A} (n : nat) (body : B -> M S (Loop B A)) (b : B) : M S A :=
  match n with
  | O => diverge
  | Datatypes.S n =>
      r <- body b ;;
      match r with
      | Continue b => loop_fuel n body b
      | Break a => ret a
      end
  end.

(** A loop with local variables [b] whose body makes [measure] smaller each time
    it goes on: the fuel is the measure at loop entry. *)
Definition loop {S B A} (measure : S -> nat) (body : B -> M S (Loop B A)) (b : B) : M S A :=
  fun s => loop_fuel (Datatypes.S (measure s)) body b s.

(** * Total-correctness specifications *)

(** [wp m Q E s]: started in [s], [m] neither aborts nor diverges; if it
    returns, [Q] holds of the result and the final state, and if it throws, [E]
    holds of the state at the throw. *)
Definition wp {S A} (m : M S A) (Q : A -> S -> Prop) (E : S -> Prop) (s : S) : Prop :=
  match m s with
  | Done a s' => Q a s'
  | Thrown s' => E s'
  | Aborted | OutOfFuel => False
  end.

#[global] Arguments wp {S A} m Q E s : simpl never.
#[global] Arguments loop {S B A} measure body b s : simpl never.

Definition no_throw {S : Type} : S -> Prop := fun _ => False.

Section wp.
Context {S : Type}.
Implicit Types (s : S).

Lemma wp_mono {A} (m : M S A) (Q Q' : A -> S -> Prop) (E E' : S -> Prop) s :
  wp m Q E s -> (forall a s', Q a s' -> Q' a s') -> (forall s', E s' -> E' s') -> wp m Q' E' s.
Proof. unfold wp. destruct (m s); auto. Qed.

Lemma wp_post {A} (m : M S A) (Q Q' : A -> S -> Prop) E s :
  wp m Q E s -> (forall a s', Q a s' -> Q' a s') -> wp m Q' E s.
Proof. intros; eapply wp_mono; eauto. Qed.

Lemma wp_return {A} (a : A) (Q : A -> S -> Prop) E s : Q a s -> wp (ret a) Q E s.
Proof. done. Qed.

Lemma wp_bind {A B} (m : M S A) (k : A -> M S B) Q E s :
  wp m (fun a s' => wp (k a) Q E s') E s -> wp (bind m k) Q E s.
Proof. unfold wp, bind. destruct (m s); auto. Qed.

Lemma wp_throw {A} (Q : A -> S -> Prop) (E : S -> Prop) s : E s -> wp throw Q E s.
Proof. done. Qed.

Lemma wp_catch {A} (m h : M S A) Q E s :
  wp m Q (fun s' => wp h Q E s') s -> wp (catch m h) Q E s.
Proof. unfold wp, catch. destruct (m s); auto. Qed.

Lemma wp_read {A} (f : S -> A) (Q : A -> S -> Prop) E s : Q (f s) s -> wp (read f) Q E s.
Proof. done. Qed.

Lemma wp_get (Q : S -> S -> Prop) E s : Q s s -> wp get Q E s.
Proof. done. Qed.

Lemma wp_modify (f : S -> S) (Q : unit -> S -> Prop) E s : Q tt (f s) -> wp (modify f) Q E s.
Proof. done. Qed.

Lemma wp_expect {A} (o : option A) (Q : A -> S -> Prop) E s :
  (exists a, o = Some a /\ Q a s) -> wp (expect_some o) Q E s.
Proof. intros (a & -> & ?). done. Qed.

(** The loop rule: an invariant on the local variables and the state that the
    body keeps while it lowers the measure. *)
Lemma wp_loop {B A} (measure : S -> nat) (body : B -> M S (Loop B A)) (I : B -> S -> Prop) Q E b s :
  I b s ->
  (forall b0 s0, I b0 s0 ->
    wp (body b0)
       (fun r s1 => match r with
                    | Continue b1 => I b1 s1 /\ (measure s1 < measure s0)%nat
                    | Break a => Q a s1
                    end) E s0) ->
  wp (loop measure body b) Q E s.
Proof.
  intros HI Hbody. unfold loop.
  cut (forall n b0 s0, I b0 s0 -> (measure s0 < n)%nat -> wp (loop_fuel n body b0) Q E s0).
  { intros H. apply (H (Datatypes.S (measure s)) b s); auto with lia. }
  induction n as [|n IH]; intros b0 s0 H0 Hn; [lia|].
  cbn [loop_fuel]. apply wp_bind. eapply wp_post; [by apply Hbody|].
  intros [b1|a] s1 H1; cbn in H1.
  - destruct H1. apply IH; auto with lia.
  - by apply wp_return.
Qed.

(** What a specification says of a run. *)
Lemma wp_elim {A} (m : M S A) (Q : A -> S -> Prop) s :
  wp m Q no_throw s -> exists a s', m s = Done a s' /\ Q a s'.
Proof. unfold wp. destruct (m s) as [a s'|?| |]; try contradiction. eauto. Qed.

Lemma wp_intro {A} (m : M S A) (Q : A -> S -> Prop) E a s s' :
  m s = Done a s' -> Q a s' -> wp m Q E s.
Proof. unfold wp. by intros ->. Qed.

End wp.

Create HintDb cero_wp.
#[export] Hint Resolve wp_return wp_bind wp_throw wp_catch wp_read wp_get wp_modify : cero_wp.

(** One symbolic-execution step on a [wp] goal. *)
Ltac wp_step :=
  lazymatch goal with
  | |- wp (bind _ _) _ _ _ => apply wp_bind
  | |- wp (ret _) _ _ _ => apply wp_return
  | |- wp throw _ _ _ => apply wp_throw
  | |- wp (catch _ _) _ _ _ => apply wp_catch
  | |- wp (read _) _ _ _ => apply wp_read
  | |- wp get _ _ _ => apply wp_get
  | |- wp (modify _) _ _ _ => apply wp_modify
  end; cbv beta.
Ltac wp_steps := repeat wp_step.

(** [lia] with division and modulus by constants. *)
Ltac zlia := Z.to_euclidean_division_equations; lia.

(** Equations between concatenations of the same pieces. *)
Ltac app_norm := cbn [app]; repeat (rewrite <-app_assoc; cbn [app]); rewrite ?app_nil_r.
Ltac app_eq := app_norm; reflexivity.

(** * Lemmas shared by the components *)

Lemma u32_small z : 0 <= z < 2 ^ 32 -> u32 z = z.
Proof. apply Z.mod_small. Qed.

Lemma u32_range z : 0 <= u32 z < 2 ^ 32.
Proof. by apply Z.mod_pos_bound. Qed.

Lemma byte_val_range c : 0 <= byte_val c < 256.
Proof. unfold byte_val. pose proof (N_ascii_bounded c). lia. Qed.

Lemma byte_val_inj c d : byte_val c = byte_val d -> c = d.
Proof.
  unfold byte_val. intros H%N2Z.inj.
  by rewrite <-(ascii_N_embedding c), <-(ascii_N_embedding d), H.
Qed.

Lemma substr_0_0 (s : text) : substr s 0 0 = Some [].
Proof. unfold substr. destruct s; reflexivity. Qed.

Lemma substr_app (a b c : text) n m :
  Z.of_nat (length a) = n -> Z.of_nat (length b) = m -> substr (a ++ b ++ c) n m = Some b.
Proof.
  intros <- <-. unfold substr. rewrite !length_app, !Nat2Z.inj_add.
  destruct (Z.ltb_spec (Z.of_nat (length a) + (Z.of_nat (length b) + Z.of_nat (length c)))
                       (Z.of_nat (length a))); [lia|].
  rewrite Z.min_l, !Nat2Z.id, drop_app_length, take_app_length by lia. done.
Qed.

(** Facts about all bytes by enumeration. *)
Lemma forall_byte (P : Z -> bool) :
  forallb P (seqZ 0 256) = true -> forall b, 0 <= b < 256 -> P b = true.
Proof.
  rewrite forallb_forall. intros H b Hb. apply H, list_elem_of_In, elem_of_seqZ. lia.
Qed.

Definition all_ascii : list ascii := map (fun n => ascii_of_N (N.of_nat n)) (seq 0 256).

Lemma elem_of_all_ascii c : In c all_ascii.
Proof.
  apply in_map_iff. exists (N.to_nat (N_of_ascii c)).
  rewrite N2Nat.id, ascii_N_embedding. split; [done|].
  pose proof (N_ascii_bounded c). apply in_seq. lia.
Qed.

Lemma forall_ascii (P : ascii -> bool) : forallb P all_ascii = true -> forall c, P c = true.
Proof. rewrite forallb_forall. intros H c. apply H, elem_of_all_ascii. Qed.

Lemma forall_ascii_impl (P Q : ascii -> bool) :
  forallb (fun c => implb (P c) (Q c)) all_ascii = true -> forall c, P c = true -> Q c = true.
Proof.
  intros H c HP. pose proof (forall_ascii _ H c) as Hc. cbv beta in Hc. by rewrite HP in Hc.
Qed.
