(* ===== verification/Report.v ===== *)
(** Diagnostics: code locations, messages and their format strings, message
    arguments and the reporter (src/cero/report/). The fmt library is a
    parameter ([Fmt]); what it is called with is modelled. *)

From Stdlib Require Import String Ascii.
From S2P Require Import Prelude.

(** * Code locations (code_location.hh) *)

Record CodeLocation := {
  path : text;
  line : Z;
  column : Z;
}.

Definition default_tab_size : Z := 4.

(** * The fmt library *)

(** An argument stored for formatting: an integer or a string. *)
Inductive FormatArg :=
| arg_int (n : Z)
| arg_string (s : text).

(** [fmt::vformat]: replaces the replacement fields of a format string. *)
Class Fmt := vformat : text -> list FormatArg -> text.

Definition CodeLocation_to_string `{Fmt} (l : CodeLocation) : text :=
  vformat (lit "{}:{}:{}") [arg_string (path l); arg_int (line l); arg_int (column l)].

Definition to_short_string `{Fmt} (l : CodeLocation) : text :=
  vformat (lit "[{}:{}]") [arg_int (line l); arg_int (column l)].

(** * Messages (message.hh, message.cc) *)

Inductive Message :=
| file_not_found
| could_not_open_file
| source_file_too_large
| invalid_character
| missing_closing_quote
| unterminated_block_comment
| expect_function_struct_or_enum
| expect_paren_after_function_name
| expect_parameter_type
| expect_parameter_name
| expect_paren_after_parameters
| expect_return_type
| expect_brace_before_function_body
| expect_expression
| expect_semicolon
| expect_closing_paren_in_call.

#[export] Instance Message_eq_dec : EqDecision Message.
Proof. solve_decision. Defined.

(** The double quote character. *)
Definition double_quote : ascii := "034"%char.

Definition get_message_format_string (message : Message) : text :=
  match message with
  | file_not_found => lit "file not found"
  | could_not_open_file =>
      lit "could not open file, system error: " ++ double_quote :: lit "{}" ++ [double_quote]
  | source_file_too_large => lit "source file is too large, maximum allowed is {} bytes"
  | invalid_character => lit "invalid character `0x{:x}`"
  | missing_closing_quote => lit "missing closing quote"
  | unterminated_block_comment => lit "block comment must be closed with `*/`"
  | expect_function_struct_or_enum => lit "expected function, struct or enum, but found {}"
  | expect_paren_after_function_name => lit "expected `(` after function name, but found {}"
  | expect_parameter_type => lit "expected type for parameter, but found {}"
  | expect_parameter_name => lit "expected name for parameter, but found {}"
  | expect_paren_after_parameters => lit "expected `)` after parameters, but found {}"
  | expect_return_type => lit "expected return type, but found {}"
  | expect_brace_before_function_body => lit "expected `{{` before function body, but found {}"
  | expect_expression => lit "expected expression, but found {}"
  | expect_semicolon => lit "expected a `;`, but found {}"
  | expect_closing_paren_in_call => lit "expected closing `)` in function call, but found {}"
  end.

Module MessageLevel.
Inductive t := error | warning | help | note.
End MessageLevel.

Definition get_message_level_string (message_level : MessageLevel.t) : text :=
  lit match message_level with
      | MessageLevel.error => "error"
      | MessageLevel.warning => "warning"
      | MessageLevel.help => "help"
      | MessageLevel.note => "note"
      end.

Definition get_default_message_level (message : Message) : MessageLevel.t :=
  match message with
  | unterminated_block_comment => MessageLevel.warning
  | _ => MessageLevel.error
  end.

(** * Message arguments (message_args.hh, message_args.cc) *)

Definition MessageArgs : Type := list FormatArg.

(** The scan of [valid_for_message], for any format string: [is_open] and
    [placeholder_count] are its local variables. *)
Fixpoint count_placeholders (is_open : bool) (placeholder_count : Z) (msg_format : text) : Z :=
  match msg_format with
  | [] => placeholder_count
  | c :: rest =>
      if Ascii.eqb c "{" then
        count_placeholders (xorb is_open true) placeholder_count rest
      else if Ascii.eqb c "}" && is_open then
        count_placeholders false (u64 (placeholder_count + 1)) rest
      else count_placeholders is_open placeholder_count rest
  end.

Definition valid_for_message (args : MessageArgs) (message : Message) : bool :=
  Z.of_nat (length args) =? count_placeholders false 0 (get_message_format_string message).

(** * The reporter (reporter.hh, reporter.cc) *)

(** One call of the virtual [Reporter::handle_report]. *)
Record Report := {
  location : CodeLocation;
  level : MessageLevel.t;
  message_text : text;
}.

(** [Reporter::report] up to its call of [handle_report]; [None] is its failed
    assertion. *)
Definition make_report `{Fmt} (loc : CodeLocation) (message : Message) (args : MessageArgs)
    : option Report :=
  if valid_for_message args message then
    let message_level := get_default_message_level message in
    let format := get_message_format_string message in
    Some {| location := loc; level := message_level; message_text := vformat format args |}
  else None.

(** The interface that reporters implement. The compiler's effect on a reporter
    is the sequence of its [handle_report] calls; [deliver] replays one. *)
Class ReportHandler (R : Type) := handle_report : Report -> R -> R.

Definition deliver `{ReportHandler R} (reports : list Report) (reporter : R) : R :=
  fold_left (fun r report => handle_report report r) reports reporter.

(** * Format strings *)

(** A format string as fmt reads it: literal text without braces, the escapes
    [{{] and [}}], and replacement fields. *)
Inductive FormatSegment :=
| seg_text (s : text)
| seg_open_brace
| seg_close_brace
| seg_field (spec : text).

Definition no_brace (c : ascii) : Prop := c <> "{"%char /\ c <> "}"%char.

Definition segment_wf (seg : FormatSegment) : Prop :=
  match seg with
  | seg_text s | seg_field s => Forall no_brace s
  | _ => True
  end.

Definition segment_source (seg : FormatSegment) : text :=
  match seg with
  | seg_text s => s
  | seg_open_brace => lit "{{"
  | seg_close_brace => lit "}}"
  | seg_field spec => "{"%char :: spec ++ ["}"%char]
  end.

Definition format_source (segs : list FormatSegment) : text := mjoin (segment_source <$> segs).

Fixpoint field_count (segs : list FormatSegment) : Z :=
  match segs with
  | [] => 0
  | seg_field _ :: rest => 1 + field_count rest
  | _ :: rest => field_count rest
  end.

(** * Lemmas *)

Lemma count_placeholders_no_brace s is_open n rest :
  Forall no_brace s -> count_placeholders is_open n (s ++ rest) = count_placeholders is_open n rest.
Proof.
  induction 1 as [|c s [H1 H2] _ IH]; [done|]. cbn.
  apply Ascii.eqb_neq in H1, H2. by rewrite H1, H2.
Qed.

Lemma field_count_nonneg segs : 0 <= field_count segs.
Proof. induction segs as [|[] ? ?]; cbn; lia. Qed.

Lemma field_count_le_length segs : field_count segs <= Z.of_nat (length segs).
Proof. induction segs as [|[] ? ?]; cbn [field_count length]; lia. Qed.

Lemma count_placeholders_segments segs n :
  Forall segment_wf segs -> 0 <= n -> n + field_count segs < 2 ^ 64 ->
  count_placeholders false n (format_source segs) = n + field_count segs.
Proof.
  unfold format_source. intros Hwf. revert n.
  induction Hwf as [|seg segs Hseg _ IH]; intros n Hn Hb; [cbn; lia|].
  pose proof (field_count_nonneg segs).
  destruct seg as [s| | |s]; cbn in *.
  - rewrite count_placeholders_no_brace by done. by apply IH.
  - by apply IH.
  - by apply IH.
  - rewrite <-app_assoc, count_placeholders_no_brace by done. cbn.
    unfold u64. rewrite Z.mod_small by lia. rewrite IH by lia. lia.
Qed.

(** Reports that [make_report] accepts. *)
Lemma make_report_valid `{Fmt} loc message args :
  valid_for_message args message = true -> is_Some (make_report loc message args).
Proof. unfold make_report. intros ->. eauto. Qed.

Lemma deliver_app `{ReportHandler R} (l1 l2 : list Report) (r : R) :
  deliver (l1 ++ l2) r = deliver l2 (deliver l1 r).
Proof. apply fold_left_app. Qed.

(** [valid_for_message] decides what it is for: whatever sequence of text,
    escaped braces and replacement fields a message's format string consists of,
    the arguments are valid for the message exactly when there is one for each
    field. *)
Theorem valid_for_message_counts_fields : forall args message segs,
  Forall segment_wf segs -> get_message_format_string message = format_source segs ->
  Z.of_nat (length segs) < 2 ^ 64 ->
  valid_for_message args message = true <-> Z.of_nat (length args) = field_count segs.
Proof.
  intros args message segs Hwf Heq Hlen. unfold valid_for_message. rewrite Heq.
  pose proof (field_count_le_length segs).
  rewrite count_placeholders_segments by (done || lia). by rewrite Z.add_0_l, Z.eqb_eq.
Qed.

Lemma valid_for_message_counts_fields_witness :
  let segs := [seg_text (lit "expected `"); seg_open_brace;
               seg_text (lit "` before function body, but found "); seg_field []] in
  valid_for_message [arg_int 7] expect_brace_before_function_body = true <->
  Z.of_nat (length [arg_int 7]) = field_count segs.
Proof.
  apply (valid_for_message_counts_fields [arg_int 7] expect_brace_before_function_body
    [seg_text (lit "expected `"); seg_open_brace;
     seg_text (lit "` before function body, but found "); seg_field []]);
    [|reflexivity|reflexivity].
  repeat constructor; discriminate.
Defined.
