(* ===== verification/Platform.v ===== *)
(** The operating system as the code sees it. CMake compiles either the
    [*.posix.cc] or the [*.win.cc] files and defines CERO_SYSTEM_WINDOWS or not;
    [Platform] is that choice, with the system calls that the files make as the
    interfaces [Posix] and [Windows]. Also src/cero/util/system_error.cc. *)

From Stdlib Require Import String.
From stdpp Require Import gmap.
From S2P Require Import Prelude Report.

(** * System calls *)

(** A readable mapped region: its address and the bytes it shows. *)
Record Region := {
  base : Z;
  bytes : text;
}.

(** A [std::wstring]: 16-bit code units. *)
Definition wide_text : Type := list Z.

(** The POSIX calls, on a system state [W]. Failure is the return value -1 ([None]
    is [MAP_FAILED]); [sys_errno] reads [errno]. The flags of [open] and [mmap] are
    the same in every call. *)
Class Posix (W : Type) := {
  sys_open : text -> W -> Z * W;
  sys_fstat : Z -> W -> Z * Z * W;
  sys_mmap : Z -> Z -> W -> option Region * W;
  sys_munmap : Region -> Z -> W -> Z * W;
  sys_close : Z -> W -> Z * W;
  sys_errno : W -> Z;
}.

(** [MultiByteToWideChar] and [WideCharToMultiByte] with [CP_UTF8]: an input with its
    length and the capacity of an output buffer; the units written to the front
    of the buffer and the returned number of units, 0 on failure. *)
Class CodePages := {
  MultiByteToWideChar : text -> Z -> Z -> wide_text * Z;
  WideCharToMultiByte : wide_text -> Z -> Z -> text * Z;
}.

(** The calls of the Windows API. A handle is its value; [CreateFileW] fails with
    [INVALID_HANDLE_VALUE], [CreateFileMappingW] with null, [MapViewOfFile] with
    [None], the others return [FALSE]. [default_error_condition] is what the
    standard library's system category makes of a Windows error code. *)
Class Windows (W : Type) := {
  win_code_pages :: CodePages;
  CreateFileW : wide_text -> W -> Z * W;
  GetFileSizeEx : Z -> W -> bool * Z * W;
  CreateFileMappingW : Z -> W -> Z * W;
  MapViewOfFile : Z -> W -> option Region * W;
  UnmapViewOfFile : Region -> W -> bool * W;
  CloseHandle : Z -> W -> bool * W;
  GetLastError : W -> Z;
  default_error_condition : Z -> Z;
  SetConsoleCP : Z -> W -> bool * W;
  GetStdHandle : Z -> W -> Z * W;
  GetConsoleMode : Z -> W -> bool * Z * W;
  SetConsoleMode : Z -> Z -> W -> bool * W;
}.

Definition INVALID_HANDLE_VALUE : Z := -1.
Definition null_handle : Z := 0.

(** The system that the compiler is built for. *)
Inductive Platform (W : Type) : Type :=
| CERO_SYSTEM_POSIX (calls : Posix W)
| CERO_SYSTEM_WINDOWS (calls : Windows W).
Arguments CERO_SYSTEM_POSIX {W} calls.
Arguments CERO_SYSTEM_WINDOWS {W} calls.
Existing Class Platform.

Definition call {W A} (f : W -> A * W) : M W A := fun w => let (a, w') := f w in Done a w'.

(** [cero_assert] *)
Definition cero_assert {S} (condition : bool) : M S unit :=
  if condition then ret tt else abort.

(** The characters of a C string: up to the terminating null. *)
Fixpoint c_string (s : text) : text :=
  match s with
  | [] => []
  | c :: rest => if Ascii.eqb c Ascii.zero then [] else c :: c_string rest
  end.

(** * System errors (system_error.cc) *)

(** [std::error_condition]: an error number of the generic category. *)
Definition error_condition : Type := Z.

(** [std::error_condition::message], the text the system has for an error. *)
Class SystemMessages := error_message : error_condition -> text.

Definition get_system_error {W} `{P : Platform W} : M W error_condition :=
  match P with
  | CERO_SYSTEM_POSIX _ => read sys_errno
  | CERO_SYSTEM_WINDOWS _ => read (fun w => default_error_condition (GetLastError w))
  end.

Definition get_system_error_msg {W} `{P : Platform W} `{Fmt} `{SystemMessages} : M W text :=
  error <- get_system_error ;;
  ret (vformat (lit "system error 0x{:x} (" ++ double_quote :: lit "{}" ++ double_quote :: lit ")")
         [arg_int error; arg_string (error_message error)]).

(** * Resources *)

(** What a process holds: its open descriptors or handles, and the addresses and
    lengths of its mapped regions. *)
Class Resources (W : Type) := {
  open_handles : W -> gset Z;
  mapped_at : W -> gset (Z * Z);
}.

(** The documented behaviour of the POSIX calls on the resources. [mmap] refuses the
    length 0; [munmap] of a mapping with its length succeeds, and nothing is said
    of other lengths; [close] of an open descriptor may fail, which leaves the
    descriptor in an unspecified state. *)
Class PosixLaws (W : Type) `{Posix W, Resources W} : Prop := {
  sys_open_spec path w fd w' :
    sys_open path w = (fd, w') ->
    mapped_at w' = mapped_at w /\
    (fd = -1 /\ open_handles w' = open_handles w \/
     fd <> -1 /\ (fd ∉ open_handles w) /\ open_handles w' = {[fd]} ∪ open_handles w);
  sys_fstat_spec fd w result st_size w' :
    sys_fstat fd w = (result, st_size, w') ->
    open_handles w' = open_handles w /\ mapped_at w' = mapped_at w;
  sys_mmap_spec size fd w mapped w' :
    sys_mmap size fd w = (mapped, w') ->
    open_handles w' = open_handles w /\
    match mapped with
    | None => mapped_at w' = mapped_at w
    | Some region =>
        0 < size /\ ((base region, size) ∉ mapped_at w) /\
        mapped_at w' = {[(base region, size)]} ∪ mapped_at w
    end;
  sys_munmap_spec region size w result w' :
    sys_munmap region size w = (result, w') -> 0 < size -> (base region, size) ∈ mapped_at w ->
    result <> -1 /\ open_handles w' = open_handles w /\
    mapped_at w' = mapped_at w ∖ {[(base region, size)]};
  sys_close_spec fd w result w' :
    sys_close fd w = (result, w') -> fd ∈ open_handles w ->
    mapped_at w' = mapped_at w /\ (result = -1 \/ open_handles w' = open_handles w ∖ {[fd]});
}.

(** The address and length of a region that shows all its bytes. *)
Definition region_extent (region : Region) : Z * Z := (base region, Z.of_nat (length (bytes region))).

(** The documented behaviour of the Windows calls on the resources. A view shows the
    mapping to its end. [UnmapViewOfFile] and [CloseHandle] may fail. *)
Class WindowsLaws (W : Type) `{Windows W, Resources W} : Prop := {
  CreateFileW_spec path w file w' :
    CreateFileW path w = (file, w') ->
    mapped_at w' = mapped_at w /\
    (file = INVALID_HANDLE_VALUE /\ open_handles w' = open_handles w \/
     file <> INVALID_HANDLE_VALUE /\ (file ∉ open_handles w) /\
     open_handles w' = {[file]} ∪ open_handles w);
  GetFileSizeEx_spec file w success size w' :
    GetFileSizeEx file w = (success, size, w') ->
    open_handles w' = open_handles w /\ mapped_at w' = mapped_at w;
  CreateFileMappingW_spec file w mapping w' :
    CreateFileMappingW file w = (mapping, w') ->
    mapped_at w' = mapped_at w /\
    (mapping = null_handle /\ open_handles w' = open_handles w \/
     mapping <> null_handle /\ (mapping ∉ open_handles w) /\
     open_handles w' = {[mapping]} ∪ open_handles w);
  MapViewOfFile_spec mapping w view w' :
    MapViewOfFile mapping w = (view, w') ->
    open_handles w' = open_handles w /\
    match view with
    | None => mapped_at w' = mapped_at w
    | Some region =>
        (region_extent region ∉ mapped_at w) /\ mapped_at w' = {[region_extent region]} ∪ mapped_at w
    end;
  UnmapViewOfFile_spec region w success w' :
    UnmapViewOfFile region w = (success, w') -> region_extent region ∈ mapped_at w ->
    success = false \/
    open_handles w' = open_handles w /\ mapped_at w' = mapped_at w ∖ {[region_extent region]};
  CloseHandle_spec handle w success w' :
    CloseHandle handle w = (success, w') -> handle ∈ open_handles w ->
    mapped_at w' = mapped_at w /\ (success = false \/ open_handles w' = open_handles w ∖ {[handle]});
}.

Class PlatformLaws (W : Type) `{P : Platform W, Resources W} : Prop := platform_laws :
  match P with
  | CERO_SYSTEM_POSIX calls => @PosixLaws W calls _
  | CERO_SYSTEM_WINDOWS calls => @WindowsLaws W calls _
  end.

(** The system fails to take back something that is open and that is not among the
    given handles and regions. *)
Definition release_failed {W} `{P : Platform W, Resources W} (handles : gset Z) (maps : gset (Z * Z)) : Prop :=
  match P with
  | CERO_SYSTEM_POSIX _ =>
      exists fd w w', (fd ∉ handles) /\ fd ∈ open_handles w /\ sys_close fd w = (-1, w')
  | CERO_SYSTEM_WINDOWS _ =>
      (exists handle w w', (handle ∉ handles) /\ handle ∈ open_handles w /\ CloseHandle handle w = (false, w')) \/
      (exists region w w', (region_extent region ∉ maps) /\ region_extent region ∈ mapped_at w /\
         UnmapViewOfFile region w = (false, w'))
  end.

(** * Specifications *)

(** [releases handles maps m Q w]: started in [w], [m] returns and [Q] holds of the
    result and the system, or ends in a failed assertion because the system fails to
    take back something other than [handles] and [maps]. *)
Definition releases {W A : Type} `{P : Platform W, Resources W} (handles : gset Z) (maps : gset (Z * Z))
    (m : M W A) (Q : A -> W -> Prop) (w : W) : Prop :=
  match m w with
  | Done a w' => Q a w'
  | Aborted => release_failed handles maps
  | Thrown _ | OutOfFuel => False
  end.

Section Releases.
Context {W : Type} `{P : Platform W, R : Resources W} (handles : gset Z) (maps : gset (Z * Z)).
#[local] Abbreviation rel := (releases handles maps).

Lemma releases_ret {A} (a : A) (Q : A -> W -> Prop) w : Q a w -> rel (ret a) Q w.
Proof. done. Qed.

Lemma releases_bind {A B} (m : M W A) (k : A -> M W B) Q w :
  rel m (fun a w' => rel (k a) Q w') w -> rel (bind m k) Q w.
Proof. unfold releases, bind. destruct (m w); auto. Qed.

Lemma releases_post {A} (m : M W A) (Q Q' : A -> W -> Prop) w :
  rel m Q w -> (forall a w', Q a w' -> Q' a w') -> rel m Q' w.
Proof. unfold releases. destruct (m w); auto. Qed.

Lemma releases_call {A} (f : W -> A * W) (Q : A -> W -> Prop) w :
  (forall a w', f w = (a, w') -> Q a w') -> rel (call f) Q w.
Proof. intros HQ. unfold releases, call. destruct (f w) as [a w'] eqn:Hf. by apply HQ. Qed.

Lemma releases_assert (b : bool) (Q : unit -> W -> Prop) w :
  (b = true -> Q tt w) -> (b = false -> release_failed handles maps) -> rel (cero_assert b) Q w.
Proof. destruct b; intros Ht Hf; [by apply Ht|by apply Hf]. Qed.

(** Reading the last error changes nothing. *)
Lemma releases_get_system_error (Q : error_condition -> W -> Prop) w :
  (forall e, Q e w) -> rel get_system_error Q w.
Proof. intros HQ. unfold get_system_error. destruct P; apply HQ. Qed.

End Releases.

(** Fewer resources to spare: more that may fail to be taken back. *)
Lemma release_failed_mono {W} `{P : Platform W, R : Resources W} (handles handles' : gset Z) (maps maps' : gset (Z * Z)) :
  handles' ⊆ handles -> maps' ⊆ maps -> release_failed handles maps -> release_failed handles' maps'.
Proof.
  intros Hh Hm. unfold release_failed. destruct P.
  - intros (fd & w & w' & ? & ? & ?). exists fd, w, w'. set_solver.
  - intros [(handle & w & w' & ? & ? & ?)|(region & w & w' & ? & ? & ?)];
      [left; exists handle, w, w'|right; exists region, w, w']; set_solver.
Qed.

Lemma releases_mono {W A : Type} `{P : Platform W, R : Resources W} (handles handles' : gset Z) (maps maps' : gset (Z * Z))
    (m : M W A) Q w :
  handles' ⊆ handles -> maps' ⊆ maps -> releases handles maps m Q w -> releases handles' maps' m Q w.
Proof. unfold releases. destruct (m w); eauto using release_failed_mono. Qed.

(** Closing a descriptor or handle in an assertion. *)
Lemma posix_close_releases {W} `{HL : PosixLaws W} fd handles maps w :
  fd ∉ handles -> open_handles w = {[fd]} ∪ handles ->
  releases (P := CERO_SYSTEM_POSIX _) handles maps
    (result <- call (sys_close fd) ;; cero_assert (negb (result =? -1)))
    (fun _ w' => open_handles w' = handles /\ mapped_at w' = mapped_at w) w.
Proof.
  intros Hd Ho. apply releases_bind, releases_call. cbv beta. intros result w1 Hc.
  pose proof Hc as [Hm [->|Ho1]]%sys_close_spec; [..|set_solver].
  - apply releases_assert; [done|]. intros _. exists fd, w, w1. set_solver.
  - apply releases_assert.
    + intros _. split; [|done]. rewrite Ho1, Ho. set_solver.
    + intros ->%negb_false_iff%Z.eqb_eq. exists fd, w, w1. set_solver.
Qed.

Lemma windows_close_releases {W} `{HL : WindowsLaws W} handle handles maps w :
  handle ∉ handles -> open_handles w = {[handle]} ∪ handles ->
  releases (P := CERO_SYSTEM_WINDOWS _) handles maps
    (success <- call (CloseHandle handle) ;; cero_assert success)
    (fun _ w' => open_handles w' = handles /\ mapped_at w' = mapped_at w) w.
Proof.
  intros Hd Ho. apply releases_bind, releases_call. cbv beta. intros success w1 Hc.
  pose proof Hc as [Hm Hs]%CloseHandle_spec; [|set_solver]. apply releases_assert.
  - intros ->. destruct Hs as [?|Ho1]; [done|]. split; [|done]. rewrite Ho1, Ho. set_solver.
  - intros ->. left. exists handle, w, w1. set_solver.
Qed.
