(* ===== verification/Assert.v ===== *)
(** Failed assertions (src/cero/util/assert.hh, assert.cc): what the process prints
    before it ends. The other files have the outcome [Aborted] for it. *)

From Stdlib Require Import Ascii String.
From S2P Require Import Prelude Report Platform.

(** A process that runs to the end of a call, with its result, or is ended by
    [std::abort], having printed lines. *)
Definition Process (A : Type) : Type := list text -> list text * option A.

Definition process_ret {A} (a : A) : Process A := fun out => (out, Some a).
Definition process_bind {A B} (m : Process A) (k : A -> Process B) : Process B := fun out =>
  match m out with (out, Some a) => k a out | (out, None) => (out, None) end.

(** [std::source_location] *)
Record source_location := {
  file_name : text;
  function_name : text;
}.

Section Assert.
Context `{Fmt}.

(** [fmt::println] *)
Definition print_line (format : text) (args : list FormatArg) : Process unit :=
  fun out => (out ++ [vformat format args], Some tt).

Definition std_abort : Process unit := fun out => (out, None).

Definition tab_text (s : string) : text := "009"%char :: lit s.

Definition fail (location : source_location) : Process unit :=
  process_bind (print_line (tab_text "File:     {}") [arg_string (file_name location)]) (fun _ =>
  process_bind (print_line (tab_text "Function: {}") [arg_string (function_name location)]) (fun _ =>
  std_abort)).

Definition assert_fail (msg : text) (location : source_location) : Process unit :=
  process_bind (print_line (lit "assertion failed: {}") [arg_string msg]) (fun _ => fail location).

(** [cero_debug_break] raises a signal that a debugger may resume from: here it does. *)
Definition cero_debug_break : Process unit := process_ret tt.

Definition assert_unreachable (location : source_location) : Process unit :=
  process_bind cero_debug_break (fun _ =>
  process_bind (print_line (lit "reached code that should be unreachable") []) (fun _ =>
  fail location)).

(** The macro [cero_assert] with a message that formatting gives. *)
Definition checked_assert (condition : bool) (msg : text) (location : source_location) : Process unit :=
  if negb condition then process_bind cero_debug_break (fun _ => assert_fail msg location)
  else process_ret tt.

(** The macro returns exactly when the model's [cero_assert] does, and otherwise
    ends the process after three lines. *)
Lemma checked_assert_spec condition msg location out :
  match cero_assert condition tt with
  | Done _ _ => checked_assert condition msg location out = (out, Some tt)
  | _ => exists lines, checked_assert condition msg location out = (out ++ lines, None) /\
      length lines = 3%nat
  end.
Proof.
  destruct condition; cbn; [done|]. unfold process_bind. cbn. rewrite <-!app_assoc. by eexists.
Qed.

End Assert.
