(* ===== verification/ImplStorage.v ===== *)
(** Storage for a hidden implementation class (src/cero/util/impl_storage.hh): a
    buffer of a given size and alignment in which the one object of the class
    lives, with the size check that the compiler makes. *)

From S2P Require Import Prelude.

(** * The layout of a class (Itanium and Microsoft ABI) *)

(** A data member: its size and alignment. *)
Record Member := {
  member_size : Z;
  member_align : Z;
}.

Definition round_up (n align : Z) : Z := (n + align - 1) / align * align.

(** The end of the last member, each at the next multiple of its alignment. *)
Definition end_of_members (members : list Member) : Z :=
  fold_left (fun off mem => round_up off (member_align mem) + member_size mem) members 0.

Definition class_align (members : list Member) : Z :=
  fold_left (fun al mem => Z.max al (member_align mem)) members 1.

Definition class_size (members : list Member) : Z :=
  round_up (end_of_members members) (class_align members).

(** Members on the 64-bit platforms. *)
Definition int_member : Member := {| member_size := 4; member_align := 4 |}.
Definition size_t_member : Member := {| member_size := 8; member_align := 8 |}.
Definition pointer_member : Member := {| member_size := 8; member_align := 8 |}.

(** * ImplStorage *)

(** What the storage uses of the class [T]: its members, the object that [T()]
    makes, and move construction and move assignment, which give the object in
    the target and what is left in the source. *)
Class Hidden (T : Type) := {
  hidden_members : list Member;
  hidden_default : T;
  hidden_move : T -> T * T;
  hidden_assign : T -> T -> T * T;
}.

(** A class without user-declared moves and with members of built-in types is
    copied. *)
Definition trivially_movable {T} `{Hidden T} : Prop :=
  (forall other, hidden_move other = (other, other)) /\
  (forall this other, hidden_assign this other = (other, other)).

Module ImplStorage.

(** The object in [storage_]. Access to it, [operator*] and [operator->], is the
    identity. *)
Definition t (T : Type) : Type := T.

Section ImplStorage.
Context {T : Type} `{Hidden T}.

(** Whether the [static_assert] holds. *)
Definition static_assert_size_align (size align : Z) : bool :=
  (class_size hidden_members <=? size) && (class_align hidden_members <=? align).

Definition construct : t T := hidden_default.
Definition construct_from (value : T) : t T * T := hidden_move value.
Definition move_construct (other : t T) : t T * t T := hidden_move other.
Definition move_assign (this other : t T) : t T * t T := hidden_assign this other.

(** [std::exchange(object, {})]: the old object, and [object] afterwards. *)
Definition exchange_default (object : t T) : t T * t T :=
  let (old_value, object) := move_construct object in
  let (object, _) := move_assign object construct in
  (old_value, object).

End ImplStorage.
End ImplStorage.

(** A trivially movable object is handed over and a default one left. *)
Lemma exchange_default_trivial {T} `{Hidden T} (object : ImplStorage.t T) :
  trivially_movable -> ImplStorage.exchange_default object = (object, hidden_default).
Proof.
  intros [Hm Ha]. unfold ImplStorage.exchange_default, ImplStorage.move_construct, ImplStorage.move_assign.
  by rewrite Hm, Ha.
Qed.
