(* ===== verification/FileViewBase.v ===== *)
(** What the two implementations of [util::FileView] (file_view.posix.cc and
    file_view.win.cc) have in common: the functions that read the same in both
    files, over an interface to the hidden class [FileView::Impl], and the contract
    of that class: what a view owns, and that destroying it gives that back. *)

From stdpp Require Import gmap.
From S2P Require Import Prelude Platform ImplStorage.

(** * The interface of FileView::Impl *)

Class FileViewImpl (W Impl : Type) := {
  impl_hidden :: Hidden Impl;
  impl_destroy : Impl -> M W unit;
}.

Section FileViewBase.
Context {W Impl : Type} `{P : Platform W} `{F : !FileViewImpl W Impl}.

(** [FileView(FileView&&)]: the new view and what is left in [other]. *)
Definition move_construct (other : Impl) : Impl * Impl := ImplStorage.exchange_default other.

(** [operator=(FileView&&)] on two distinct objects: the assigned view and what
    is left in [other]. *)
Definition move_assign (this other : Impl) : M W (Impl * Impl) :=
  impl_destroy this ;;
  let (old_value, other) := ImplStorage.exchange_default other in
  let (this, _) := ImplStorage.move_assign this old_value in
  ret (this, other).

(** Returning an error evaluates it first and then destroys the local view [f];
    returning [f] moves it into the result and destroys what is left. *)
Definition return_error (f : Impl) : M W (Impl + error_condition) :=
  error <- get_system_error ;;
  impl_destroy f ;;
  ret (inr error).

Definition return_view (f : Impl) : M W (Impl + error_condition) :=
  let (view, f') := move_construct f in
  impl_destroy f' ;;
  ret (inl view).

End FileViewBase.

(** * The contract *)

(** The handles and regions that a well-formed [Impl] holds. *)
Class FileViewResources (Impl : Type) := {
  impl_handles : Impl -> gset Z;
  impl_maps : Impl -> gset (Z * Z);
  impl_wf : Impl -> Prop;
}.

(** [impl] holds exactly what separates [w] from the resources [handles], [maps]. *)
Definition owns {W Impl} `{Resources W, FileViewResources Impl}
    (impl : Impl) (handles : gset Z) (maps : gset (Z * Z)) (w : W) : Prop :=
  impl_wf impl /\ impl_handles impl ## handles /\ open_handles w = impl_handles impl ∪ handles /\
  impl_maps impl ## maps /\ mapped_at w = impl_maps impl ∪ maps.

(** A default [Impl] holds nothing, and [destroy] closes and unmaps what is held. *)
Class FileViewContract (W Impl : Type) `{Platform W, Resources W, FileViewImpl W Impl, FileViewResources Impl} : Prop := {
  impl_movable : trivially_movable (T := Impl);
  impl_default_wf : impl_wf hidden_default;
  impl_default_handles : impl_handles hidden_default = ∅;
  impl_default_maps : impl_maps hidden_default = ∅;
  destroy_releases impl handles maps w :
    owns impl handles maps w ->
    releases handles maps (impl_destroy impl) (fun _ w' => open_handles w' = handles /\ mapped_at w' = maps) w;
}.

Section Contract.
Context {W Impl : Type} `{C : FileViewContract W Impl}.

(** The outcome of opening a file in the system [w]: a view that owns what was
    added, or an error and the resources of before. *)
Definition opened (w : W) (r : Impl + error_condition) (w' : W) : Prop :=
  match r with
  | inl view => owns view (open_handles w) (mapped_at w) w'
  | inr _ => open_handles w' = open_handles w /\ mapped_at w' = mapped_at w
  end.

Lemma owns_default w : owns hidden_default (open_handles w) (mapped_at w) w.
Proof. unfold owns. rewrite impl_default_handles, impl_default_maps. split_and!; [apply impl_default_wf|set_solver..]. Qed.

Lemma owns_transfer impl handles maps w w' :
  owns impl handles maps w -> open_handles w' = open_handles w -> mapped_at w' = mapped_at w ->
  owns impl handles maps w'.
Proof. unfold owns. by intros (? & ? & ? & ? & ?) -> ->. Qed.

Lemma return_error_opened impl w w1 :
  owns impl (open_handles w) (mapped_at w) w1 ->
  releases (open_handles w) (mapped_at w) (return_error impl)
    (fun r w' => (exists e, r = inr e) /\ opened w r w') w1.
Proof.
  intros Ho. unfold return_error. apply releases_bind, releases_get_system_error. intros e. apply releases_bind.
  eapply releases_post; [by apply destroy_releases|]. cbv beta. intros _ w' [??]. apply releases_ret. by split; [exists e|].
Qed.

Lemma return_view_keeps impl handles maps w :
  owns impl handles maps w ->
  releases handles maps (return_view impl) (fun r w' => r = inl impl /\ owns impl handles maps w') w.
Proof.
  intros Ho. unfold return_view, move_construct.
  rewrite exchange_default_trivial by apply impl_movable. apply releases_bind.
  pose proof Ho as (_ & _ & Hh & _ & Hm).
  apply (releases_mono (open_handles w) handles (mapped_at w) maps); [set_solver..|].
  eapply releases_post; [apply destroy_releases, owns_default|]. cbv beta.
  intros _ w' [Hf' Hm']. apply releases_ret. split; [done|]. by eapply owns_transfer.
Qed.

(** Assigning to a view gives back what it owned. *)
Lemma move_assign_spec this other handles maps w :
  owns this handles maps w ->
  releases handles maps (move_assign this other)
    (fun r w' => r = (other, hidden_default) /\ open_handles w' = handles /\ mapped_at w' = maps) w.
Proof.
  intros Ho. unfold move_assign. apply releases_bind. eapply releases_post; [by apply destroy_releases|].
  cbv beta. intros _ w' [??]. destruct (impl_movable (Impl := Impl)) as [Hm Ha].
  rewrite exchange_default_trivial by done. unfold ImplStorage.move_assign. rewrite Ha. by apply releases_ret.
Qed.

End Contract.
