(* ===== verification/FileViewPosix.v ===== *)
(** Read-only memory-mapped files on POSIX systems
    (src/cero/util/file_view.posix.cc), and that they keep the contract of
    [FileView::Impl]. *)

From stdpp Require Import gmap.
From S2P Require Import Prelude Platform ImplStorage FileViewBase.

Module PosixFileView.

(** [FileView::Impl]; the default member initialisers are [Impl_default]. *)
Record Impl := {
  fd : Z;
  size : Z;
  addr : option Region;
}.

Definition Impl_default : Impl := {| fd := -1; size := 0; addr := None |}.

#[global] Instance Impl_hidden : Hidden Impl := {|
  hidden_members := [int_member; size_t_member; pointer_member];
  hidden_default := Impl_default;
  hidden_move := fun other => (other, other);
  hidden_assign := fun this other => (other, other);
|}.

Section FileView.
Context {W : Type} `{Posix W}.

(** The two halves of [Impl::destroy]. *)
Definition destroy_map (impl : Impl) : M W unit :=
  match addr impl with
  | Some region =>
      result <- call (sys_munmap region (size impl)) ;;
      cero_assert (negb (result =? -1))
  | None => ret tt
  end.

Definition destroy_fd (impl : Impl) : M W unit :=
  if negb (fd impl =? -1) then
    result <- call (sys_close (fd impl)) ;;
    cero_assert (negb (result =? -1))
  else ret tt.

Definition destroy (impl : Impl) : M W unit := destroy_map impl ;; destroy_fd impl.

#[global] Instance posix_impl : FileViewImpl W Impl := {| impl_destroy := destroy |}.

#[local] Instance platform : Platform W := CERO_SYSTEM_POSIX _.

Definition from (path : text) : M W (Impl + error_condition) :=
  let path_nt := path in
  let f := Impl_default in
  fd' <- call (sys_open (c_string path_nt)) ;;
  let f := {| fd := fd'; size := size f; addr := addr f |} in
  if fd f =? -1 then return_error f
  else
    stat <- call (sys_fstat (fd f)) ;;
    let (result, st_size) := stat : Z * Z in
    if result =? -1 then return_error f
    else
      let f := {| fd := fd f; size := u64 st_size; addr := addr f |} in
      if 0 <? size f then
        mapped <- call (sys_mmap (size f) (fd f)) ;;
        let f := {| fd := fd f; size := size f; addr := mapped |} in
        match addr f with
        | None => return_error f
        | Some _ => return_view f
        end
      else return_view f.

Definition get_text (impl : Impl) : text :=
  if size impl =? 0 then []
  else match addr impl with
       | Some region => take (Z.to_nat (size impl)) (bytes region)
       | None => []
       end.

End FileView.

(** The resources a view holds; a mapping is not empty. *)
Definition view_handles (impl : Impl) : gset Z := if fd impl =? -1 then ∅ else {[fd impl]}.
Definition view_maps (impl : Impl) : gset (Z * Z) :=
  match addr impl with Some region => {[(base region, size impl)]} | None => ∅ end.

#[global] Instance posix_resources : FileViewResources Impl := {|
  impl_handles := view_handles;
  impl_maps := view_maps;
  impl_wf := fun impl => addr impl <> None -> 0 < size impl;
|}.

End PosixFileView.

(** * The contract *)

Section PosixFacts.
Import PosixFileView.
Context {W : Type} `{HL : PosixLaws W}.
#[local] Existing Instance platform.

Lemma posix_destroy_map_spec impl handles maps w :
  impl_wf impl -> view_maps impl ## maps -> mapped_at w = view_maps impl ∪ maps ->
  releases handles maps (destroy_map impl)
    (fun _ w' => open_handles w' = open_handles w /\ mapped_at w' = maps) w.
Proof.
  cbn. unfold destroy_map, view_maps. intros Hwf Hd Hm. destruct (addr impl) as [region|].
  - apply releases_bind, releases_call. cbv beta. intros result w1 Hc.
    apply sys_munmap_spec in Hc as (Hr & Ho & Hm1); [|by apply Hwf|set_solver].
    apply releases_assert; [|intros Hf%negb_false_iff%Z.eqb_eq; done].
    intros _. split; [done|]. rewrite Hm1, Hm. set_solver.
  - apply releases_ret. split; [done|]. rewrite Hm. apply left_id_L, _.
Qed.

Lemma posix_destroy_fd_spec impl fds maps w :
  view_handles impl ## fds -> open_handles w = view_handles impl ∪ fds ->
  releases fds maps (destroy_fd impl)
    (fun _ w' => open_handles w' = fds /\ mapped_at w' = mapped_at w) w.
Proof.
  unfold destroy_fd, view_handles. intros Hd Ho. destruct (fd impl =? -1) eqn:Hfd; cbn [negb].
  - apply releases_ret. split; [|done]. rewrite Ho. apply left_id_L, _.
  - apply posix_close_releases; [set_solver|done].
Qed.

#[export] Program Instance posix_contract : FileViewContract W Impl.
Next Obligation. by split. Qed.
Next Obligation. by intros []. Qed.
Next Obligation. done. Qed.
Next Obligation. done. Qed.
Next Obligation.
  intros impl fds maps w (Hwf & Hd & Hf & Hd' & Hm). cbn in *. unfold impl_destroy, posix_impl, destroy.
  apply releases_bind. eapply releases_post; [by apply posix_destroy_map_spec|]. cbv beta. intros _ w1 [Ho1 Hm1].
  eapply releases_post; [apply posix_destroy_fd_spec; [done|congruence]|]. cbv beta.
  intros _ w2 [??]. split; congruence.
Qed.

(** A view that was opened: a descriptor, and a mapping unless it is empty. *)
Definition posix_open (view : Impl) : Prop :=
  fd view <> -1 /\ (size view = 0 <-> addr view = None) /\ 0 <= size view < 2 ^ 64.

Lemma posix_owns_none n w w1 :
  open_handles w1 = open_handles w -> mapped_at w1 = mapped_at w ->
  owns {| fd := -1; size := n; addr := None |} (open_handles w) (mapped_at w) w1.
Proof. intros Ho Hm. unfold owns. cbn. rewrite Ho, Hm. split_and!; [done|set_solver..]. Qed.

Lemma posix_owns_fd fd1 n w w1 :
  fd1 <> -1 -> (fd1 ∉ open_handles w) -> open_handles w1 = {[fd1]} ∪ open_handles w ->
  mapped_at w1 = mapped_at w ->
  owns {| fd := fd1; size := n; addr := None |} (open_handles w) (mapped_at w) w1.
Proof.
  intros Hfd Hfresh Ho Hm. unfold owns. cbn. unfold view_handles, view_maps. cbn.
  rewrite (proj2 (Z.eqb_neq _ _) Hfd), Ho, Hm. split_and!; [done|set_solver..].
Qed.

Lemma posix_owns_map fd1 n region w w1 :
  fd1 <> -1 -> (fd1 ∉ open_handles w) -> open_handles w1 = {[fd1]} ∪ open_handles w ->
  0 < n -> ((base region, n) ∉ mapped_at w) -> mapped_at w1 = {[(base region, n)]} ∪ mapped_at w ->
  owns {| fd := fd1; size := n; addr := Some region |} (open_handles w) (mapped_at w) w1.
Proof.
  intros Hfd Hfresh Ho Hn Hb Hm. unfold owns. cbn. unfold view_handles, view_maps. cbn.
  rewrite (proj2 (Z.eqb_neq _ _) Hfd), Ho, Hm. split_and!; [done|set_solver..].
Qed.

(** The outcome of [FileView::from]. *)
Definition posix_opened (w : W) (r : Impl + error_condition) (w' : W) : Prop :=
  opened w r w' /\ match r with inl view => posix_open view | inr _ => True end.

Lemma posix_return_view view w w1 :
  owns view (open_handles w) (mapped_at w) w1 -> posix_open view ->
  releases (open_handles w) (mapped_at w) (return_view view) (posix_opened w) w1.
Proof.
  intros Ho Hv. eapply releases_post; [by apply return_view_keeps|]. cbv beta. by intros ? w' [-> ?].
Qed.

Lemma posix_return_error f w w1 :
  owns f (open_handles w) (mapped_at w) w1 ->
  releases (open_handles w) (mapped_at w) (return_error f) (posix_opened w) w1.
Proof.
  intros Ho. eapply releases_post; [by apply return_error_opened|]. cbv beta. by intros ? w' [[e ->] ?]. Qed.

(** What [FileView::from] does with the resources, on every path. *)
Lemma posix_from_spec path w :
  releases (open_handles w) (mapped_at w) (from path) (posix_opened w) w.
Proof.
  unfold from. apply releases_bind, releases_call. intros fd1 w1 Hopen.
  apply sys_open_spec in Hopen as [Hm1 Ho]. cbn [fd size addr].
  destruct (Z.eqb_spec fd1 (-1)) as [->|Hfd].
  { destruct Ho as [[_ Ho]|[? _]]; [|done]. by apply posix_return_error, posix_owns_none. }
  destruct Ho as [[? _]|(_ & Hfresh & Ho)]; [done|].
  apply releases_bind, releases_call. intros [result st_size] w2 Hstat.
  apply sys_fstat_spec in Hstat as [Ho2 Hm2]. cbn [fd size addr].
  destruct (result =? -1); [apply posix_return_error, posix_owns_fd; congruence|].
  pose proof (Z.mod_pos_bound st_size (2 ^ 64) eq_refl) as Hsize. fold (u64 st_size) in Hsize.
  destruct (Z.ltb_spec 0 (u64 st_size)) as [Hs|Hs].
  - apply releases_bind, releases_call. intros mapped w3 Hmap.
    apply sys_mmap_spec in Hmap as [Ho3 Hm3]. cbn [addr].
    destruct mapped as [region|]; [|apply posix_return_error, posix_owns_fd; congruence].
    destruct Hm3 as (Hn & Hb & Hm3). apply posix_return_view.
    + apply posix_owns_map; congruence.
    + split; [done|]. cbn. split; [|done]. split; [intros; exfalso; lia|done].
  - apply posix_return_view; [apply posix_owns_fd; congruence|].
    split; [done|]. cbn. split; [|done]. split; [done|intros; lia].
Qed.

End PosixFacts.
