(* ===== verification/FileViewWindows.v ===== *)
(** Read-only memory-mapped files on Windows (src/cero/util/file_view.win.cc)
    with the conversion of their paths (src/cero/util/utf16.win.cc), and that they
    keep the contract of [FileView::Impl]. *)

From stdpp Require Import gmap.
From S2P Require Import Prelude Platform ImplStorage FileViewBase.

(** * UTF-16 (utf16.win.cc) *)

(** The cast of a length to [int]. *)
Definition i32 (z : Z) : Z := (z + 2 ^ 31) mod 2 ^ 32 - 2 ^ 31.

Section Utf16.
Context `{CodePages}.

(** [output] starts as [len] nulls, of which the call overwrites the first ones. *)
Definition utf8_to_utf16 (input : text) : wide_text :=
  let len := Z.of_nat (length input) in
  if len =? 0 then []
  else
    let output := repeat 0 (Z.to_nat len) in
    let (units, written) := MultiByteToWideChar input (i32 len) (i32 len) in
    let output := units ++ drop (length units) output in
    take (Z.to_nat (u64 written)) output.

Definition utf16_to_utf8 (input : wide_text) : text :=
  let len := Z.of_nat (length input) in
  if len =? 0 then []
  else
    let cap := u64 (3 * len) in
    let output := repeat Ascii.zero (Z.to_nat cap) in
    let (units, written) := WideCharToMultiByte input (i32 len) (i32 cap) in
    let output := units ++ drop (length units) output in
    take (Z.to_nat (u64 written)) output.

End Utf16.

(** The characters of a wide C string. *)
Fixpoint wide_c_string (s : wide_text) : wide_text :=
  match s with
  | [] => []
  | c :: rest => if c =? 0 then [] else c :: wide_c_string rest
  end.

(** * FileView *)

Module WindowsFileView.

(** [FileView::Impl]; the default member initialisers are [Impl_default]. *)
Record Impl := {
  file : Z;
  size : Z;
  mapping : Z;
  addr : option Region;
}.

Definition Impl_default : Impl :=
  {| file := INVALID_HANDLE_VALUE; size := 0; mapping := null_handle; addr := None |}.

#[global] Instance Impl_hidden : Hidden Impl := {|
  hidden_members := [pointer_member; size_t_member; pointer_member; pointer_member];
  hidden_default := Impl_default;
  hidden_move := fun other => (other, other);
  hidden_assign := fun this other => (other, other);
|}.

Section FileView.
Context {W : Type} `{Windows W}.

(** The three parts of [Impl::destroy]. *)
Definition destroy_view (impl : Impl) : M W unit :=
  match addr impl with
  | Some region => success <- call (UnmapViewOfFile region) ;; cero_assert success
  | None => ret tt
  end.

Definition destroy_mapping (impl : Impl) : M W unit :=
  if negb (mapping impl =? null_handle) then
    success <- call (CloseHandle (mapping impl)) ;; cero_assert success
  else ret tt.

Definition destroy_file (impl : Impl) : M W unit :=
  if negb (file impl =? INVALID_HANDLE_VALUE) then
    success <- call (CloseHandle (file impl)) ;; cero_assert success
  else ret tt.

Definition destroy (impl : Impl) : M W unit :=
  destroy_view impl ;; destroy_mapping impl ;; destroy_file impl.

#[global] Instance windows_impl : FileViewImpl W Impl := {| impl_destroy := destroy |}.

#[local] Instance platform : Platform W := CERO_SYSTEM_WINDOWS _.

Definition from (path : text) : M W (Impl + error_condition) :=
  let path_utf16 := utf8_to_utf16 path in
  let f := Impl_default in
  file' <- call (CreateFileW (wide_c_string path_utf16)) ;;
  let f := {| file := file'; size := size f; mapping := mapping f; addr := addr f |} in
  if file f =? INVALID_HANDLE_VALUE then return_error f
  else
    result <- call (GetFileSizeEx (file f)) ;;
    let (success, file_size) := result : bool * Z in
    if negb success then return_error f
    else
      let f := {| file := file f; size := u64 file_size; mapping := mapping f; addr := addr f |} in
      if 0 <? size f then
        mapping' <- call (CreateFileMappingW (file f)) ;;
        let f := {| file := file f; size := size f; mapping := mapping'; addr := addr f |} in
        if mapping f =? null_handle then return_error f
        else
          addr' <- call (MapViewOfFile (mapping f)) ;;
          let f := {| file := file f; size := size f; mapping := mapping f; addr := addr' |} in
          match addr f with
          | None => return_error f
          | Some _ => return_view f
          end
      else return_view f.

Definition get_text (impl : Impl) : text :=
  if size impl =? 0 then []
  else match addr impl with
       | Some region => take (Z.to_nat (size impl)) (bytes region)
       | None => []
       end.

End FileView.

(** The resources a view holds; its mapping is not its file. *)
Definition file_handle (impl : Impl) : gset Z :=
  if file impl =? INVALID_HANDLE_VALUE then ∅ else {[file impl]}.
Definition mapping_handle (impl : Impl) : gset Z :=
  if mapping impl =? null_handle then ∅ else {[mapping impl]}.
Definition view_maps (impl : Impl) : gset (Z * Z) :=
  match addr impl with Some region => {[region_extent region]} | None => ∅ end.

#[global] Instance windows_resources : FileViewResources Impl := {|
  impl_handles := fun impl => mapping_handle impl ∪ file_handle impl;
  impl_maps := view_maps;
  impl_wf := fun impl => mapping_handle impl ## file_handle impl;
|}.

End WindowsFileView.

(** * The contract *)

Section WindowsFacts.
Import WindowsFileView.
Context {W : Type} `{HL : WindowsLaws W}.
#[local] Existing Instance platform.

Lemma windows_destroy_view_spec impl handles maps w :
  view_maps impl ## maps -> mapped_at w = view_maps impl ∪ maps ->
  releases handles maps (destroy_view impl)
    (fun _ w' => open_handles w' = open_handles w /\ mapped_at w' = maps) w.
Proof.
  unfold destroy_view, view_maps. intros Hd Hm. destruct (addr impl) as [region|].
  - apply releases_bind, releases_call. cbv beta. intros success w1 Hc.
    pose proof Hc as Hs%UnmapViewOfFile_spec; [|set_solver]. apply releases_assert.
    + intros ->. destruct Hs as [?|[Ho Hm1]]; [done|]. split; [done|]. rewrite Hm1, Hm. set_solver.
    + intros ->. right. exists region, w, w1. set_solver.
  - apply releases_ret. split; [done|]. rewrite Hm. apply left_id_L, _.
Qed.

(** Closing a handle unless it is the invalid one. *)
Lemma windows_close_spec (invalid handle : Z) handles maps w :
  let held : gset Z := if handle =? invalid then ∅ else {[handle]} in
  held ## handles -> open_handles w = held ∪ handles ->
  releases handles maps (if negb (handle =? invalid) then
        success <- call (CloseHandle handle) ;; cero_assert success
      else ret tt)
     (fun _ w' => open_handles w' = handles /\ mapped_at w' = mapped_at w) w.
Proof.
  cbv zeta. intros Hd Ho. destruct (handle =? invalid); cbn [negb].
  - apply releases_ret. split; [|done]. rewrite Ho. apply left_id_L, _.
  - apply windows_close_releases; [set_solver|done].
Qed.

#[export] Program Instance windows_contract : FileViewContract W Impl.
Next Obligation. by split. Qed.
Next Obligation. cbn. set_solver. Qed.
Next Obligation. cbn. set_solver. Qed.
Next Obligation. done. Qed.
Next Obligation.
  intros impl handles maps w (Hwf & Hd & Ho & Hd' & Hm). cbn in *. unfold impl_destroy, windows_impl, destroy.
  apply releases_bind. eapply releases_post; [by apply windows_destroy_view_spec|]. cbv beta. intros _ w1 [Ho1 Hm1].
  apply releases_bind. unfold destroy_mapping. eapply releases_post.
  { apply (releases_mono (file_handle impl ∪ handles) handles maps maps); [set_solver..|].
    apply (windows_close_spec _ _ (file_handle impl ∪ handles)); fold (mapping_handle impl).
    - set_solver.
    - by rewrite Ho1, Ho, assoc_L by apply _. }
  cbv beta. intros _ w2 [Ho2 Hm2]. unfold destroy_file.
  eapply releases_post; [apply windows_close_spec; [|exact Ho2]; fold (file_handle impl); set_solver|].
  cbv beta. intros _ w3 [??]. split; congruence.
Qed.

(** A view that was opened: a file handle, and a mapping unless it is empty. *)
Definition windows_open (view : Impl) : Prop :=
  file view <> INVALID_HANDLE_VALUE /\ (size view = 0 <-> addr view = None) /\
  (addr view = None <-> mapping view = null_handle) /\ 0 <= size view < 2 ^ 64.

(** The outcome of [FileView::from]. *)
Definition windows_opened (w : W) (r : Impl + error_condition) (w' : W) : Prop :=
  opened w r w' /\ match r with inl view => windows_open view | inr _ => True end.

Lemma windows_return_view view w w1 :
  owns view (open_handles w) (mapped_at w) w1 -> windows_open view ->
  releases (open_handles w) (mapped_at w) (return_view view) (windows_opened w) w1.
Proof.
  intros Ho Hv. eapply releases_post; [by apply return_view_keeps|]. cbv beta. by intros ? w' [-> ?].
Qed.

Lemma windows_return_error f w w1 :
  owns f (open_handles w) (mapped_at w) w1 ->
  releases (open_handles w) (mapped_at w) (return_error f) (windows_opened w) w1.
Proof.
  intros Ho. eapply releases_post; [by apply return_error_opened|].
  cbv beta. by intros ? w' [[e ->] ?].
Qed.

Lemma windows_owns f w w1 :
  mapping_handle f ## file_handle f -> (mapping_handle f ∪ file_handle f) ## open_handles w ->
  open_handles w1 = mapping_handle f ∪ file_handle f ∪ open_handles w ->
  view_maps f ## mapped_at w -> mapped_at w1 = view_maps f ∪ mapped_at w ->
  owns f (open_handles w) (mapped_at w) w1.
Proof. intros. by split_and!. Qed.

Lemma windows_owns_none n w w1 :
  open_handles w1 = open_handles w -> mapped_at w1 = mapped_at w ->
  owns {| file := INVALID_HANDLE_VALUE; size := n; mapping := null_handle; addr := None |}
       (open_handles w) (mapped_at w) w1.
Proof. intros Ho Hm. apply windows_owns; rewrite ?Ho, ?Hm; cbn; set_solver. Qed.

(** With the file opened as [file1]: no mapping yet, a mapping without a view, both. *)
Section Opened.
Context (w : W) (file1 : Z) (Hfile : file1 <> INVALID_HANDLE_VALUE) (Hfresh : file1 ∉ open_handles w).

Lemma windows_owns_file n w1 :
  open_handles w1 = {[file1]} ∪ open_handles w -> mapped_at w1 = mapped_at w ->
  owns {| file := file1; size := n; mapping := null_handle; addr := None |}
       (open_handles w) (mapped_at w) w1.
Proof.
  intros Ho Hm. apply windows_owns; unfold mapping_handle, file_handle, view_maps; cbn;
    rewrite ?(proj2 (Z.eqb_neq _ _) Hfile), ?Ho, ?Hm; set_solver.
Qed.

Lemma windows_owns_mapping n mapping1 view w1 :
  mapping1 <> null_handle -> (mapping1 ∉ {[file1]} ∪ open_handles w) ->
  open_handles w1 = {[mapping1]} ∪ ({[file1]} ∪ open_handles w) ->
  (forall region, view = Some region -> region_extent region ∉ mapped_at w) ->
  mapped_at w1 = view_maps {| file := file1; size := n; mapping := mapping1; addr := view |} ∪ mapped_at w ->
  owns {| file := file1; size := n; mapping := mapping1; addr := view |}
       (open_handles w) (mapped_at w) w1.
Proof.
  intros Hmap Hf Ho Hb Hm. apply windows_owns; [..|done]; unfold mapping_handle, file_handle, view_maps; cbn;
    rewrite ?(proj2 (Z.eqb_neq _ _) Hfile), ?(proj2 (Z.eqb_neq _ _) Hmap), ?Ho; [set_solver..|].
  destruct view as [region|]; [|set_solver]. by apply disjoint_singleton_l, Hb.
Qed.

End Opened.

(** What [FileView::from] does with the resources, on every path. *)
Lemma windows_from_spec path w :
  releases (open_handles w) (mapped_at w) (from path) (windows_opened w) w.
Proof.
  unfold from. apply releases_bind, releases_call. intros file1 w1 Hopen.
  apply CreateFileW_spec in Hopen as [Hm1 Ho]. cbn [file size mapping addr].
  destruct (Z.eqb_spec file1 INVALID_HANDLE_VALUE) as [->|Hfile].
  { destruct Ho as [[_ Ho]|[? _]]; [|done]. apply windows_return_error.
    by apply windows_owns_none. }
  destruct Ho as [[? _]|(_ & Hfresh & Ho)]; [done|].
  apply releases_bind, releases_call. intros [success file_size] w2 Hsize.
  apply GetFileSizeEx_spec in Hsize as [Ho2 Hm2]. cbn [file size mapping addr].
  destruct success; cbn [negb]; [|apply windows_return_error, windows_owns_file; congruence].
  pose proof (Z.mod_pos_bound file_size (2 ^ 64) eq_refl) as Hs64. fold (u64 file_size) in Hs64.
  destruct (Z.ltb_spec 0 (u64 file_size)) as [Hs|Hs].
  2: { apply windows_return_view; [apply windows_owns_file; congruence|].
       split_and!; cbn; [done|split; [done|intros; lia]|done|lia|lia]. }
  apply releases_bind, releases_call. intros mapping1 w3 Hmapping.
  apply CreateFileMappingW_spec in Hmapping as [Hm3 Ho3]. cbn [file size mapping addr].
  destruct (Z.eqb_spec mapping1 null_handle) as [->|Hmap].
  { destruct Ho3 as [[_ Ho3]|[? _]]; [|done]. apply windows_return_error, windows_owns_file; congruence. }
  destruct Ho3 as [[? _]|(_ & Hf3 & Ho3)]; [done|]. rewrite Ho2, Ho in Ho3, Hf3.
  apply releases_bind, releases_call. intros view w4 Hview.
  apply MapViewOfFile_spec in Hview as [Ho4 Hm4]. cbn [addr].
  destruct view as [region|].
  - destruct Hm4 as [Hb Hm4]. apply windows_return_view.
    + apply windows_owns_mapping; [done..|congruence|intros ? [= <-]; congruence|unfold view_maps; cbn; congruence].
    + split_and!; cbn; [done|split; [intros; exfalso; lia|done]|done|lia|lia].
  - apply windows_return_error, windows_owns_mapping; [done..|congruence|done|].
    unfold view_maps; cbn. rewrite left_id_L by apply _. congruence.
Qed.

End WindowsFacts.
