(* ===== verification/FileView.v ===== *)
(** [util::FileView] (src/cero/util/file_view.hh) as the rest of the code uses it:
    the implementation that belongs to the platform, behind one set of functions
    with one specification. Also the helper class PushState
    (src/cero/util/push_state.hh). *)

From stdpp Require Import gmap.
From S2P Require Import Prelude Platform ImplStorage FileViewBase FileViewPosix FileViewWindows.

Module FileView.

(** The hidden class of either file. A view owns its [Impl], in [ImplStorage]. *)
Inductive Impl :=
| posix_impl (impl : PosixFileView.Impl)
| windows_impl (impl : WindowsFileView.Impl).

Definition t : Type := Impl.

Section FileView.
Context {W : Type} `{P : Platform W}.

Definition from (path : text) : M W (Impl + error_condition) :=
  match P with
  | CERO_SYSTEM_POSIX _ =>
      r <- PosixFileView.from path ;;
      ret (match r with inl impl => inl (posix_impl impl) | inr error => inr error end)
  | CERO_SYSTEM_WINDOWS _ =>
      r <- WindowsFileView.from path ;;
      ret (match r with inl impl => inl (windows_impl impl) | inr error => inr error end)
  end.

(** A program has views of one platform only. *)
Definition destroy (view : Impl) : M W unit :=
  match P, view with
  | CERO_SYSTEM_POSIX _, posix_impl impl => PosixFileView.destroy impl
  | CERO_SYSTEM_WINDOWS _, windows_impl impl => WindowsFileView.destroy impl
  | _, _ => abort
  end.

Definition get_text (view : Impl) : text :=
  match view with
  | posix_impl impl => PosixFileView.get_text impl
  | windows_impl impl => WindowsFileView.get_text impl
  end.

End FileView.

(** The handles and regions that a view holds. *)
Definition view_handles (view : Impl) : gset Z :=
  match view with
  | posix_impl impl => PosixFileView.view_handles impl
  | windows_impl impl => WindowsFileView.mapping_handle impl ∪ WindowsFileView.file_handle impl
  end.

Definition view_maps (view : Impl) : gset (Z * Z) :=
  match view with
  | posix_impl impl => PosixFileView.view_maps impl
  | windows_impl impl => WindowsFileView.view_maps impl
  end.

(** The length that a view was opened with. *)
Definition view_size (view : Impl) : Z :=
  match view with
  | posix_impl impl => PosixFileView.size impl
  | windows_impl impl => WindowsFileView.size impl
  end.

End FileView.

(** * PushState (push_state.hh) *)

(** The constructor exchanges the object's value for a new one and keeps the
    old value; the destructor puts it back. *)
Definition PushState_construct {T} (object new_value : T) : T * T := (new_value, object).
Definition PushState_destruct {T} (object old_value : T) : T := old_value.

(** * Lemmas *)

Section FileViewFacts.
Import FileView.
Context {W : Type} `{HL : PlatformLaws W}.

(** [view] was opened on this platform and holds exactly what separates [w] from
    the resources [handles], [maps]. *)
Definition view_owns (view : FileView.t) (handles : gset Z) (maps : gset (Z * Z)) (w : W) : Prop :=
  match P, view with
  | CERO_SYSTEM_POSIX _, posix_impl impl => owns impl handles maps w /\ posix_open impl
  | CERO_SYSTEM_WINDOWS _, windows_impl impl => owns impl handles maps w /\ windows_open impl
  | _, _ => False
  end.

(** The outcome of [FileView::from]. *)
Definition view_opened (w : W) (r : FileView.t + error_condition) (w' : W) : Prop :=
  match r with
  | inl view => view_owns view (open_handles w) (mapped_at w) w'
  | inr _ => open_handles w' = open_handles w /\ mapped_at w' = mapped_at w
  end.

Lemma from_spec path w : releases (open_handles w) (mapped_at w) (from path) (view_opened w) w.
Proof.
  unfold from, view_opened, view_owns. unfold PlatformLaws in HL. destruct P as [calls|calls]; apply releases_bind.
  - eapply releases_post; [apply posix_from_spec|]. intros [impl|e] w' [Ho Hopen]; apply releases_ret; by cbn in *.
  - eapply releases_post; [apply windows_from_spec|]. intros [impl|e] w' [Ho Hopen]; apply releases_ret; by cbn in *.
Qed.

Lemma view_destroy_spec view handles maps w :
  view_owns view handles maps w ->
  releases handles maps (destroy view) (fun _ w' => open_handles w' = handles /\ mapped_at w' = maps) w.
Proof.
  unfold destroy, view_owns. unfold PlatformLaws in HL.
  destruct P as [calls|calls], view as [impl|impl]; intros Hv; try done; destruct Hv as [Ho _].
  - exact (destroy_releases (H := CERO_SYSTEM_POSIX calls) impl handles maps w Ho).
  - exact (destroy_releases (H := CERO_SYSTEM_WINDOWS calls) impl handles maps w Ho).
Qed.

(** What a view holds, of both kinds. *)
Lemma view_owns_resources view handles maps w :
  view_owns view handles maps w ->
  view_handles view ## handles /\ open_handles w = view_handles view ∪ handles /\
  view_maps view ## maps /\ mapped_at w = view_maps view ∪ maps /\
  view_handles view <> ∅ /\ (view_size view = 0 <-> view_maps view = ∅).
Proof.
  unfold view_owns. unfold PlatformLaws in HL. destruct P as [calls|calls], view as [impl|impl]; try done.
  - intros ((_ & Hd & Ho & Hd' & Hm) & Hfd & Hs & _). cbn in *. split_and!; [done..| |].
    + unfold PosixFileView.view_handles. rewrite (proj2 (Z.eqb_neq _ _) Hfd). apply non_empty_singleton_L.
    + rewrite Hs. unfold PosixFileView.view_maps. destruct (PosixFileView.addr impl); [|done].
      split; [done|]. by intros []%non_empty_singleton_L.
  - intros ((_ & Hd & Ho & Hd' & Hm) & Hfile & Hs & _). cbn in *. split_and!; [done..| |].
    + unfold WindowsFileView.file_handle. rewrite (proj2 (Z.eqb_neq _ _) Hfile). set_solver.
    + rewrite Hs. unfold WindowsFileView.view_maps. destruct (WindowsFileView.addr impl); [|done].
      split; [done|]. by intros []%non_empty_singleton_L.
Qed.

End FileViewFacts.
