(* ===== verification/PosixModel.v ===== *)
(** A concrete POSIX system, an in-memory file system that satisfies the laws of
    [PosixLaws], with which the file and build definitions evaluate. *)

From Stdlib Require Import String.
From stdpp Require Import gmap.
From S2P Require Import Prelude Platform.

(** * An in-memory file system *)

(** A regular file with its bytes, or a directory, which cannot be mapped. *)
Inductive Entry :=
| regular (content : text)
| directory.

Record System := {
  entries : list (text * Entry);
  descriptors : gmap Z Entry;
  mappings : gset (Z * Z);
  next_fd : Z;
  next_base : Z;
  errno : Z;
}.

Definition ENOENT : Z := 2.
Definition ENODEV : Z := 19.
Definition EINVAL : Z := 22.
Definition EMFILE : Z := 24.

Definition set_errno (e : Z) (w : System) : System :=
  {| entries := entries w; descriptors := descriptors w; mappings := mappings w;
     next_fd := next_fd w; next_base := next_base w; errno := e |}.

Fixpoint find_entry (path : text) (l : list (text * Entry)) : option Entry :=
  match l with
  | [] => None
  | (name, entry) :: l => if bool_decide (name = path) then Some entry else find_entry path l
  end.

Definition mem_open (path : text) (w : System) : Z * System :=
  match find_entry path (entries w) with
  | None => (-1, set_errno ENOENT w)
  | Some entry =>
      let fd := next_fd w in
      if bool_decide (is_Some (descriptors w !! fd)) || (fd =? -1) then (-1, set_errno EMFILE w)
      else (fd, {| entries := entries w; descriptors := <[fd := entry]> (descriptors w);
                   mappings := mappings w; next_fd := fd + 1; next_base := next_base w;
                   errno := errno w |})
  end.

Definition entry_size (entry : Entry) : Z :=
  match entry with regular content => Z.of_nat (length content) | directory => 4096 end.

Definition mem_fstat (fd : Z) (w : System) : Z * Z * System :=
  match descriptors w !! fd with
  | Some entry => (0, entry_size entry, w)
  | None => (-1, 0, set_errno 9 w)
  end.

Definition mem_mmap (size fd : Z) (w : System) : option Region * System :=
  match descriptors w !! fd with
  | Some (regular content) =>
      if size <=? 0 then (None, set_errno EINVAL w)
      else if bool_decide ((next_base w, size) ∈ mappings w) then (None, set_errno 12 w)
      else (Some {| base := next_base w; bytes := content |},
            {| entries := entries w; descriptors := descriptors w;
               mappings := {[(next_base w, size)]} ∪ mappings w; next_fd := next_fd w;
               next_base := next_base w + 4096; errno := errno w |})
  | Some directory => (None, set_errno ENODEV w)
  | None => (None, set_errno 9 w)
  end.

Definition mem_munmap (region : Region) (size : Z) (w : System) : Z * System :=
  if size <=? 0 then (-1, set_errno EINVAL w)
  else (0, {| entries := entries w; descriptors := descriptors w;
              mappings := mappings w ∖ {[(base region, size)]}; next_fd := next_fd w;
              next_base := next_base w; errno := errno w |}).

Definition mem_close (fd : Z) (w : System) : Z * System :=
  (0, {| entries := entries w; descriptors := delete fd (descriptors w);
         mappings := mappings w; next_fd := next_fd w;
         next_base := next_base w; errno := errno w |}).

#[export] Instance mem_posix : Posix System := {|
  sys_open := mem_open;
  sys_fstat := mem_fstat;
  sys_mmap := mem_mmap;
  sys_munmap := mem_munmap;
  sys_close := mem_close;
  sys_errno := errno;
|}.

#[export] Instance mem_resources : Resources System := {|
  open_handles := fun w => dom (descriptors w);
  mapped_at := mappings;
|}.

#[export] Instance mem_platform : Platform System := CERO_SYSTEM_POSIX mem_posix.

#[export] Program Instance mem_laws : PosixLaws System.
Next Obligation.
  cbn. unfold mem_open. intros path w fd w'. destruct (find_entry _ _); [|by intros [= <- <-]; auto].
  case_bool_decide as Hd; cbn; [by intros [= <- <-]; auto|].
  destruct (Z.eqb_spec (next_fd w) (-1)) as [|Hn]; [by intros [= <- <-]; auto|].
  intros [= <- <-]. cbn. split; [done|]. right.
  rewrite dom_insert_L, not_elem_of_dom, <-eq_None_not_Some in *. done.
Qed.
Next Obligation.
  cbn. unfold mem_fstat. intros fd w result st_size w'. by destruct (_ !! _); intros [= <- <- <-].
Qed.
Next Obligation.
  cbn. unfold mem_mmap. intros size fd w mapped w'.
  destruct (_ !! _) as [[|]|]; [|by intros [= <- <-]..].
  destruct (Z.leb_spec size 0); [by intros [= <- <-]|]. case_bool_decide; by intros [= <- <-].
Qed.
Next Obligation.
  cbn. unfold mem_munmap. intros region size w result w' Hc Hs _. destruct (Z.leb_spec size 0); [lia|].
  by injection Hc as <- <-.
Qed.
Next Obligation.
  cbn. unfold mem_close. intros fd w result w' [= <- <-] _. cbn. split; [done|]. right. by rewrite dom_delete_L.
Qed.

#[export] Instance mem_platform_laws : PlatformLaws System := mem_laws.

(** A freshly started process: no file open, nothing mapped. *)
Definition mem_system (files : list (text * Entry)) : System :=
  {| entries := files; descriptors := ∅; mappings := ∅; next_fd := 3; next_base := 4096; errno := 0 |}.
