(* ===== verification/Source.v ===== *)
(** Source inputs: [Source] and [SourceView] with the computation of code
    locations (src/cero/syntax/source.hh, source.cc), and the character cursor
    of the lexer (src/cero/syntax/source_cursor.hh). *)

From Stdlib Require Import Ascii String.
From S2P Require Import Prelude Report Platform FileView.

(** * Constants (source.hh) *)

Definition source_size_bits : Z := 24.
Definition source_size_max : Z := Z.shiftl 1 source_size_bits - 1.

Definition newline : ascii := "010".
Definition tab : ascii := "009".

(** * SourceView *)

(** The first loop of [locate]: [i] is the index of the first character of
    [range], [last_line] is [npos] ([2^64 - 1]) until a newline is seen. *)
Fixpoint locate_line (i line last_line : Z) (range : text) : Z * Z :=
  match range with
  | [] => (line, last_line)
  | c :: rest =>
      if Ascii.eqb c newline then locate_line (i + 1) (u32 (line + 1)) i rest
      else locate_line (i + 1) line last_line rest
  end.

(** The second loop of [locate]. *)
Fixpoint locate_column (tab_size column : Z) (range : text) : Z :=
  match range with
  | [] => column
  | c :: rest =>
      locate_column tab_size (u32 (column + (if Ascii.eqb c tab then tab_size else 1))) rest
  end.

Module SourceView.

(** [text_] points to a null-terminated string, or is null. *)
Record t := {
  file_view_ : option FileView.t;
  text_ : option text;
  path_ : text;
}.

(** Building a view from a null pointer does not occur: [text_] is set whenever
    [file_view_] is not. *)
Definition get_text (view : t) : text :=
  match file_view_ view with
  | Some file_view => FileView.get_text file_view
  | None => match text_ view with Some s => c_string s | None => [] end
  end.

Definition get_path (view : t) : text := path_ view.

(** [None] is the exception of [substr]. *)
Definition locate (view : t) (offset tab_size : Z) : option CodeLocation :=
  let npos := 2 ^ 64 - 1 in
  match substr (get_text view) 0 offset with
  | None => None
  | Some range =>
      let (line, last_line) := locate_line 0 1 npos range in
      match substr range (u64 (last_line + 1)) npos with
      | None => None
      | Some range =>
          Some {| Report.path := path_ view;
                  Report.line := line;
                  Report.column := locate_column tab_size 1 range |}
      end
  end.

End SourceView.

(** * Source *)

Module Source.

Record t := {
  text_ : option text;
  path_ : text;
}.

Definition from_file (path : text) : t := {| text_ := None; path_ := path |}.
Definition from_string (s name : text) : t := {| text_ := Some s; path_ := name |}.
Definition get_path (source : t) : text := path_ source.

Definition lock {W} `{Platform W} (source : t) : M W (SourceView.t + error_condition) :=
  match text_ source with
  | None =>
      file <- FileView.from (path_ source) ;;
      ret match file with
          | inl file_view =>
              inl {| SourceView.file_view_ := Some file_view; SourceView.text_ := None;
                     SourceView.path_ := path_ source |}
          | inr error => inr error
          end
  | Some s => ret (inl {| SourceView.file_view_ := None; SourceView.text_ := Some s;
                          SourceView.path_ := path_ source |})
  end.

End Source.

(** * SourceCursor *)

(** The cursor's iterators point into one text: [begin_] stands for the text
    from its beginning, [it_] for the text from the current character on;
    [end_] is the empty rest. *)
Record SourceCursor := {
  begin_ : text;
  it_ : text;
}.

Definition new_cursor (source : SourceView.t) : SourceCursor :=
  {| begin_ := SourceView.get_text source; it_ := SourceView.get_text source |}.

Definition at_it (c : SourceCursor) (it : text) : SourceCursor := {| begin_ := begin_ c; it_ := it |}.

Definition peek (c : SourceCursor) : ascii :=
  match it_ c with ch :: _ => ch | [] => Ascii.zero end.

Definition next (c : SourceCursor) : ascii * SourceCursor :=
  match it_ c with ch :: it => (ch, at_it c it) | [] => (Ascii.zero, c) end.

(** [None] is the failed debug assertion. *)
Definition advance (c : SourceCursor) : option SourceCursor :=
  match it_ c with _ :: it => Some (at_it c it) | [] => None end.

Definition match_char (c : SourceCursor) (expected : ascii) : bool * SourceCursor :=
  match it_ c with
  | ch :: it => if Ascii.eqb ch expected then (true, at_it c it) else (false, c)
  | [] => (false, c)
  end.

Definition valid (c : SourceCursor) : bool :=
  match it_ c with _ :: _ => true | [] => false end.

(** [it_ - begin_], cast to the 32-bit [SourceSize]. *)
Definition offset (c : SourceCursor) : Z :=
  u32 (Z.of_nat (length (begin_ c)) - Z.of_nat (length (it_ c))).
