(* ===== verification/Testing.v ===== *)
(** What the repository's tests use to check diagnostics
    (src/tests/common/test_reporter.hh, test_reporter.cc), and a concrete
    instance of the fmt library with which the definitions evaluate. *)

From Stdlib Require Import Ascii String DecimalString HexadecimalString.
From S2P Require Import Prelude Report Source.

#[local] Open Scope char_scope.
#[local] Open Scope Z_scope.

(** * A concrete [Fmt] *)

Definition decimal_text (n : Z) : text := lit (DecimalString.NilZero.string_of_int (Z.to_int n)).
Definition hex_text (n : Z) : text := lit (HexadecimalString.NilZero.string_of_int (Z.to_hex_int n)).

Definition format_arg (hex : bool) (arg : FormatArg) : text :=
  match arg with
  | arg_string s => s
  | arg_int n => if hex then hex_text n else decimal_text n
  end.

(** The two replacement fields that the code uses, [{}] and [{:x}], and the
    escapes of braces. *)
Fixpoint simple_format (format : text) (args : list FormatArg) : text :=
  match format with
  | "{" :: "{" :: rest => "{" :: simple_format rest args
  | "}" :: "}" :: rest => "}" :: simple_format rest args
  | "{" :: "}" :: rest =>
      match args with
      | [] => []
      | arg :: args => format_arg false arg ++ simple_format rest args
      end
  | "{" :: ":" :: "x" :: "}" :: rest =>
      match args with
      | [] => []
      | arg :: args => format_arg true arg ++ simple_format rest args
      end
  | c :: rest => c :: simple_format rest args
  | [] => []
  end.

#[export] Instance simple_fmt : Fmt := simple_format.

(** * TestReporter *)

(** [TestReporter::Report]: the location and the formatted message. *)
Definition ExpectedReport : Type := CodeLocation * text.

(** [failed] records a failed [CHECK] or [REQUIRE]. *)
Record TestReporter := {
  source_name_ : text;
  expected_reports_ : list ExpectedReport;
  failed : bool;
}.

#[export] Instance CodeLocation_eq_dec : EqDecision CodeLocation.
Proof. solve_decision. Defined.

Definition new_test_reporter (test_name : text) : TestReporter :=
  {| source_name_ := test_name; expected_reports_ := []; failed := false |}.

Definition set_source_name (source_name : text) (r : TestReporter) : TestReporter :=
  {| source_name_ := source_name; expected_reports_ := expected_reports_ r; failed := failed r |}.

Definition expect_report (line column : Z) (message : Message) (args : MessageArgs)
    (r : TestReporter) : TestReporter :=
  let format := get_message_format_string message in
  let message_text := vformat format args in
  let location := {| path := source_name_ r; line := line; column := column |} in
  {| source_name_ := source_name_ r;
     expected_reports_ := expected_reports_ r ++ [(location, message_text)];
     failed := failed r || negb (valid_for_message args message) |}.

(** [handle_report]: a report when none is left, or one that differs from the
    next expected one, is a failure; a matching one is taken off the queue. *)
#[export] Instance test_reporter_handler : ReportHandler TestReporter := fun report r =>
  match expected_reports_ r with
  | [] => {| source_name_ := source_name_ r; expected_reports_ := []; failed := true |}
  | expected :: rest =>
      if bool_decide (expected = (location report, message_text report)) then
        {| source_name_ := source_name_ r; expected_reports_ := rest; failed := failed r |}
      else
        {| source_name_ := source_name_ r; expected_reports_ := expected :: rest; failed := true |}
  end.

(** The destructor's check that every expected report was seen, and no failure
    before. *)
Definition test_passes (r : TestReporter) : bool :=
  negb (failed r) && bool_decide (expected_reports_ r = []).

Definition bytes_text (bytes : list Z) : text := map (fun b => ascii_of_N (Z.to_N b)) bytes.

(** A view of a string source, as the tests make it. *)
Definition test_source (s : text) (name : text) : SourceView.t :=
  {| SourceView.file_view_ := None; SourceView.text_ := Some s; SourceView.path_ := name |}.
