(* ===== verification/SourceFacts.v ===== *)
(** Facts about code locations and the source cursor: [locate] computes the line
    and column of an offset, never fails, and does not overflow for sources of
    admissible size. *)

From Stdlib Require Import Ascii String.
From S2P Require Import Prelude Report Platform FileView Source.

(** * Specifications *)

Definition len (s : text) : Z := Z.of_nat (length s).

Definition is_newline (c : ascii) : bool := Ascii.eqb c newline.

Fixpoint newline_count (s : text) : Z :=
  match s with
  | [] => 0
  | c :: rest => (if is_newline c then 1 else 0) + newline_count rest
  end.

(** The columns that a piece of one line takes. *)
Fixpoint display_width (tab_size : Z) (s : text) : Z :=
  match s with
  | [] => 0
  | c :: rest => (if Ascii.eqb c tab then tab_size else 1) + display_width tab_size rest
  end.

Definition no_newline (s : text) : Prop := Forall (fun c => is_newline c = false) s.

(** A text that ends where a line begins. *)
Definition complete_lines (s : text) : Prop := s = [] \/ exists s', s = s' ++ [newline].

(** * Lemmas *)

Lemma len_app a b : len (a ++ b) = len a + len b.
Proof. unfold len. rewrite length_app. lia. Qed.
Lemma len_cons c s : len (c :: s) = 1 + len s.
Proof. unfold len. cbn [length]. lia. Qed.
Lemma len_nil : len [] = 0.
Proof. done. Qed.
Lemma len_nonneg s : 0 <= len s.
Proof. unfold len. lia. Qed.
Create Rewrite HintDb cero_len.
#[export] Hint Rewrite len_app len_cons len_nil : cero_len.

(** [lia] on lengths of texts. *)
Ltac len_lia :=
  autorewrite with cero_len in *;
  repeat match goal with
  | |- context [len ?s] =>
      lazymatch goal with
      | _ : 0 <= len s |- _ => fail
      | _ => pose proof (len_nonneg s)
      end
  | _ : context [len ?s] |- _ =>
      lazymatch goal with
      | _ : 0 <= len s |- _ => fail
      | _ => pose proof (len_nonneg s)
      end
  end; lia.

Lemma substr_prefix s n : 0 <= n -> substr s 0 n = Some (take (Z.to_nat n) s).
Proof.
  intros Hn. unfold substr. destruct (Z.ltb_spec (Z.of_nat (length s)) 0); [lia|].
  rewrite Z.sub_0_r. cbn. rewrite drop_0. f_equal.
  destruct (Z.le_gt_cases n (Z.of_nat (length s))).
  - by rewrite Z.min_l by lia.
  - rewrite Z.min_r, !take_ge by lia. done.
Qed.

Lemma substr_suffix a b n : len b <= n -> substr (a ++ b) (len a) n = Some b.
Proof.
  intros Hn. unfold substr, len in *. rewrite !length_app, !Nat2Z.inj_add.
  destruct (Z.ltb_spec (Z.of_nat (length a) + Z.of_nat (length b)) (Z.of_nat (length a))); [lia|].
  rewrite Z.min_r, Nat2Z.id, drop_app_length, take_ge by lia. done.
Qed.

Lemma newline_count_range s : 0 <= newline_count s <= len s.
Proof.
  induction s as [|c s IH]; cbn [newline_count]; [done|].
  rewrite len_cons. destruct (is_newline c); lia.
Qed.

Lemma newline_count_app a b : newline_count (a ++ b) = newline_count a + newline_count b.
Proof. induction a as [|c a IH]; cbn [newline_count app]; lia. Qed.

Lemma newline_count_none s : no_newline s -> newline_count s = 0.
Proof. induction 1 as [|c s Hc _ IH]; cbn [newline_count]; [done|]. by rewrite Hc. Qed.

Lemma display_width_range tab_size s :
  0 <= tab_size -> 0 <= display_width tab_size s <= Z.max 1 tab_size * len s.
Proof.
  intros Ht. induction s as [|c s IH]; cbn [display_width]; [rewrite len_nil; lia|].
  rewrite len_cons. destruct (Ascii.eqb c tab); lia.
Qed.

Lemma locate_line_app i line last a b :
  locate_line i line last (a ++ b) =
  let (line', last') := locate_line i line last a in locate_line (i + len a) line' last' b.
Proof.
  revert i line last. induction a as [|c a IH]; intros i line last; cbn [locate_line app].
  - f_equal. rewrite len_nil. lia.
  - rewrite len_cons. destruct (Ascii.eqb c newline); rewrite IH;
      (destruct (locate_line _ _ _ a); f_equal; lia).
Qed.

Lemma locate_line_no_newline i line last s :
  no_newline s -> locate_line i line last s = (line, last).
Proof.
  intros H. revert i. induction H as [|c s Hc _ IH]; intros i; cbn [locate_line]; [done|].
  unfold is_newline in Hc. by rewrite Hc.
Qed.

(** Lines are counted without overflow; [last_line] is the index of the last
    newline. *)
Lemma locate_line_count i line last s :
  0 <= line -> line + newline_count s < 2 ^ 32 ->
  (locate_line i line last s).1 = line + newline_count s.
Proof.
  revert i line last. induction s as [|c s IH]; intros i line last Hl Hb;
    cbn [locate_line newline_count] in *; [cbn; lia|].
  unfold is_newline in *. pose proof (newline_count_range s).
  destruct (Ascii.eqb c newline).
  - rewrite IH; rewrite u32_small by lia; lia.
  - rewrite IH; lia.
Qed.

Lemma locate_line_last i line last s before rest :
  s = before ++ rest -> complete_lines before -> no_newline rest ->
  (locate_line i line last s).2 = if bool_decide (before = []) then last else i + len before - 1.
Proof.
  intros -> Hb Hr. rewrite locate_line_app.
  destruct Hb as [->|[s' ->]].
  - cbn [locate_line]. by rewrite locate_line_no_newline.
  - rewrite bool_decide_false by (intros ?%app_nil; naive_solver).
    rewrite locate_line_app.
    destruct (locate_line i line last s') as [l1 l2]. cbn [locate_line].
    rewrite Ascii.eqb_refl. rewrite locate_line_no_newline by done. cbn. len_lia.
Qed.

Lemma locate_column_spec tab_size column s :
  0 <= tab_size -> 0 <= column -> column + display_width tab_size s < 2 ^ 32 ->
  locate_column tab_size column s = column + display_width tab_size s.
Proof.
  intros Ht. revert column. induction s as [|c s IH]; intros column Hc Hb;
    cbn [locate_column display_width] in *; [lia|].
  pose proof (display_width_range tab_size s Ht).
  destruct (Ascii.eqb c tab); rewrite IH; rewrite u32_small by lia; lia.
Qed.

(** Every text splits into complete lines and an unfinished one. *)
Lemma split_last_line s :
  exists before rest, s = before ++ rest /\ complete_lines before /\ no_newline rest.
Proof.
  induction s as [|c s (before & rest & -> & Hb & Hr)].
  { exists [], []. repeat split; [by left|constructor]. }
  destruct Hb as [->|[s' ->]].
  - destruct (is_newline c) eqn:Hc.
    + apply Ascii.eqb_eq in Hc as ->. exists [newline], rest. split; [done|].
      split; [right; by exists []|done].
    + exists [], (c :: rest). split; [done|]. split; [by left|by constructor].
  - exists (c :: s' ++ [newline]), rest. split; [done|]. split; [|done].
    right. by exists (c :: s').
Qed.

(** The code location of the end of a prefix of the source. *)
Definition location_after (view : SourceView.t) (tab_size : Z) (before rest : text) : CodeLocation :=
  {| path := SourceView.path_ view;
     line := 1 + newline_count before;
     column := 1 + display_width tab_size rest |}.

Lemma locate_spec view offset tab_size before rest :
  len (SourceView.get_text view) <= source_size_max -> 0 <= offset -> 0 <= tab_size < 256 ->
  take (Z.to_nat offset) (SourceView.get_text view) = before ++ rest ->
  complete_lines before -> no_newline rest ->
  SourceView.locate view offset tab_size = Some (location_after view tab_size before rest).
Proof.
  intros Hsize Hoff Htab Htake Hb Hr. unfold SourceView.locate.
  rewrite substr_prefix by done. rewrite Htake.
  assert (Hlen : len (before ++ rest) <= source_size_max).
  { rewrite <-Htake. unfold len in *. rewrite length_take. lia. }
  change source_size_max with (2 ^ 24 - 1) in *.
  pose proof (locate_line_count 0 1 (2 ^ 64 - 1) (before ++ rest)) as Hline.
  pose proof (locate_line_last 0 1 (2 ^ 64 - 1) _ before rest eq_refl Hb Hr) as Hlast.
  pose proof (newline_count_range before). pose proof (display_width_range tab_size rest).
  rewrite newline_count_app, (newline_count_none rest) in Hline by done.
  rewrite len_app in Hlen. pose proof (len_nonneg before). pose proof (len_nonneg rest).
  destruct (locate_line 0 1 (2 ^ 64 - 1) (before ++ rest)) as [line last_line].
  cbn in Hline, Hlast. rewrite Hline by lia.
  assert (Hu : u64 (last_line + 1) = len before).
  { rewrite Hlast. case_bool_decide as He.
    - subst before. reflexivity.
    - unfold u64. rewrite Z.mod_small; [lia|].
      destruct before; [done|]. rewrite len_cons in *. pose proof (len_nonneg before). lia. }
  rewrite Hu, substr_suffix by lia. unfold location_after. do 2 f_equal; [lia|].
  apply locate_column_spec; nia.
Qed.

Lemma locate_total view offset tab_size :
  len (SourceView.get_text view) <= source_size_max -> 0 <= offset -> 0 <= tab_size < 256 ->
  is_Some (SourceView.locate view offset tab_size).
Proof.
  intros Hsize Hoff Htab.
  destruct (split_last_line (take (Z.to_nat offset) (SourceView.get_text view)))
    as (before & rest & He & Hb & Hr).
  rewrite (locate_spec view offset tab_size before rest); eauto.
Qed.

(** * The cursor *)

(** A cursor that has read [pre] of a source of admissible size. *)
Lemma cursor_offset_spec pre it :
  len (pre ++ it) <= source_size_max ->
  Source.offset {| begin_ := pre ++ it; it_ := it |} = len pre.
Proof.
  change source_size_max with (2 ^ 24 - 1). unfold Source.offset. cbn [begin_ it_].
  fold (len (pre ++ it)) (len it). intros H.
  rewrite len_app in *. pose proof (len_nonneg pre). pose proof (len_nonneg it).
  rewrite u32_small by lia. lia.
Qed.

(** ** Properties *)

(** C20. [locate] is right: for a source of admissible size, the location of an
    offset whose preceding text consists of complete lines [before] and the
    unfinished line [rest] is the line after [before] and the column after the
    display width of [rest]; no 32-bit counter wraps around. *)
Theorem locate_line_and_column : forall view offset tab_size before rest,
  len (SourceView.get_text view) <= source_size_max -> 0 <= offset -> 0 <= tab_size < 256 ->
  take (Z.to_nat offset) (SourceView.get_text view) = before ++ rest ->
  complete_lines before -> no_newline rest ->
  SourceView.locate view offset tab_size =
    Some {| path := SourceView.path_ view;
            line := 1 + newline_count before;
            column := 1 + display_width tab_size rest |}.
Proof. exact locate_spec. Qed.

Definition locate_example_view : SourceView.t :=
  {| SourceView.file_view_ := None;
     SourceView.text_ := Some (lit "a" ++ newline :: lit "b" ++ newline :: tab :: lit "cd");
     SourceView.path_ := lit "x.ce" |}.

Lemma locate_line_and_column_witness :
  SourceView.locate locate_example_view 6 4 =
    Some {| path := lit "x.ce"; line := 3; column := 6 |}.
Proof.
  apply (locate_line_and_column locate_example_view 6 4
           (lit "a" ++ newline :: lit "b" ++ [newline]) (tab :: lit "c")).
  - vm_compute. discriminate.
  - lia.
  - lia.
  - reflexivity.
  - right. exists (lit "a" ++ newline :: lit "b"). reflexivity.
  - repeat constructor.
Defined.
