(* ===== verification/Unicode.v ===== *)
(** Character classes and the XID tables (src/cero/syntax/unicode.hh,
    unicode.cc): the ASCII predicates, the decoding of a packed UTF-8 character,
    and the binary search of the range tables. *)

From Stdlib Require Import Ascii String.
From S2P Require Import Prelude UnicodeTables.

(** * ASCII predicates (unicode.hh) *)

(** The value of a [char] in the comparisons below: [char] is signed on the
    platforms the compiler is built for. *)
Definition char_val (c : ascii) : Z := if byte_val c <? 128 then byte_val c else byte_val c - 256.

(** [c >= lo && c <= hi] *)
Definition char_between (lo hi c : ascii) : bool :=
  (char_val lo <=? char_val c) && (char_val c <=? char_val hi).

Definition is_ascii (c : ascii) : bool := Z.shiftr (byte_val c) 7 =? 0.

Definition is_ascii_identifier_char (c : ascii) : bool :=
  char_between "a" "z" c || char_between "A" "Z" c || char_between "0" "9" c || Ascii.eqb c "_".

Definition is_ascii_whitespace (c : ascii) : bool :=
  Ascii.eqb c " " || char_between "009" "013" c.

Definition is_decimal_digit (c : ascii) : bool := char_between "0" "9" c.

Definition is_hexadecimal_digit (c : ascii) : bool :=
  char_between "0" "9" c || char_between "a" "f" c || char_between "A" "F" c.

(** * Unicode scalar ranges (unicode.cc) *)

(** [operator<=>(UnicodeScalarRange, uint32_t)] *)
Definition compare_range (range : UnicodeScalarRange) (unicode_scalar : Z) : comparison :=
  if unicode_scalar <? range_begin range then Gt
  else if range_end range <? unicode_scalar then Lt
  else Eq.

(** Byte [i] of a 32-bit integer in memory (little endian). *)
Definition byte_at (n i : Z) : Z := Z.land (Z.shiftr n (8 * i)) 0xff.

Definition lengths : list Z :=
  [1; 1; 1; 1; 1; 1; 1; 1; 1; 1; 1; 1; 1; 1; 1; 1; 0; 0; 0; 0; 0; 0; 0; 0; 2; 2; 2; 2; 3; 3; 4; 0].
Definition masks : list Z := [0x00; 0x7f; 0x1f; 0x0f; 0x07].
Definition shifts : list Z := [0; 18; 12; 6; 0].

Definition utf8_char_to_unicode_scalar (utf8_char : Z) : Z :=
  let length := nth (Z.to_nat (Z.shiftr (byte_at utf8_char 0) 3)) lengths 0 in
  let code_point := u32 (Z.shiftl (Z.land (byte_at utf8_char 0) (nth (Z.to_nat length) masks 0)) 18) in
  let code_point := Z.lor code_point (u32 (Z.shiftl (Z.land (byte_at utf8_char 1) 0x3f) 12)) in
  let code_point := Z.lor code_point (u32 (Z.shiftl (Z.land (byte_at utf8_char 2) 0x3f) 6)) in
  let code_point := Z.lor code_point (u32 (Z.shiftl (Z.land (byte_at utf8_char 3) 0x3f) 0)) in
  Z.shiftr code_point (nth (Z.to_nat length) shifts 0).

(** [std::lower_bound] with the loop on [first] and the remaining [len]; each
    round at least halves [len], so [len] rounds are enough. *)
Fixpoint lower_bound (fuel : nat) (table : list UnicodeScalarRange) (first len : nat) (value : Z) : nat :=
  match fuel with
  | O => first
  | S fuel =>
      if (0 <? len)%nat then
        let half := (len / 2)%nat in
        let mid := (first + half)%nat in
        match table !! mid with
        | None => first
        | Some range =>
            match compare_range range value with
            | Lt => lower_bound fuel table (S mid) (len - half - 1) value
            | _ => lower_bound fuel table first half value
            end
        end
      else first
  end.

(** [std::binary_search] *)
Definition binary_search (table : list UnicodeScalarRange) (value : Z) : bool :=
  let i := lower_bound (length table) table 0 (length table) value in
  match table !! i with
  | None => false
  | Some range => match compare_range range value with Gt => false | _ => true end
  end.

Definition search_table (table : list UnicodeScalarRange) (utf8_char : Z) : bool :=
  let unicode_scalar := utf8_char_to_unicode_scalar utf8_char in
  binary_search table unicode_scalar.

Definition is_utf8_xid_start_char (utf8_char : Z) : bool := search_table xid_start_table utf8_char.
Definition is_utf8_xid_continue_char (utf8_char : Z) : bool :=
  search_table xid_continue_table utf8_char.

(** * Specifications *)

(** A scalar value is in one of the ranges of a table. *)
Definition in_range (value : Z) (range : UnicodeScalarRange) : Prop :=
  range_begin range <= value <= range_end range.
Definition in_table (table : list UnicodeScalarRange) (value : Z) : Prop :=
  exists range, range ∈ table /\ in_range value range.

(** The order that binary search needs: nonempty disjoint ranges, ascending. *)
Fixpoint table_sorted (lower : Z) (table : list UnicodeScalarRange) : bool :=
  match table with
  | [] => true
  | range :: rest =>
      (lower <? range_begin range) && (range_begin range <=? range_end range)
        && table_sorted (range_end range) rest
  end.

(** Every range of [t1] lies within one range of [t2]. *)
Definition table_covers (t1 t2 : list UnicodeScalarRange) : bool :=
  forallb (fun r1 => existsb (fun r2 =>
    (range_begin r2 <=? range_begin r1) && (range_end r1 <=? range_end r2)) t2) t1.

(** The UTF-8 encoding of a scalar value (RFC 3629), as bytes. *)
Definition utf8_encode (c : Z) : list Z :=
  if c <? 0x80 then [c]
  else if c <? 0x800 then [0xc0 + c / 64; 0x80 + c mod 64]
  else if c <? 0x10000 then [0xe0 + c / 4096; 0x80 + c / 64 mod 64; 0x80 + c mod 64]
  else [0xf0 + c / 262144; 0x80 + c / 4096 mod 64; 0x80 + c / 64 mod 64; 0x80 + c mod 64].

(** Bytes packed into an integer, the first one lowest. *)
Fixpoint pack_bytes (bytes : list Z) : Z :=
  match bytes with [] => 0 | b :: rest => b + 256 * pack_bytes rest end.

(** * Binary search *)

Lemma compare_range_spec range v :
  range_begin range <= range_end range ->
  match compare_range range v with
  | Gt => v < range_begin range
  | Lt => range_end range < v
  | Eq => in_range v range
  end.
Proof.
  unfold compare_range, in_range. intros.
  destruct (Z.ltb_spec v (range_begin range)); [done|].
  destruct (Z.ltb_spec (range_end range) v); lia.
Qed.

Lemma table_sorted_wf lower table range :
  table_sorted lower table = true -> range ∈ table ->
  lower < range_begin range /\ range_begin range <= range_end range.
Proof.
  revert lower. induction table as [|r table IH]; intros lower Hs Hin; cbn in Hs.
  - by apply not_elem_of_nil in Hin.
  - apply andb_prop in Hs as [[H1%Z.ltb_lt H2%Z.leb_le]%andb_prop H3].
    apply elem_of_cons in Hin as [->|Hin]; [done|].
    pose proof (IH _ H3 Hin). lia.
Qed.

Lemma table_sorted_order lower table i j r1 r2 :
  table_sorted lower table = true -> (i < j)%nat -> table !! i = Some r1 -> table !! j = Some r2 ->
  range_end r1 < range_begin r2.
Proof.
  revert lower i j. induction table as [|r table IH]; intros lower i j Hs Hij Hi Hj; [done|].
  cbn in Hs. apply andb_prop in Hs as [_ Hs].
  destruct i as [|i], j as [|j]; try lia; cbn in Hi, Hj.
  - injection Hi as <-.
    eapply table_sorted_wf in Hs as [? _]; [done|]. by eapply list_elem_of_lookup_2.
  - eapply (IH _ i j); eauto with lia.
Qed.

(** What [lower_bound] returns: the partition point of the table. *)
Definition is_lower_bound (table : list UnicodeScalarRange) (value : Z) (k : nat) : Prop :=
  (k <= length table)%nat /\
  (forall i range, table !! i = Some range -> (i < k)%nat -> range_end range < value) /\
  (forall i range, table !! i = Some range -> (k <= i)%nat -> value <= range_end range).

Lemma lower_bound_spec lower table v fuel first len :
  table_sorted lower table = true ->
  (first + len <= length table)%nat -> (len <= fuel)%nat ->
  (forall i range, table !! i = Some range -> (i < first)%nat -> range_end range < v) ->
  (forall i range, table !! i = Some range -> (first + len <= i)%nat -> v <= range_end range) ->
  is_lower_bound table v (lower_bound fuel table first len v).
Proof.
  intros Hs. revert first len.
  induction fuel as [|fuel IH]; intros first len Hlen Hfuel Hlo Hhi; cbn [lower_bound].
  { split; [lia|]. split; [done|]. intros. eapply Hhi; [done|lia]. }
  destruct (Nat.ltb_spec 0 len) as [Hpos|Hpos]; cycle 1.
  { split; [lia|]. split; [done|]. intros. eapply Hhi; [done|lia]. }
  assert (len / 2 < len)%nat as Hhalf by (apply Nat.div_lt; lia).
  destruct (table !! (first + len / 2)%nat) as [r|] eqn:Hr;
    [|apply lookup_ge_None in Hr; lia].
  pose proof (table_sorted_wf _ _ r Hs (list_elem_of_lookup_2 _ _ _ Hr)) as [_ Hwf].
  pose proof (compare_range_spec r v Hwf) as Hc.
  assert (Hright : compare_range r v <> Lt ->
    forall i range, table !! i = Some range -> (first + len / 2 <= i)%nat -> v <= range_end range).
  { intros Hne i range Hi Hge. destruct (decide (i = first + len / 2)%nat) as [->|].
    - rewrite Hr in Hi. injection Hi as <-. unfold in_range in Hc.
      destruct (compare_range r v); [lia|done|lia].
    - assert (range_end r < range_begin range) by (eapply table_sorted_order; [done| |done|done]; lia).
      pose proof (table_sorted_wf _ _ range Hs (list_elem_of_lookup_2 _ _ _ Hi)) as [_ ?].
      unfold in_range in Hc. destruct (compare_range r v); [lia|done|lia]. }
  destruct (compare_range r v) eqn:Hcmp.
  - apply IH; [lia|lia|done|]. intros. eapply Hright; eauto.
  - apply IH; [lia|lia| |intros i range Hi ?; eapply Hhi; [done|lia]].
    intros i range Hi Hlt. destruct (decide (i = first + len / 2)%nat) as [->|].
    + rewrite Hr in Hi. by injection Hi as <-.
    + assert (range_end range < range_begin r) by (eapply table_sorted_order; [done| |done|done]; lia).
      lia.
  - apply IH; [lia|lia|done|]. intros. eapply Hright; eauto.
Qed.

Lemma binary_search_spec lower table v :
  table_sorted lower table = true -> binary_search table v = true <-> in_table table v.
Proof.
  intros Hs. unfold binary_search.
  destruct (lower_bound_spec lower table v (length table) 0 (length table)) as (Hle & Hlo & Hhi);
    [done|lia|lia|lia|intros i r Hi%lookup_lt_Some; lia|].
  set (k := lower_bound _ _ _ _ _) in *.
  assert (Hwf : forall i r, table !! i = Some r -> range_begin r <= range_end r).
  { intros i r Hi. eapply table_sorted_wf; [done|]. by eapply list_elem_of_lookup_2. }
  split.
  - intros H. destruct (table !! k) as [r|] eqn:Hk; [|done].
    pose proof (compare_range_spec r v (Hwf _ _ Hk)) as Hc.
    pose proof (Hhi _ _ Hk ltac:(lia)).
    exists r. split; [by eapply list_elem_of_lookup_2|]. unfold in_range in *.
    destruct (compare_range r v); [done|lia|done].
  - intros (r & [i Hi]%list_elem_of_lookup_1 & Hin). unfold in_range in Hin.
    destruct (decide (i < k)%nat) as [Hik|Hik].
    { pose proof (Hlo _ _ Hi Hik). lia. }
    destruct (table !! k) as [r'|] eqn:Hk.
    + pose proof (compare_range_spec r' v (Hwf _ _ Hk)) as Hc.
      destruct (compare_range r' v); try done.
      destruct (decide (i = k)) as [->|]; [rewrite Hk in Hi; injection Hi as ->; lia|].
      assert (range_end r' < range_begin r) by (eapply table_sorted_order; [done| |done|done]; lia).
      pose proof (Hwf _ _ Hk). lia.
    + apply lookup_ge_None in Hk. apply lookup_lt_Some in Hi. lia.
Qed.

Lemma xid_start_table_sorted : table_sorted (-1) xid_start_table = true.
Proof. vm_compute. reflexivity. Qed.

Lemma xid_continue_table_sorted : table_sorted (-1) xid_continue_table = true.
Proof. vm_compute. reflexivity. Qed.

Lemma table_covers_spec t1 t2 v :
  table_covers t1 t2 = true -> in_table t1 v -> in_table t2 v.
Proof.
  unfold table_covers. intros H (r1 & Hin & Hr).
  rewrite forallb_forall in H. apply list_elem_of_In in Hin.
  apply H, existsb_exists in Hin as (r2 & Hin2 & [H1%Z.leb_le H2%Z.leb_le]%andb_prop).
  exists r2. split; [by apply list_elem_of_In|]. unfold in_range in *. lia.
Qed.

Lemma xid_start_covered : table_covers xid_start_table xid_continue_table = true.
Proof. vm_compute. reflexivity. Qed.

Lemma xid_start_spec utf8_char :
  is_utf8_xid_start_char utf8_char = true <->
  in_table xid_start_table (utf8_char_to_unicode_scalar utf8_char).
Proof. apply (binary_search_spec (-1)), xid_start_table_sorted. Qed.

Lemma xid_continue_spec utf8_char :
  is_utf8_xid_continue_char utf8_char = true <->
  in_table xid_continue_table (utf8_char_to_unicode_scalar utf8_char).
Proof. apply (binary_search_spec (-1)), xid_continue_table_sorted. Qed.

(** * UTF-8 *)

Lemma lor_shiftl_add a b n : 0 <= n -> 0 <= b < 2 ^ n -> Z.lor (a * 2 ^ n) b = a * 2 ^ n + b.
Proof.
  intros Hn Hb. rewrite <-Z.shiftl_mul_pow2 by done.
  assert (Hl : Z.land (Z.shiftl a n) b = 0).
  { apply Z.bits_inj'. intros i Hi. rewrite Z.land_spec, Z.bits_0.
    destruct (Z.ltb_spec i n).
    - by rewrite Z.shiftl_spec_low.
    - rewrite <-(Z.mod_small b (2 ^ n)), Z.mod_pow2_bits_high by lia. by rewrite andb_false_r. }
  by rewrite <-Z.lxor_lor, <-Z.add_nocarry_lxor.
Qed.

Definition is_byte (b : Z) : Prop := 0 <= b < 256.

Lemma land_low_bits b n : 0 <= n -> Z.land b (2 ^ n - 1) = b mod 2 ^ n.
Proof. intros. by rewrite <-Z.land_ones, Z.ones_equiv, Z.sub_1_r by lia. Qed.

Lemma byte_at_pack0 b n : is_byte b -> byte_at (b + 256 * n) 0 = b.
Proof.
  unfold is_byte, byte_at. intros. change (8 * 0) with 0. rewrite Z.shiftr_0_r.
  change 0xff with (2 ^ 8 - 1). rewrite land_low_bits by lia. change (2 ^ 8) with 256. zlia.
Qed.

Lemma byte_at_packS b n i : is_byte b -> 0 <= i -> byte_at (b + 256 * n) (i + 1) = byte_at n i.
Proof.
  unfold is_byte, byte_at. intros Hb Hi. f_equal.
  replace (8 * (i + 1)) with (8 + 8 * i) by lia. rewrite <-Z.shiftr_shiftr by lia. f_equal.
  rewrite Z.shiftr_div_pow2 by lia. change (2 ^ 8) with 256. zlia.
Qed.

(** Decoding in arithmetic terms, given the length class of the leading byte. *)
Definition decode_bytes (bits shift b0 b1 b2 b3 : Z) : Z :=
  (b0 mod 2 ^ bits * 2 ^ 18 + b1 mod 64 * 2 ^ 12 + b2 mod 64 * 2 ^ 6 + b3 mod 64) / 2 ^ shift.

Lemma decode_bytes_correct b0 b1 b2 b3 len bits shift :
  is_byte b0 -> is_byte b1 -> is_byte b2 -> is_byte b3 ->
  nth (Z.to_nat (b0 / 8)) lengths 0 = len -> 0 <= bits <= 7 -> 0 <= shift ->
  nth (Z.to_nat len) masks 0 = 2 ^ bits - 1 -> nth (Z.to_nat len) shifts 0 = shift ->
  utf8_char_to_unicode_scalar (pack_bytes [b0; b1; b2; b3]) = decode_bytes bits shift b0 b1 b2 b3.
Proof.
  intros H0 H1 H2 H3 Hlen Hbits Hshift Hmask Hsh. cbn [pack_bytes].
  unfold utf8_char_to_unicode_scalar.
  set (n3 := b3 + 256 * 0). set (n2 := b2 + 256 * n3). set (n1 := b1 + 256 * n2).
  assert (B0 : byte_at (b0 + 256 * n1) 0 = b0) by (by apply byte_at_pack0).
  assert (B1 : byte_at (b0 + 256 * n1) 1 = b1).
  { change 1 with (0 + 1). rewrite byte_at_packS by (done || lia). by apply byte_at_pack0. }
  assert (B2 : byte_at (b0 + 256 * n1) 2 = b2).
  { change 2 with (0 + 1 + 1). unfold n1. rewrite !byte_at_packS by (done || lia).
    by apply byte_at_pack0. }
  assert (B3 : byte_at (b0 + 256 * n1) 3 = b3).
  { change 3 with (0 + 1 + 1 + 1). unfold n1, n2. rewrite !byte_at_packS by (done || lia).
    by apply byte_at_pack0. }
  rewrite B0, B1, B2, B3. rewrite (Z.shiftr_div_pow2 b0 3) by lia. change (2 ^ 3) with 8.
  rewrite Hlen, Hmask, Hsh. change 0x3f with (2 ^ 6 - 1).
  rewrite !land_low_bits, !Z.shiftl_mul_pow2, Z.shiftr_div_pow2 by lia.
  unfold decode_bytes. f_equal.
  assert (Hp : 0 < 2 ^ bits <= 128) by (split; [lia|apply (Z.pow_le_mono_r 2 bits 7); lia]).
  pose proof (Z.mod_pos_bound b0 (2 ^ bits) ltac:(lia)).
  change (2 ^ 18) with 262144. change (2 ^ 12) with 4096. change (2 ^ 6) with 64.
  change (2 ^ 0) with 1. rewrite !u32_small by zlia.
  change 262144 with (2 ^ 18). rewrite lor_shiftl_add by zlia.
  replace (b0 mod 2 ^ bits * 2 ^ 18 + b1 mod 64 * 4096)
    with ((b0 mod 2 ^ bits * 64 + b1 mod 64) * 2 ^ 12) by lia.
  rewrite lor_shiftl_add by zlia.
  replace ((b0 mod 2 ^ bits * 64 + b1 mod 64) * 2 ^ 12 + b2 mod 64 * 64)
    with (((b0 mod 2 ^ bits * 64 + b1 mod 64) * 64 + b2 mod 64) * 2 ^ 6) by lia.
  rewrite lor_shiftl_add by zlia. lia.
Qed.

(** The length of the sequence that a leading byte announces. *)
Definition length_class (b : Z) : Z :=
  if b <? 0x80 then 1 else if b <? 0xc0 then 0 else if b <? 0xe0 then 2
  else if b <? 0xf0 then 3 else if b <? 0xf8 then 4 else 0.

Lemma lengths_spec b : is_byte b -> nth (Z.to_nat (b / 8)) lengths 0 = length_class b.
Proof.
  intros Hb. apply Z.eqb_eq. revert b Hb. apply forall_byte. vm_compute. reflexivity.
Qed.

Lemma decode_ascii b : 0 <= b < 0x80 -> utf8_char_to_unicode_scalar b = b.
Proof.
  intros Hb. replace b with (pack_bytes [b; 0; 0; 0]) at 1 by (cbn; lia).
  rewrite (decode_bytes_correct _ _ _ _ 1 7 18); try (done || unfold is_byte; lia).
  - unfold decode_bytes. change (2 ^ 7) with 128. zlia.
  - rewrite lengths_spec by (unfold is_byte; lia). unfold length_class.
    by destruct (Z.ltb_spec b 0x80); [|lia].
Qed.

Ltac solve_length_class :=
  rewrite lengths_spec by (unfold is_byte; lia); unfold length_class;
  repeat match goal with |- context [?a <? ?b] => destruct (Z.ltb_spec a b); try lia end.

Lemma decode_2 b0 b1 :
  0xc0 <= b0 < 0xe0 -> is_byte b1 ->
  utf8_char_to_unicode_scalar (pack_bytes [b0; b1]) = b0 mod 32 * 64 + b1 mod 64.
Proof.
  intros H0 H1. change (pack_bytes [b0; b1]) with (pack_bytes [b0; b1; 0; 0]).
  unfold is_byte in *.
  rewrite (decode_bytes_correct _ _ _ _ 2 5 12); try (done || unfold is_byte; lia).
  - unfold decode_bytes. change (2 ^ 5) with 32. zlia.
  - solve_length_class.
Qed.

Lemma decode_3 b0 b1 b2 :
  0xe0 <= b0 < 0xf0 -> is_byte b1 -> is_byte b2 ->
  utf8_char_to_unicode_scalar (pack_bytes [b0; b1; b2]) =
  b0 mod 16 * 4096 + b1 mod 64 * 64 + b2 mod 64.
Proof.
  intros H0 H1 H2. change (pack_bytes [b0; b1; b2]) with (pack_bytes [b0; b1; b2; 0]).
  unfold is_byte in *.
  rewrite (decode_bytes_correct _ _ _ _ 3 4 6); try (done || unfold is_byte; lia).
  - unfold decode_bytes. change (2 ^ 4) with 16. zlia.
  - solve_length_class.
Qed.

Lemma decode_4 b0 b1 b2 b3 :
  0xf0 <= b0 < 0xf8 -> is_byte b1 -> is_byte b2 -> is_byte b3 ->
  utf8_char_to_unicode_scalar (pack_bytes [b0; b1; b2; b3]) =
  b0 mod 8 * 262144 + b1 mod 64 * 4096 + b2 mod 64 * 64 + b3 mod 64.
Proof.
  intros H0 H1 H2 H3. unfold is_byte in *.
  rewrite (decode_bytes_correct _ _ _ _ 4 3 0); try (done || unfold is_byte; lia).
  - unfold decode_bytes. change (2 ^ 3) with 8. change (2 ^ 0) with 1. zlia.
  - solve_length_class.
Qed.

Lemma decode_encode c :
  0 <= c <= 0x10ffff -> utf8_char_to_unicode_scalar (pack_bytes (utf8_encode c)) = c.
Proof.
  intros Hc. unfold utf8_encode.
  destruct (Z.ltb_spec c 0x80).
  { cbn [pack_bytes]. rewrite Z.mul_0_r, Z.add_0_r. apply decode_ascii; lia. }
  destruct (Z.ltb_spec c 0x800).
  { rewrite decode_2 by (unfold is_byte; zlia). zlia. }
  destruct (Z.ltb_spec c 0x10000).
  { rewrite decode_3 by (unfold is_byte; zlia). zlia. }
  rewrite decode_4 by (unfold is_byte; zlia). zlia.
Qed.

(** * Character classes *)

Lemma is_ascii_spec c : is_ascii c = true <-> byte_val c < 128.
Proof.
  unfold is_ascii. pose proof (byte_val_range c).
  rewrite Z.eqb_eq, Z.shiftr_div_pow2 by lia. change (2 ^ 7) with 128. zlia.
Qed.

Lemma identifier_char_is_ascii c : is_ascii_identifier_char c = true -> is_ascii c = true.
Proof. revert c. apply (forall_ascii_impl is_ascii_identifier_char). vm_compute. reflexivity. Qed.

(** ** Properties *)

(** C28. Both XID predicates of the lexer decide membership of the decoded
    scalar value in their Unicode table: the binary search over the table of
    ranges never misses a range and never invents one. *)
Theorem xid_predicates_decide_tables : forall utf8_char,
  (is_utf8_xid_start_char utf8_char = true <->
   in_table xid_start_table (utf8_char_to_unicode_scalar utf8_char)) /\
  (is_utf8_xid_continue_char utf8_char = true <->
   in_table xid_continue_table (utf8_char_to_unicode_scalar utf8_char)).
Proof.
  intros n. split; [apply xid_start_spec|apply xid_continue_spec].
Qed.

(** C27. Decoding inverts UTF-8: for every Unicode scalar value, the packed bytes
    of its UTF-8 encoding, as the lexer builds them, decode to that value. *)
Theorem utf8_decode_encode : forall c,
  0 <= c <= 0x10ffff -> utf8_char_to_unicode_scalar (pack_bytes (utf8_encode c)) = c.
Proof. exact decode_encode. Qed.

Lemma utf8_decode_encode_witness :
  utf8_encode 0x1f4a0 = [0xf0; 0x9f; 0x92; 0xa0] /\
  utf8_char_to_unicode_scalar (pack_bytes (utf8_encode 0x1f4a0)) = 0x1f4a0.
Proof. split; [reflexivity|]. apply (utf8_decode_encode 0x1f4a0). lia. Defined.

(** Every character that may start an identifier may also continue one. *)
Theorem xid_start_implies_continue : forall utf8_char,
  is_utf8_xid_start_char utf8_char = true -> is_utf8_xid_continue_char utf8_char = true.
Proof.
  intros n. rewrite xid_start_spec, xid_continue_spec.
  apply table_covers_spec, xid_start_covered.
Qed.

Lemma xid_start_implies_continue_witness :
  is_utf8_xid_start_char 0x80cf = true /\ is_utf8_xid_continue_char 0x80cf = true.
Proof.
  assert (H : is_utf8_xid_start_char 0x80cf = true) by (vm_compute; reflexivity).
  split; [exact H|]. exact (xid_start_implies_continue 0x80cf H).
Defined.
