(* ===== verification/Utf16.v ===== *)
(** The conversion of strings for the Windows API (src/cero/util/utf16.win.cc):
    the encodings, the documented behaviour of the API's conversion calls, and that
    the buffers of utf8_to_utf16 and utf16_to_utf8 are large enough, so that the
    functions invert each other on valid text. *)

From Stdlib Require Import Ascii String.
From S2P Require Import Prelude Platform FileViewWindows UnicodeTables Unicode.

(** * Encodings *)

(** A Unicode scalar value: a code point that is not a surrogate. *)
Definition scalar (c : Z) : Prop := 0 <= c < 0xd800 \/ 0xe000 <= c <= 0x10ffff.

Definition utf16_encode (c : Z) : list Z :=
  if c <? 0x10000 then [c] else [0xd800 + (c - 0x10000) / 1024; 0xdc00 + (c - 0x10000) mod 1024].

Definition byte_char (b : Z) : ascii := ascii_of_N (Z.to_N b).

(** The texts of a sequence of scalar values. *)
Definition utf8_text (cs : list Z) : text := flat_map (fun c => map byte_char (utf8_encode c)) cs.
Definition utf16_text (cs : list Z) : wide_text := flat_map utf16_encode cs.

(** What the API documents for valid text: the converted text and its length when
    the buffer is large enough, and 0 when it is not. *)
Class CodePagesLaws `{CodePages} : Prop := {
  MultiByteToWideChar_spec cs cap :
    Forall scalar cs -> 0 < Z.of_nat (length (utf8_text cs)) < 2 ^ 31 -> 0 < cap < 2 ^ 31 ->
    (Z.of_nat (length (utf16_text cs)) <= cap ->
     MultiByteToWideChar (utf8_text cs) (Z.of_nat (length (utf8_text cs))) cap =
       (utf16_text cs, Z.of_nat (length (utf16_text cs)))) /\
    (cap < Z.of_nat (length (utf16_text cs)) ->
     (MultiByteToWideChar (utf8_text cs) (Z.of_nat (length (utf8_text cs))) cap).2 = 0);
  WideCharToMultiByte_spec cs cap :
    Forall scalar cs -> 0 < Z.of_nat (length (utf16_text cs)) < 2 ^ 31 -> 0 < cap < 2 ^ 31 ->
    (Z.of_nat (length (utf8_text cs)) <= cap ->
     WideCharToMultiByte (utf16_text cs) (Z.of_nat (length (utf16_text cs))) cap =
       (utf8_text cs, Z.of_nat (length (utf8_text cs)))) /\
    (cap < Z.of_nat (length (utf8_text cs)) ->
     (WideCharToMultiByte (utf16_text cs) (Z.of_nat (length (utf16_text cs))) cap).2 = 0);
}.

(** * Lengths *)

(** A scalar value takes at least as many UTF-8 bytes as UTF-16 units, and at most
    three times as many. *)
Lemma encode_lengths c :
  (0 < length (utf16_encode c) <= length (utf8_encode c))%nat /\
  (length (utf8_encode c) <= 3 * length (utf16_encode c))%nat.
Proof.
  unfold utf16_encode, utf8_encode.
  destruct (Z.ltb_spec c 0x80), (Z.ltb_spec c 0x800), (Z.ltb_spec c 0x10000); cbn; lia.
Qed.

Lemma text_lengths cs :
  (length (utf16_text cs) <= length (utf8_text cs) <= 3 * length (utf16_text cs))%nat /\
  (length (utf16_text cs) = 0%nat <-> cs = []).
Proof.
  unfold utf16_text, utf8_text. induction cs as [|c cs [IH _]]; [done|]. cbn.
  rewrite !length_app, length_map. pose proof (encode_lengths c). split; [lia|split; [lia|done]].
Qed.

Lemma i32_small z : 0 <= z < 2 ^ 31 -> i32 z = z.
Proof. intros Hz. unfold i32. rewrite Z.mod_small by lia. lia. Qed.

(** Cutting the buffer down to what was written. *)
Lemma take_written {A} (units rest : list A) n :
  Z.of_nat (length units) = n -> n < 2 ^ 64 -> take (Z.to_nat (u64 n)) (units ++ rest) = units.
Proof.
  intros <- Hn. unfold u64. rewrite Z.mod_small by lia. by rewrite Nat2Z.id, take_app_length.
Qed.

Section Conversions.
Context `{CodePagesLaws}.

Lemma utf8_to_utf16_spec cs :
  Forall scalar cs -> Z.of_nat (length (utf8_text cs)) < 2 ^ 31 ->
  utf8_to_utf16 (utf8_text cs) = utf16_text cs.
Proof.
  intros Hcs Hlen. unfold utf8_to_utf16. pose proof (text_lengths cs) as [Hle Hnil].
  destruct (Z.eqb_spec (Z.of_nat (length (utf8_text cs))) 0) as [Hz|Hz].
  { symmetry. apply nil_length_inv. lia. }
  rewrite !i32_small by lia.
  destruct (MultiByteToWideChar_spec cs (Z.of_nat (length (utf8_text cs)))) as [Hw _]; [done|lia..|]. rewrite Hw by lia.
  apply take_written; lia.
Qed.

Lemma utf16_to_utf8_spec cs :
  Forall scalar cs -> 3 * Z.of_nat (length (utf16_text cs)) < 2 ^ 31 ->
  utf16_to_utf8 (utf16_text cs) = utf8_text cs.
Proof.
  intros Hcs Hlen. unfold utf16_to_utf8. pose proof (text_lengths cs) as [Hle Hnil].
  destruct (Z.eqb_spec (Z.of_nat (length (utf16_text cs))) 0) as [Hz|Hz].
  { symmetry. apply nil_length_inv. lia. }
  assert (Hcap : u64 (3 * Z.of_nat (length (utf16_text cs))) = 3 * Z.of_nat (length (utf16_text cs)))
    by (apply Z.mod_small; lia).
  rewrite Hcap, !i32_small by lia.
  destruct (WideCharToMultiByte_spec cs (3 * Z.of_nat (length (utf16_text cs)))) as [Hw _]; [done|lia..|]. rewrite Hw by lia.
  apply take_written; lia.
Qed.

End Conversions.

(** * A concrete conversion *)

(** The scalar values of a valid UTF-8 text; each round reads the bytes that the
    first one announces. *)
Fixpoint utf8_scalars (fuel : nat) (s : text) : list Z :=
  match fuel, s with
  | S fuel, c :: _ =>
      let n := Z.to_nat (Z.max 1 (length_class (byte_val c))) in
      utf8_char_to_unicode_scalar (pack_bytes (map byte_val (take n s))) :: utf8_scalars fuel (drop n s)
  | _, _ => []
  end.

Fixpoint utf16_scalars (s : wide_text) : list Z :=
  match s with
  | [] => []
  | c :: rest =>
      if (0xd800 <=? c) && (c <? 0xdc00) then
        match rest with
        | d :: rest => 0x10000 + (c - 0xd800) * 1024 + (d - 0xdc00) :: utf16_scalars rest
        | [] => []
        end
      else c :: utf16_scalars rest
  end.

Lemma byte_char_val b : is_byte b -> byte_val (byte_char b) = b.
Proof. unfold is_byte, byte_val, byte_char. intros. rewrite N_ascii_embedding; lia. Qed.

Lemma utf8_encode_bytes c : scalar c -> Forall is_byte (utf8_encode c).
Proof.
  unfold scalar, utf8_encode. intros.
  destruct (Z.ltb_spec c 0x80), (Z.ltb_spec c 0x800), (Z.ltb_spec c 0x10000);
    repeat constructor; unfold is_byte; zlia.
Qed.

Lemma utf8_encode_class c :
  scalar c -> exists b bs, utf8_encode c = b :: bs /\ is_byte b /\
    Z.to_nat (Z.max 1 (length_class b)) = length (b :: bs).
Proof.
  intros Hc. pose proof (utf8_encode_bytes c Hc) as Hb. unfold scalar, utf8_encode in *.
  destruct (Z.ltb_spec c 0x80), (Z.ltb_spec c 0x800), (Z.ltb_spec c 0x10000); try lia;
    eexists _, _; (split; [reflexivity|]); (split; [by inversion Hb|]);
    unfold length_class;
    repeat match goal with |- context [?a <? ?b] => destruct (Z.ltb_spec a b); try zlia end; done.
Qed.

Lemma utf8_scalars_text cs fuel :
  Forall scalar cs -> (length cs <= fuel)%nat -> utf8_scalars fuel (utf8_text cs) = cs.
Proof.
  intros Hcs. revert fuel. induction Hcs as [|c cs Hc _ IH]; intros fuel Hf; [by destruct fuel|].
  destruct fuel as [|fuel]; cbn in Hf; [lia|].
  destruct (utf8_encode_class c Hc) as (b & bs & He & Hb & Hn).
  pose proof (utf8_encode_bytes c Hc) as Hbytes.
  unfold utf8_text. cbn [flat_map]. fold (utf8_text cs). rewrite He in *. cbn [map app utf8_scalars].
  rewrite byte_char_val by done. rewrite Hn. change (byte_char b :: map byte_char bs ++ utf8_text cs)
    with (map byte_char (b :: bs) ++ utf8_text cs).
  rewrite <-(length_map byte_char (b :: bs)), take_app_length, drop_app_length, IH by lia.
  f_equal. rewrite map_map, (map_ext_Forall _ (fun x => x)), map_id; [rewrite <-He; apply decode_encode; unfold scalar in Hc; lia|].
  eapply Forall_impl; [exact Hbytes|]. intros x Hx. by apply byte_char_val.
Qed.

Lemma utf16_scalars_text cs : Forall scalar cs -> utf16_scalars (utf16_text cs) = cs.
Proof.
  induction 1 as [|c cs Hc _ IH]; [done|]. unfold utf16_text. cbn [flat_map]. fold (utf16_text cs).
  unfold scalar, utf16_encode in *. destruct (Z.ltb_spec c 0x10000); cbn [app utf16_scalars].
  - destruct (Z.leb_spec 0xd800 c), (Z.ltb_spec c 0xdc00); cbn; try lia; by rewrite IH.
  - destruct (Z.leb_spec 0xd800 (0xd800 + (c - 0x10000) / 1024)) as [|?]; [|zlia].
    destruct (Z.ltb_spec (0xd800 + (c - 0x10000) / 1024) 0xdc00) as [|?]; [|zlia]. cbn.
    rewrite IH. f_equal. zlia.
Qed.

(** Decoding and encoding, with the check of the buffer. *)
Definition convert {A} (out : list A) (cap : Z) : list A * Z :=
  if Z.of_nat (length out) <=? cap then (out, Z.of_nat (length out)) else ([], 0).

#[export] Instance simple_code_pages : CodePages := {|
  MultiByteToWideChar := fun input _ cap => convert (utf16_text (utf8_scalars (length input) input)) cap;
  WideCharToMultiByte := fun input _ cap => convert (utf8_text (utf16_scalars input)) cap;
|}.

Lemma length_utf8_text cs : (length cs <= length (utf8_text cs))%nat.
Proof.
  unfold utf8_text. induction cs as [|c cs IH]; [done|]. cbn. rewrite length_app, length_map.
  pose proof (encode_lengths c). lia.
Qed.

Lemma convert_spec {A} (out : list A) cap :
  (Z.of_nat (length out) <= cap -> convert out cap = (out, Z.of_nat (length out))) /\
  (cap < Z.of_nat (length out) -> (convert out cap).2 = 0).
Proof. unfold convert. destruct (Z.leb_spec (Z.of_nat (length out)) cap); split; intros; done || lia. Qed.

#[export] Instance simple_code_pages_laws : CodePagesLaws.
Proof.
  split; intros cs cap Hcs _ _; cbn [MultiByteToWideChar WideCharToMultiByte simple_code_pages].
  - rewrite utf8_scalars_text by (done || apply length_utf8_text). apply convert_spec.
  - rewrite utf16_scalars_text by done. apply convert_spec.
Qed.

(** * Round trip *)

(** C30. The conversions for the Windows API lose nothing: the buffers they pass, as
    many units as the input has bytes and three bytes for every unit, are large
    enough for every valid text, so that a text comes back from UTF-16 as it was,
    unless the length of the larger buffer does not fit an [int]. *)
Theorem utf16_conversions_roundtrip : forall `{CodePagesLaws} cs,
  Forall scalar cs -> 3 * Z.of_nat (length (utf8_text cs)) < 2 ^ 31 ->
  utf8_to_utf16 (utf8_text cs) = utf16_text cs /\
  utf16_to_utf8 (utf8_to_utf16 (utf8_text cs)) = utf8_text cs.
Proof.
  intros CP HL cs Hcs Hlen. pose proof (text_lengths cs) as [Hle _].
  rewrite utf8_to_utf16_spec by (done || lia). split; [done|]. apply utf16_to_utf8_spec; [done|lia].
Qed.

Lemma utf16_conversions_roundtrip_witness :
  let cs := [0x41; 0xe9; 0x20ac; 0x1f600] in
  utf8_to_utf16 (utf8_text cs) = [0x41; 0xe9; 0x20ac; 0xd83d; 0xde00] /\
  Forall scalar cs /\ 3 * Z.of_nat (length (utf8_text cs)) < 2 ^ 31 /\
  utf8_to_utf16 (utf8_text cs) = utf16_text cs /\
  utf16_to_utf8 (utf8_to_utf16 (utf8_text cs)) = utf8_text cs.
Proof.
  assert (Hcs : Forall scalar [0x41; 0xe9; 0x20ac; 0x1f600])
    by (repeat constructor; unfold scalar; lia).
  split; [vm_compute; reflexivity|]. split; [exact Hcs|]. split; [vm_compute; reflexivity|].
  exact (utf16_conversions_roundtrip [0x41; 0xe9; 0x20ac; 0x1f600] Hcs eq_refl).
Defined.
