(* ===== verification/WindowsModel.v ===== *)
(** A concrete Windows system: files, handles, views and a console in memory. It
    satisfies the laws of [WindowsLaws], and with it the Windows variants of the
    file and console definitions evaluate. *)

From Stdlib Require Import String.
From stdpp Require Import gmap.
From S2P Require Import Prelude Platform FileViewWindows UnicodeTables Unicode Utf16 PosixModel FileView.

Record WindowsSystem := {
  win_entries : list (wide_text * Entry);
  win_handles : gmap Z text;
  win_views : gset (Z * Z);
  win_next_handle : Z;
  win_next_base : Z;
  win_last_error : Z;
  input_code_page : Z;
  output_code_page : Z;
  stdout_mode : option Z;
}.

Definition ERROR_FILE_NOT_FOUND : Z := 2.
Definition ERROR_ACCESS_DENIED : Z := 5.
Definition ERROR_INVALID_HANDLE : Z := 6.

(** The same system with other handles and views, after a call that succeeded, and
    with another last error, after one that failed. *)
Definition win_holding (handles : gmap Z text) (views : gset (Z * Z)) (w : WindowsSystem) : WindowsSystem :=
  {| win_entries := win_entries w; win_handles := handles; win_views := views;
     win_next_handle := win_next_handle w + 4; win_next_base := win_next_base w + 65536;
     win_last_error := win_last_error w; input_code_page := input_code_page w;
     output_code_page := output_code_page w; stdout_mode := stdout_mode w |}.

Definition win_failed (error : Z) (w : WindowsSystem) : WindowsSystem :=
  {| win_entries := win_entries w; win_handles := win_handles w; win_views := win_views w;
     win_next_handle := win_next_handle w; win_next_base := win_next_base w;
     win_last_error := error; input_code_page := input_code_page w;
     output_code_page := output_code_page w; stdout_mode := stdout_mode w |}.

Definition win_console (input : Z) (mode : option Z) (w : WindowsSystem) : WindowsSystem :=
  {| win_entries := win_entries w; win_handles := win_handles w; win_views := win_views w;
     win_next_handle := win_next_handle w; win_next_base := win_next_base w;
     win_last_error := win_last_error w; input_code_page := input;
     output_code_page := output_code_page w; stdout_mode := mode |}.

Fixpoint find_wide_entry (path : wide_text) (l : list (wide_text * Entry)) : option Entry :=
  match l with
  | [] => None
  | (name, entry) :: l => if bool_decide (name = path) then Some entry else find_wide_entry path l
  end.

(** A new handle for an object with this content; 0 and -1 are no handles. *)
Definition new_handle (content : text) (failure : Z) (w : WindowsSystem) : Z * WindowsSystem :=
  let h := win_next_handle w in
  if bool_decide (is_Some (win_handles w !! h)) || (h =? INVALID_HANDLE_VALUE) || (h =? null_handle)
  then (failure, win_failed ERROR_INVALID_HANDLE w)
  else (h, win_holding (<[h := content]> (win_handles w)) (win_views w) w).

Definition mem_CreateFileW (path : wide_text) (w : WindowsSystem) : Z * WindowsSystem :=
  match find_wide_entry path (win_entries w) with
  | None => (INVALID_HANDLE_VALUE, win_failed ERROR_FILE_NOT_FOUND w)
  | Some directory => (INVALID_HANDLE_VALUE, win_failed ERROR_ACCESS_DENIED w)
  | Some (regular content) => new_handle content INVALID_HANDLE_VALUE w
  end.

Definition mem_GetFileSizeEx (h : Z) (w : WindowsSystem) : bool * Z * WindowsSystem :=
  match win_handles w !! h with
  | Some content => (true, Z.of_nat (length content), w)
  | None => (false, 0, win_failed ERROR_INVALID_HANDLE w)
  end.

Definition mem_CreateFileMappingW (h : Z) (w : WindowsSystem) : Z * WindowsSystem :=
  match win_handles w !! h with
  | Some content => new_handle content null_handle w
  | None => (null_handle, win_failed ERROR_INVALID_HANDLE w)
  end.

Definition mem_MapViewOfFile (h : Z) (w : WindowsSystem) : option Region * WindowsSystem :=
  match win_handles w !! h with
  | Some content =>
      let region := {| base := win_next_base w; bytes := content |} in
      if bool_decide (region_extent region ∈ win_views w) then (None, win_failed ERROR_INVALID_HANDLE w)
      else (Some region, win_holding (win_handles w) ({[region_extent region]} ∪ win_views w) w)
  | None => (None, win_failed ERROR_INVALID_HANDLE w)
  end.

Definition mem_UnmapViewOfFile (region : Region) (w : WindowsSystem) : bool * WindowsSystem :=
  (true, win_holding (win_handles w) (win_views w ∖ {[region_extent region]}) w).

Definition mem_CloseHandle (h : Z) (w : WindowsSystem) : bool * WindowsSystem :=
  (true, win_holding (delete h (win_handles w)) (win_views w) w).

(** The handle of the standard output of a process with a console. *)
Definition stdout_handle : Z := 7.

#[export] Instance mem_windows : Windows WindowsSystem := {|
  win_code_pages := simple_code_pages;
  CreateFileW := mem_CreateFileW;
  GetFileSizeEx := mem_GetFileSizeEx;
  CreateFileMappingW := mem_CreateFileMappingW;
  MapViewOfFile := mem_MapViewOfFile;
  UnmapViewOfFile := mem_UnmapViewOfFile;
  CloseHandle := mem_CloseHandle;
  GetLastError := win_last_error;
  default_error_condition := fun code =>
    if code =? ERROR_ACCESS_DENIED then 13 else if code =? ERROR_INVALID_HANDLE then 22 else code;
  SetConsoleCP := fun code_page w => (true, win_console code_page (stdout_mode w) w);
  GetStdHandle := fun _ w => (stdout_handle, w);
  GetConsoleMode := fun h w =>
    match stdout_mode w with
    | Some mode => if h =? stdout_handle then (true, mode, w) else (false, 0, win_failed ERROR_INVALID_HANDLE w)
    | None => (false, 0, win_failed ERROR_INVALID_HANDLE w)
    end;
  SetConsoleMode := fun h mode w =>
    if (h =? stdout_handle) && bool_decide (is_Some (stdout_mode w))
    then (true, win_console (input_code_page w) (Some mode) w)
    else (false, win_failed ERROR_INVALID_HANDLE w);
|}.

#[export] Instance mem_windows_resources : Resources WindowsSystem := {|
  open_handles := fun w => dom (win_handles w);
  mapped_at := win_views;
|}.

#[export] Instance mem_windows_platform : Platform WindowsSystem := CERO_SYSTEM_WINDOWS mem_windows.

Lemma new_handle_spec content failure w h w' :
  new_handle content failure w = (h, w') ->
  win_views w' = win_views w /\
  (h = failure /\ dom (win_handles w') = dom (win_handles w) \/
   (h <> INVALID_HANDLE_VALUE /\ h <> null_handle) /\ (h ∉ dom (win_handles w)) /\
   dom (win_handles w') = {[h]} ∪ dom (win_handles w)).
Proof.
  unfold new_handle. case_bool_decide as Hd; cbn [orb]; [by intros [= <- <-]; auto|].
  destruct (Z.eqb_spec (win_next_handle w) INVALID_HANDLE_VALUE); [by intros [= <- <-]; auto|].
  destruct (Z.eqb_spec (win_next_handle w) null_handle); [by intros [= <- <-]; auto|].
  intros [= <- <-]. split; [done|]. right. cbn.
  rewrite dom_insert_L, not_elem_of_dom, <-eq_None_not_Some in *. done.
Qed.

#[export] Program Instance mem_windows_laws : WindowsLaws WindowsSystem.
Next Obligation.
  cbn. unfold mem_CreateFileW. intros path w h w'.
  destruct (find_wide_entry _ _) as [[content|]|]; [|by intros [= <- <-]; auto..].
  intros [? [?|([? ?] & ? & ?)]]%new_handle_spec; auto.
Qed.
Next Obligation.
  cbn. unfold mem_GetFileSizeEx. intros h w success n w'. by destruct (_ !! _); intros [= <- <- <-].
Qed.
Next Obligation.
  cbn. unfold mem_CreateFileMappingW. intros h w m w'.
  destruct (_ !! _) as [content|]; [|by intros [= <- <-]; auto].
  intros [? [?|([? ?] & ? & ?)]]%new_handle_spec; auto.
Qed.
Next Obligation.
  cbn. unfold mem_MapViewOfFile. intros h w view w'.
  destruct (_ !! _); [case_bool_decide|]; by intros [= <- <-].
Qed.
Next Obligation. cbn. unfold mem_UnmapViewOfFile. intros region w success w' [= <- <-] _. by right. Qed.
Next Obligation.
  cbn. unfold mem_CloseHandle. intros h w success w' [= <- <-] _. cbn. split; [done|]. right. by rewrite dom_delete_L.
Qed.

#[export] Instance mem_windows_platform_laws : PlatformLaws WindowsSystem := mem_windows_laws.

(** A process with a console that still has the old code pages. *)
Definition windows_system (files : list (text * Entry)) : WindowsSystem :=
  {| win_entries := map (fun f => (utf8_to_utf16 f.1, f.2)) files; win_handles := ∅; win_views := ∅;
     win_next_handle := 4; win_next_base := 65536; win_last_error := 0;
     input_code_page := 437; output_code_page := 437; stdout_mode := Some 3 |}.

Example windows_file_view :
  exists view w', FileView.from (lit "a.ce") (windows_system [(lit "a.ce", regular (lit "f(){}"))]) = Done (inl view) w' /\
    FileView.get_text view = lit "f(){}".
Proof. eexists _, _. vm_compute. split; reflexivity. Qed.
