(* ===== verification/ConsoleReporter.v ===== *)
(** The set-up of the console (src/cero/report/console_reporter.posix.cc and
    console_reporter.win.cc). [ConsoleReporter] declares nothing else. *)

From Stdlib Require Import String.
From S2P Require Import Prelude Report Testing Platform PosixModel WindowsModel.

Definition CP_UTF8 : Z := 65001.
Definition STD_OUTPUT_HANDLE : Z := -11.
Definition ENABLE_VIRTUAL_TERMINAL_PROCESSING : Z := 4.

Section ConsoleReporter.
Context {W : Type} `{Fmt} `{SystemMessages}.

(** The state: the system and the lines printed so far. *)
Definition C (A : Type) : Type := M (W * list text) A.

Definition on_console {A} (m : M W A) : C A := fun s =>
  match m s.1 with
  | Done a w => Done a (w, s.2)
  | Thrown w => Thrown (w, s.2)
  | Aborted => Aborted
  | OutOfFuel => OutOfFuel
  end.

(** [fmt::println] *)
Definition println (format : text) (args : list FormatArg) : C unit :=
  modify (fun s => (s.1, s.2 ++ [vformat format args])).

Section Windows.
Context `{Windows W}.
#[local] Instance platform : Platform W := CERO_SYSTEM_WINDOWS _.

Definition print_failure (what : string) : C unit :=
  msg <- on_console get_system_error_msg ;;
  println (lit what ++ lit ", {}") [arg_string msg].

Definition enable_utf8_output : C unit :=
  success <- on_console (call (SetConsoleCP CP_UTF8)) ;;
  if negb success then print_failure "failed to set console output code page to UTF-8"
  else ret tt.

Definition enable_virtual_terminal_sequences : C unit :=
  std_out <- on_console (call (GetStdHandle STD_OUTPUT_HANDLE)) ;;
  if std_out =? INVALID_HANDLE_VALUE then
    print_failure "failed to get stdout handle to enable virtual terminal sequences"
  else
    result <- on_console (call (GetConsoleMode std_out)) ;;
    let (success, mode) := result : bool * Z in
    if negb success then
      print_failure "failed to get console mode to enable virtual terminal sequences"
    else
      let mode := Z.lor mode ENABLE_VIRTUAL_TERMINAL_PROCESSING in
      success <- on_console (call (SetConsoleMode std_out mode)) ;;
      if negb success then
        print_failure "failed to set console mode to enable virtual terminal sequences"
      else ret tt.

Definition win_init_console_environment : C unit :=
  enable_utf8_output ;; enable_virtual_terminal_sequences.

End Windows.

Definition posix_init_console_environment : C unit := ret tt.

Definition init_console_environment `{P : Platform W} : C unit :=
  match P with
  | CERO_SYSTEM_POSIX _ => posix_init_console_environment
  | CERO_SYSTEM_WINDOWS _ => win_init_console_environment
  end.

End ConsoleReporter.

(** * What the set-up does *)

(** The documented behaviour of the console calls on the two code pages and the
    mode of the screen buffer of a handle. [SetConsoleCP] sets the code page of the
    input. *)
Class ConsoleLaws (W : Type) `{Windows W} := {
  console_input_cp : W -> Z;
  console_output_cp : W -> Z;
  console_mode : Z -> W -> option Z;
  SetConsoleCP_spec code_page w success w' :
    SetConsoleCP code_page w = (success, w') ->
    console_output_cp w' = console_output_cp w /\ (forall h, console_mode h w' = console_mode h w) /\
    console_input_cp w' = (if success then code_page else console_input_cp w);
  GetStdHandle_spec which w h w' :
    GetStdHandle which w = (h, w') ->
    console_output_cp w' = console_output_cp w /\ console_input_cp w' = console_input_cp w /\
    (forall h, console_mode h w' = console_mode h w);
  GetConsoleMode_spec h w success mode w' :
    GetConsoleMode h w = (success, mode, w') ->
    console_output_cp w' = console_output_cp w /\ console_input_cp w' = console_input_cp w /\
    (forall h, console_mode h w' = console_mode h w) /\
    (success = true -> console_mode h w = Some mode);
  SetConsoleMode_spec h mode w success w' :
    SetConsoleMode h mode w = (success, w') ->
    console_output_cp w' = console_output_cp w /\ console_input_cp w' = console_input_cp w /\
    (success = true -> console_mode h w' = Some mode);
}.

Section ConsoleFacts.
Context {W : Type} `{CL : ConsoleLaws W} `{Fmt} `{SystemMessages}.
#[local] Existing Instance platform.

Lemma wp_on_console_call {A} (f : W -> A * W) (Q : A -> W * list text -> Prop) E w out :
  (forall a w', f w = (a, w') -> Q a (w', out)) -> wp (on_console (call f)) Q E (w, out).
Proof. intros HQ. unfold wp, on_console, call. cbn. destruct (f w) eqn:Hf. by apply HQ. Qed.

Lemma wp_print_failure what (Q : unit -> W * list text -> Prop) E w out :
  (forall line, Q tt (w, out ++ [line])) -> wp (print_failure what) Q E (w, out).
Proof. intros HQ. unfold wp, print_failure, bind, on_console. cbn. apply HQ. Qed.

(** The set-up without a printed line: UTF-8 for the input, and the terminal bit in
    the mode of the handle of the output. *)
Definition console_ready (w w' : W) : Prop :=
  console_input_cp w' = CP_UTF8 /\
  exists h mode, console_mode h w = Some mode /\
    console_mode h w' = Some (Z.lor mode ENABLE_VIRTUAL_TERMINAL_PROCESSING).

Definition console_outcome (w : W) (out : list text) (s' : W * list text) : Prop :=
  console_output_cp s'.1 = console_output_cp w /\
  exists lines, s'.2 = out ++ lines /\ (lines = [] -> console_ready w s'.1).

Lemma enable_utf8_output_spec w out :
  wp enable_utf8_output (fun _ s' =>
    console_output_cp s'.1 = console_output_cp w /\ (forall h, console_mode h s'.1 = console_mode h w) /\
    exists lines, s'.2 = out ++ lines /\ (lines = [] -> console_input_cp s'.1 = CP_UTF8)) no_throw (w, out).
Proof.
  unfold enable_utf8_output. apply wp_bind, wp_on_console_call. intros success w1 Hc.
  apply SetConsoleCP_spec in Hc as (Ho & Hm & Hi). destruct success; cbn [negb].
  - wp_step. split_and!; [done..|]. exists []. by rewrite app_nil_r.
  - apply wp_print_failure. intros line. split_and!; [done..|]. by exists [line].
Qed.

Lemma enable_virtual_terminal_sequences_spec w out :
  wp enable_virtual_terminal_sequences (fun _ s' =>
    console_output_cp s'.1 = console_output_cp w /\ console_input_cp s'.1 = console_input_cp w /\
    exists lines, s'.2 = out ++ lines /\ (lines = [] -> exists h mode, console_mode h w = Some mode /\
      console_mode h s'.1 = Some (Z.lor mode ENABLE_VIRTUAL_TERMINAL_PROCESSING))) no_throw (w, out).
Proof.
  unfold enable_virtual_terminal_sequences. apply wp_bind, wp_on_console_call. intros h w1 Hc.
  apply GetStdHandle_spec in Hc as (Ho1 & Hi1 & Hm1). destruct (h =? INVALID_HANDLE_VALUE).
  { apply wp_print_failure. intros line. split_and!; [done..|]. by exists [line]. }
  apply wp_bind, wp_on_console_call. intros [success mode] w2 Hc.
  apply GetConsoleMode_spec in Hc as (Ho2 & Hi2 & Hm2 & Hmode). destruct success; cbn [negb].
  2: { apply wp_print_failure. intros line. cbn. split_and!; [congruence..|]. by exists [line]. }
  apply wp_bind, wp_on_console_call. intros success w3 Hc.
  apply SetConsoleMode_spec in Hc as (Ho3 & Hi3 & Hmode3). destruct success; cbn [negb].
  - wp_step. cbn. split_and!; [congruence..|]. exists []. rewrite app_nil_r. split; [done|].
    intros _. exists h, mode. rewrite <-Hm1. auto.
  - apply wp_print_failure. intros line. cbn. split_and!; [congruence..|]. by exists [line].
Qed.

Lemma win_init_console_environment_spec w out :
  wp win_init_console_environment (fun _ s' => console_outcome w out s') no_throw (w, out).
Proof.
  unfold win_init_console_environment. apply wp_bind. eapply wp_post; [apply enable_utf8_output_spec|].
  cbv beta. intros _ [w1 out1] (Ho1 & Hm1 & lines1 & Hout1 & Hi1). cbn in *. subst out1.
  eapply wp_post; [apply enable_virtual_terminal_sequences_spec|].
  cbv beta. intros _ [w2 out2] (Ho2 & Hi2 & lines2 & Hout2 & Hm2). cbn in *. subst out2.
  split; [cbn; congruence|]. exists (lines1 ++ lines2). cbn. rewrite <-app_assoc. split; [done|].
  intros [-> ->]%app_nil. split; [rewrite Hi2; by apply Hi1|].
  destruct (Hm2 eq_refl) as (h & mode & Hh & ?). exists h, mode. by rewrite <-Hm1.
Qed.

End ConsoleFacts.

(** C32. Setting up the console on Windows always returns and, unless it prints a
    failure, turns on the terminal sequences of the output; but the code page that it
    sets to UTF-8 is that of the input: the code page of the output, which the
    function is named for and the reports are written with, stays what it was. *)
Theorem console_output_code_page_unchanged :
  forall {W : Type} `{CL : ConsoleLaws W} `{Fmt} `{SystemMessages} w out,
  exists w' lines,
    win_init_console_environment (w, out) = Done tt (w', out ++ lines) /\
    console_output_cp w' = console_output_cp w /\
    (lines = [] -> console_ready w w').
Proof.
  intros W HW CL F SM w out.
  destruct (wp_elim _ _ _ (win_init_console_environment_spec w out))
    as ([] & [w' out'] & Hrun & Ho & lines & Hlines & Hr).
  cbn in *. subst out'. by exists w', lines.
Qed.

#[export] Program Instance mem_console_laws : ConsoleLaws WindowsSystem := {|
  console_input_cp := input_code_page;
  console_output_cp := output_code_page;
  console_mode := fun h w => if h =? stdout_handle then stdout_mode w else None;
|}.
Next Obligation. cbn. by intros code_page w success w' [= <- <-]. Qed.
Next Obligation. cbn. by intros which w h w' [= <- <-]. Qed.
Next Obligation.
  cbn. intros h w success mode w'.
  destruct (stdout_mode w) eqn:Hm; [destruct (h =? stdout_handle)|]; intros [= <- <- <-];
    cbn; rewrite ?Hm; split_and!; intros; done.
Qed.
Next Obligation.
  cbn. intros h mode w success w'. destruct (h =? stdout_handle); cbn; [|by intros [= <- <-]].
  case_bool_decide; intros [= <- <-]; cbn; split_and!; auto; intros; done.
Qed.

Lemma console_output_code_page_unchanged_witness :
  let messages : SystemMessages := fun _ => [] in
  exists w' lines,
    win_init_console_environment (windows_system [], []) = Done tt (w', [] ++ lines) /\
    console_output_cp w' = 437 /\
    (lines = [] -> console_ready (windows_system []) w').
Proof.
  intros messages. exact (console_output_code_page_unchanged (windows_system []) []).
Defined.
