(* ===== verification/Token.v ===== *)
(** Tokens (src/cero/syntax/token.hh, token.cc), the token list that the lexer
    fills (token_list.hh, token_list.cc) and the cursor with which the parser
    reads it (token_cursor.hh). *)

From Stdlib Require Import Ascii String.
From S2P Require Import Prelude Report Source.

(** * Token kinds *)

Module TokenKind.

Inductive t :=
| identifier
| line_comment
| block_comment
| dec_int_literal
| hex_int_literal
| bin_int_literal
| oct_int_literal
| float_literal
| char_literal
| string_literal
| kw_break
| kw_catch
| kw_const
| kw_continue
| kw_do
| kw_else
| kw_enum
| kw_for
| kw_if
| kw_in
| kw_interface
| kw_let
| kw_mut
| kw_private
| kw_public
| kw_raise
| kw_return
| kw_static
| kw_struct
| kw_switch
| kw_try
| kw_unchecked
| kw_while
| dot
| comma
| colon
| semicolon
| l_brace
| r_brace
| l_paren
| r_paren
| l_bracket
| r_bracket
| l_angle
| r_angle
| eq
| plus
| minus
| star
| slash
| percent
| ampersand
| pipe
| tilde
| caret
| bang
| thin_arrow
| thick_arrow
| colon_colon
| plus_plus
| minus_minus
| l_angle_angle
| and_and
| pipe_pipe
| eq_eq
| bang_eq
| l_angle_eq
| r_angle_eq
| plus_eq
| minus_eq
| star_eq
| slash_eq
| percent_eq
| ampersand_eq
| pipe_eq
| tilde_eq
| l_angle_angle_eq
| r_angle_angle_eq
| and_and_eq
| pipe_pipe_eq
| end_of_file.

(** All kinds, in the order of the enumeration. *)
Definition all : list t :=
  [identifier; line_comment; block_comment; dec_int_literal; hex_int_literal; bin_int_literal;
   oct_int_literal; float_literal; char_literal; string_literal; kw_break; kw_catch; kw_const;
   kw_continue; kw_do; kw_else; kw_enum; kw_for; kw_if; kw_in; kw_interface; kw_let; kw_mut;
   kw_private; kw_public; kw_raise; kw_return; kw_static; kw_struct; kw_switch; kw_try;
   kw_unchecked; kw_while; dot; comma; colon; semicolon; l_brace; r_brace; l_paren; r_paren;
   l_bracket; r_bracket; l_angle; r_angle; eq; plus; minus; star; slash; percent; ampersand;
   pipe; tilde; caret; bang; thin_arrow; thick_arrow; colon_colon; plus_plus; minus_minus;
   l_angle_angle; and_and; pipe_pipe; eq_eq; bang_eq; l_angle_eq; r_angle_eq; plus_eq;
   minus_eq; star_eq; slash_eq; percent_eq; ampersand_eq; pipe_eq; tilde_eq; l_angle_angle_eq;
   r_angle_angle_eq; and_and_eq; pipe_pipe_eq; end_of_file].

(** The underlying value of an enumerator. *)
Definition index (kind : t) : nat :=
  match kind with
  | identifier => 0
  | line_comment => 1
  | block_comment => 2
  | dec_int_literal => 3
  | hex_int_literal => 4
  | bin_int_literal => 5
  | oct_int_literal => 6
  | float_literal => 7
  | char_literal => 8
  | string_literal => 9
  | kw_break => 10
  | kw_catch => 11
  | kw_const => 12
  | kw_continue => 13
  | kw_do => 14
  | kw_else => 15
  | kw_enum => 16
  | kw_for => 17
  | kw_if => 18
  | kw_in => 19
  | kw_interface => 20
  | kw_let => 21
  | kw_mut => 22
  | kw_private => 23
  | kw_public => 24
  | kw_raise => 25
  | kw_return => 26
  | kw_static => 27
  | kw_struct => 28
  | kw_switch => 29
  | kw_try => 30
  | kw_unchecked => 31
  | kw_while => 32
  | dot => 33
  | comma => 34
  | colon => 35
  | semicolon => 36
  | l_brace => 37
  | r_brace => 38
  | l_paren => 39
  | r_paren => 40
  | l_bracket => 41
  | r_bracket => 42
  | l_angle => 43
  | r_angle => 44
  | eq => 45
  | plus => 46
  | minus => 47
  | star => 48
  | slash => 49
  | percent => 50
  | ampersand => 51
  | pipe => 52
  | tilde => 53
  | caret => 54
  | bang => 55
  | thin_arrow => 56
  | thick_arrow => 57
  | colon_colon => 58
  | plus_plus => 59
  | minus_minus => 60
  | l_angle_angle => 61
  | and_and => 62
  | pipe_pipe => 63
  | eq_eq => 64
  | bang_eq => 65
  | l_angle_eq => 66
  | r_angle_eq => 67
  | plus_eq => 68
  | minus_eq => 69
  | star_eq => 70
  | slash_eq => 71
  | percent_eq => 72
  | ampersand_eq => 73
  | pipe_eq => 74
  | tilde_eq => 75
  | l_angle_angle_eq => 76
  | r_angle_angle_eq => 77
  | and_and_eq => 78
  | pipe_pipe_eq => 79
  | end_of_file => 80
  end.

Definition eqb (k1 k2 : t) : bool := (index k1 =? index k2)%nat.

Lemma all_index kind : all !! index kind = Some kind.
Proof. by destruct kind. Qed.

Lemma index_inj k1 k2 : index k1 = index k2 -> k1 = k2.
Proof. intros H. pose proof (all_index k1) as H1. rewrite H, all_index in H1. by injection H1. Qed.

Lemma eqb_eq k1 k2 : eqb k1 k2 = true <-> k1 = k2.
Proof.
  unfold eqb. rewrite Nat.eqb_eq. split; [apply index_inj|by intros ->].
Qed.

(** What a computation shows of every kind. *)
Lemma forall_kind (P : t -> bool) : forallb P all = true -> forall kind, P kind = true.
Proof.
  intros Hall kind. rewrite forallb_forall in Hall. apply Hall.
  eapply list_elem_of_In, list_elem_of_lookup_2, all_index.
Qed.

Lemma eqb_spec k1 k2 : reflect (k1 = k2) (eqb k1 k2).
Proof. apply iff_reflect. by rewrite eqb_eq. Qed.

Lemma eqb_refl kind : eqb kind kind = true.
Proof. by apply eqb_eq. Qed.

#[global] Instance eq_dec : EqDecision t.
Proof.
  intros k1 k2. destruct (eqb k1 k2) eqn:E; [left; by apply eqb_eq|right].
  intros H%eqb_eq. congruence.
Defined.

End TokenKind.

(** * Tokens *)

(** [kind] and [offset] share one 32-bit word: 8 and 24 bits. *)
Record Token := {
  kind : TokenKind.t;
  offset : Z;
  variable_length : Z;
}.

(** The constructor; the third argument is 0 by default. *)
Definition make_token (_kind : TokenKind.t) (_offset _variable_length : Z) : Token :=
  {| kind := _kind;
     offset := Z.land _offset 0xffffff;
     variable_length := _variable_length |}.

Definition fixed_token (_kind : TokenKind.t) (_offset : Z) : Token := make_token _kind _offset 0.

(** [Token::locate_in] *)
Definition Token_locate_in (token : Token) (source : SourceView.t) (tab_size : Z)
    : option CodeLocation :=
  SourceView.locate source (offset token) tab_size.

(** The switch of [Token::get_text]: the spelling of a fixed-length token;
    [None] for the kinds that reach [assert_unreachable]. *)
Definition spelling (kind : TokenKind.t) : option text :=
  match kind with
  | TokenKind.kw_break => Some (lit "break")
  | TokenKind.kw_catch => Some (lit "catch")
  | TokenKind.kw_const => Some (lit "const")
  | TokenKind.kw_continue => Some (lit "continue")
  | TokenKind.kw_do => Some (lit "do")
  | TokenKind.kw_else => Some (lit "else")
  | TokenKind.kw_enum => Some (lit "enum")
  | TokenKind.kw_for => Some (lit "for")
  | TokenKind.kw_if => Some (lit "if")
  | TokenKind.kw_in => Some (lit "in")
  | TokenKind.kw_interface => Some (lit "interface")
  | TokenKind.kw_let => Some (lit "let")
  | TokenKind.kw_mut => Some (lit "mut")
  | TokenKind.kw_private => Some (lit "private")
  | TokenKind.kw_public => Some (lit "public")
  | TokenKind.kw_raise => Some (lit "raise")
  | TokenKind.kw_return => Some (lit "return")
  | TokenKind.kw_static => Some (lit "static")
  | TokenKind.kw_struct => Some (lit "struct")
  | TokenKind.kw_switch => Some (lit "switch")
  | TokenKind.kw_try => Some (lit "try")
  | TokenKind.kw_unchecked => Some (lit "unchecked")
  | TokenKind.kw_while => Some (lit "while")
  | TokenKind.dot => Some (lit ".")
  | TokenKind.comma => Some (lit ",")
  | TokenKind.colon => Some (lit ":")
  | TokenKind.semicolon => Some (lit ";")
  | TokenKind.l_brace => Some (lit "{")
  | TokenKind.r_brace => Some (lit "}")
  | TokenKind.l_paren => Some (lit "(")
  | TokenKind.r_paren => Some (lit ")")
  | TokenKind.l_bracket => Some (lit "[")
  | TokenKind.r_bracket => Some (lit "]")
  | TokenKind.l_angle => Some (lit "<")
  | TokenKind.r_angle => Some (lit ">")
  | TokenKind.eq => Some (lit "=")
  | TokenKind.plus => Some (lit "+")
  | TokenKind.minus => Some (lit "-")
  | TokenKind.star => Some (lit "*")
  | TokenKind.slash => Some (lit "/")
  | TokenKind.percent => Some (lit "%")
  | TokenKind.ampersand => Some (lit "&")
  | TokenKind.pipe => Some (lit "|")
  | TokenKind.tilde => Some (lit "~")
  | TokenKind.caret => Some (lit "^")
  | TokenKind.bang => Some (lit "!")
  | TokenKind.thin_arrow => Some (lit "->")
  | TokenKind.thick_arrow => Some (lit "=>")
  | TokenKind.colon_colon => Some (lit "::")
  | TokenKind.plus_plus => Some (lit "++")
  | TokenKind.minus_minus => Some (lit "--")
  | TokenKind.l_angle_angle => Some (lit "<<")
  | TokenKind.and_and => Some (lit "&&")
  | TokenKind.pipe_pipe => Some (lit "||")
  | TokenKind.eq_eq => Some (lit "==")
  | TokenKind.bang_eq => Some (lit "!=")
  | TokenKind.l_angle_eq => Some (lit "<=")
  | TokenKind.r_angle_eq => Some (lit ">=")
  | TokenKind.plus_eq => Some (lit "+=")
  | TokenKind.minus_eq => Some (lit "-=")
  | TokenKind.star_eq => Some (lit "*=")
  | TokenKind.slash_eq => Some (lit "/=")
  | TokenKind.percent_eq => Some (lit "%=")
  | TokenKind.ampersand_eq => Some (lit "&=")
  | TokenKind.pipe_eq => Some (lit "|=")
  | TokenKind.tilde_eq => Some (lit "~=")
  | TokenKind.l_angle_angle_eq => Some (lit "<<=")
  | TokenKind.r_angle_angle_eq => Some (lit ">>=")
  | TokenKind.and_and_eq => Some (lit "&&=")
  | TokenKind.pipe_pipe_eq => Some (lit "||=")
  | TokenKind.end_of_file => Some (lit "")
  | _ => None
  end.

(** [Token::get_text]; [None] is an exception or a failed assertion. *)
Definition Token_get_text (token : Token) (source : SourceView.t) : option text :=
  if 0 <? variable_length token then
    substr (SourceView.get_text source) (offset token) (variable_length token)
  else spelling (kind token).

Definition get_token_message_format (kind : TokenKind.t) : text :=
  match kind with
  | TokenKind.identifier => lit "name `{}`"
  | TokenKind.line_comment
  | TokenKind.block_comment => lit "comment"
  | TokenKind.dec_int_literal
  | TokenKind.hex_int_literal
  | TokenKind.bin_int_literal
  | TokenKind.oct_int_literal => lit "integer literal `{}`"
  | TokenKind.float_literal => lit "floating-point literal `{}`"
  | TokenKind.char_literal => lit "character literal {}"
  | TokenKind.string_literal => lit "string literal {}"
  | TokenKind.end_of_file => lit "end of file"
  | _ => lit "`{}`"
  end.

(** * TokenList *)

(** [TokenList::put] appends at the end of the vector. *)
Definition TokenList : Type := list Token.
Definition new_token_list : TokenList := [].
Definition put (token_list : TokenList) (token : Token) : TokenList := token_list ++ [token].
Definition get_array (token_list : TokenList) : list Token := token_list.

(** * TokenCursor *)

(** The cursor is an iterator into the token array; it stands for the tokens
    from the current one on. Reading past the end of the array is undefined and
    modelled as [None]. *)
Module TokenCursor.

Definition t : Type := list Token.

Definition new (token_list : TokenList) : t := get_array token_list.

(** [*it_] *)
Definition peek (it : t) : option Token := head it.

Definition peek_kind (it : t) : option TokenKind.t := kind <$> peek it.

Definition peek_offset (it : t) : option Z := offset <$> peek it.

Definition peek_ahead (it : t) : option Token :=
  match peek it with
  | None => None
  | Some token =>
      if TokenKind.eqb (kind token) TokenKind.end_of_file then Some token else it !! 1%nat
  end.

Definition advance (it : t) : option t :=
  match it with
  | [] => None
  | token :: rest =>
      if TokenKind.eqb (kind token) TokenKind.end_of_file then Some it else Some rest
  end.

Definition next (it : t) : option (Token * t) :=
  match peek it, advance it with
  | Some token, Some it' => Some (token, it')
  | _, _ => None
  end.

Definition match_kind (it : t) (expected : TokenKind.t) : option (bool * t) :=
  match peek it with
  | None => None
  | Some token =>
      if TokenKind.eqb (kind token) expected then
        match advance it with Some it' => Some (true, it') | None => None end
      else Some (false, it)
  end.

Definition match_token (it : t) (expected : TokenKind.t) : option (option Token * t) :=
  match peek it with
  | None => None
  | Some token =>
      if TokenKind.eqb (kind token) expected then
        match advance it with Some it' => Some (Some token, it') | None => None end
      else Some (None, it)
  end.

Definition is_comment (kind : TokenKind.t) : bool :=
  TokenKind.eqb kind TokenKind.line_comment || TokenKind.eqb kind TokenKind.block_comment.

Fixpoint skip_comments (it : t) : option t :=
  match it with
  | [] => None
  | token :: rest => if is_comment (kind token) then skip_comments rest else Some it
  end.

End TokenCursor.
