(* ===== verification/Keywords.v ===== *)
(** The keyword table and its encoding as 64-bit integers
    (src/cero/syntax/keywords.hh). *)

From Stdlib Require Import Ascii String.
From S2P Require Import Prelude Report Source Token.

Record Keyword := {
  lexeme : text;
  kw_kind : TokenKind.t;
}.

Definition keywords : list Keyword :=
  [{| lexeme := lit "break"; kw_kind := TokenKind.kw_break |};
   {| lexeme := lit "catch"; kw_kind := TokenKind.kw_catch |};
   {| lexeme := lit "const"; kw_kind := TokenKind.kw_const |};
   {| lexeme := lit "continue"; kw_kind := TokenKind.kw_continue |};
   {| lexeme := lit "do"; kw_kind := TokenKind.kw_do |};
   {| lexeme := lit "else"; kw_kind := TokenKind.kw_else |};
   {| lexeme := lit "enum"; kw_kind := TokenKind.kw_enum |};
   {| lexeme := lit "for"; kw_kind := TokenKind.kw_for |};
   {| lexeme := lit "if"; kw_kind := TokenKind.kw_if |};
   {| lexeme := lit "in"; kw_kind := TokenKind.kw_in |};
   {| lexeme := lit "interface"; kw_kind := TokenKind.kw_interface |};
   {| lexeme := lit "let"; kw_kind := TokenKind.kw_let |};
   {| lexeme := lit "mut"; kw_kind := TokenKind.kw_mut |};
   {| lexeme := lit "private"; kw_kind := TokenKind.kw_private |};
   {| lexeme := lit "public"; kw_kind := TokenKind.kw_public |};
   {| lexeme := lit "raise"; kw_kind := TokenKind.kw_raise |};
   {| lexeme := lit "return"; kw_kind := TokenKind.kw_return |};
   {| lexeme := lit "static"; kw_kind := TokenKind.kw_static |};
   {| lexeme := lit "struct"; kw_kind := TokenKind.kw_struct |};
   {| lexeme := lit "switch"; kw_kind := TokenKind.kw_switch |};
   {| lexeme := lit "try"; kw_kind := TokenKind.kw_try |};
   {| lexeme := lit "unchecked"; kw_kind := TokenKind.kw_unchecked |};
   {| lexeme := lit "while"; kw_kind := TokenKind.kw_while |}].

(** The bytes of a string copied to the start of a zeroed 64-bit integer (little
    endian). *)
Fixpoint encode_bytes (s : text) : Z :=
  match s with [] => 0 | c :: rest => byte_val c + 256 * encode_bytes rest end.

(** [None] is the exception that makes the constant evaluation fail. *)
Definition encode_keyword_tail (keyword : text) : option Z :=
  match substr keyword 1 (2 ^ 64 - 1) with
  | None => None
  | Some tail => if 8 <? Z.of_nat (length tail) then None else Some (encode_bytes tail)
  end.

Record KeywordTail := {
  kt_tail : Z;
  kt_kind : TokenKind.t;
}.

(** [starts_with(first)] *)
Definition starts_with (s : text) (first : ascii) : bool :=
  match s with c :: _ => Ascii.eqb c first | [] => false end.

Fixpoint keyword_tails_from (first : ascii) (keywords : list Keyword) : option (list KeywordTail) :=
  match keywords with
  | [] => Some []
  | keyword :: rest =>
      match keyword_tails_from first rest with
      | None => None
      | Some tails =>
          if starts_with (lexeme keyword) first then
            match encode_keyword_tail (lexeme keyword) with
            | None => None
            | Some encoded => Some ({| kt_tail := encoded; kt_kind := kw_kind keyword |} :: tails)
            end
          else Some tails
      end
  end.

(** [get_keyword_tails<first>()]; [None] is a compile-time error. *)
Definition get_keyword_tails (first : ascii) : option (list KeywordTail) :=
  keyword_tails_from first keywords.

(** The keyword that a word is, if it is one: the specification of the lookup. *)
Fixpoint find_keyword (word : text) (keywords : list Keyword) : option TokenKind.t :=
  match keywords with
  | [] => None
  | keyword :: rest =>
      if bool_decide (lexeme keyword = word) then Some (kw_kind keyword) else find_keyword word rest
  end.

Definition keyword_kind (word : text) : option TokenKind.t := find_keyword word keywords.
