(* ===== verification/Flags.v ===== *)
(** Flag enumerations (src/cero/util/flags.hh) and the lexer's flags
    (src/cero/syntax/lexer.hh). An enumeration value is its underlying [int]. *)

From S2P Require Import Prelude.

(** [static_cast<T>(std::to_underlying(a) & std::to_underlying(b))] and so on. *)
Definition flags_and (a b : Z) : Z := Z.land a b.
Definition flags_or (a b : Z) : Z := Z.lor a b.
Definition flags_xor (a b : Z) : Z := Z.lxor a b.
Definition flags_not (t : Z) : Z := Z.lnot t.

(** The compound assignments return the new value of [a]. *)
Definition flags_and_assign (a b : Z) : Z := flags_and a b.
Definition flags_or_assign (a b : Z) : Z := flags_or a b.
Definition flags_xor_assign (a b : Z) : Z := flags_xor a b.

Definition has_flags (mask flags : Z) : bool := flags_and mask flags =? flags.

Module LexerFlags.
Definition none : Z := 0.
Definition emit_comments : Z := Z.shiftl 1 0.
End LexerFlags.

(** [has_flags] is inclusion of the set bits. *)
Lemma has_flags_bits mask flags :
  has_flags mask flags = true <->
  forall i, 0 <= i -> Z.testbit flags i = true -> Z.testbit mask i = true.
Proof.
  unfold has_flags, flags_and. rewrite Z.eqb_eq. split.
  - intros H i _ Hi. rewrite <-H, Z.land_spec in Hi. by apply andb_prop in Hi as [??].
  - intros H. apply Z.bits_inj'. intros i Hi. rewrite Z.land_spec.
    specialize (H i Hi). destruct (Z.testbit flags i); [|by rewrite andb_false_r].
    by rewrite H.
Qed.
