(* ===== verification/Lexer.v ===== *)
(** The lexer (src/cero/syntax/lexer.hh, lexer.cc): its state and one definition
    per member function. The theorems about it are in LexerFacts.v and the files
    after it. *)

From Stdlib Require Import Ascii String.
From S2P Require Import Prelude Report Source Unicode Token Keywords Flags.

#[local] Open Scope char_scope.
#[local] Open Scope Z_scope.

(** * State *)

(** The mutable members of [struct Lexer]; [reports_] is the sequence of reports
    that the reporter has received. The constant members [source_],
    [source_text_], [flags_] and [tab_size_] are the section's variables. *)
Record LexerState := {
  tokens_ : TokenList;
  cursor_ : SourceCursor;
  reports_ : list Report;
}.

Definition L (A : Type) : Type := M LexerState A.

Definition set_tokens (tokens : TokenList) (s : LexerState) : LexerState :=
  {| tokens_ := tokens; cursor_ := cursor_ s; reports_ := reports_ s |}.
Definition set_cursor (cursor : SourceCursor) (s : LexerState) : LexerState :=
  {| tokens_ := tokens_ s; cursor_ := cursor; reports_ := reports_ s |}.
Definition add_report (report : Report) (s : LexerState) : LexerState :=
  {| tokens_ := tokens_ s; cursor_ := cursor_ s; reports_ := reports_ s ++ [report] |}.

(** The measure of the lexer's loops: the characters left. *)
Definition remaining (s : LexerState) : nat := length (it_ (cursor_ s)).

(** * Calls on the members *)

(** [tokens_.put(token)] *)
Definition put_token (token : Token) : L unit := modify (fun s => set_tokens (put (tokens_ s) token) s).

(** [cursor_.peek()] and so on *)
Definition cursor_peek : L ascii := read (fun s => peek (cursor_ s)).
Definition cursor_valid : L bool := read (fun s => valid (cursor_ s)).
Definition cursor_offset : L Z := read (fun s => Source.offset (cursor_ s)).
Definition cursor_next : L ascii :=
  fun s => let (c, cursor) := next (cursor_ s) in Done c (set_cursor cursor s).
Definition cursor_advance : L unit :=
  fun s => match advance (cursor_ s) with
           | Some cursor => Done tt (set_cursor cursor s)
           | None => Aborted
           end.
Definition cursor_match (expected : ascii) : L bool :=
  fun s => let (b, cursor) := match_char (cursor_ s) expected in Done b (set_cursor cursor s).

(** [char] converts to [false] in a condition when it is null. *)
Definition is_null (c : ascii) : bool := Ascii.eqb c Ascii.zero.

(** [std::countl_one] on the low [n] bits of a byte. *)
Fixpoint countl_one (n : nat) (byte : Z) : nat :=
  match n with
  | O => O
  | S n => if Z.testbit byte (Z.of_nat n) then S (countl_one n byte) else O
  end.

Section Lexer.
Context `{Fmt} (source_ : SourceView.t) (flags_ tab_size_ : Z).

Definition source_text_ : text := SourceView.get_text source_.

Definition report (message : Message) (offset : Z) (args : MessageArgs) : L unit :=
  location <- expect_some (SourceView.locate source_ offset tab_size_) ;;
  r <- expect_some (make_report location message args) ;;
  modify (add_report r).

Definition get_offset_and_advance : L Z :=
  offset <- cursor_offset ;;
  cursor_advance ;;
  ret offset.

(** [cursor_.offset() - offset] *)
Definition length_from (offset : Z) : L Z :=
  now <- cursor_offset ;;
  ret (u32 (now - offset)).

(** * Identifiers and keywords *)

(** The loop of [consume_multibyte_utf8_char] over [count] more bytes. *)
Fixpoint continuation_bytes (count : nat) (i utf8_char : Z) : L Z :=
  match count with
  | O => ret utf8_char
  | S count =>
      c <- cursor_next ;;
      continuation_bytes count (i + 1) (Z.lor utf8_char (u32 (Z.shiftl (byte_val c) (i * 8))))
  end.

Definition consume_multibyte_utf8_char (begin : ascii) (offset : Z) (utf8_predicate : Z -> bool)
    : L bool :=
  let leading_byte := byte_val begin in
  let leading_ones := countl_one 8 leading_byte in
  let utf8_char := leading_byte in
  if (2 <=? leading_ones)%nat && (leading_ones <=? 4)%nat then
    utf8_char <- continuation_bytes (leading_ones - 1) 1 utf8_char ;;
    if utf8_predicate utf8_char then ret true
    else report invalid_character offset [arg_int utf8_char] ;; ret false
  else report invalid_character offset [arg_int utf8_char] ;; ret false.

Definition consume_word : L unit :=
  loop remaining (fun _ =>
    c <- cursor_peek ;;
    if is_null c then ret (Break tt)
    else if is_ascii_identifier_char c then cursor_advance ;; ret (Continue tt)
    else if is_ascii c then ret (Break tt)
    else
      offset <- get_offset_and_advance ;;
      ok <- consume_multibyte_utf8_char c offset is_utf8_xid_continue_char ;;
      if negb ok then ret (Break tt) else ret (Continue tt)) tt.

Definition on_alphabetic : L unit :=
  offset <- get_offset_and_advance ;;
  consume_word ;;
  length <- length_from offset ;;
  put_token (make_token TokenKind.identifier offset length).

(** The loop over the keyword tails. *)
Fixpoint find_tail (encoded : Z) (keyword_tails : list KeywordTail) : option TokenKind.t :=
  match keyword_tails with
  | [] => None
  | kw_tail :: rest =>
      if kt_tail kw_tail =? encoded then Some (kt_kind kw_tail) else find_tail encoded rest
  end.

Definition on_alphabetic_maybe_keyword (keyword_tails : list KeywordTail) : L unit :=
  offset <- get_offset_and_advance ;;
  consume_word ;;
  length <- length_from offset ;;
  if length <=? 8 + 1 then
    tail <- expect_some (substr source_text_ (u32 (offset + 1)) (u32 (length - 1))) ;;
    let encoded := encode_bytes tail in
    match find_tail encoded keyword_tails with
    | Some kind => put_token (fixed_token kind offset)
    | None => put_token (make_token TokenKind.identifier offset length)
    end
  else put_token (make_token TokenKind.identifier offset length).

(** [keyword_handler<first>] selects the handler at compile time. *)
Definition keyword_handler (first : ascii) : L unit :=
  match get_keyword_tails first with
  | None => abort
  | Some [] => on_alphabetic
  | Some keyword_tails => on_alphabetic_maybe_keyword keyword_tails
  end.

Definition on_other_char (character : ascii) : L unit :=
  offset <- get_offset_and_advance ;;
  ok <- consume_multibyte_utf8_char character offset is_utf8_xid_start_char ;;
  if ok : bool then
    consume_word ;;
    length <- length_from offset ;;
    put_token (make_token TokenKind.identifier offset length)
  else ret tt.

(** * Numbers *)

(** The inner [do ... while] loop over whitespace: the character after it. *)
Definition skip_whitespace : L ascii :=
  loop remaining (fun _ =>
    cursor_advance ;;
    c <- cursor_peek ;;
    if is_ascii_whitespace c then ret (Continue tt) else ret (Break c)) tt.

(** The loop leaves with [Some length] at its [return] and with [None] at a
    [break] or when its condition fails. *)
Definition consume_digit_sequence (digit_predicate : ascii -> bool) (offset : Z) : L Z :=
  result <- loop remaining (fun _ =>
    c <- cursor_peek ;;
    if is_null c then ret (Break None)
    else if digit_predicate c then cursor_advance ;; ret (Continue tt)
    else if negb (is_ascii_whitespace c) then ret (Break None)
    else
      length <- length_from offset ;;
      c <- skip_whitespace ;;
      if digit_predicate c then cursor_advance ;; ret (Continue tt)
      else ret (Break (Some length))) tt ;;
  match result with
  | Some length => ret length
  | None => length_from offset
  end.

Definition handle_decimal_literal (offset : Z) : L unit :=
  length <- consume_digit_sequence is_decimal_digit offset ;;
  c <- cursor_peek ;;
  if Ascii.eqb c "." then
    dot_offset <- get_offset_and_advance ;;
    length_after_dot <- consume_digit_sequence is_decimal_digit dot_offset ;;
    if 1 <? length_after_dot then
      let length := u32 (u32 (dot_offset - offset) + length_after_dot) in
      put_token (make_token TokenKind.float_literal offset length)
    else
      put_token (make_token TokenKind.dec_int_literal offset length) ;;
      put_token (fixed_token TokenKind.dot dot_offset)
  else put_token (make_token TokenKind.dec_int_literal offset length).

Definition on_zero : L unit :=
  offset <- get_offset_and_advance ;;
  x <- cursor_match "x" ;;
  if x : bool then
    length <- consume_digit_sequence is_hexadecimal_digit offset ;;
    put_token (make_token TokenKind.hex_int_literal offset length)
  else
    b <- cursor_match "b" ;;
    if b : bool then
      length <- consume_digit_sequence is_decimal_digit offset ;;
      put_token (make_token TokenKind.bin_int_literal offset length)
    else
      o <- cursor_match "o" ;;
      if o : bool then
        length <- consume_digit_sequence is_decimal_digit offset ;;
        put_token (make_token TokenKind.oct_int_literal offset length)
      else handle_decimal_literal offset.

Definition on_nonzero : L unit :=
  offset <- get_offset_and_advance ;;
  handle_decimal_literal offset.

Definition on_dot : L unit :=
  offset <- get_offset_and_advance ;;
  length <- consume_digit_sequence is_decimal_digit offset ;;
  if 1 <? length then put_token (make_token TokenKind.float_literal offset length)
  else put_token (fixed_token TokenKind.dot offset).

(** * Operators and punctuation *)

Definition on_one_char_token (kind : TokenKind.t) : L unit :=
  offset <- get_offset_and_advance ;;
  put_token (fixed_token kind offset).

(** [if (cursor_.match(c)) { yes } else { no }] *)
Definition if_match (c : ascii) (yes no : L unit) : L unit :=
  b <- cursor_match c ;;
  if b : bool then yes else no.

Definition on_left_angle : L unit :=
  offset <- get_offset_and_advance ;;
  if_match "<"
    (if_match "=" (put_token (fixed_token TokenKind.l_angle_angle_eq offset))
                  (put_token (fixed_token TokenKind.l_angle_angle offset)))
    (if_match "=" (put_token (fixed_token TokenKind.l_angle_eq offset))
                  (put_token (fixed_token TokenKind.l_angle offset))).

Definition on_right_angle : L unit :=
  offset <- get_offset_and_advance ;;
  if_match ">"
    (if_match "=" (put_token (fixed_token TokenKind.r_angle_angle_eq offset))
                  (put_token (fixed_token TokenKind.r_angle offset) ;;
                   put_token (fixed_token TokenKind.r_angle (u32 (offset + 1)))))
    (if_match "=" (put_token (fixed_token TokenKind.r_angle_eq offset))
                  (put_token (fixed_token TokenKind.r_angle offset))).

Definition on_colon : L unit :=
  offset <- get_offset_and_advance ;;
  if_match ":" (put_token (fixed_token TokenKind.colon_colon offset))
               (put_token (fixed_token TokenKind.colon offset)).

Definition on_equals : L unit :=
  offset <- get_offset_and_advance ;;
  if_match "=" (put_token (fixed_token TokenKind.eq_eq offset))
    (if_match ">" (put_token (fixed_token TokenKind.thick_arrow offset))
                  (put_token (fixed_token TokenKind.eq offset))).

Definition on_plus : L unit :=
  offset <- get_offset_and_advance ;;
  if_match "+" (put_token (fixed_token TokenKind.plus_plus offset))
    (if_match "=" (put_token (fixed_token TokenKind.plus_eq offset))
                  (put_token (fixed_token TokenKind.plus offset))).

Definition on_minus : L unit :=
  offset <- get_offset_and_advance ;;
  if_match ">" (put_token (fixed_token TokenKind.thin_arrow offset))
    (if_match "-" (put_token (fixed_token TokenKind.minus_minus offset))
      (if_match "=" (put_token (fixed_token TokenKind.minus_eq offset))
                    (put_token (fixed_token TokenKind.minus offset)))).

Definition on_star : L unit :=
  offset <- get_offset_and_advance ;;
  if_match "=" (put_token (fixed_token TokenKind.star_eq offset))
               (put_token (fixed_token TokenKind.star offset)).

Definition on_percent : L unit :=
  offset <- get_offset_and_advance ;;
  if_match "=" (put_token (fixed_token TokenKind.percent_eq offset))
               (put_token (fixed_token TokenKind.percent offset)).

Definition on_ampersand : L unit :=
  offset <- get_offset_and_advance ;;
  if_match "&"
    (if_match "=" (put_token (fixed_token TokenKind.and_and_eq offset))
                  (put_token (fixed_token TokenKind.and_and offset)))
    (if_match "=" (put_token (fixed_token TokenKind.ampersand_eq offset))
                  (put_token (fixed_token TokenKind.ampersand offset))).

Definition on_pipe : L unit :=
  offset <- get_offset_and_advance ;;
  if_match "|"
    (if_match "=" (put_token (fixed_token TokenKind.pipe_pipe_eq offset))
                  (put_token (fixed_token TokenKind.pipe_pipe offset)))
    (if_match "=" (put_token (fixed_token TokenKind.pipe_eq offset))
                  (put_token (fixed_token TokenKind.pipe offset))).

Definition on_tilde : L unit :=
  offset <- get_offset_and_advance ;;
  if_match "=" (put_token (fixed_token TokenKind.tilde_eq offset))
               (put_token (fixed_token TokenKind.tilde offset)).

Definition on_bang : L unit :=
  offset <- get_offset_and_advance ;;
  if_match "=" (put_token (fixed_token TokenKind.bang_eq offset))
               (put_token (fixed_token TokenKind.bang offset)).

(** * Comments *)

Definition consume_line_comment : L unit :=
  loop remaining (fun _ =>
    c <- cursor_peek ;;
    if is_null c then ret (Break tt)
    else if Ascii.eqb c newline then ret (Break tt)
    else cursor_advance ;; ret (Continue tt)) tt.

(** A round of the loop, whose local variable is [unclosed_count]: it leaves with
    [true] at the [return] and with [false] at the end of the source. *)
Definition comment_round (unclosed_count : Z) : L (Loop Z bool) :=
  v <- cursor_valid ;;
  if negb v then ret (Break false)
  else
    star <- cursor_match "*" ;;
    if star : bool then
      slash <- cursor_match "/" ;;
      if slash : bool then
        let unclosed_count := u32 (unclosed_count - 1) in
        if unclosed_count =? 0 then ret (Break true) else ret (Continue unclosed_count)
      else ret (Continue unclosed_count)
    else
      slash <- cursor_match "/" ;;
      if slash : bool then
        star <- cursor_match "*" ;;
        if star : bool then ret (Continue (u32 (unclosed_count + 1)))
        else ret (Continue unclosed_count)
      else cursor_advance ;; ret (Continue unclosed_count).

Definition consume_block_comment (offset : Z) : L unit :=
  closed <- loop remaining comment_round 1 ;;
  if closed : bool then ret tt
  else report unterminated_block_comment offset [].

Definition emit_comment (kind : TokenKind.t) (offset : Z) : L unit :=
  if has_flags flags_ LexerFlags.emit_comments then
    length <- length_from offset ;;
    put_token (make_token kind offset length)
  else ret tt.

Definition on_slash : L unit :=
  offset <- get_offset_and_advance ;;
  if_match "/" (consume_line_comment ;; emit_comment TokenKind.line_comment offset)
    (if_match "*" (consume_block_comment offset ;; emit_comment TokenKind.block_comment offset)
      (if_match "=" (put_token (fixed_token TokenKind.slash_eq offset))
                    (put_token (fixed_token TokenKind.slash offset)))).

(** * Quoted literals *)

(** The loop's local variable is [ignore_quote]. *)
Definition consume_quoted (quote : ascii) : L unit :=
  loop remaining (fun ignore_quote =>
    c <- cursor_peek ;;
    if is_null c then ret (Break tt)
    else if Ascii.eqb c newline then
      now <- cursor_offset ;;
      report missing_closing_quote now [] ;;
      ret (Break tt)
    else
      cursor_advance ;;
      if Ascii.eqb c "\" then ret (Continue (xorb ignore_quote true))
      else if Ascii.eqb c quote && negb ignore_quote then ret (Break tt)
      else if ignore_quote : bool then ret (Continue false)
      else ret (Continue ignore_quote)) false.

Definition on_quote (kind : TokenKind.t) (quote : ascii) : L unit :=
  offset <- get_offset_and_advance ;;
  consume_quoted quote ;;
  length <- length_from offset ;;
  put_token (make_token kind offset length).

(** * The main loop *)

Definition handle_next_character (character : ascii) : L unit :=
  match character with
  | " " | "009" | "010" | "011" | "012" | "013" => cursor_advance
  | "A" | "B" | "C" | "D" | "E" | "F" | "G" | "H" | "I" | "J" | "K" | "L" | "M"
  | "N" | "O" | "P" | "Q" | "R" | "S" | "T" | "U" | "V" | "W" | "X" | "Y" | "Z"
  | "_" => on_alphabetic
  | "a" | "b" | "c" | "d" | "e" | "f" | "g" | "h" | "i" | "j" | "k" | "l" | "m"
  | "n" | "o" | "p" | "q" | "r" | "s" | "t" | "u" | "v" | "w" | "x" | "y" | "z" =>
      keyword_handler character
  | "0" => on_zero
  | "1" | "2" | "3" | "4" | "5" | "6" | "7" | "8" | "9" => on_nonzero
  | "(" => on_one_char_token TokenKind.l_paren
  | ")" => on_one_char_token TokenKind.r_paren
  | "[" => on_one_char_token TokenKind.l_bracket
  | "]" => on_one_char_token TokenKind.r_bracket
  | "{" => on_one_char_token TokenKind.l_brace
  | "}" => on_one_char_token TokenKind.r_brace
  | "," => on_one_char_token TokenKind.comma
  | ";" => on_one_char_token TokenKind.semicolon
  | "^" => on_one_char_token TokenKind.caret
  | "<" => on_left_angle
  | ">" => on_right_angle
  | "." => on_dot
  | ":" => on_colon
  | "=" => on_equals
  | "+" => on_plus
  | "-" => on_minus
  | "*" => on_star
  | "/" => on_slash
  | "%" => on_percent
  | "&" => on_ampersand
  | "|" => on_pipe
  | "~" => on_tilde
  | "!" => on_bang
  | "034" => on_quote TokenKind.string_literal double_quote
  | "'" => on_quote TokenKind.char_literal "'"
  | _ => on_other_char character
  end.

Definition handle_source : L unit :=
  loop remaining (fun _ =>
    c <- cursor_peek ;;
    if is_null c then ret (Break tt)
    else handle_next_character c ;; ret (Continue tt)) tt ;;
  v <- cursor_valid ;;
  if v : bool then
    now <- cursor_offset ;;
    report invalid_character now [arg_int 0]
  else ret tt.

Definition run : L unit :=
  (if Z.of_nat (length source_text_) <=? source_size_max then handle_source
   else
     r <- expect_some (make_report
            {| path := SourceView.get_path source_; line := 0; column := 0 |}
            source_file_too_large [arg_int source_size_max]) ;;
     modify (add_report r)) ;;
  now <- cursor_offset ;;
  put_token (fixed_token TokenKind.end_of_file now).

(** [run_lexer] on a reporter that has received [reports]. *)
Definition run_lexer : M (list Report) TokenList :=
  fun reports =>
    let lexer := {| tokens_ := new_token_list; cursor_ := new_cursor source_; reports_ := reports |} in
    match run lexer with
    | Done _ lexer => Done (tokens_ lexer) (reports_ lexer)
    | Thrown lexer => Thrown (reports_ lexer)
    | Aborted => Aborted
    | OutOfFuel => OutOfFuel
    end.

End Lexer.
