(* ===== verification/LexerWords.v ===== *)
(** Words: which bytes the lexer's [consume_word] reads, and that comparing the
    64-bit encodings of keyword tails recognises exactly the keywords. *)

From Stdlib Require Import Ascii String.
From S2P Require Import Prelude Report Source SourceFacts Unicode Token Keywords Lexer.

(** * Words *)

(** [consume_word] reads a sequence of chunks: an ASCII identifier character, or
    a non-ASCII byte with the bytes taken for its continuation. *)
Definition word_chunk (w : text) : Prop :=
  match w with
  | [] => False
  | c :: rest => (is_ascii_identifier_char c = true /\ rest = []) \/ is_ascii c = false
  end.

Inductive word : text -> Prop :=
| word_nil : word []
| word_app chunk w : word_chunk chunk -> word w -> word (chunk ++ w).

(** Plain ASCII keyword text. *)
Definition plain (s : text) : Prop := Forall (fun c => is_ascii_identifier_char c = true) s.

(** * Lemmas *)

Lemma word_snoc w chunk : word w -> word_chunk chunk -> word (w ++ chunk).
Proof.
  induction 1 as [|c w Hc _ IH]; intros Hchunk; cbn.
  - rewrite <-(app_nil_r chunk). by constructor; [|constructor].
  - rewrite <-app_assoc. constructor; auto.
Qed.

Lemma identifier_char_val c : is_ascii_identifier_char c = true -> 0 < byte_val c < 128.
Proof.
  intros H.
  assert (Hb : ((0 <? byte_val c) && (byte_val c <? 128)) = true).
  { revert c H. apply forall_ascii_impl. vm_compute. reflexivity. }
  lia.
Qed.

Lemma non_ascii_val c : is_ascii c = false -> 128 <= byte_val c.
Proof. intros H. destruct (is_ascii_spec c). destruct (is_ascii c); [done|]. naive_solver lia. Qed.

Lemma encode_bytes_nonneg s : 0 <= encode_bytes s.
Proof.
  induction s as [|c s IH]; cbn [encode_bytes]; [done|]. pose proof (byte_val_range c). lia.
Qed.

Lemma encode_bytes_cons_inj c s d t :
  byte_val c + 256 * encode_bytes s = byte_val d + 256 * encode_bytes t ->
  c = d /\ encode_bytes s = encode_bytes t.
Proof.
  intros H. pose proof (byte_val_range c). pose proof (byte_val_range d).
  assert (byte_val c = byte_val d) by lia. split; [by apply byte_val_inj|lia].
Qed.

(** The encoding separates a word from every plain text: the zero bytes that pad
    a short tail cannot be mistaken for part of a word. *)
Lemma encode_word_inj w k : word w -> plain k -> encode_bytes w = encode_bytes k -> w = k.
Proof.
  intros Hw. revert k. induction Hw as [|chunk w Hchunk _ IH]; intros k Hk He.
  - destruct Hk as [|c k Hc Hk]; [done|]. cbn [encode_bytes] in He.
    pose proof (identifier_char_val c Hc). pose proof (encode_bytes_nonneg k). lia.
  - destruct chunk as [|c rest]; [done|]. cbn [app encode_bytes] in He.
    destruct Hk as [|d k Hd Hk]; cbn [encode_bytes] in He.
    + pose proof (encode_bytes_nonneg (rest ++ w)).
      destruct Hchunk as [[Hc _]|Hc];
        [apply identifier_char_val in Hc|apply non_ascii_val in Hc]; lia.
    + apply encode_bytes_cons_inj in He as [-> He].
      destruct Hchunk as [[Hc ->]|Hc]; cbn in *.
      * f_equal. by apply IH.
      * apply non_ascii_val in Hc. apply identifier_char_val in Hd. lia.
Qed.

(** ** The keyword table *)

Definition keyword_ok (keyword : Keyword) : bool :=
  forallb is_ascii_identifier_char (lexeme keyword)
  && (2 <=? length (lexeme keyword))%nat && (length (lexeme keyword) <=? 9)%nat
  && char_between "a" "z" (nth 0 (lexeme keyword) Ascii.zero).

Lemma keywords_ok : forallb keyword_ok keywords = true.
Proof. vm_compute. reflexivity. Qed.

Lemma keyword_ok_inv kw :
  keyword_ok kw = true ->
  plain (lexeme kw) /\ (2 <= length (lexeme kw) <= 9)%nat /\
  char_between "a" "z" (nth 0 (lexeme kw) Ascii.zero) = true.
Proof.
  unfold keyword_ok. intros [[[Hall H2%Nat.leb_le]%andb_prop H9%Nat.leb_le]%andb_prop Hc]%andb_prop.
  split; [|done]. apply Forall_forall. intros d Hd.
  rewrite forallb_forall in Hall. by apply Hall, list_elem_of_In.
Qed.

Lemma encode_keyword_tail_spec first rest :
  (length rest <= 8)%nat -> encode_keyword_tail (first :: rest) = Some (encode_bytes rest).
Proof.
  intros H. unfold encode_keyword_tail. change (first :: rest) with ([first] ++ rest).
  pose proof (substr_suffix [first] rest (2 ^ 64 - 1) ltac:(unfold len; lia)) as Hs.
  change (len [first]) with 1 in Hs. rewrite Hs.
  destruct (Z.ltb_spec 8 (Z.of_nat (length rest))); [lia|done].
Qed.

(** Looking a word up among the tails for its first character. *)
Lemma find_tail_from first kws :
  forallb keyword_ok kws = true ->
  exists tails, keyword_tails_from first kws = Some tails /\
    forall w, word w -> find_tail (encode_bytes w) tails = find_keyword (first :: w) kws.
Proof.
  induction kws as [|kw kws IH]; cbn [forallb keyword_tails_from find_keyword]; intros Hok.
  { by exists []. }
  apply andb_prop in Hok as [Hkw Hok]. destruct (IH Hok) as (tails & -> & Htails).
  apply keyword_ok_inv in Hkw as (Hplain & Hlen & _).
  destruct (lexeme kw) as [|c rest] eqn:Hlex; cbn [length] in Hlen; [lia|].
  apply Forall_cons in Hplain as [_ Hplain]. cbn [starts_with].
  destruct (Ascii.eqb_spec c first) as [->|Hne].
  - rewrite encode_keyword_tail_spec by lia.
    eexists; split; [done|]. intros w Hw. cbn [find_tail kt_tail kt_kind].
    destruct (Z.eqb_spec (encode_bytes rest) (encode_bytes w)) as [He|He].
    + assert (w = rest) as ->.
      { by apply encode_word_inj. }
      by rewrite bool_decide_true.
    + rewrite bool_decide_false by (intros [= ->]; congruence). by apply Htails.
  - exists tails. split; [done|]. intros w Hw.
    rewrite bool_decide_false by congruence. by apply Htails.
Qed.

Lemma get_keyword_tails_spec first :
  exists tails, get_keyword_tails first = Some tails /\
    forall w, word w -> find_tail (encode_bytes w) tails = keyword_kind (first :: w).
Proof. apply find_tail_from, keywords_ok. Qed.

Lemma find_keyword_in w kws k :
  find_keyword w kws = Some k -> exists kw, kw ∈ kws /\ lexeme kw = w /\ kw_kind kw = k.
Proof.
  induction kws as [|kw kws IH]; cbn [find_keyword]; [done|].
  case_bool_decide as He.
  - intros [= <-]. exists kw. split; [by left|done].
  - intros Hk. destruct (IH Hk) as (kw' & ? & ?). exists kw'. split; [by right|done].
Qed.

Lemma keyword_kind_ok w k :
  keyword_kind w = Some k ->
  (2 <= length w <= 9)%nat /\ plain w /\ char_between "a" "z" (nth 0 w Ascii.zero) = true.
Proof.
  intros (kw & Hin & <- & _)%find_keyword_in.
  pose proof keywords_ok as Hok. rewrite forallb_forall in Hok.
  specialize (Hok kw ltac:(by apply list_elem_of_In)).
  apply keyword_ok_inv in Hok. naive_solver.
Qed.

(** A keyword token's spelling is the keyword. *)
Definition keyword_spelled (keyword : Keyword) : bool :=
  bool_decide (spelling (kw_kind keyword) = Some (lexeme keyword)).

Lemma keyword_kind_spelling w k : keyword_kind w = Some k -> spelling k = Some w.
Proof.
  intros (kw & Hin & <- & <-)%find_keyword_in.
  assert (Hall : forallb keyword_spelled keywords = true) by (vm_compute; reflexivity).
  rewrite forallb_forall in Hall. specialize (Hall kw ltac:(by apply list_elem_of_In)).
  by apply bool_decide_eq_true in Hall.
Qed.

(** No keyword starts like a word that has no keyword handler. *)
Lemma keyword_kind_first c w :
  char_between "a" "z" c = false -> keyword_kind (c :: w) = None.
Proof.
  intros Hc. destruct (keyword_kind (c :: w)) as [k|] eqn:Hk; [|done].
  apply keyword_kind_ok in Hk as (_ & _ & Hz). cbn in Hz. congruence.
Qed.

Lemma keyword_kind_no_tails c w :
  get_keyword_tails c = Some [] -> word w -> keyword_kind (c :: w) = None.
Proof.
  intros Hc Hw. destruct (get_keyword_tails_spec c) as (tails & Ht & Hf).
  rewrite Hc in Ht. injection Ht as <-. by rewrite <-Hf.
Qed.

Lemma keyword_kind_long w : (9 < length w)%nat -> keyword_kind w = None.
Proof.
  intros Hl. destruct (keyword_kind w) as [k|] eqn:Hk; [|done].
  apply keyword_kind_ok in Hk as [? _]. lia.
Qed.
