(* ===== verification/LexerFacts.v ===== *)
(** The behaviour of the lexer as runs: what each member function reads, which
    tokens it puts and which reports it makes, independently of the tokens and
    reports that are already there. *)

From Stdlib Require Import Ascii String.
From S2P Require Import Prelude Report Platform FileView Source SourceFacts Unicode Token Keywords Flags.
From S2P Require Import Lexer LexerWords.

(** 24 bits hold every offset of a source of admissible size. *)
Lemma offset_mask n : 0 <= n <= source_size_max -> Z.land n 0xffffff = n.
Proof.
  intros Hn. change 0xffffff with (2 ^ 24 - 1). change source_size_max with (2 ^ 24 - 1) in Hn.
  rewrite land_low_bits by lia. apply Z.mod_small. lia.
Qed.

(** What a run of a member function did: the text it read, the tokens it put and
    the reports it made. *)
Record Trace := {
  read_ : text;
  emitted : list Token;
  reported : list Report;
}.

Definition tnil : Trace := {| read_ := []; emitted := []; reported := [] |}.
Definition tread (w : text) : Trace := {| read_ := w; emitted := []; reported := [] |}.
Definition tput (token : Token) : Trace := {| read_ := []; emitted := [token]; reported := [] |}.
Definition treport (r : Report) : Trace := {| read_ := []; emitted := []; reported := [r] |}.
Definition tapp (a b : Trace) : Trace :=
  {| read_ := read_ a ++ read_ b;
     emitted := emitted a ++ emitted b;
     reported := reported a ++ reported b |}.
Infix "+++" := tapp (at level 60, right associativity) : cero_scope.

Lemma tapp_nil_l tr : tnil +++ tr = tr.
Proof. by destruct tr. Qed.
Lemma tapp_nil_r tr : tr +++ tnil = tr.
Proof. destruct tr. unfold tapp. cbn. by rewrite !app_nil_r. Qed.
Lemma tapp_assoc a b c : (a +++ b) +++ c = a +++ b +++ c.
Proof. unfold tapp. cbn. by rewrite !app_assoc. Qed.
Lemma tread_app v w : tread v +++ tread w = tread (v ++ w).
Proof. done. Qed.

(** * Runs *)

Section Runs.
Context `{Fmt} (source_ : SourceView.t) (tab_size_ : Z).
#[local] Abbreviation txt := (source_text_ source_).
Context (Hsize : len txt <= source_size_max) (Htab : 0 <= tab_size_ < 256).

(** A lexer state over the source's text, with the rest [it] still to read. *)
Definition st (toks : list Token) (it : text) (reps : list Report) : LexerState :=
  {| tokens_ := toks; cursor_ := {| begin_ := txt; it_ := it |}; reports_ := reps |}.

(** The report of a message about an offset of the source. *)
Definition is_report (message : Message) (offset : Z) (args : MessageArgs) (r : Report) : Prop :=
  exists l, SourceView.locate source_ offset tab_size_ = Some l /\ make_report l message args = Some r.

Implicit Types (toks : list Token) (it pre w : text) (reps : list Report).

(** Started before the text [it], [m] returns, with a result and a trace that
    satisfy [R] together with the rest of the text; the trace does not depend on
    the tokens and reports already there. *)
Definition runs {A} (m : L A) it (R : A -> Trace -> text -> Prop) : Prop :=
  exists a tr it', it = read_ tr ++ it' /\ R a tr it' /\
    forall toks reps, m (st toks it reps) = Done a (st (toks ++ emitted tr) it' (reps ++ reported tr)).

Lemma runs_post {A} (m : L A) it (R R' : A -> Trace -> text -> Prop) :
  runs m it R -> (forall a tr it', it = read_ tr ++ it' -> R a tr it' -> R' a tr it') ->
  runs m it R'.
Proof. intros (a & tr & it' & Hit & Hr & Hm) HR. exists a, tr, it'. auto. Qed.

Lemma runs_ret {A} (a : A) it (R : A -> Trace -> text -> Prop) : R a tnil it -> runs (ret a) it R.
Proof. intros HR. exists a, tnil, it. cbn. split_and!; [done..|]. intros. by rewrite !app_nil_r. Qed.

(** Composition of a run with the run of what follows it. *)
Lemma runs_bind {A B} (m : L A) (k : A -> L B) it R1 (R : B -> Trace -> text -> Prop) :
  runs m it R1 ->
  (forall a tr it', it = read_ tr ++ it' -> R1 a tr it' ->
     runs (k a) it' (fun b tr2 it2 => R b (tr +++ tr2) it2)) ->
  runs (bind m k) it R.
Proof.
  intros (a & tr & it' & -> & Hr & Hm) Hk.
  destruct (Hk a tr it' eq_refl Hr) as (b & tr2 & it2 & -> & Hr2 & Hm2).
  exists b, (tr +++ tr2), it2. cbn. split_and!; [by rewrite app_assoc|done|].
  intros toks reps. unfold bind. by rewrite Hm, Hm2, !app_assoc.
Qed.

(** A call that only reads the state. *)
Lemma runs_read {A B} (f : LexerState -> A) a (k : A -> L B) it R :
  (forall toks reps, f (st toks it reps) = a) -> runs (k a) it R -> runs (bind (read f) k) it R.
Proof.
  intros Hf (b & tr & it' & Hit & Hr & Hm). exists b, tr, it'. split_and!; [done..|].
  intros toks reps. unfold bind, read. by rewrite Hf.
Qed.

(** Rules for a primitive call followed by a continuation. *)
Section Primitives.
Context {B : Type} (R : B -> Trace -> text -> Prop).

Lemma runs_peek (k : ascii -> L B) it :
  runs (k (match it with c :: _ => c | [] => Ascii.zero end)) it R -> runs (bind cursor_peek k) it R.
Proof. apply runs_read. by destruct it. Qed.

Lemma runs_valid (k : bool -> L B) it :
  runs (k (match it with _ :: _ => true | [] => false end)) it R -> runs (bind cursor_valid k) it R.
Proof. apply runs_read. by destruct it. Qed.

Lemma runs_offset pre (k : Z -> L B) it :
  txt = pre ++ it -> runs (k (len pre)) it R -> runs (bind cursor_offset k) it R.
Proof.
  intros Ht. apply runs_read. intros toks reps. pose proof Hsize as Hs.
  unfold st. cbn [cursor_]. rewrite Ht in Hs |- *. by apply cursor_offset_spec.
Qed.

(** A call that reads the next character. *)
Lemma runs_step {A} (m : L A) a (k : A -> L B) c it :
  (forall toks reps, m (st toks (c :: it) reps) = Done a (st toks it reps)) ->
  runs (k a) it (fun b tr => R b (tread [c] +++ tr)) -> runs (bind m k) (c :: it) R.
Proof.
  intros Hm Hk. eapply (runs_bind _ _ _ (fun a' tr it' => a' = a /\ tr = tread [c] /\ it' = it)).
  - exists a, (tread [c]), it. split_and!; [done..|]. intros. cbn. by rewrite !app_nil_r.
  - by intros a' tr it' _ (-> & -> & ->).
Qed.

Lemma runs_advance (k : unit -> L B) c it :
  runs (k tt) it (fun b tr => R b (tread [c] +++ tr)) -> runs (bind cursor_advance k) (c :: it) R.
Proof. by apply runs_step. Qed.

Lemma runs_next (k : ascii -> L B) it :
  (forall c it', it = c :: it' -> runs (k c) it' (fun b tr => R b (tread [c] +++ tr))) ->
  (it = [] -> runs (k Ascii.zero) [] R) ->
  runs (bind cursor_next k) it R.
Proof.
  intros Hc Hnil. destruct it as [|c it]; [|by apply runs_step with c, Hc].
  destruct (Hnil eq_refl) as (b & tr & it' & Hit & Hr & Hm). by exists b, tr, it'.
Qed.

Lemma runs_match c (k : bool -> L B) it :
  (forall it', it = c :: it' -> runs (k true) it' (fun b tr => R b (tread [c] +++ tr))) ->
  ((forall it', it <> c :: it') -> runs (k false) it R) ->
  runs (bind (cursor_match c) k) it R.
Proof.
  intros Hyes Hno.
  destruct it as [|d it].
  - destruct Hno as (b & tr & it' & Hit & Hr & Hm); [done|]. by exists b, tr, it'.
  - destruct (Ascii.eqb_spec d c) as [->|Hne].
    + apply runs_step with true; [|by apply Hyes]. intros. unfold cursor_match, match_char. cbn.
      by rewrite Ascii.eqb_refl.
    + destruct Hno as (b & tr & it' & Hit & Hr & Hm); [congruence|].
      exists b, tr, it'. split_and!; [done..|]. intros toks reps.
      unfold bind, cursor_match, match_char. cbn. apply Ascii.eqb_neq in Hne. rewrite Hne. apply Hm.
Qed.

Lemma runs_get_offset_and_advance pre (k : Z -> L B) c it :
  txt = pre ++ c :: it -> runs (k (len pre)) it (fun b tr => R b (tread [c] +++ tr)) ->
  runs (bind get_offset_and_advance k) (c :: it) R.
Proof.
  intros Ht. apply runs_step. intros toks reps. pose proof Hsize as Hs.
  unfold get_offset_and_advance, bind, cursor_offset, read, st. cbn [cursor_]. rewrite Ht in Hs |- *.
  by rewrite cursor_offset_spec by done.
Qed.

Lemma runs_length_from pre w (k : Z -> L B) it :
  txt = pre ++ w ++ it -> runs (k (len w)) it R -> runs (bind (length_from (len pre)) k) it R.
Proof.
  intros Ht Hk. unfold length_from. destruct Hk as (b & tr & it' & Hit & Hr & Hm).
  assert (Hoff : forall toks reps, Source.offset (cursor_ (st toks it reps)) = len (pre ++ w)).
  { intros toks reps. pose proof Hsize as Hs. unfold st. cbn [cursor_].
    rewrite Ht, app_assoc in Hs |- *. by apply cursor_offset_spec. }
  exists b, tr, it'. split_and!; [done..|]. intros toks reps. rewrite <-Hm.
  unfold bind, cursor_offset, read, ret. rewrite Hoff. f_equal.
  pose proof Hsize as Hs. rewrite Ht in Hs. change source_size_max with (2 ^ 24 - 1) in Hs.
  rewrite u32_small by len_lia. len_lia.
Qed.

Lemma runs_report message offset args (k : unit -> L B) it :
  0 <= offset -> valid_for_message args message = true ->
  (forall r, is_report message offset args r -> runs (k tt) it (fun b tr => R b (treport r +++ tr))) ->
  runs (bind (report source_ tab_size_ message offset args) k) it R.
Proof.
  intros Ho Hv Hk.
  destruct (locate_total source_ offset tab_size_) as [l Hl]; [done..|].
  destruct (make_report_valid l message args Hv) as [r Hr].
  eapply (runs_bind _ _ _ (fun _ tr it' => tr = treport r /\ it' = it)).
  - exists tt, (treport r), it. split_and!; [done..|]. intros. unfold report, bind. rewrite Hl. cbn.
    rewrite Hr. cbn. unfold st. by rewrite app_nil_r.
  - intros a tr it' _ (-> & ->). destruct a. apply Hk. by exists l.
Qed.

Lemma runs_expect {A} (a : A) (k : A -> L B) it :
  runs (k a) it R -> runs (bind (expect_some (Some a)) k) it R.
Proof. done. Qed.

Lemma runs_put token (k : unit -> L B) it :
  runs (k tt) it (fun b tr => R b (tput token +++ tr)) -> runs (bind (put_token token) k) it R.
Proof.
  intros Hk. eapply (runs_bind _ _ _ (fun _ tr it' => tr = tput token /\ it' = it)).
  - exists tt, (tput token), it. split_and!; [done..|]. intros. cbn. by rewrite app_nil_r.
  - intros a tr it' _ (-> & ->). by destruct a.
Qed.
End Primitives.

(** A call at the end of a function is a call followed by the return. *)
Lemma runs_last {A} (m : L A) it R : runs (bind m ret) it R -> runs m it R.
Proof.
  intros (a & tr & it' & Hit & Hr & Hm). exists a, tr, it'. split_and!; [done..|].
  intros toks reps. specialize (Hm toks reps). unfold bind, ret in Hm. by destruct (m _).
Qed.

(** The loop rule: an invariant on the local variables, the trace so far and the
    rest of the text; going on takes at least one character. *)
Lemma runs_loop {C A} (body : C -> L (Loop C A)) (I : C -> Trace -> Prop)
    (R : A -> Trace -> text -> Prop) c it :
  I c tnil ->
  (forall c0 tr it', it = read_ tr ++ it' -> I c0 tr ->
     runs (body c0) it' (fun r tr2 it2 =>
       match r with
       | Continue c1 => read_ tr2 <> [] /\ I c1 (tr +++ tr2)
       | Break a => R a (tr +++ tr2) it2
       end)) ->
  runs (loop remaining body c) it R.
Proof.
  intros H0 Hbody.
  cut (forall n c0 tr it', (length it' < n)%nat -> it = read_ tr ++ it' -> I c0 tr ->
         runs (loop_fuel n body c0) it' (fun a tr2 it2 => R a (tr +++ tr2) it2)).
  { intros Hall. destruct (Hall (S (length it)) c tnil it) as (a & tr & it' & Hit & Hr & Hm);
      [lia|done..|]. rewrite tapp_nil_l in Hr. by exists a, tr, it'. }
  induction n as [|n IH]; intros c0 tr it' Hn Hit HI; [lia|]. cbn [loop_fuel].
  eapply runs_bind; [by apply (Hbody c0 tr it')|]. cbv beta. intros [c1|a] tr2 it2 Hit2 Hr.
  - destruct Hr as [Hne HI1]. eapply runs_post; [eapply (IH c1 (tr +++ tr2))|].
    + rewrite Hit2, length_app in Hn. destruct (read_ tr2); [done|]. cbn in Hn. lia.
    + cbn. by rewrite <-app_assoc, <-Hit2.
    + done.
    + intros a tr3 it3 _. cbv beta. by rewrite tapp_assoc.
  - apply runs_ret. by rewrite tapp_nil_r.
Qed.

End Runs.
