(* ===== verification/LexerSpec.v ===== *)
(** What the lexer promises: the lexical grammar of the tokens, the reference
    definitions of its scanners, and how tokens, white space and comments make up
    a source text. *)

From Stdlib Require Import Ascii String.
From S2P Require Import Prelude Report Source SourceFacts Unicode Token Keywords LexerWords.

#[local] Open Scope char_scope.
#[local] Open Scope Z_scope.

(** * Reference scanners *)

Definition all_whitespace (s : text) : Prop := Forall (fun c => is_ascii_whitespace c = true) s.

(** A sequence of digits with white space between them. *)
Inductive digit_run (pred : ascii -> bool) : text -> Prop :=
| digit_run_nil : digit_run pred []
| digit_run_snoc v ws d :
    digit_run pred v -> all_whitespace ws -> pred d = true -> digit_run pred (v ++ ws ++ [d]).

(** Where a digit sequence can go no further. *)
Definition ends_digits (pred : ascii -> bool) (rest : text) : Prop :=
  match rest with [] => True | c :: _ => pred c = false /\ is_ascii_whitespace c = false end.

(** The rest of the text after the end of a block comment, inside [depth] open
    comments. *)
Fixpoint comment_rest (depth : nat) (s : text) : option text :=
  match s with
  | [] => None
  | c :: s' =>
      match s' with
      | d :: rest =>
          if Ascii.eqb c "*" && Ascii.eqb d "/" then
            match depth with S (S depth) => comment_rest (S depth) rest | _ => Some rest end
          else if Ascii.eqb c "/" && Ascii.eqb d "*" then comment_rest (S depth) rest
          else comment_rest depth s'
      | [] => None
      end
  end.

(** How the text of a quoted literal ends. *)
Inductive QuoteEnd := closed | at_newline | at_null | at_end.

Definition stops (c : ascii) : bool := Ascii.eqb c Ascii.zero || Ascii.eqb c newline.
Definition stop_at (c : ascii) : QuoteEnd := if Ascii.eqb c Ascii.zero then at_null else at_newline.

(** The text of a quoted literal after its opening quote: a backslash takes the
    next character with it. *)
Fixpoint quote_scan (quote : ascii) (s : text) : text * QuoteEnd :=
  match s with
  | [] => ([], at_end)
  | c :: s' =>
      if stops c then ([], stop_at c)
      else if Ascii.eqb c "\" then
        match s' with
        | [] => ([c], at_end)
        | d :: rest =>
            if stops d then ([c], stop_at d)
            else let (v, e) := quote_scan quote rest in (c :: d :: v, e)
        end
      else if Ascii.eqb c quote then ([c], closed)
      else let (v, e) := quote_scan quote s' in (c :: v, e)
  end.

(** * Tokens *)

(** Kinds whose tokens carry their length. *)
Definition variable_kind (kind : TokenKind.t) : bool :=
  match spelling kind with Some _ => false | None => true end.

Definition digits_after (first : text) (pred : ascii -> bool) (w : text) : Prop :=
  exists v, w = first ++ v /\ digit_run pred v.

Definition is_identifier (w : text) : Prop :=
  word w /\ w <> [] /\ is_decimal_digit (hd Ascii.zero w) = false /\ keyword_kind w = None.

Definition is_decimal (w : text) : Prop :=
  exists d, is_decimal_digit d = true /\ digits_after [d] is_decimal_digit w.

Definition is_float (w : text) : Prop :=
  exists a ws b, w = a ++ ws ++ "." :: b /\ (a = [] \/ is_decimal a) /\ all_whitespace ws /\
    b <> [] /\ digit_run is_decimal_digit b.

Definition is_line_comment (w : text) : Prop :=
  exists v, w = "/" :: "/" :: v /\ Forall (fun c => stops c = false) v.

(** [ok] is whether nothing was reported: an unterminated comment is. *)
Definition is_block_comment (ok : bool) (w : text) : Prop :=
  exists v, w = "/" :: "*" :: v /\ (ok = true -> comment_rest 1 v = Some []).

Definition is_quoted (quote : ascii) (w : text) : Prop :=
  exists v, w = quote :: v /\ fst (quote_scan quote v) = v.

(** The text of a token of a kind without a fixed spelling. *)
Definition lexical_class (ok : bool) (kind : TokenKind.t) : text -> Prop :=
  match kind with
  | TokenKind.identifier => is_identifier
  | TokenKind.dec_int_literal => is_decimal
  | TokenKind.hex_int_literal => digits_after ["0"; "x"] is_hexadecimal_digit
  | TokenKind.bin_int_literal => digits_after ["0"; "b"] is_decimal_digit
  | TokenKind.oct_int_literal => digits_after ["0"; "o"] is_decimal_digit
  | TokenKind.float_literal => is_float
  | TokenKind.string_literal => is_quoted double_quote
  | TokenKind.char_literal => is_quoted "'"
  | TokenKind.line_comment => is_line_comment
  | TokenKind.block_comment => is_block_comment ok
  | _ => fun _ => False
  end.

(** A token and the text [w] that it stands for. *)
Definition token_shape (ok : bool) (token : Token) (w : text) : Prop :=
  w <> [] /\
  if variable_kind (kind token) then
    variable_length token = len w /\ lexical_class ok (kind token) w
  else variable_length token = 0 /\ spelling (kind token) = Some w.

(** * Source texts *)

(** Text that stands for no token. *)
Inductive trivia : text -> Prop :=
| trivia_nil : trivia []
| trivia_space c w : is_ascii_whitespace c = true -> trivia w -> trivia (c :: w)
| trivia_line_comment v w : is_line_comment v -> trivia w -> trivia (v ++ w)
| trivia_block_comment v w : is_block_comment true v -> trivia w -> trivia (v ++ w).

(** The text that starts at offset [off] of a source consists of the texts of
    these tokens, in this order, and of gaps; when nothing was reported ([ok]),
    the gaps are trivia. *)
Inductive lexed (ok : bool) : Z -> text -> list Token -> Prop :=
| lexed_nil off : lexed ok off [] []
| lexed_gap off g w toks :
    (ok = true -> trivia g) -> lexed ok (off + len g) w toks -> lexed ok off (g ++ w) toks
| lexed_token off token v w toks :
    offset token = off -> token_shape ok token v ->
    lexed ok (off + len v) w toks -> lexed ok off (v ++ w) (token :: toks).

(** * Lemmas *)

Lemma all_whitespace_trivia ws : all_whitespace ws -> trivia ws.
Proof. induction 1; by constructor. Qed.

Lemma lexical_class_weaken (ok ok' : bool) kind w :
  (ok' = true -> ok = true) -> lexical_class ok kind w -> lexical_class ok' kind w.
Proof. intros Hok. destruct kind; try done. intros (v & -> & Hv). exists v. auto. Qed.

Lemma token_shape_weaken (ok ok' : bool) token w :
  (ok' = true -> ok = true) -> token_shape ok token w -> token_shape ok' token w.
Proof.
  intros Hok [Hne Hs]. split; [done|]. destruct (variable_kind _); [|done].
  destruct Hs. split; [done|]. by eapply lexical_class_weaken.
Qed.

Lemma lexed_weaken (ok ok' : bool) off w toks :
  (ok' = true -> ok = true) -> lexed ok off w toks -> lexed ok' off w toks.
Proof.
  intros Hok. induction 1.
  - apply lexed_nil.
  - apply lexed_gap; auto.
  - apply lexed_token; eauto using token_shape_weaken.
Qed.

Lemma lexed_app ok off w1 toks1 w2 toks2 :
  lexed ok off w1 toks1 -> lexed ok (off + len w1) w2 toks2 ->
  lexed ok off (w1 ++ w2) (toks1 ++ toks2).
Proof.
  induction 1 as [off|off g w toks Hg _ IH|off token v w toks Ho Hs _ IH]; intros H2.
  - by rewrite len_nil, Z.add_0_r in H2.
  - rewrite <-app_assoc. apply lexed_gap; [done|]. apply IH. by rewrite <-Z.add_assoc, <-len_app.
  - rewrite <-app_assoc. cbn. apply lexed_token; [done..|]. apply IH.
    by rewrite <-Z.add_assoc, <-len_app.
Qed.

Lemma lexed_one ok off token v : offset token = off -> token_shape ok token v -> lexed ok off v [token].
Proof.
  intros Ho Hs. rewrite <-(app_nil_r v). by apply lexed_token; [..|constructor].
Qed.

Lemma lexed_only_gap ok off g : (ok = true -> trivia g) -> lexed ok off g [].
Proof. intros Hg. rewrite <-(app_nil_r g). by apply lexed_gap; [|constructor]. Qed.

(** Every token's text is the slice of the source at its offset. *)
Lemma lexed_in ok off w toks token :
  lexed ok off w toks -> token ∈ toks ->
  exists p v q, w = p ++ v ++ q /\ offset token = off + len p /\ token_shape ok token v.
Proof.
  induction 1 as [off|off g w toks Hg _ IH|off t v w toks Ho Hs _ IH]; intros Hin.
  - by apply elem_of_nil in Hin.
  - destruct (IH Hin) as (p & v & q & -> & Ho & Hs). exists (g ++ p), v, q.
    rewrite <-app_assoc. split; [done|]. split; [|done]. len_lia.
  - apply elem_of_cons in Hin as [->|Hin].
    + exists [], v, w. split; [done|]. split; [len_lia|done].
    + destruct (IH Hin) as (p & v2 & q & -> & Ho2 & Hs2). exists (v ++ p), v2, q.
      rewrite <-app_assoc. split; [done|]. split; [|done]. len_lia.
Qed.
