(* ===== verification/LexerScanners.v ===== *)
(** The runs of the lexer's scanners: words, multibyte characters, digit
    sequences, comments and quoted literals, each against its reference
    definition of LexerSpec.v. *)

From Stdlib Require Import Ascii String.
From S2P Require Import Prelude Report Platform FileView Source SourceFacts Unicode Token Keywords Flags.
From S2P Require Import Lexer LexerWords LexerFacts LexerSpec.

#[local] Open Scope char_scope.
#[local] Open Scope Z_scope.

(** What [peek] shows of a text. *)
Definition front (it : text) : ascii := match it with c :: _ => c | [] => Ascii.zero end.

Lemma front_not_null it : is_null (front it) = false -> exists c it', it = c :: it' /\ front it = c.
Proof. destruct it as [|c it']; [done|]. eauto. Qed.

Lemma is_null_spec c : is_null c = true -> c = Ascii.zero.
Proof. apply Ascii.eqb_eq. Qed.

Lemma whitespace_not_null c : is_ascii_whitespace c = true -> is_null c = false.
Proof. intros Hc. destruct (is_null c) eqn:Hn; [|done]. by rewrite (is_null_spec c Hn) in Hc. Qed.

(** Reading one more character than a text [w] already read. *)
Lemma tread_snoc w c : tread w +++ (tread [c] +++ tnil) = tread (w ++ [c]).
Proof. by rewrite tapp_nil_r, tread_app. Qed.

Section Scanners.
Context `{Fmt} (source_ : SourceView.t) (tab_size_ : Z).
#[local] Abbreviation txt := (source_text_ source_).
Context (Hsize : len txt <= source_size_max) (Htab : 0 <= tab_size_ < 256).
#[local] Abbreviation runs := (runs source_).

Implicit Types (it pre w : text).

(** ** White space and digits *)

Lemma runs_skip_whitespace c it :
  is_ascii_whitespace c = true ->
  runs skip_whitespace (c :: it) (fun d tr it' =>
    d = front it' /\ is_ascii_whitespace d = false /\
    exists ws, tr = tread ws /\ all_whitespace ws).
Proof.
  intros Hc. eapply runs_post.
  - apply runs_loop with
      (I := fun _ tr => exists ws, tr = tread ws /\ all_whitespace ws /\
              forall it', c :: it = ws ++ it' -> is_ascii_whitespace (front it') = true)
      (R := fun d tr it' => d = front it' /\ is_ascii_whitespace d = false /\
              exists ws, tr = tread ws /\ all_whitespace ws).
    + exists []. split; [done|]. split; [constructor|]. intros it' Hit. cbn in Hit. by subst it'.
    + intros [] tr it' Hit (ws & -> & Hws & Hfront). specialize (Hfront it' Hit).
      destruct (front_not_null it') as (d & it2 & -> & Hd); [by apply whitespace_not_null|].
      rewrite Hd in Hfront. apply runs_advance, runs_peek. change (match it2 with [] => _ | _ => _ end) with (front it2).
      assert (Hws' : all_whitespace (ws ++ [d])) by (apply Forall_app; eauto).
      destruct (is_ascii_whitespace (front it2)) eqn:Hfront2; apply runs_ret.
      * split; [done|]. exists (ws ++ [d]). rewrite tread_snoc. split; [done|]. split; [done|].
        intros it3 Hit3. rewrite Hit in Hit3. cbn in Hit3. rewrite <-app_assoc in Hit3.
        apply app_inv_head in Hit3. cbn in Hit3. by injection Hit3 as <-.
      * rewrite tread_snoc. eauto.
  - cbn. eauto.
Qed.

Section Digits.
Context (pred : ascii -> bool) (Hnull : pred Ascii.zero = false).

Lemma ends_digits_front it :
  pred (front it) = false -> is_ascii_whitespace (front it) = false -> ends_digits pred it.
Proof. by destruct it. Qed.

Lemma runs_consume_digit_sequence pre w it :
  txt = pre ++ w ++ it ->
  runs (consume_digit_sequence pred (len pre)) it (fun n tr it' =>
    exists v ws, tr = tread (v ++ ws) /\ n = len (w ++ v) /\ digit_run pred v /\
      all_whitespace ws /\ ends_digits pred it').
Proof.
  intros Ht. unfold consume_digit_sequence. eapply runs_bind.
  - apply runs_loop with
      (I := fun _ tr => exists v, tr = tread v /\ digit_run pred v)
      (R := fun r tr it' => ends_digits pred it' /\ exists v ws, tr = tread (v ++ ws) /\
              digit_run pred v /\ all_whitespace ws /\
              match r with Some n => n = len (w ++ v) | None => ws = [] end).
    { exists []. split; [done|constructor]. }
    intros [] tr it' Hit (v & -> & Hv). cbn in Hit. apply runs_peek.
    change (match it' with [] => _ | _ => _ end) with (front it').
    assert (Hstop : ends_digits pred it' ->
      runs (ret (Break None : Loop unit (option Z))) it' (fun r tr2 it2 =>
        match r with
        | Continue _ => read_ tr2 <> [] /\ exists v0, tread v +++ tr2 = tread v0 /\ digit_run pred v0
        | Break r => ends_digits pred it2 /\ exists v0 ws, tread v +++ tr2 = tread (v0 ++ ws) /\
              digit_run pred v0 /\ all_whitespace ws /\
              match r with Some n => n = len (w ++ v0) | None => ws = [] end
        end)).
    { intros Hends. apply runs_ret. split; [done|]. exists v, []. rewrite tapp_nil_r, app_nil_r.
      split_and!; [done|done|constructor|done]. }
    destruct (is_null (front it')) eqn:Hn.
    { apply Hstop, ends_digits_front; rewrite (is_null_spec _ Hn); done. }
    destruct (front_not_null it' Hn) as (c & it2 & -> & ->).
    destruct (pred c) eqn:Hc.
    { apply runs_advance, runs_ret. split; [done|]. exists (v ++ [c]). rewrite tread_snoc.
      split; [done|]. by apply (digit_run_snoc pred v [] c); [|constructor|]. }
    destruct (is_ascii_whitespace c) eqn:Hw; cbn [negb]; [|by apply Hstop].
    apply (runs_length_from source_ Hsize) with (w := w ++ v); [by rewrite Ht, Hit, <-app_assoc|].
    eapply runs_bind; [by apply runs_skip_whitespace|].
    intros d tr it3 Hit3 (-> & Hnw & ws & -> & Hws). cbn [read_ tread] in Hit3.
    assert (Hne : ws <> []). { intros ->. cbn in Hit3. subst it3. cbn in Hnw. congruence. }
    destruct (pred (front it3)) eqn:Hd.
    + destruct it3 as [|d it3]; [cbn in Hd; congruence|]. cbn in Hd. apply runs_advance, runs_ret.
      rewrite tread_snoc. split; [by destruct ws|]. exists (v ++ ws ++ [d]). split; [done|].
      by constructor.
    + apply runs_ret. rewrite tapp_nil_r. split; [by apply ends_digits_front|].
      exists v, ws. done.
  - cbv beta. intros r tr it' Hit (Hends & v & ws & -> & Hv & Hws & Hr). destruct r as [n|].
    + apply runs_ret. rewrite tapp_nil_r. eauto 10.
    + subst ws. rewrite app_nil_r in *. apply runs_last.
      apply (runs_length_from source_ Hsize) with (w := w ++ v); [by rewrite Ht, Hit, <-app_assoc|].
      apply runs_ret. rewrite tapp_nil_r. exists v, []. rewrite app_nil_r.
      split_and!; [done..|constructor|done].
Qed.
End Digits.

(** ** Words *)

(** A scan of the text [w] that puts no token. *)
Definition scan (w : text) (reps : list Report) : Trace :=
  {| read_ := w; emitted := []; reported := reps |}.

Lemma runs_continuation_bytes count i utf8_char it :
  runs (continuation_bytes count i utf8_char) it (fun _ tr _ => exists w, tr = tread w).
Proof.
  revert i utf8_char it. induction count as [|count IH]; intros i utf8_char it; cbn [continuation_bytes].
  - apply runs_ret. by exists [].
  - apply runs_next.
    + intros c it' ->. eapply runs_post; [apply IH|]. intros n tr it2 _ (w & ->). by exists (c :: w).
    + intros ->. apply IH.
Qed.

Lemma countl_one_ascii c : is_ascii c = true -> countl_one 8 (byte_val c) = O.
Proof.
  intros Hc. apply Nat.eqb_eq. revert c Hc.
  apply (forall_ascii_impl is_ascii (fun c => (countl_one 8 (byte_val c) =? 0)%nat)).
  vm_compute. reflexivity.
Qed.

Lemma runs_consume_multibyte_utf8_char c offset pred it :
  0 <= offset ->
  runs (consume_multibyte_utf8_char source_ tab_size_ c offset pred) it (fun ok tr it' =>
    exists w reps, tr = scan w reps /\
      if ok : bool then reps = [] /\ is_ascii c = false
      else reps <> [] /\ (is_ascii c = true -> w = [])).
Proof.
  intros Ho. unfold consume_multibyte_utf8_char.
  assert (Hfail : forall n it', runs (report source_ tab_size_ invalid_character offset [arg_int n] ;; ret false)
    it' (fun ok tr _ => ok = false /\ exists r, tr = treport r)).
  { intros n it'. apply runs_report; [done..|]. intros r Hr. apply runs_ret.
    rewrite tapp_nil_r. eauto. }
  destruct (is_ascii c) eqn:Hc.
  - rewrite countl_one_ascii by done. cbn [andb Nat.leb].
    eapply runs_post; [apply Hfail|]. intros ok tr it' _ (-> & r & ->). by exists [], [r].
  - destruct (_ && _).
    + eapply runs_bind; [apply runs_continuation_bytes|]. intros n tr it' _ (w & ->).
      destruct (pred n).
      * apply runs_ret. exists w, []. by rewrite tapp_nil_r.
      * eapply runs_post; [apply Hfail|]. intros ok tr it2 _ (-> & r & ->).
        exists w, [r]. unfold tapp. cbn. by rewrite app_nil_r.
    + eapply runs_post; [apply Hfail|]. intros ok tr it' _ (-> & r & ->). by exists [], [r].
Qed.

(** Where a word can go no further. *)
Definition ends_word (rest : text) : Prop :=
  match rest with
  | [] => True
  | c :: _ => is_ascii c = true /\ is_ascii_identifier_char c = false
  end.

Lemma scan_app w reps w' reps' : scan w reps +++ scan w' reps' = scan (w ++ w') (reps ++ reps').
Proof. done. Qed.
Lemma tread_scan w w' reps : tread w +++ scan w' reps = scan (w ++ w') reps.
Proof. done. Qed.

Lemma runs_consume_word pre it :
  txt = pre ++ it ->
  runs (consume_word source_ tab_size_) it (fun _ tr it' =>
    exists w reps, tr = scan w reps /\ word w /\ (reps = [] -> ends_word it')).
Proof.
  intros Ht. apply runs_loop with (I := fun _ tr => exists w reps, tr = scan w reps /\ word w).
  { exists [], []. split; [done|constructor]. }
  intros [] tr it' Hit (w & reps & -> & Hw). cbn in Hit. apply runs_peek.
  change (match it' with [] => _ | _ => _ end) with (front it').
  destruct (is_null (front it')) eqn:Hn.
  { apply runs_ret. rewrite tapp_nil_r. exists w, reps. split_and!; [done..|]. intros _.
    destruct it' as [|c it']; [done|]. cbn in Hn. by rewrite (is_null_spec c Hn). }
  destruct (front_not_null it' Hn) as (c & it2 & -> & ->).
  destruct (is_ascii_identifier_char c) eqn:Hc.
  { apply runs_advance, runs_ret. split; [done|]. exists (w ++ [c]), (reps ++ []).
    split; [done|]. apply word_snoc; [done|]. by left. }
  destruct (is_ascii c) eqn:Ha.
  { apply runs_ret. rewrite tapp_nil_r. exists w, reps. split_and!; [done..|]. by intros _. }
  apply (runs_get_offset_and_advance source_ Hsize) with (pre := pre ++ w); [by rewrite Ht, Hit, <-app_assoc|].
  eapply runs_bind; [apply runs_consume_multibyte_utf8_char, len_nonneg|].
  intros ok tr it3 Hit3 (v & reps' & -> & Hok).
  assert (word (w ++ c :: v)) by (apply word_snoc; [done|by right]).
  destruct ok; apply runs_ret; rewrite tapp_nil_r, tread_scan, scan_app.
  - destruct Hok as [-> _]. split; [done|]. by exists (w ++ c :: v), (reps ++ []).
  - exists (w ++ c :: v), (reps ++ reps'). split_and!; [done..|].
    intros Hnil%app_eq_nil. by destruct Hok, Hnil.
Qed.

(** ** Comments *)

Lemma runs_consume_line_comment it :
  runs consume_line_comment it (fun _ tr it' =>
    exists v, tr = tread v /\ Forall (fun c => stops c = false) v /\ (it' = [] \/ stops (front it') = true)).
Proof.
  apply runs_loop with (I := fun _ tr => exists v, tr = tread v /\ Forall (fun c => stops c = false) v).
  { exists []. split; [done|constructor]. }
  intros [] tr it' _ (v & -> & Hv). apply runs_peek.
  change (match it' with [] => _ | _ => _ end) with (front it').
  destruct (is_null (front it')) eqn:Hn.
  { apply runs_ret. rewrite tapp_nil_r. exists v. split_and!; [done..|]. right.
    unfold stops. unfold is_null in Hn. by rewrite Hn. }
  destruct (front_not_null it' Hn) as (c & it2 & -> & Hf). rewrite Hf in *.
  destruct (Ascii.eqb c newline) eqn:Hc.
  { apply runs_ret. rewrite tapp_nil_r. exists v. split_and!; [done..|]. right.
    unfold stops. rewrite Hf, Hc. apply orb_true_r. }
  apply runs_advance, runs_ret. split; [done|]. exists (v ++ [c]). rewrite tread_snoc.
  split; [done|]. apply Forall_app. split; [done|]. constructor; [|constructor].
  unfold stops. unfold is_null in Hn. by rewrite Hn, Hc.
Qed.

(** How one round of the loop follows [comment_rest]. *)
Lemma comment_rest_close d s :
  comment_rest d ("*" :: "/" :: s) = match d with S (S d) => comment_rest (S d) s | _ => Some s end.
Proof. done. Qed.
Lemma comment_rest_open d s : comment_rest d ("/" :: "*" :: s) = comment_rest (S d) s.
Proof. done. Qed.
Lemma comment_rest_skip d c s :
  (forall s', s = "/" :: s' -> c <> "*") -> (forall s', s = "*" :: s' -> c <> "/") ->
  comment_rest d (c :: s) = comment_rest d s.
Proof.
  intros H1 H2. cbn [comment_rest]. destruct s as [|e s]; [done|].
  destruct (Ascii.eqb_spec c "*"), (Ascii.eqb_spec e "/"); cbn [andb];
    [by destruct (H1 s); subst|..];
    (destruct (Ascii.eqb_spec c "/"), (Ascii.eqb_spec e "*"); cbn [andb]; try done;
     by destruct (H2 s); subst).
Qed.

(** The state of the loop: at a nesting depth whose comment ends where the whole
    comment [it] does. *)
Definition comment_at (it : text) (count : Z) (tr : Trace) : Prop :=
  exists d w, count = Z.of_nat (S d) /\ tr = tread w /\ (d <= length w)%nat /\
    forall it', it = w ++ it' -> comment_rest 1 it = comment_rest (S d) it'.

(** A round that reads [v] and goes on at depth [d']. *)
Lemma comment_at_step it w v rest d d' :
  it = w ++ v ++ rest -> comment_rest 1 it = comment_rest (S d) (v ++ rest) ->
  v <> [] -> (d' <= length (w ++ v))%nat ->
  comment_rest (S d) (v ++ rest) = comment_rest (S d') rest ->
  read_ (tread v) <> [] /\ comment_at it (Z.of_nat (S d')) (tread w +++ tread v).
Proof.
  intros Hit Hrest Hv Hd Hr. split; [done|]. exists d', (w ++ v). split_and!; [done..|].
  intros it2 Hit2. rewrite Hrest, Hr. f_equal. rewrite Hit, app_assoc in Hit2. by apply app_inv_head in Hit2.
Qed.

(** Every round of the loop keeps the state or leaves the loop rightly. *)
Lemma runs_comment_round pre it count tr it1 :
  txt = pre ++ it -> it = read_ tr ++ it1 -> comment_at it count tr ->
  runs (comment_round count) it1 (fun r tr2 it2 =>
    match r with
    | Continue count => read_ tr2 <> [] /\ comment_at it count (tr +++ tr2)
    | Break b => exists w, tr +++ tr2 = tread w /\
        if b : bool then comment_rest 1 it = Some it2 else comment_rest 1 it = None /\ it2 = []
    end).
Proof.
  intros Ht Hit (d & w & -> & -> & Hd & Hrest). cbn in Hit.
  assert (Hlen : Z.of_nat (length w) + Z.of_nat (length it1) < 2 ^ 24).
  { pose proof Hsize as Hs. rewrite Ht, Hit in Hs. change source_size_max with (2 ^ 24 - 1) in Hs.
    unfold len in Hs. rewrite !length_app in Hs. lia. }
  specialize (Hrest it1 Hit). unfold comment_round.
  apply runs_valid. destruct it1 as [|c it1]; cbn [negb].
  { apply runs_ret. rewrite tapp_nil_r. by exists w. }
  assert (Hskip : (forall s, it1 = "/" :: s -> c <> "*") -> (forall s, it1 = "*" :: s -> c <> "/") ->
    read_ (tread [c]) <> [] /\ comment_at it (Z.of_nat (S d)) (tread w +++ tread [c])).
  { intros H1 H2. apply (comment_at_step it w [c] it1 d d); [done..| |by apply comment_rest_skip].
    rewrite length_app. lia. }
  apply runs_match.
  - intros it2 [= -> ->]. apply runs_match.
    + intros it3 ->. rewrite u32_small by lia. destruct (Z.eqb_spec (Z.of_nat (S d) - 1) 0).
      * apply runs_ret. rewrite tapp_nil_r. exists (w ++ ["*"; "/"]).
        split; [by rewrite tread_app|]. rewrite Hrest, comment_rest_close. by replace d with O by lia.
      * apply runs_ret. rewrite tapp_nil_r, tread_app. destruct d as [|d]; [lia|].
        replace (Z.of_nat (S (S d)) - 1) with (Z.of_nat (S d)) by lia.
        apply (comment_at_step it w ["*"; "/"] it3 (S d) d); [done..| |cbn [app]; by rewrite comment_rest_close].
        rewrite length_app. lia.
    + intros Hno. apply runs_ret. rewrite tapp_nil_r. apply Hskip; [|done].
      intros s ->. by destruct (Hno s).
  - intros Hnostar. apply runs_match.
    + intros it2 [= -> ->]. apply runs_match.
      * intros it3 ->. apply runs_ret. rewrite tapp_nil_r, tread_app.
        cbn [length] in Hlen. rewrite u32_small by lia.
        replace (Z.of_nat (S d) + 1) with (Z.of_nat (S (S d))) by lia.
        apply (comment_at_step it w ["/"; "*"] it3 d (S d)); [done..| |cbn [app]; by rewrite comment_rest_open].
        rewrite length_app. cbn. lia.
      * intros Hno. apply runs_ret. rewrite tapp_nil_r. apply Hskip; [done|].
        intros s ->. by destruct (Hno s).
    + intros Hnoslash. apply runs_advance, runs_ret. rewrite tapp_nil_r. apply Hskip.
      * intros s _ ->. by destruct (Hnostar it1).
      * intros s _ ->. by destruct (Hnoslash it1).
Qed.

Lemma runs_consume_block_comment pre offset it :
  txt = pre ++ it -> 0 <= offset ->
  runs (consume_block_comment source_ tab_size_ offset) it (fun _ tr it' =>
    exists w reps, tr = scan w reps /\
      match comment_rest 1 it with
      | Some rest => it' = rest /\ reps = []
      | None => it' = [] /\ exists r, reps = [r] /\
          is_report source_ tab_size_ unterminated_block_comment offset [] r
      end).
Proof.
  intros Ht Ho. unfold consume_block_comment. eapply runs_bind.
  - apply runs_loop with (I := comment_at it)
      (R := fun b tr it' => exists w, tr = tread w /\
              if b : bool then comment_rest 1 it = Some it' else comment_rest 1 it = None /\ it' = []).
    { exists O, []. split_and!; [done..|]. intros it' Hit. cbn in Hit. by subst. }
    intros count tr it' Hit Hat. by apply (runs_comment_round pre).
  - cbv beta. intros b tr it' Hit (w & -> & Hb). destruct b.
    + apply runs_ret. rewrite tapp_nil_r. exists w, []. by rewrite Hb.
    + destruct Hb as [-> ->]. apply runs_last, runs_report; [done..|]. intros r Hr. apply runs_ret.
      exists w, [r]. split; [unfold tapp; cbn; by rewrite app_nil_r|]. eauto.
Qed.

(** ** Quoted literals *)

(** The reference scan with the loop's local variable: [ignore_quote] is set
    after a backslash that takes the next character with it. *)
Definition quote_scan_from (quote : ascii) (ignore_quote : bool) (s : text) : text * QuoteEnd :=
  if ignore_quote then
    match s with
    | [] => ([], at_end)
    | d :: rest =>
        if stops d then ([], stop_at d)
        else let (v, e) := quote_scan quote rest in (d :: v, e)
    end
  else quote_scan quote s.

(** What [quote_scan_from] does with one more character. *)
Lemma quote_scan_from_step quote ignore c s :
  quote <> "\" -> stops c = false -> (c = quote -> ignore = true \/ c = "\") ->
  quote_scan_from quote ignore (c :: s) =
  let (v, e) := quote_scan_from quote (Ascii.eqb c "\" && negb ignore) s in (c :: v, e).
Proof.
  intros Hq Hc Hcq. destruct ignore; cbn [quote_scan_from negb].
  - by rewrite Hc, andb_false_r.
  - rewrite andb_true_r. cbn [quote_scan]. rewrite Hc. destruct (Ascii.eqb_spec c "\") as [->|Hne].
    + cbn [quote_scan_from]. destruct s as [|d s]; [done|]. destruct (stops d); [done|].
      by destruct (quote_scan quote s).
    + destruct (Ascii.eqb_spec c quote) as [->|]; [|done]. by destruct Hcq.
Qed.

Lemma runs_consume_quoted pre quote it :
  txt = pre ++ it -> quote <> "\" ->
  runs (consume_quoted source_ tab_size_ quote) it (fun _ tr it' =>
    exists reps, tr = scan (fst (quote_scan quote it)) reps /\
      match snd (quote_scan quote it) with
      | at_newline => exists r, reps = [r] /\ is_report source_ tab_size_ missing_closing_quote
                        (len pre + len (fst (quote_scan quote it))) [] r
      | _ => reps = []
      end).
Proof.
  intros Ht Hquote.
  apply runs_loop with (I := fun ignore tr => exists w, tr = tread w /\
    forall it', it = w ++ it' ->
      quote_scan quote it = let (v, e) := quote_scan_from quote ignore it' in (w ++ v, e)).
  { exists []. split; [done|]. intros it' Hit. cbn in Hit. subst it'. cbn. by destruct (quote_scan quote it). }
  intros ignore tr it' Hit (w & -> & Hscan). specialize (Hscan it' Hit). cbn in Hit. apply runs_peek.
  change (match it' with [] => _ | _ => _ end) with (front it').
  assert (Hstop : it' = [] \/ stops (front it') = true ->
    quote_scan quote it = (w, match it' with [] => at_end | d :: _ => stop_at d end)).
  { intros Hor. rewrite Hscan. destruct it' as [|d s]; [destruct ignore; cbn; by rewrite app_nil_r|].
    destruct Hor as [?|Hd]; [done|]. cbn in Hd. destruct ignore; cbn; rewrite Hd; by rewrite app_nil_r. }
  destruct (is_null (front it')) eqn:Hn.
  { rewrite Hstop by (right; unfold stops; unfold is_null in Hn; by rewrite Hn).
    apply runs_ret. rewrite tapp_nil_r. exists []. split; [done|]. destruct it' as [|d s]; [done|].
    cbn in Hn |- *. unfold stop_at. unfold is_null in Hn. by rewrite Hn. }
  destruct (front_not_null it' Hn) as (c & s & -> & Hf). rewrite Hf in *. cbn [front] in *.
  destruct (Ascii.eqb c newline) eqn:Hc.
  { rewrite Hstop by (right; unfold stops; rewrite Hc; apply orb_true_r).
    apply (runs_offset source_ Hsize) with (pre := pre ++ w); [by rewrite Ht, Hit, <-app_assoc|].
    apply runs_report; [done|done|apply len_nonneg|done|]. intros r Hr. apply runs_ret. exists [r]. cbn.
    unfold stop_at. unfold is_null in Hn. rewrite Hn. rewrite tapp_nil_r. unfold tapp. cbn.
    rewrite app_nil_r. split; [done|]. exists r. split; [done|]. by rewrite <-len_app. }
  assert (Hs : stops c = false) by (unfold stops; unfold is_null in Hn; by rewrite Hn, Hc).
  apply runs_advance.
  assert (Hgo : (c = quote -> ignore = true \/ c = "\") ->
    read_ (tread [c]) <> [] /\ exists w0, tread w +++ tread [c] = tread w0 /\
      forall it2, it = w0 ++ it2 -> quote_scan quote it =
        let (v, e) := quote_scan_from quote (Ascii.eqb c "\" && negb ignore) it2 in (w0 ++ v, e)).
  { intros Hcq. split; [done|]. exists (w ++ [c]). split; [done|]. intros it2 Hit2.
    rewrite Hit, <-app_assoc in Hit2. apply app_inv_head in Hit2. injection Hit2 as <-.
    rewrite Hscan, quote_scan_from_step by done.
    destruct (quote_scan_from _ _ s). by rewrite <-app_assoc. }
  destruct (Ascii.eqb c "\") eqn:He; cbn [andb] in Hgo.
  { apply runs_ret. rewrite tapp_nil_r, xorb_true_r. apply Hgo. intros _. right. by apply Ascii.eqb_eq. }
  destruct (Ascii.eqb_spec c quote) as [->|Hq]; cbn [andb] in *.
  - destruct ignore; cbn [negb].
    + apply runs_ret. rewrite tapp_nil_r. auto.
    + apply runs_ret. rewrite tapp_nil_r, Hscan. cbn [quote_scan_from quote_scan].
      rewrite Hs, He, Ascii.eqb_refl. by exists [].
  - destruct ignore; apply runs_ret; rewrite tapp_nil_r; apply Hgo; by intros ->.
Qed.

End Scanners.
