(* ===== verification/LexerHandlers.v ===== *)
(** The runs of the lexer's handlers: what each one reads is lexed as the tokens
    it puts; operators are read by maximal munch. *)

From Stdlib Require Import Ascii String.
From S2P Require Import Prelude Report Platform FileView Source SourceFacts Unicode Token Keywords Flags.
From S2P Require Import Lexer LexerWords LexerFacts LexerSpec LexerScanners.

#[local] Open Scope char_scope.
#[local] Open Scope Z_scope.

(** * Operators as decision trees *)

(** What an operator handler does after its first character. *)
Inductive OpTree :=
| OpPut (kind : TokenKind.t)
| OpTwo (kind : TokenKind.t)
| OpIf (c : ascii) (yes no : OpTree).

Fixpoint op_run (tree : OpTree) (offset : Z) : L unit :=
  match tree with
  | OpPut kind => put_token (fixed_token kind offset)
  | OpTwo kind => put_token (fixed_token kind offset) ;;
                  put_token (fixed_token kind (u32 (offset + 1)))
  | OpIf c yes no => if_match c (op_run yes offset) (op_run no offset)
  end.

Definition starts (p w : text) : bool := bool_decide (p `prefix_of` w).

(** The spellings of operators and punctuation. *)
Definition operators : list text :=
  omap (fun kind => match spelling kind with
                    | Some (c :: w) => if char_between "a" "z" c then None else Some (c :: w)
                    | _ => None
                    end) TokenKind.all.

(** [cands] are the operators longer than [p] that a text can start with when the
    tree's node is reached after reading [p]. *)
Fixpoint op_check (p : text) (cands : list text) (tree : OpTree) : bool :=
  match tree with
  | OpPut kind =>
      bool_decide (spelling kind = Some p)
      && forallb (fun w => (length w <=? length p)%nat) cands
  | OpTwo kind =>
      bool_decide (p = [">"; ">"]) && bool_decide (kind = TokenKind.r_angle) && forallb (fun w => (length w <=? length p)%nat) cands
  | OpIf c yes no =>
      op_check (p ++ [c]) (filter (fun w => starts (p ++ [c]) w = true) cands) yes
      && op_check p (filter (fun w => starts (p ++ [c]) w = false) cands) no
  end.

(** The tokens for the operator text [w]: one token spelled [w], or two tokens
    for [>>]. *)
Definition operator_tokens (off : Z) (w : text) (toks : list Token) : Prop :=
  (exists kind, toks = [fixed_token kind off] /\ spelling kind = Some w) \/
  (w = [">"; ">"] /\
     toks = [fixed_token TokenKind.r_angle off; fixed_token TokenKind.r_angle (u32 (off + 1))]).

(** No operator that [s] starts with is longer than [w]. *)
Definition longest_operator (w s : text) : Prop :=
  forall o, o ∈ operators -> o `prefix_of` s -> (length o <= length w)%nat.

(** The trees of the handlers that only read operators. *)
Definition operator_tree (c : ascii) : option OpTree :=
  match c with
  | "(" => Some (OpPut TokenKind.l_paren)
  | ")" => Some (OpPut TokenKind.r_paren)
  | "[" => Some (OpPut TokenKind.l_bracket)
  | "]" => Some (OpPut TokenKind.r_bracket)
  | "{" => Some (OpPut TokenKind.l_brace)
  | "}" => Some (OpPut TokenKind.r_brace)
  | "," => Some (OpPut TokenKind.comma)
  | ";" => Some (OpPut TokenKind.semicolon)
  | "^" => Some (OpPut TokenKind.caret)
  | "<" => Some (OpIf "<" (OpIf "=" (OpPut TokenKind.l_angle_angle_eq) (OpPut TokenKind.l_angle_angle))
                          (OpIf "=" (OpPut TokenKind.l_angle_eq) (OpPut TokenKind.l_angle)))
  | ">" => Some (OpIf ">" (OpIf "=" (OpPut TokenKind.r_angle_angle_eq) (OpTwo TokenKind.r_angle))
                          (OpIf "=" (OpPut TokenKind.r_angle_eq) (OpPut TokenKind.r_angle)))
  | ":" => Some (OpIf ":" (OpPut TokenKind.colon_colon) (OpPut TokenKind.colon))
  | "=" => Some (OpIf "=" (OpPut TokenKind.eq_eq)
                          (OpIf ">" (OpPut TokenKind.thick_arrow) (OpPut TokenKind.eq)))
  | "+" => Some (OpIf "+" (OpPut TokenKind.plus_plus)
                          (OpIf "=" (OpPut TokenKind.plus_eq) (OpPut TokenKind.plus)))
  | "-" => Some (OpIf ">" (OpPut TokenKind.thin_arrow)
                   (OpIf "-" (OpPut TokenKind.minus_minus)
                             (OpIf "=" (OpPut TokenKind.minus_eq) (OpPut TokenKind.minus))))
  | "*" => Some (OpIf "=" (OpPut TokenKind.star_eq) (OpPut TokenKind.star))
  | "%" => Some (OpIf "=" (OpPut TokenKind.percent_eq) (OpPut TokenKind.percent))
  | "&" => Some (OpIf "&" (OpIf "=" (OpPut TokenKind.and_and_eq) (OpPut TokenKind.and_and))
                          (OpIf "=" (OpPut TokenKind.ampersand_eq) (OpPut TokenKind.ampersand)))
  | "|" => Some (OpIf "|" (OpIf "=" (OpPut TokenKind.pipe_pipe_eq) (OpPut TokenKind.pipe_pipe))
                          (OpIf "=" (OpPut TokenKind.pipe_eq) (OpPut TokenKind.pipe)))
  | "~" => Some (OpIf "=" (OpPut TokenKind.tilde_eq) (OpPut TokenKind.tilde))
  | "!" => Some (OpIf "=" (OpPut TokenKind.bang_eq) (OpPut TokenKind.bang))
  | _ => None
  end.

Definition check_operator (c : ascii) : bool :=
  match operator_tree c with
  | Some tree => op_check [c] (filter (fun w => starts [c] w = true) operators) tree
  | None => true
  end.

Lemma operator_trees_checked c : check_operator c = true.
Proof. revert c. apply forall_ascii. vm_compute. reflexivity. Qed.

(** * Runs *)

Definition clean (tr : Trace) : bool := match reported tr with [] => true | _ => false end.

Definition not_comment (token : Token) : Prop := TokenCursor.is_comment (kind token) = false.

(** A handler's run: it reads something, and what it reads is lexed as the
    tokens it puts; only text that starts with a slash can be a comment. *)
Definition lexes (pre : text) (tr : Trace) : Prop :=
  read_ tr <> [] /\ lexed (clean tr) (len pre) (read_ tr) (emitted tr) /\
  (Forall not_comment (emitted tr) \/ hd Ascii.zero (read_ tr) = "/").

Lemma clean_app a b : clean (a +++ b) = clean a && clean b.
Proof. unfold clean, tapp. cbn. by destruct (reported a). Qed.

Section Handlers.
Context `{Fmt} (source_ : SourceView.t) (flags_ tab_size_ : Z).
#[local] Abbreviation txt := (source_text_ source_).
Context (Hsize : len txt <= source_size_max) (Htab : 0 <= tab_size_ < 256).
#[local] Abbreviation runs := (runs source_).

Implicit Types (it pre w : text).

Lemma token_offset kind pre it n : txt = pre ++ it -> offset (make_token kind (len pre) n) = len pre.
Proof.
  intros Ht. pose proof Hsize as Hs. rewrite Ht in Hs. cbn. apply offset_mask. len_lia.
Qed.

Lemma fixed_lexed ok kind pre it w :
  txt = pre ++ it -> spelling kind = Some w -> w <> [] ->
  lexed ok (len pre) w [fixed_token kind (len pre)].
Proof.
  intros Ht Hk Hw. apply lexed_one; [by eapply token_offset|]. split; [done|].
  unfold variable_kind. cbn. by rewrite Hk.
Qed.

Lemma variable_lexed ok kind pre it w :
  txt = pre ++ it -> w <> [] -> variable_kind kind = true -> lexical_class ok kind w ->
  lexed ok (len pre) w [make_token kind (len pre) (len w)].
Proof.
  intros Ht Hw Hk Hc. apply lexed_one; [by eapply token_offset|]. split; [done|].
  cbn. by rewrite Hk.
Qed.

(** ** Operators *)

Lemma operator_tokens_lexed pre w it toks :
  txt = pre ++ w ++ it -> w <> [] -> operator_tokens (len pre) w toks -> lexed true (len pre) w toks.
Proof.
  intros Ht Hw [(kind & -> & Hk)|[-> ->]]; [by eapply fixed_lexed|].
  pose proof Hsize as Hs. rewrite Ht in Hs. change source_size_max with (2 ^ 24 - 1) in Hs.
  assert (Hoff : u32 (len pre + 1) = len (pre ++ [">"])) by (rewrite u32_small by len_lia; len_lia).
  rewrite Hoff. change [">"; ">"] with ([">"] ++ [">"]).
  apply (lexed_app _ _ [">"] [_] [">"] [_]); [by eapply fixed_lexed|].
  replace (len pre + len [">"]) with (len (pre ++ [">"])) by len_lia.
  eapply fixed_lexed; [|done..]. rewrite Ht. by rewrite <-app_assoc.
Qed.

Lemma spelled_not_comment kind off w : spelling kind = Some w -> not_comment (fixed_token kind off).
Proof. by destruct kind. Qed.

Lemma operator_tokens_not_comment off w toks : operator_tokens off w toks -> Forall not_comment toks.
Proof.
  intros [(kind & -> & Hk)|[_ ->]]; repeat constructor. by eapply spelled_not_comment.
Qed.

Lemma runs_op_run tree pre p it cands :
  txt = pre ++ p ++ it -> op_check p cands tree = true ->
  (forall o, o ∈ operators -> o `prefix_of` (p ++ it) -> (length p < length o)%nat -> o ∈ cands) ->
  runs (op_run tree (len pre)) it (fun _ tr _ =>
    reported tr = [] /\ operator_tokens (len pre) (p ++ read_ tr) (emitted tr) /\
    longest_operator (p ++ read_ tr) (p ++ it)).
Proof.
  assert (Hlong : forall p it cands,
    forallb (fun w => (length w <=? length p)%nat) cands = true ->
    (forall o, o ∈ operators -> o `prefix_of` (p ++ it) -> (length p < length o)%nat -> o ∈ cands) ->
    longest_operator (p ++ []) (p ++ it)).
  { clear p it cands. intros p it cands Hall Hin o Ho Hp. rewrite app_nil_r.
    rewrite forallb_forall in Hall. destruct (Nat.le_gt_cases (length o) (length p)); [done|].
    apply Nat.leb_le, Hall, list_elem_of_In. auto. }
  revert p it cands. induction tree as [kind|kind|c yes IHyes no IHno];
    intros p it cands Ht Hcheck Hin; cbn [op_check] in Hcheck; apply andb_prop in Hcheck as [H1 H2].
  - apply runs_last, runs_put, runs_ret. rewrite tapp_nil_r. split; [done|]. split; [|by eapply Hlong].
    left. exists kind. split; [done|]. rewrite app_nil_r. by apply bool_decide_eq_true in H1.
  - apply runs_put, runs_last, runs_put, runs_ret. rewrite tapp_nil_r. split; [done|].
    split; [|by eapply Hlong]. right. apply andb_prop in H1 as [->%bool_decide_eq_true ->%bool_decide_eq_true]. done.
  - apply runs_match.
    + intros it' ->. eapply runs_post; [eapply (IHyes (p ++ [c]) it')|].
      * by rewrite <-app_assoc.
      * exact H1.
      * rewrite <-app_assoc. intros o Ho Hp Hl. rewrite length_app in Hl.
        apply list_elem_of_filter. split; [|apply Hin; [done..|lia]]. apply bool_decide_eq_true.
        destruct (prefix_weak_total (p ++ [c]) o (p ++ [c] ++ it')) as [|Hop];
          [rewrite app_assoc; by apply prefix_app_r|done|done|].
        apply prefix_length in Hop. rewrite length_app in Hop. lia.
      * cbn. intros _ tr it2 _ (? & Htoks & Hl). split; [done|].
        rewrite <-!app_assoc in Htoks, Hl. by rewrite <-app_assoc in Hl.
    + intros Hne. eapply (IHno p it); [done|exact H2|].
      intros o Ho Hp Hl. apply list_elem_of_filter. split; [|by apply Hin].
      unfold starts. apply bool_decide_eq_false. intros Hst.
      destruct (transitivity Hst Hp) as [k Hk]. rewrite <-app_assoc in Hk.
      apply app_inv_head in Hk. by destruct (Hne k).
Qed.

Lemma runs_operator_tree tree pre c it :
  operator_tree c = Some tree -> txt = pre ++ c :: it ->
  runs (offset <- get_offset_and_advance ;; op_run tree offset) (c :: it) (fun _ tr _ =>
    reported tr = [] /\ read_ tr <> [] /\ operator_tokens (len pre) (read_ tr) (emitted tr) /\
    longest_operator (read_ tr) (c :: it)).
Proof.
  intros Htree Ht. pose proof (operator_trees_checked c) as Hcheck. unfold check_operator in Hcheck.
  rewrite Htree in Hcheck. apply (runs_get_offset_and_advance source_ Hsize) with (pre := pre); [done|].
  eapply runs_post; [eapply (runs_op_run tree pre [c] it); [done|exact Hcheck|]|].
  - intros o Ho Hp Hl. apply list_elem_of_filter. split; [|done]. apply bool_decide_eq_true.
    destruct (prefix_weak_total [c] o ([c] ++ it)) as [|Hop]; [by apply prefix_app_r|done|done|].
    apply prefix_length in Hop. lia.
  - cbn. intros _ tr it' _ (? & ? & ?). done.
Qed.

Lemma operator_handler tree c :
  operator_tree c = Some tree ->
  handle_next_character source_ flags_ tab_size_ c = (offset <- get_offset_and_advance ;; op_run tree offset).
Proof. destruct c as [[] [] [] [] [] [] [] []]; intros [= <-]; reflexivity. Qed.

Lemma lexes_operator tree pre c it :
  operator_tree c = Some tree -> txt = pre ++ c :: it ->
  runs (handle_next_character source_ flags_ tab_size_ c) (c :: it) (fun _ tr _ => lexes pre tr).
Proof.
  intros Htree Ht. rewrite (operator_handler tree) by done.
  eapply runs_post; [by eapply runs_operator_tree|]. intros [] tr it' Hit (Hr & Hne & Htoks & _).
  split; [done|]. unfold clean. rewrite Hr. split.
  - eapply operator_tokens_lexed; [|done..]. by rewrite <-Hit.
  - left. by eapply operator_tokens_not_comment.
Qed.

(** ** Identifiers and keywords *)

Lemma word_cons c w : is_ascii_identifier_char c = true -> word w -> word (c :: w).
Proof. intros Hc Hw. apply (word_app [c] w); [by left|done]. Qed.

Definition identifier_start (c : ascii) : bool := is_ascii_identifier_char c && negb (is_decimal_digit c).

Lemma identifier_start_word c w :
  identifier_start c = true -> word w -> keyword_kind (c :: w) = None -> is_identifier (c :: w).
Proof.
  intros [Hc Hd%negb_true_iff]%andb_prop Hw Hk. split_and!; [by apply word_cons|done|done|done].
Qed.

(** A trace of reading [c], scanning [w] and putting [token]. *)
Lemma lexes_scan_token pre c w reps token tr :
  tr = tread [c] +++ scan w reps +++ (tput token +++ tnil) ->
  lexed (clean (scan (c :: w) reps)) (len pre) (c :: w) [token] -> not_comment token -> lexes pre tr.
Proof.
  intros -> Hl Hn. unfold lexes, clean, tapp. cbn. rewrite !app_nil_r. split_and!; [done..|].
  left. by repeat constructor.
Qed.

(** The token of a word: its keyword's or an identifier. *)
Definition word_token (pre w : text) : Token :=
  match keyword_kind w with
  | Some kind => fixed_token kind (len pre)
  | None => make_token TokenKind.identifier (len pre) (len w)
  end.

(** A run of [consume_word] that satisfies [R] makes a run of the handlers that
    start with it. *)
Section AfterFirst.
Context (pre : text) (c : ascii) (it : text) (R : text -> list Report -> text -> Prop).
Context (Ht : txt = pre ++ c :: it).
Context (Hword : runs (consume_word source_ tab_size_) it (fun _ tr it' =>
  exists w reps, tr = scan w reps /\ word w /\ R w reps it')).

Definition word_run (tr : Trace) (it' : text) : Prop :=
  exists w reps, c :: it = (c :: w) ++ it' /\ word w /\ R w reps it' /\
    tr = {| read_ := c :: w; emitted := [word_token pre (c :: w)]; reported := reps |}.

Lemma word_run_intro w reps it' token :
  it = w ++ it' -> word w -> R w reps it' -> word_token pre (c :: w) = token ->
  word_run (tread [c] +++ scan w reps +++ (tput token +++ tnil)) it'.
Proof.
  intros Hit Hw HR <-. exists w, reps. split_and!; [by rewrite Hit|done..|].
  unfold tapp, scan, tput. cbn. by rewrite !app_nil_r.
Qed.

Lemma runs_on_alphabetic :
  get_keyword_tails c = Some [] -> runs (on_alphabetic source_ tab_size_) (c :: it) (fun _ => word_run).
Proof.
  intros Hk. unfold on_alphabetic.
  apply (runs_get_offset_and_advance source_ Hsize) with (pre := pre); [done|].
  eapply runs_bind; [exact Hword|].
  intros _ tr it' Hit (w & reps & -> & Hw & HR). cbn [read_ scan] in Hit.
  apply (runs_length_from source_ Hsize) with (w := c :: w); [by rewrite Ht, Hit|].
  apply runs_last, runs_put, runs_ret. apply word_run_intro; [done..|].
  unfold word_token. by rewrite (keyword_kind_no_tails c w Hk Hw).
Qed.

Lemma runs_on_alphabetic_maybe_keyword tails :
  get_keyword_tails c = Some tails ->
  runs (on_alphabetic_maybe_keyword source_ tab_size_ tails) (c :: it) (fun _ => word_run).
Proof.
  intros Hk. unfold on_alphabetic_maybe_keyword.
  apply (runs_get_offset_and_advance source_ Hsize) with (pre := pre); [done|].
  eapply runs_bind; [exact Hword|].
  intros _ tr it' Hit (w & reps & -> & Hw & HR). cbn [read_ scan] in Hit.
  assert (Ht' : txt = (pre ++ [c]) ++ w ++ it') by (rewrite Ht, Hit; app_eq).
  apply (runs_length_from source_ Hsize) with (w := c :: w); [rewrite Ht'; app_eq|].
  destruct (get_keyword_tails_spec c) as (tails' & Htails & Hfind).
  rewrite Hk in Htails. injection Htails as <-. specialize (Hfind w Hw).
  assert (Hput : forall token, word_token pre (c :: w) = token ->
    runs (put_token token) it' (fun _ tr => word_run (tread [c] +++ scan w reps +++ tr))).
  { intros token Htoken. apply runs_last, runs_put, runs_ret. by apply word_run_intro. }
  unfold word_token in Hput.
  destruct (Z.leb_spec (len (c :: w)) (8 + 1)) as [Hle|Hgt].
  - pose proof Hsize as Hs. rewrite Ht' in Hs. change source_size_max with (2 ^ 24 - 1) in Hs.
    rewrite (u32_small (len pre + 1)), (u32_small (len (c :: w) - 1)) by len_lia.
    assert (Hsub : substr txt (len pre + 1) (len (c :: w) - 1) = Some w).
    { rewrite Ht'. apply substr_app; [change (len (pre ++ [c]) = len pre + 1)|
        change (len w = len (c :: w) - 1)]; len_lia. }
    rewrite Hsub. apply runs_expect. cbv beta zeta. rewrite Hfind.
    destruct (keyword_kind (c :: w)) as [kind|]; by apply Hput.
  - apply Hput. rewrite keyword_kind_long; [done|]. unfold len in Hgt. lia.
Qed.

Lemma runs_keyword_handler : runs (keyword_handler source_ tab_size_ c) (c :: it) (fun _ => word_run).
Proof.
  unfold keyword_handler. destruct (get_keyword_tails_spec c) as ([|tail tails] & Htails & _); rewrite Htails.
  - by apply runs_on_alphabetic.
  - by apply runs_on_alphabetic_maybe_keyword.
Qed.

Lemma runs_identifier_start :
  identifier_start c = true ->
  runs (handle_next_character source_ flags_ tab_size_ c) (c :: it) (fun _ => word_run).
Proof.
  intros Hc. generalize runs_keyword_handler, runs_on_alphabetic.
  clear Ht Hword. destruct c as [[] [] [] [] [] [] [] []]; try discriminate Hc; intros Hkw Ha;
    first [exact Hkw | by apply Ha].
Qed.
End AfterFirst.

Lemma word_token_lexed ok pre w it :
  txt = pre ++ w ++ it -> w <> [] -> (keyword_kind w = None -> is_identifier w) ->
  lexed ok (len pre) w [word_token pre w] /\ not_comment (word_token pre w).
Proof.
  intros Ht Hw Hid. unfold word_token. destruct (keyword_kind w) as [kind|] eqn:Hk.
  - apply keyword_kind_spelling in Hk. split; [by eapply fixed_lexed|by eapply spelled_not_comment].
  - split; [|done]. eapply variable_lexed; [done..|]. by apply Hid.
Qed.

Lemma lexes_identifier_start pre c it :
  txt = pre ++ c :: it -> identifier_start c = true ->
  runs (handle_next_character source_ flags_ tab_size_ c) (c :: it) (fun _ tr _ => lexes pre tr).
Proof.
  intros Ht Hc. eapply runs_post; [eapply (runs_identifier_start pre c it (fun _ _ _ => True)); [done| |done]|].
  - eapply runs_post; [apply (runs_consume_word source_ tab_size_ Hsize Htab (pre ++ [c])); by rewrite <-app_assoc|].
    intros _ tr it' _ (w & reps & -> & Hw & _). eauto 10.
  - intros _ tr it' _ (w & reps & Hit & Hw & _ & ->). unfold lexes, clean. cbn.
    destruct (word_token_lexed (match reps with [] => true | _ => false end) pre (c :: w) it') as [Hl Hn].
    + by rewrite Ht, Hit.
    + done.
    + by apply identifier_start_word.
    + split; [done|]. split; [done|]. left. by repeat constructor.
Qed.

Lemma non_ascii_identifier c v w :
  is_ascii c = false -> word w -> is_identifier ((c :: v) ++ w).
Proof.
  intros Hc Hw. assert (Hd : is_decimal_digit c = false /\ char_between "a" "z" c = false).
  { pose proof (forall_ascii (fun c => is_ascii c || negb (is_decimal_digit c) && negb (char_between "a" "z" c))
      ltac:(vm_compute; reflexivity) c) as Hb. cbv beta in Hb.
    rewrite Hc in Hb. cbn in Hb. by apply andb_prop in Hb as [?%negb_true_iff ?%negb_true_iff]. }
  destruct Hd as [Hd Hl]. split_and!; [|done|done|by apply keyword_kind_first].
  apply word_app; [by right|done].
Qed.

Lemma lexes_on_other_char pre c it :
  txt = pre ++ c :: it ->
  runs (on_other_char source_ tab_size_ c) (c :: it) (fun _ tr _ => lexes pre tr).
Proof.
  intros Ht. unfold on_other_char.
  apply (runs_get_offset_and_advance source_ Hsize) with (pre := pre); [done|].
  eapply runs_bind; [by apply runs_consume_multibyte_utf8_char, len_nonneg|].
  intros ok tr it' -> (v & reps & -> & Hok). cbn [read_ scan] in Ht. destruct ok.
  - destruct Hok as [-> Hc]. eapply runs_bind.
    { apply (runs_consume_word source_ tab_size_ Hsize Htab (pre ++ c :: v)). by rewrite <-app_assoc. }
    intros _ tr it2 -> (w & reps & -> & Hw & _). cbn [read_ scan] in Ht.
    apply (runs_length_from source_ Hsize) with (w := (c :: v) ++ w); [by rewrite Ht, <-app_assoc|].
    apply runs_last, runs_put, runs_ret. rewrite tapp_nil_r. split; [done|].
    unfold clean, tapp, scan, tput. cbn [read_ emitted reported tread app]. rewrite !app_nil_r.
    split; [|by left; repeat constructor]. eapply (variable_lexed _ _ pre _ ((c :: v) ++ w));
      [exact Ht|done|done|by apply non_ascii_identifier].
  - destruct Hok as [Hr _]. apply runs_ret. rewrite tapp_nil_r. split; [done|]. split; [|by left; constructor].
    apply lexed_only_gap. unfold clean. cbn. by destruct reps.
Qed.

(** ** Numbers *)

(** A trace of reading a literal and the white space after it, and putting the
    literal's token. *)
Lemma lexes_literal pre kind v ws it tr :
  txt = pre ++ (v ++ ws) ++ it -> v <> [] -> all_whitespace ws ->
  variable_kind kind = true -> TokenCursor.is_comment kind = false -> lexical_class true kind v ->
  read_ tr = v ++ ws -> emitted tr = [make_token kind (len pre) (len v)] -> reported tr = [] ->
  lexes pre tr.
Proof.
  intros Ht Hv Hws Hk Hn Hc Hr He Hrep. unfold lexes, clean. rewrite Hr, He, Hrep.
  split; [by destruct v|]. split; [|left; by repeat constructor]. change [make_token kind (len pre) (len v)] with
    ([make_token kind (len pre) (len v)] ++ []). apply lexed_app.
  - by eapply variable_lexed.
  - apply lexed_only_gap. intros _. by apply all_whitespace_trivia.
Qed.

Lemma digit_not_null : is_decimal_digit Ascii.zero = false /\ is_hexadecimal_digit Ascii.zero = false.
Proof. done. Qed.

(** Digits up to a length that the caller counts from the offset of [w]. *)
Lemma runs_digits pred pre w it :
  pred Ascii.zero = false -> txt = pre ++ w ++ it ->
  runs (consume_digit_sequence pred (len pre)) it (fun n tr it' =>
    exists v ws, tr = tread (v ++ ws) /\ n = len (w ++ v) /\ digit_run pred v /\
      all_whitespace ws /\ ends_digits pred it').
Proof. intros Hp Ht. by apply runs_consume_digit_sequence. Qed.

Lemma lexes_radix_literal kind pred pre w it :
  pred Ascii.zero = false -> txt = pre ++ w ++ it -> w <> [] -> variable_kind kind = true ->
  TokenCursor.is_comment kind = false -> lexical_class true kind = digits_after w pred ->
  runs (length <- consume_digit_sequence pred (len pre) ;; put_token (make_token kind (len pre) length))
    it (fun _ tr _ => lexes pre (tread w +++ tr)).
Proof.
  intros Hp Ht Hw Hk Hn Hclass. eapply runs_bind; [by apply (runs_digits pred pre w)|].
  intros n tr it' -> (v & ws & -> & -> & Hv & Hws & _). cbn [read_ tread] in Ht.
  apply runs_last, runs_put, runs_ret. rewrite tapp_nil_r.
  eapply (lexes_literal pre kind (w ++ v) ws it'); cbn; try done.
  - by rewrite Ht, <-!app_assoc.
  - by destruct w.
  - rewrite Hclass. by exists v.
  - by rewrite app_nil_r, app_assoc.
Qed.

Lemma lexes_handle_decimal_literal pre d it :
  txt = pre ++ d :: it -> is_decimal_digit d = true ->
  runs (handle_decimal_literal (len pre)) it (fun _ tr _ => lexes pre (tread [d] +++ tr)).
Proof.
  intros Ht Hd. unfold handle_decimal_literal.
  eapply runs_bind; [by apply (runs_digits is_decimal_digit pre [d])|].
  intros n tr it' -> (v & ws & -> & -> & Hv & Hws & _). cbn [read_ tread] in Ht.
  assert (Hdec : is_decimal (d :: v)) by (exists d; split; [done|by exists v]).
  apply runs_peek. change (match it' with [] => _ | _ => _ end) with (front it').
  assert (Hplain :
    runs (put_token (make_token TokenKind.dec_int_literal (len pre) (len ([d] ++ v)))) it'
      (fun _ tr _ => lexes pre (tread [d] +++ tread (v ++ ws) +++ tr))).
  { apply runs_last, runs_put, runs_ret. rewrite tapp_nil_r.
    eapply (lexes_literal pre TokenKind.dec_int_literal (d :: v) ws it'); cbn; try done. by rewrite app_nil_r. }
  destruct (Ascii.eqb_spec (front it') ".") as [Hdot|]; [|done].
  destruct it' as [|c it']; [done|]. cbn in Hdot. subst c. set (a := d :: v ++ ws).
  assert (Ht2 : txt = (pre ++ a) ++ "." :: it') by (by rewrite Ht, <-(app_assoc pre)).
  apply (runs_get_offset_and_advance source_ Hsize) with (pre := pre ++ a); [done|].
  eapply runs_bind; [by apply (runs_digits is_decimal_digit (pre ++ a) ["."])|].
  intros n tr it2 -> (v2 & ws2 & -> & -> & Hv2 & Hws2 & _). cbn [read_ tread] in Ht2.
  pose proof Hsize as Hs. rewrite Ht2 in Hs. change source_size_max with (2 ^ 24 - 1) in Hs.
  destruct (Z.ltb_spec 1 (len (["."] ++ v2))) as [Hlt|Hle].
  - assert (Hlen : u32 (u32 (len (pre ++ a) - len pre) + len (["."] ++ v2)) = len (a ++ "." :: v2)).
    { rewrite (u32_small (_ - _)) by len_lia. rewrite u32_small by len_lia. len_lia. }
    rewrite Hlen. apply runs_last, runs_put, runs_ret. rewrite tapp_nil_r.
    eapply (lexes_literal pre TokenKind.float_literal (a ++ "." :: v2) ws2 it2); cbn; try done.
    + rewrite Ht2. unfold a. app_eq.
    + exists (d :: v), ws, v2. split; [unfold a; app_eq|].
      split_and!; [by right|done| |done]. intros ->. len_lia.
    + unfold a. app_eq.
  - assert (v2 = []) as -> by (destruct v2; [done|len_lia]).
    apply runs_put, runs_last, runs_put, runs_ret. rewrite tapp_nil_r. split; [done|].
    unfold clean, tapp, tput. cbn [read_ emitted reported tread app]. rewrite !app_nil_r.
    split; [|by left; repeat constructor].
    change (d :: (v ++ ws) ++ "." :: ws2) with ((d :: v ++ ws) ++ ["."] ++ ws2).
    change (lexed true (len pre) (a ++ ["."] ++ ws2)
      ([make_token TokenKind.dec_int_literal (len pre) (len (d :: v))] ++
       ([fixed_token TokenKind.dot (len (pre ++ a))] ++ []))).
    apply lexed_app.
    + change [make_token TokenKind.dec_int_literal (len pre) (len (d :: v))] with
        ([make_token TokenKind.dec_int_literal (len pre) (len (d :: v))] ++ []).
      change a with ((d :: v) ++ ws). apply lexed_app; [by eapply variable_lexed|].
      apply lexed_only_gap. intros _. by apply all_whitespace_trivia.
    + replace (len pre + len a) with (len (pre ++ a)) by len_lia.
      apply lexed_app; [by eapply fixed_lexed|].
      apply lexed_only_gap. intros _. by apply all_whitespace_trivia.
Qed.

Lemma lexes_on_zero pre it :
  txt = pre ++ "0" :: it -> runs on_zero ("0" :: it) (fun _ tr _ => lexes pre tr).
Proof.
  intros Ht. unfold on_zero.
  apply (runs_get_offset_and_advance source_ Hsize) with (pre := pre); [done|].
  apply runs_match; [intros it' ->; by apply (lexes_radix_literal _ _ pre ["0"; "x"])|intros _].
  apply runs_match; [intros it' ->; by apply (lexes_radix_literal _ _ pre ["0"; "b"])|intros _].
  apply runs_match; [intros it' ->; by apply (lexes_radix_literal _ _ pre ["0"; "o"])|intros _].
  by apply lexes_handle_decimal_literal.
Qed.

Lemma lexes_on_nonzero pre d it :
  txt = pre ++ d :: it -> is_decimal_digit d = true ->
  runs on_nonzero (d :: it) (fun _ tr _ => lexes pre tr).
Proof.
  intros Ht Hd. unfold on_nonzero.
  apply (runs_get_offset_and_advance source_ Hsize) with (pre := pre); [done|].
  by apply lexes_handle_decimal_literal.
Qed.

Lemma lexes_on_dot pre it :
  txt = pre ++ "." :: it -> runs on_dot ("." :: it) (fun _ tr _ => lexes pre tr).
Proof.
  intros Ht. unfold on_dot.
  apply (runs_get_offset_and_advance source_ Hsize) with (pre := pre); [done|].
  eapply runs_bind; [by apply (runs_digits is_decimal_digit pre ["."])|].
  intros n tr it' -> (v & ws & -> & -> & Hv & Hws & _). cbn [read_ tread] in Ht.
  destruct (Z.ltb_spec 1 (len (["."] ++ v))) as [Hlt|Hle].
  - apply runs_last, runs_put, runs_ret. rewrite tapp_nil_r.
    eapply (lexes_literal pre TokenKind.float_literal ("." :: v) ws it'); cbn; try done.
    + exists [], [], v. split_and!; [done|by left|constructor| |done]. intros ->. len_lia.
    + by rewrite app_nil_r.
  - assert (v = []) as -> by (destruct v; [done|len_lia]).
    apply runs_last, runs_put, runs_ret. rewrite tapp_nil_r. split; [done|].
    unfold clean, tapp, tput. cbn [read_ emitted reported tread app]. rewrite app_nil_r.
    split; [|by left; repeat constructor].
    change ("." :: ws) with (["."] ++ ws).
    change [fixed_token TokenKind.dot (len pre)] with ([fixed_token TokenKind.dot (len pre)] ++ []).
    apply lexed_app; [by eapply fixed_lexed|].
    apply lexed_only_gap. intros _. by apply all_whitespace_trivia.
Qed.

(** ** Comments and quoted literals *)

(** What stands for a comment [w]: its token or, without the flag, nothing. *)
Lemma lexes_emit_comment kind pre w reps it :
  txt = pre ++ w ++ it -> w <> [] -> variable_kind kind = true ->
  lexical_class (clean (scan w reps)) kind w ->
  (clean (scan w reps) = true -> trivia w) -> hd Ascii.zero w = "/" ->
  runs (emit_comment flags_ kind (len pre)) it (fun _ tr _ => lexes pre (scan w reps +++ tr)).
Proof.
  intros Ht Hw Hk Hc Htriv Hhd. unfold emit_comment. destruct (has_flags _ _).
  - apply (runs_length_from source_ Hsize) with (w := w); [done|].
    apply runs_last, runs_put, runs_ret. rewrite tapp_nil_r. unfold lexes, clean in *. cbn in *.
    rewrite !app_nil_r. split; [done|]. split; [by eapply variable_lexed|by right].
  - apply runs_ret. rewrite tapp_nil_r. split; [done|]. split; [by apply lexed_only_gap|by left; constructor].
Qed.

Lemma comment_rest_eq d c e s :
  comment_rest d (c :: e :: s) =
  if Ascii.eqb c "*" && Ascii.eqb e "/" then
    match d with S (S d) => comment_rest (S d) s | _ => Some s end
  else if Ascii.eqb c "/" && Ascii.eqb e "*" then comment_rest (S d) s
  else comment_rest d (e :: s).
Proof. reflexivity. Qed.

Lemma comment_rest_shorter d s rest : comment_rest d s = Some rest -> (length rest < length s)%nat.
Proof.
  revert d. induction s as [s IH] using (induction_ltof1 _ (@length ascii)). unfold ltof in IH. intros d.
  destruct s as [|c [|e s]]; [done..|]. rewrite comment_rest_eq.
  assert (Hs : forall d, comment_rest d s = Some rest -> (length rest < length (c :: e :: s))%nat).
  { intros d' Hr. apply IH in Hr; cbn [length] in *; lia. }
  destruct (_ && _); [|destruct (_ && _)].
  - destruct d as [|[|d]]; [intros [= <-]; cbn; lia..|apply Hs].
  - apply Hs.
  - intros Hr. apply IH in Hr; cbn [length] in *; lia.
Qed.

Lemma app_self_nil {A} (l k : list A) : l ++ k = k -> l = [].
Proof. intros Heq. apply (f_equal length) in Heq. rewrite length_app in Heq. destruct l; [done|cbn in Heq; lia]. Qed.

(** The text of a closed comment is a closed comment by itself. *)
Lemma comment_rest_prefix d w rest : comment_rest d (w ++ rest) = Some rest -> comment_rest d w = Some [].
Proof.
  revert d. induction w as [w IH] using (induction_ltof1 _ (@length ascii)). unfold ltof in IH. intros d Hr.
  destruct w as [|c [|e w]].
  - apply comment_rest_shorter in Hr. cbn in Hr. lia.
  - exfalso. cbn [app] in Hr. destruct rest as [|f rest]; [done|]. rewrite comment_rest_eq in Hr.
    assert (Hno : forall d, comment_rest d rest <> Some (f :: rest)).
    { intros d' Hr'. apply comment_rest_shorter in Hr'. cbn in Hr'. lia. }
    destruct (_ && _); [|destruct (_ && _)].
    + destruct d as [|[|d]]; [by injection Hr as Hr; apply (f_equal length) in Hr; cbn in Hr; lia..|].
      by apply Hno in Hr.
    + by apply Hno in Hr.
    + apply comment_rest_shorter in Hr. lia.
  - cbn [app] in Hr. rewrite comment_rest_eq in Hr |- *.
    assert (Hw : forall d, comment_rest d (w ++ rest) = Some rest -> comment_rest d w = Some []).
    { intros d'. apply IH. cbn. lia. }
    destruct (_ && _); [|destruct (_ && _)].
    + destruct d as [|[|d]]; [by injection Hr as Hr; apply app_self_nil in Hr as ->..|auto].
    + auto.
    + apply IH; [cbn; lia|done].
Qed.

Lemma lexes_on_slash pre it :
  txt = pre ++ "/" :: it -> runs (on_slash source_ flags_ tab_size_) ("/" :: it) (fun _ tr _ => lexes pre tr).
Proof.
  intros Ht. unfold on_slash.
  apply (runs_get_offset_and_advance source_ Hsize) with (pre := pre); [done|].
  apply runs_match; [intros it' ->|intros _; apply runs_match; [intros it' ->|intros Hstar]].
  - eapply runs_bind; [apply runs_consume_line_comment|].
    intros _ tr it2 -> (v & -> & Hv & _). cbn [read_ tread] in Ht.
    assert (Hline : is_line_comment ("/" :: "/" :: v)) by by exists v.
    eapply runs_post; [apply (lexes_emit_comment TokenKind.line_comment pre ("/" :: "/" :: v) [] it2)|];
      [done..|intros _|done|done].
    rewrite <-(app_nil_r ("/" :: "/" :: v)). apply trivia_line_comment; [done|constructor].
  - eapply runs_bind.
    { apply (runs_consume_block_comment source_ tab_size_ Hsize Htab (pre ++ ["/"; "*"]));
        [by rewrite Ht, <-app_assoc|apply len_nonneg]. }
    intros _ tr it2 -> (w & reps & -> & Hrest). cbn [read_ scan] in Ht, Hrest.
    assert (Hok : clean (scan ("/" :: "*" :: w) reps) = true -> comment_rest 1 w = Some []).
    { unfold clean. cbn. destruct reps; [intros _|done].
      destruct (comment_rest 1 (w ++ it2)) as [rest|] eqn:Hr; [|by destruct Hrest as (_ & r & ? & _)].
      destruct Hrest as [-> _]. by eapply comment_rest_prefix. }
    eapply runs_post; [apply (lexes_emit_comment TokenKind.block_comment pre ("/" :: "*" :: w) reps it2)|done];
      [done..| | |done].
    + by exists w.
    + intros Hc. rewrite <-(app_nil_r ("/" :: "*" :: w)).
      apply trivia_block_comment; [|constructor]. exists w. auto.
  - assert (Hop : forall kind w it2, txt = pre ++ w ++ it2 -> w <> [] -> spelling kind = Some w ->
      runs (put_token (fixed_token kind (len pre))) it2 (fun _ tr _ => lexes pre (tread w +++ tr))).
    { intros kind w it2 Ht2 Hw Hk. apply runs_last, runs_put, runs_ret. rewrite tapp_nil_r.
      unfold lexes, clean. cbn. rewrite app_nil_r. split; [done|]. split; [by eapply fixed_lexed|].
      left. constructor; [by eapply spelled_not_comment|constructor]. }
    apply runs_match; [intros it' ->; by apply (Hop _ ["/"; "="])|].
    intros _. by apply (Hop _ ["/"]).
Qed.

(** Scanning what a scan has read reads it again. *)
Lemma quote_scan_idem quote s : fst (quote_scan quote (fst (quote_scan quote s))) = fst (quote_scan quote s).
Proof.
  induction s as [s IH] using (induction_ltof1 _ (@length ascii)). unfold ltof in IH.
  destruct s as [|c s]; [done|]. cbn [quote_scan]. destruct (stops c) eqn:Hc; [done|].
  destruct (Ascii.eqb c "\") eqn:Hb.
  - destruct s as [|d s]; [cbn [fst quote_scan]; by rewrite Hc, Hb|].
    destruct (stops d) eqn:Hd; [cbn [fst quote_scan]; by rewrite Hc, Hb|].
    specialize (IH s ltac:(cbn; lia)). destruct (quote_scan quote s) as [v e]. cbn [fst] in *.
    cbn [quote_scan]. rewrite Hc, Hb, Hd. destruct (quote_scan quote v). cbn in *. congruence.
  - destruct (Ascii.eqb c quote) eqn:Hq; [cbn [fst quote_scan]; by rewrite Hc, Hb, Hq|].
    specialize (IH s ltac:(cbn; lia)). destruct (quote_scan quote s) as [v e]. cbn [fst] in *.
    cbn [quote_scan]. rewrite Hc, Hb, Hq. destruct (quote_scan quote v). cbn in *. congruence.
Qed.

Lemma lexes_on_quote pre kind quote it :
  txt = pre ++ quote :: it -> quote <> "\" -> variable_kind kind = true ->
  TokenCursor.is_comment kind = false -> lexical_class true kind = is_quoted quote -> lexical_class false kind = is_quoted quote ->
  runs (on_quote source_ tab_size_ kind quote) (quote :: it) (fun _ tr _ => lexes pre tr).
Proof.
  intros Ht Hq Hk Hn Hct Hcf. unfold on_quote.
  apply (runs_get_offset_and_advance source_ Hsize) with (pre := pre); [done|].
  eapply runs_bind.
  { apply (runs_consume_quoted source_ tab_size_ Hsize Htab (pre ++ [quote])); [by rewrite <-app_assoc|done]. }
  intros _ tr it' Hit (reps & -> & _). cbn [read_ scan] in Hit.
  pose proof (quote_scan_idem quote it) as Hidem. set (v := fst (quote_scan quote it)) in *.
  rewrite Hit in Ht. apply (runs_length_from source_ Hsize) with (w := quote :: v); [done|].
  apply runs_last, runs_put, runs_ret. eapply lexes_scan_token; [done| |try done].
  eapply variable_lexed; [done..|]. destruct (clean _); rewrite ?Hct, ?Hcf; by exists v.
Qed.

(** ** The dispatch *)

Lemma lexes_whitespace pre c it :
  is_ascii_whitespace c = true -> runs cursor_advance (c :: it) (fun _ tr _ => lexes pre tr).
Proof.
  intros Hc. apply runs_last, runs_advance, runs_ret. rewrite tapp_nil_r. split; [done|].
  split; [|by left; constructor]. apply lexed_only_gap. intros _. by apply trivia_space; [|constructor].
Qed.

(** The handler of every character. *)
Lemma lexes_next_character pre c it :
  txt = pre ++ c :: it ->
  runs (handle_next_character source_ flags_ tab_size_ c) (c :: it) (fun _ tr _ => lexes pre tr).
Proof.
  intros Ht. destruct (operator_tree c) as [tree|] eqn:Htree; [by eapply lexes_operator|].
  destruct c as [[] [] [] [] [] [] [] []]; try discriminate Htree; clear Htree;
    first [ by apply lexes_identifier_start | by apply lexes_whitespace | by apply lexes_on_zero | by apply lexes_on_nonzero
          | by apply lexes_on_dot | by apply lexes_on_slash | by apply lexes_on_quote
          | by apply lexes_on_other_char ].
Qed.

End Handlers.
