(* ===== verification/LexerFlags.v ===== *)
(** The lexer's flag: running without [emit_comments] gives the same tokens less
    the comments, and the same reports. *)

From Stdlib Require Import Ascii String.
From S2P Require Import Prelude Report Platform FileView Source SourceFacts Unicode Token Keywords Flags.
From S2P Require Import Lexer LexerWords LexerFacts LexerSpec LexerScanners LexerHandlers.

#[local] Open Scope char_scope.
#[local] Open Scope Z_scope.

#[export] Instance not_comment_dec token : Decision (not_comment token).
Proof. unfold not_comment. apply _. Defined.

Lemma filter_not_comment toks : Forall not_comment toks -> filter not_comment toks = toks.
Proof. induction 1; [done|]. rewrite filter_cons_True by done. by f_equal. Qed.

Section Filter.
Context `{Fmt} (source_ : SourceView.t) (with_comments without tab_size_ : Z).
#[local] Abbreviation txt := (source_text_ source_).
Context (Hsize : len txt <= source_size_max) (Htab : 0 <= tab_size_ < 256).
Context (Hwith : has_flags with_comments LexerFlags.emit_comments = true)
        (Hwithout : has_flags without LexerFlags.emit_comments = false).
#[local] Abbreviation runs := (runs source_).
#[local] Abbreviation st := (st source_).

(** [m2] does what [m1] does, except that it puts no comments; [R] holds of the
    result and the text that both read. *)
Definition filtered {A} (R : A -> text -> Prop) (m1 m2 : L A) (it : text) : Prop :=
  exists a tr1 tr2 it',
    it = read_ tr1 ++ it' /\ R a (read_ tr1) /\ read_ tr2 = read_ tr1 /\ reported tr2 = reported tr1 /\
    emitted tr2 = filter not_comment (emitted tr1) /\
    (forall toks reps, m1 (st toks it reps) = Done a (st (toks ++ emitted tr1) it' (reps ++ reported tr1))) /\
    (forall toks reps, m2 (st toks it reps) = Done a (st (toks ++ emitted tr2) it' (reps ++ reported tr2))).

Lemma filtered_weaken {A} (R R' : A -> text -> Prop) (m1 m2 : L A) it :
  (forall a w, R a w -> R' a w) -> filtered R m1 m2 it -> filtered R' m1 m2 it.
Proof. intros HR (a & tr1 & tr2 & it' & Hit & Hr & Hm). exists a, tr1, tr2, it'. auto. Qed.

Lemma filtered_same {A} (R : A -> text -> Prop) (m : L A) it :
  runs m it (fun a tr _ => R a (read_ tr) /\ Forall not_comment (emitted tr)) -> filtered R m m it.
Proof.
  intros (a & tr & it' & Hit & [Hr He] & Hm). exists a, tr, tr, it'. split_and!; try done.
  symmetry. eauto using filter_not_comment.
Qed.

Lemma filtered_bind {A B} R1 R (m1 m2 : L A) (k1 k2 : A -> L B) it :
  filtered R1 m1 m2 it ->
  (forall a w it', it = w ++ it' -> R1 a w -> filtered (fun b v => R b (w ++ v)) (k1 a) (k2 a) it') ->
  filtered R (bind m1 k1) (bind m2 k2) it.
Proof.
  intros (a & tr1 & tr2 & it' & -> & Hr1 & Hread & Hrep & Hem & H1 & H2) Hk.
  destruct (Hk a _ it' eq_refl Hr1) as (b & tr3 & tr4 & it2 & -> & Hr & Hread' & Hrep' & Hem' & H3 & H4).
  exists b, (tr1 +++ tr3), (tr2 +++ tr4), it2. cbn. rewrite filter_app.
  split_and!; [by rewrite app_assoc|done|congruence..| |];
    intros toks reps; unfold bind; [by rewrite H1, H3, !app_assoc|by rewrite H2, H4, !app_assoc].
Qed.

(** A common first part that puts nothing, whose result and end are known. *)
Lemma filtered_after {A B} R0 R (m : L A) (k1 k2 : A -> L B) it :
  runs m it R0 ->
  (forall a tr it', it = read_ tr ++ it' -> R0 a tr it' ->
     emitted tr = [] /\ filtered (fun b v => R b (read_ tr ++ v)) (k1 a) (k2 a) it') ->
  filtered R (bind m k1) (bind m k2) it.
Proof.
  intros (a & tr & it' & -> & Hr & Hm) Hk. destruct (Hk a tr it' eq_refl Hr) as [He Hf].
  destruct Hf as (b & tr3 & tr4 & it2 & -> & HR & Hread' & Hrep' & Hem' & H3 & H4).
  exists b, (tr +++ tr3), (tr +++ tr4), it2. cbn. rewrite He. cbn.
  split_and!; [by rewrite app_assoc|done|congruence|congruence|done| |];
    intros toks reps; unfold bind; rewrite Hm, He, app_nil_r; [by rewrite H3, !app_assoc|by rewrite H4, !app_assoc].
Qed.

(** The slash has been read: what follows may read nothing. *)
#[local] Abbreviation follows := (filtered (fun _ _ => True)).

Lemma filtered_match c (yes1 yes2 no1 no2 : L unit) it :
  (forall it', it = c :: it' -> follows yes1 yes2 it') -> follows no1 no2 it ->
  follows (if_match c yes1 no1) (if_match c yes2 no2) it.
Proof.
  intros Hyes Hno. unfold if_match. eapply filtered_after.
  - apply runs_last, (runs_match source_ (fun b tr it' => emitted tr = [] /\
      if b : bool then it = c :: it' else it = it')).
    + intros it' ->. by apply runs_ret.
    + intros _. by apply runs_ret.
  - intros b tr it' _ [He Hb]. split; [done|]. destruct b; [by apply Hyes|by subst].
Qed.

Lemma filtered_emit_comment kind pre w it :
  txt = pre ++ w ++ it -> TokenCursor.is_comment kind = true ->
  follows (emit_comment with_comments kind (len pre)) (emit_comment without kind (len pre)) it.
Proof.
  intros Ht Hk. unfold emit_comment. rewrite Hwith, Hwithout.
  set (token := make_token kind (len pre) (len w)).
  exists tt, (tput token), tnil, it. cbn [read_ emitted reported tput tnil]. split_and!; try done.
  - rewrite filter_cons_False; [done|]. unfold not_comment. change (TokenCursor.is_comment kind <> false). by rewrite Hk.
  - assert (Hr : runs (length <- length_from (len pre) ;; put_token (make_token kind (len pre) length)) it
      (fun _ tr _ => tr = tput token)).
    { apply (runs_length_from source_ Hsize) with (w := w); [done|].
      apply runs_last, runs_put, runs_ret. by rewrite tapp_nil_r. }
    destruct Hr as ([] & tr & it' & Hit & -> & Hm). cbn in Hit. subst it'. apply Hm.
  - intros toks reps. cbn. by rewrite !app_nil_r.
Qed.

Lemma filtered_on_slash pre it :
  txt = pre ++ "/" :: it ->
  filtered (fun _ w => w <> []) (on_slash source_ with_comments tab_size_) (on_slash source_ without tab_size_) ("/" :: it).
Proof.
  intros Ht. unfold on_slash. eapply filtered_after.
  { apply runs_last, (runs_get_offset_and_advance source_ Hsize
      (fun off tr it' => off = len pre /\ tr = tread ["/"] /\ it' = it)) with (pre := pre); [done|].
    by apply runs_ret. }
  intros off tr it0 _ (-> & -> & ->). split; [done|].
  eapply filtered_weaken with (R := fun _ _ => True); [done|]. apply filtered_match.
  { intros it' ->. eapply filtered_after; [apply runs_consume_line_comment|].
    intros _ tr2 it2 Hit (v & -> & _). split; [done|]. cbn in Hit. subst it'.
    by apply (filtered_emit_comment _ pre ("/" :: "/" :: v)). }
  apply filtered_match.
  { intros it' ->. eapply filtered_after.
    - apply (runs_consume_block_comment source_ tab_size_ Hsize Htab (pre ++ ["/"; "*"]));
        [by rewrite <-app_assoc|apply len_nonneg].
    - intros _ tr2 it2 Hit (w & reps & -> & _). split; [done|]. cbn in Hit. subst it'.
      by apply (filtered_emit_comment _ pre ("/" :: "*" :: w)). }
  apply filtered_match; intros; apply filtered_same;
    apply runs_last, runs_put, runs_ret; (split; [done|by repeat constructor]).
Qed.

Lemma filtered_next_character pre c it :
  txt = pre ++ c :: it ->
  filtered (fun _ w => w <> []) (handle_next_character source_ with_comments tab_size_ c)
           (handle_next_character source_ without tab_size_ c) (c :: it).
Proof.
  intros Ht. destruct (Ascii.eqb_spec c "/") as [->|Hc].
  - by apply (filtered_on_slash pre).
  - replace (handle_next_character source_ without tab_size_ c)
      with (handle_next_character source_ with_comments tab_size_ c).
    + apply filtered_same. eapply runs_post; [by apply lexes_next_character|].
      cbn. intros _ tr it' Hit (Hne & _ & [|Hhd]); [done|].
      destruct (read_ tr); [done|]. cbn in *. injection Hit as ->. by subst.
    + destruct c as [[] [] [] [] [] [] [] []]; try reflexivity. by destruct Hc.
Qed.

Lemma filtered_ret {A} (R : A -> text -> Prop) a it : R a [] -> filtered R (ret a) (ret a) it.
Proof. intros HR. apply filtered_same, runs_ret. split; [done|constructor]. Qed.

Lemma filtered_peek {B} R (k1 k2 : ascii -> L B) it :
  filtered R (k1 (front it)) (k2 (front it)) it -> filtered R (bind cursor_peek k1) (bind cursor_peek k2) it.
Proof.
  intros Hk. eapply filtered_after.
  - apply runs_last, (runs_peek source_ (fun c tr it' => c = front it /\ tr = tnil /\ it' = it)).
    by apply runs_ret.
  - intros c tr it' _ (-> & -> & ->). split; [done|]. exact Hk.
Qed.

(** The main loop in step, by the loop's fuel. *)
Lemma filtered_main_loop n pre it :
  txt = pre ++ it -> (length it < n)%nat ->
  follows
    (loop_fuel n (fun _ : unit => c <- cursor_peek ;; if is_null c then ret (Break tt)
       else handle_next_character source_ with_comments tab_size_ c ;; ret (Continue tt)) tt)
    (loop_fuel n (fun _ : unit => c <- cursor_peek ;; if is_null c then ret (Break tt)
       else handle_next_character source_ without tab_size_ c ;; ret (Continue tt)) tt) it.
Proof.
  revert pre it. induction n as [|n IH]; intros pre it Ht Hn; [lia|]. cbn [loop_fuel].
  apply filtered_bind with (R1 := fun r w => match r with Continue _ => w <> [] | Break _ => True end).
  - apply filtered_peek. destruct (is_null (front it)) eqn:Hnull; [by apply filtered_ret|].
    destruct (front_not_null it Hnull) as (c & it' & -> & ->).
    eapply filtered_bind; [by apply (filtered_next_character pre)|].
    intros [] w it2 _ Hw. apply filtered_ret. by rewrite app_nil_r.
  - intros [[]|[]] w it' -> Hw; [|by apply filtered_ret]. apply (IH (pre ++ w)).
    + by rewrite <-app_assoc.
    + rewrite length_app in Hn. destruct w; [done|]. cbn in Hn. lia.
Qed.

Lemma filtered_handle_source :
  follows (handle_source source_ with_comments tab_size_) (handle_source source_ without tab_size_) txt.
Proof.
  unfold handle_source. apply filtered_bind with (R1 := fun _ _ => True).
  - destruct (filtered_main_loop (S (length txt)) [] txt) as (a & tr1 & tr2 & it' & Hf); [done|lia|].
    exists a, tr1, tr2, it'. exact Hf.
  - intros [] w it' Ht _. apply filtered_same.
    apply runs_valid. destruct it' as [|c it']; [by apply runs_ret; split; [|constructor]|].
    apply (runs_offset source_ Hsize) with (pre := w); [done|].
    apply runs_last, runs_report; [done|done|apply len_nonneg|done|]. intros r Hr. apply runs_ret.
    split; [done|constructor].
Qed.

(** Whole runs. *)
Lemma filtered_run toks reps :
  exists tr1 tr2 it' off, read_ tr2 = read_ tr1 /\ reported tr2 = reported tr1 /\
    emitted tr2 = filter not_comment (emitted tr1) /\
    run source_ with_comments tab_size_ (st toks txt reps) =
      Done tt (st ((toks ++ emitted tr1) ++ [fixed_token TokenKind.end_of_file off]) it' (reps ++ reported tr1)) /\
    run source_ without tab_size_ (st toks txt reps) =
      Done tt (st ((toks ++ emitted tr2) ++ [fixed_token TokenKind.end_of_file off]) it' (reps ++ reported tr2)).
Proof.
  destruct filtered_handle_source as ([] & tr1 & tr2 & it' & Hit & _ & Hread & Hrep & Hem & H1 & H2).
  exists tr1, tr2, it', (Source.offset (cursor_ (st [] it' []))). split_and!; [done..| |]; unfold run, bind;
    change (Z.of_nat (length txt)) with (len txt);
    (destruct (Z.leb_spec (len txt) source_size_max); [|lia]); [by rewrite H1|by rewrite H2].
Qed.

End Filter.
