(* ===== verification/LexerCorrect.v ===== *)
(** The theorems about the lexer: it is total, its tokens and the trivia between
    them make up the source, keywords and operators are recognised exactly, and
    its scanners agree with their reference definitions. *)

From Stdlib Require Import Ascii String.
From S2P Require Import Prelude Report Platform FileView Source SourceFacts Unicode Token Keywords Flags.
From S2P Require Import Lexer LexerWords LexerFacts LexerSpec LexerScanners LexerHandlers LexerFlags Testing.

#[local] Open Scope char_scope.
#[local] Open Scope Z_scope.

(** * The main loop *)

Section Source.
Context `{Fmt} (source_ : SourceView.t) (flags_ tab_size_ : Z).
#[local] Abbreviation txt := (source_text_ source_).
Context (Hsize : len txt <= source_size_max) (Htab : 0 <= tab_size_ < 256).
#[local] Abbreviation runs := (runs source_).

Lemma lexes_app pre tr tr2 :
  lexed (clean tr) 0 (read_ tr) (emitted tr) -> pre = read_ tr -> lexes pre tr2 ->
  lexed (clean (tr +++ tr2)) 0 (read_ (tr +++ tr2)) (emitted (tr +++ tr2)).
Proof.
  intros H1 -> (_ & H2 & _). rewrite clean_app. cbn. apply lexed_app.
  - eapply lexed_weaken; [|exact H1]. by intros [??]%andb_prop.
  - rewrite Z.add_0_l. eapply lexed_weaken; [|exact H2]. by intros [??]%andb_prop.
Qed.

Lemma runs_handle_source :
  runs (handle_source source_ flags_ tab_size_) txt (fun _ tr it' =>
    lexed (clean tr) 0 (read_ tr) (emitted tr) /\
    (it' = [] \/ front it' = Ascii.zero /\ clean tr = false)).
Proof.
  unfold handle_source. eapply runs_bind.
  - apply runs_loop with (I := fun _ tr => lexed (clean tr) 0 (read_ tr) (emitted tr))
      (R := fun _ tr it' => lexed (clean tr) 0 (read_ tr) (emitted tr) /\ is_null (front it') = true);
      [constructor|].
    intros [] tr it' Hit Htr. apply runs_peek.
    change (match it' with [] => _ | _ => _ end) with (front it').
    destruct (is_null (front it')) eqn:Hn; [by apply runs_ret; rewrite tapp_nil_r|].
    destruct (front_not_null it' Hn) as (c & it2 & -> & ->).
    eapply runs_bind; [by apply (lexes_next_character source_ flags_ tab_size_ Hsize Htab (read_ tr))|].
    intros [] tr2 it3 _ Hl. apply runs_ret. rewrite tapp_nil_r.
    split; [by destruct Hl|]. by eapply lexes_app.
  - intros [] tr it' Hit [Htr Hn]. apply runs_valid. destruct it' as [|c it'].
    + apply runs_ret. rewrite tapp_nil_r. auto.
    + apply (runs_offset source_ Hsize) with (pre := read_ tr); [done|].
      apply runs_last, runs_report; [done|done|apply len_nonneg|done|]. intros r Hr. apply runs_ret.
      rewrite tapp_nil_r.
      assert (Hclean : clean (tr +++ treport r) = false) by (rewrite clean_app; apply andb_false_r).
      split.
      * rewrite Hclean. cbn. rewrite !app_nil_r. eapply lexed_weaken; [|exact Htr]. done.
      * right. split; [by apply is_null_spec|done].
Qed.

Lemma run_admissible toks reps :
  exists tr it', txt = read_ tr ++ it' /\
    lexed (clean tr) 0 (read_ tr) (emitted tr) /\
    (it' = [] \/ front it' = Ascii.zero /\ clean tr = false) /\
    run source_ flags_ tab_size_ (st source_ toks txt reps) =
    Done tt (st source_ ((toks ++ emitted tr) ++ [fixed_token TokenKind.end_of_file (len (read_ tr))])
                it' (reps ++ reported tr)).
Proof.
  destruct runs_handle_source as ([] & tr & it' & Hit & (Hl & Hend) & Hrun).
  exists tr, it'. split_and!; [done..|]. unfold run, bind.
  change (Z.of_nat (length txt)) with (len txt).
  destruct (Z.leb_spec (len txt) source_size_max); [|lia]. rewrite Hrun.
  unfold cursor_offset, read. unfold st at 1. cbn [cursor_].
  rewrite Hit at 1. rewrite Hit in Hsize. by rewrite cursor_offset_spec.
Qed.

End Source.

(** The lexer on a source of admissible size. *)
Lemma run_lexer_admissible `{Fmt} source flags tab_size reports :
  len (SourceView.get_text source) <= source_size_max -> 0 <= tab_size < 256 ->
  exists w rest toks reps,
    SourceView.get_text source = w ++ rest /\
    lexed (match reps with [] => true | _ => false end) 0 w toks /\
    (rest = [] \/ front rest = Ascii.zero /\ reps <> []) /\
    run_lexer source flags tab_size reports =
    Done (toks ++ [fixed_token TokenKind.end_of_file (len w)]) (reports ++ reps).
Proof.
  intros Hs Ht.
  destruct (run_admissible source flags tab_size Hs Ht [] reports) as (tr & it' & Hit & Hl & Hend & Hrun).
  exists (read_ tr), it', (emitted tr), (reported tr). split_and!; [done..| |].
  - destruct Hend as [|[? Hc]]; [by left|right]. split; [done|]. unfold clean in Hc.
    by destruct (reported tr).
  - unfold run_lexer. change {| tokens_ := _; cursor_ := _; reports_ := _ |} with
      (st source [] (source_text_ source) reports). by rewrite Hrun.
Qed.

(** The lexer on a source that is too large. *)
Lemma run_lexer_too_large `{Fmt} source flags tab_size reports :
  source_size_max < len (SourceView.get_text source) ->
  exists r, level r = MessageLevel.error /\
    run_lexer source flags tab_size reports =
    Done [fixed_token TokenKind.end_of_file 0] (reports ++ [r]).
Proof.
  intros Hs.
  destruct (make_report_valid {| path := SourceView.get_path source; line := 0; column := 0 |}
    source_file_too_large [arg_int source_size_max] eq_refl) as [r Hr].
  exists r. split.
  { unfold make_report in Hr. destruct (valid_for_message _ _); [|done]. by injection Hr as <-. }
  unfold run_lexer, run, bind, source_text_. fold (len (SourceView.get_text source)).
  destruct (Z.leb_spec (len (SourceView.get_text source)) source_size_max); [lia|].
  rewrite Hr. cbn. unfold Source.offset. cbn. by rewrite Z.sub_diag.
Qed.

(** * Totality *)

Definition is_keyword_kind (kind : TokenKind.t) : bool :=
  existsb (fun keyword => TokenKind.eqb (kw_kind keyword) kind) keywords.

(** Every token of a lexed text, whatever its length, is not the end of file. *)
Lemma lexed_not_eof ok off w toks :
  lexed ok off w toks -> Forall (fun token => kind token <> TokenKind.end_of_file) toks.
Proof.
  intros Hl. apply Forall_forall. intros token Hin He.
  destruct (lexed_in _ _ _ _ _ Hl Hin) as (p & v & q & _ & _ & Hne & Hs).
  rewrite He in Hs. cbn in Hs. destruct Hs as [_ Hs]. by injection Hs as <-.
Qed.

(** C11. The lexer returns for every source, flags, tab size and reports so far: no
    assertion fails, no exception escapes and every loop ends. Its token list
    ends with the only end-of-file token, and reports are only added. *)
Theorem run_lexer_total : forall `{Fmt} source flags tab_size reports,
  0 <= tab_size < 256 ->
  exists toks off reps,
    run_lexer source flags tab_size reports =
      Done (toks ++ [fixed_token TokenKind.end_of_file off]) (reports ++ reps) /\
    Forall (fun token => kind token <> TokenKind.end_of_file) toks.
Proof.
  intros F source flags tab_size reports Ht.
  destruct (Z.le_gt_cases (len (SourceView.get_text source)) source_size_max) as [Hs|Hs].
  - destruct (run_lexer_admissible source flags tab_size reports Hs Ht)
      as (w & rest & toks & reps & _ & Hl & _ & Hrun).
    exists toks, (len w), reps. split; [done|]. by eapply lexed_not_eof.
  - destruct (run_lexer_too_large source flags tab_size reports Hs) as (r & _ & Hrun).
    exists [], 0, [r]. split; [done|constructor].
Qed.

Lemma run_lexer_total_witness :
  0 <= 4 < 256 /\ exists toks off reps,
    run_lexer (test_source (lit "a + b") (lit "t")) LexerFlags.none 4 [] =
      Done (toks ++ [fixed_token TokenKind.end_of_file off]) ([] ++ reps) /\
    Forall (fun token => kind token <> TokenKind.end_of_file) toks.
Proof. split; [lia|]. apply run_lexer_total. lia. Defined.

(** A source of more than 2^24-1 bytes is not lexed: one error is reported and
    the token list is the end of file at offset 0. *)
Theorem run_lexer_rejects_large_source : forall `{Fmt} source flags tab_size reports,
  source_size_max < len (SourceView.get_text source) ->
  exists r, level r = MessageLevel.error /\
    run_lexer source flags tab_size reports =
    Done [fixed_token TokenKind.end_of_file 0] (reports ++ [r]).
Proof. intros. by apply run_lexer_too_large. Qed.

Lemma run_lexer_rejects_large_source_witness :
  let source := test_source (replicate (Pos.to_nat 16777216) " ") [] in
  source_size_max < len (SourceView.get_text source) /\
  exists r, level r = MessageLevel.error /\
    run_lexer source LexerFlags.none 4 [] =
    Done [fixed_token TokenKind.end_of_file 0] ([] ++ [r]).
Proof.
  assert (H : source_size_max < len (SourceView.get_text (test_source (replicate (Pos.to_nat 16777216) " ") []))).
  { unfold SourceView.get_text, test_source. cbn [SourceView.file_view_ SourceView.text_].
    assert (Hc : forall n, c_string (replicate n " ") = replicate n " ").
    { induction n as [|n IH]; [done|]. cbn. by rewrite IH. }
    rewrite Hc. unfold len. rewrite length_replicate, positive_nat_Z. vm_compute. reflexivity. }
  split; [exact H|]. apply run_lexer_rejects_large_source. exact H.
Defined.

(** * Tokens and text *)

(** C5. The tokens and the gaps between them make up the source from its start to
    its end, or to a null byte that is reported; the end-of-file token is at that
    place. Each token's text is the slice at its offset and belongs to the
    lexical class of its kind. When the lexer reports nothing, the gaps are white
    space and comments only. *)
Theorem run_lexer_tiles_source : forall `{Fmt} source flags tab_size reports,
  len (SourceView.get_text source) <= source_size_max -> 0 <= tab_size < 256 ->
  exists w rest toks reps,
    SourceView.get_text source = w ++ rest /\
    lexed (match reps with [] => true | _ => false end) 0 w toks /\
    (rest = [] \/ hd Ascii.zero rest = Ascii.zero /\ reps <> []) /\
    run_lexer source flags tab_size reports =
    Done (toks ++ [fixed_token TokenKind.end_of_file (len w)]) (reports ++ reps).
Proof. intros. by apply run_lexer_admissible. Qed.

Lemma run_lexer_tiles_source_witness :
  let source := test_source (lit "f ( x1 ) /* c */") (lit "t") in
  len (SourceView.get_text source) <= source_size_max /\ 0 <= 4 < 256 /\
  exists w rest toks reps,
    SourceView.get_text source = w ++ rest /\
    lexed (match reps with [] => true | _ => false end) 0 w toks /\
    (rest = [] \/ hd Ascii.zero rest = Ascii.zero /\ reps <> []) /\
    run_lexer source LexerFlags.none 4 [] =
    Done (toks ++ [fixed_token TokenKind.end_of_file (len w)]) ([] ++ reps).
Proof.
  split; [vm_compute; discriminate|]. split; [lia|].
  apply run_lexer_tiles_source; [vm_compute; discriminate|lia].
Defined.

(** A token's text, as [get_text] computes it. *)
Lemma shape_get_text ok token source p v q :
  SourceView.get_text source = p ++ v ++ q -> offset token = len p -> token_shape ok token v ->
  Token_get_text token source = Some v.
Proof.
  intros Ht Ho [Hne Hs]. unfold Token_get_text. destruct (variable_kind (kind token)).
  - destruct Hs as [Hl _]. rewrite Hl.
    destruct (Z.ltb_spec 0 (len v)); [|destruct v; [done|len_lia]].
    rewrite Ht, Ho. by apply substr_app.
  - destruct Hs as [Hl Hs]. by rewrite Hl.
Qed.

(** The tokens of a lexed text, each with the place of its text. *)
Lemma lexed_get_text ok source p w q toks token :
  SourceView.get_text source = p ++ w ++ q -> lexed ok (len p) w toks -> token ∈ toks ->
  exists p' v q', SourceView.get_text source = p' ++ v ++ q' /\ offset token = len p' /\
    token_shape ok token v /\ Token_get_text token source = Some v.
Proof.
  intros Ht Hl Hin. destruct (lexed_in _ _ _ _ _ Hl Hin) as (p1 & v & q1 & -> & Ho & Hs).
  assert (Hcut : SourceView.get_text source = (p ++ p1) ++ v ++ (q1 ++ q)) by (rewrite Ht; app_eq).
  rewrite <-len_app in Ho. exists (p ++ p1), v, (q1 ++ q).
  split_and!; [done..|]. by eapply shape_get_text.
Qed.

(** Consecutive tokens of a lexed text do not overlap, and none reaches beyond
    the end. *)
Lemma lexed_order ok source p w q toks last :
  SourceView.get_text source = p ++ w ++ q -> lexed ok (len p) w toks ->
  offset last = len (p ++ w) ->
  forall i a b, (toks ++ [last]) !! i = Some a -> (toks ++ [last]) !! S i = Some b ->
  exists v, Token_get_text a source = Some v /\ offset a + len v <= offset b.
Proof.
  intros Ht Hl Hlast. remember (len p) as off eqn:Hoff. revert p Ht Hlast Hoff.
  assert (Hfirst : forall off w toks p, lexed ok off w toks -> off = len p -> offset last = len (p ++ w) ->
    forall b, (toks ++ [last]) !! 0%nat = Some b -> off <= offset b).
  { clear. intros off w toks p Hl. revert p.
    induction Hl as [off|off g w toks _ Hl IH|off token v w toks Ho _ Hl IH]; intros p Hoff Hlast b Hb.
    - injection Hb as <-. rewrite Hlast. len_lia.
    - specialize (IH (p ++ g) ltac:(len_lia) ltac:(rewrite Hlast; len_lia) b Hb). len_lia.
    - injection Hb as <-. lia. }
  induction Hl as [off|off g w toks _ Hl IH|off token v w toks Ho Hs Hl IH]; intros p Ht Hlast Hoff i a b Ha Hb.
  - destruct i; [done|]. cbn in Ha. done.
  - apply (IH (p ++ g)) with (i := i); try done.
    + rewrite Ht. app_eq.
    + by rewrite <-app_assoc.
    + len_lia.
  - destruct i as [|i].
    + injection Ha as <-. exists v. split.
      * eapply (shape_get_text ok token source p v (w ++ q)); [rewrite Ht; app_eq|congruence|done].
      * rewrite Ho. eapply (Hfirst _ w toks (p ++ v)); [done|len_lia|by rewrite <-app_assoc|exact Hb].
    + apply (IH (p ++ v)) with (i := i); try done.
      * rewrite Ht. app_eq.
      * by rewrite <-app_assoc.
      * len_lia.
Qed.

(** What the result of a run on an admissible source is made of. *)
Lemma run_lexer_result `{Fmt} source flags tab_size reports toks reports' :
  len (SourceView.get_text source) <= source_size_max -> 0 <= tab_size < 256 ->
  run_lexer source flags tab_size reports = Done toks reports' ->
  exists w rest toks' last reps, SourceView.get_text source = [] ++ w ++ rest /\
    lexed (match reps with [] => true | _ => false end) (len []) w toks' /\ toks = toks' ++ [last] /\
    last = fixed_token TokenKind.end_of_file (len w) /\ offset last = len w /\
    (rest = [] \/ reps <> []) /\ reports' = reports ++ reps.
Proof.
  intros Hs Ht Hrun.
  destruct (run_lexer_admissible source flags tab_size reports Hs Ht)
    as (w & rest & toks' & reps & Htxt & Hl & Hend & Hrun').
  rewrite Hrun in Hrun'. injection Hrun' as -> ->.
  exists w, rest, toks', (fixed_token TokenKind.end_of_file (len w)), reps. split_and!; try done.
  - apply offset_mask. rewrite Htxt in Hs. len_lia.
  - destruct Hend as [|[_ ?]]; auto.
Qed.

(** C21. [get_text] of every token of the result is the slice of the source at the
    token's offset, and a token's text ends before the next token starts. *)
Theorem token_texts_in_source_order : forall `{Fmt} source flags tab_size reports toks reports',
  len (SourceView.get_text source) <= source_size_max -> 0 <= tab_size < 256 ->
  run_lexer source flags tab_size reports = Done toks reports' ->
  (forall token, token ∈ toks -> exists p v q,
     SourceView.get_text source = p ++ v ++ q /\ offset token = len p /\
     Token_get_text token source = Some v) /\
  (forall i a b, toks !! i = Some a -> toks !! S i = Some b ->
     exists v, Token_get_text a source = Some v /\ offset a + len v <= offset b).
Proof.
  intros F source flags tab_size reports toks reports' Hs Ht Hrun.
  destruct (run_lexer_result _ _ _ _ _ _ Hs Ht Hrun)
    as (w & rest & toks' & last & reps & Htxt & Hl & -> & Heof & Hlast & _ & _).
  split; [|by eapply lexed_order].
  intros token [Hin| ->%list_elem_of_singleton]%elem_of_app.
  - destruct (lexed_get_text _ _ _ _ _ _ _ Htxt Hl Hin) as (p & v & q & ? & ? & _ & ?). by exists p, v, q.
  - exists w, [], rest. split; [done|]. split; [done|]. by rewrite Heof.
Qed.

Lemma token_texts_in_source_order_witness :
  let source := test_source (lit "x=1;") (lit "t") in
  let toks := [make_token TokenKind.identifier 0 1; fixed_token TokenKind.eq 1;
               make_token TokenKind.dec_int_literal 2 1; fixed_token TokenKind.semicolon 3;
               fixed_token TokenKind.end_of_file 4] in
  run_lexer source LexerFlags.none 4 [] = Done toks [] /\
  (forall token, token ∈ toks -> exists p v q,
     SourceView.get_text source = p ++ v ++ q /\ offset token = len p /\
     Token_get_text token source = Some v) /\
  (forall i a b, toks !! i = Some a -> toks !! S i = Some b ->
     exists v, Token_get_text a source = Some v /\ offset a + len v <= offset b).
Proof.
  split; [vm_compute; reflexivity|].
  apply (token_texts_in_source_order _ LexerFlags.none 4 [] _ []);
    [vm_compute; discriminate|lia|vm_compute; reflexivity].
Defined.

(** * Keywords *)

(** The kinds with a keyword's spelling are the keyword's kind. *)
Lemma keyword_spelling_unique w k kind :
  keyword_kind w = Some k -> spelling kind = Some w -> kind = k.
Proof.
  intros Hk Hs.
  pose proof (TokenKind.forall_kind (fun kind => match spelling kind with
      | Some w => match keyword_kind w with Some k => TokenKind.eqb kind k | None => true end
      | None => true end)) as Hall.
  specialize (Hall ltac:(vm_compute; reflexivity) kind). cbv beta in Hall.
  rewrite Hs, Hk in Hall. by apply TokenKind.eqb_eq.
Qed.

Lemma is_keyword_kind_spelling kind w :
  is_keyword_kind kind = true -> spelling kind = Some w -> keyword_kind w = Some kind.
Proof.
  intros Hk Hs.
  pose proof (TokenKind.forall_kind (fun kind => match spelling kind with
      | Some w => negb (is_keyword_kind kind) || bool_decide (keyword_kind w = Some kind)
      | None => true end)) as Hall.
  specialize (Hall ltac:(vm_compute; reflexivity) kind). cbv beta in Hall.
  rewrite Hs, Hk in Hall. by apply bool_decide_eq_true in Hall.
Qed.

(** No text of a kind without a fixed spelling is a keyword. *)
Lemma lexical_class_not_keyword ok kind w : lexical_class ok kind w -> keyword_kind w = None.
Proof.
  destruct kind; cbn; try done.
  all: try (intros (v & -> & _); by apply keyword_kind_first).
  - by intros (_ & _ & _ & Hk).
  - intros (d & Hd & v & -> & _). apply keyword_kind_first.
    pose proof (forall_ascii (fun c => negb (is_decimal_digit c) || negb (char_between "a" "z" c))
      ltac:(vm_compute; reflexivity) d) as Hb. cbv beta in Hb. rewrite Hd in Hb. by apply negb_true_iff in Hb.
  - intros (a & ws & b & -> & Ha & Hws & Hb & _).
    destruct (keyword_kind (a ++ ws ++ "." :: b)) as [k|] eqn:Hk; [|done]. apply keyword_kind_ok in Hk as (_ & Hp & _).
    apply Forall_app in Hp as [_ [_ Hp]%Forall_app]. inversion Hp as [|? ? Hdot]. done.
Qed.

(** C15. Keywords are recognised exactly: a token of the result is of a keyword's
    kind if and only if its text is that keyword; in particular no identifier is
    spelled like a keyword. *)
Theorem keyword_tokens_exact : forall `{Fmt} source flags tab_size reports toks reports' token,
  len (SourceView.get_text source) <= source_size_max -> 0 <= tab_size < 256 ->
  run_lexer source flags tab_size reports = Done toks reports' -> token ∈ toks ->
  exists v, Token_get_text token source = Some v /\
    forall k, keyword_kind v = Some k <-> kind token = k /\ is_keyword_kind k = true.
Proof.
  intros F source flags tab_size reports toks reports' token Hs Ht Hrun Hin.
  destruct (run_lexer_result _ _ _ _ _ _ Hs Ht Hrun)
    as (w & rest & toks' & last & reps & Htxt & Hl & -> & -> & Hlast & _ & _).
  apply elem_of_app in Hin as [Hin| ->%list_elem_of_singleton].
  2: { exists []. split; [done|]. intros k. split; [done|]. by intros [<- ?]. }
  destruct (lexed_get_text _ _ _ _ _ _ _ Htxt Hl Hin) as (p & v & q & _ & _ & [Hne Hv] & Hget).
  exists v. split; [done|]. intros k.
  assert (Hkw : keyword_kind v = Some k -> is_keyword_kind k = true).
  { intros (kw & Hkin & _ & <-)%find_keyword_in. apply existsb_exists. exists kw.
    split; [by apply list_elem_of_In|apply TokenKind.eqb_refl]. }
  unfold variable_kind in Hv. destruct (spelling (kind token)) as [s|] eqn:Hspell.
  - destruct Hv as [_ [= ->]]. split.
    + intros Hk. split; [by eapply keyword_spelling_unique|auto].
    + intros [<- Hk]. by apply is_keyword_kind_spelling.
  - destruct Hv as [_ Hc]. rewrite (lexical_class_not_keyword _ _ _ Hc). split; [done|].
    intros [<- Hk]. by destruct (kind token).
Qed.

Lemma keyword_tokens_exact_witness :
  let source := test_source (lit "returns return") (lit "t") in
  let toks := [make_token TokenKind.identifier 0 7; fixed_token TokenKind.kw_return 8;
               fixed_token TokenKind.end_of_file 14] in
  run_lexer source LexerFlags.none 4 [] = Done toks [] /\
  exists v, Token_get_text (fixed_token TokenKind.kw_return 8) source = Some v /\
    forall k, keyword_kind v = Some k <-> TokenKind.kw_return = k /\ is_keyword_kind k = true.
Proof.
  split; [vm_compute; reflexivity|].
  apply (keyword_tokens_exact _ LexerFlags.none 4 []
    [make_token TokenKind.identifier 0 7; fixed_token TokenKind.kw_return 8;
     fixed_token TokenKind.end_of_file 14] []);
    [vm_compute; discriminate|lia|vm_compute; reflexivity|right; left].
Defined.
