(* ===== verification/LexerTokens.v ===== *)
(** What the lexer does with each kind of text: identifiers with Unicode
    characters, operators, digit sequences, comments and quoted literals, and the
    effect of the [emit_comments] flag. *)

From Stdlib Require Import Ascii String.
From S2P Require Import Prelude Report Platform FileView Source Testing SourceFacts UnicodeTables Unicode Token.
From S2P Require Import Keywords Flags Lexer LexerWords LexerFacts LexerSpec LexerScanners.
From S2P Require Import LexerHandlers LexerFlags.

#[local] Open Scope char_scope.
#[local] Open Scope Z_scope.

(** * Identifiers *)

(** The UTF-8 text of a scalar value. *)
Definition utf8_text (c : Z) : text := bytes_text (utf8_encode c).

(** Characters that continue an identifier, as UTF-8 text. *)
Inductive identifier_rest : text -> Prop :=
| identifier_rest_nil : identifier_rest []
| identifier_rest_ascii c w :
    is_ascii_identifier_char c = true -> identifier_rest w -> identifier_rest (c :: w)
| identifier_rest_utf8 s w :
    0x80 <= s < 0x110000 -> in_table xid_continue_table s ->
    identifier_rest w -> identifier_rest (utf8_text s ++ w).

Lemma bytes_text_val bytes : Forall is_byte bytes -> map byte_val (bytes_text bytes) = bytes.
Proof.
  unfold bytes_text. induction 1 as [|b bytes Hb _ IH]; [done|]. cbn [map]. rewrite IH. f_equal. unfold byte_val.
  unfold is_byte in Hb. rewrite N_ascii_embedding by lia. lia.
Qed.

Lemma countl_one_between lo hi n :
  forallb (fun b => implb ((lo <=? b) && (b <? hi)) (countl_one 8 b =? n)%nat) (seqZ 0 256) = true ->
  forall b, 0 <= b < 256 -> lo <= b < hi -> countl_one 8 b = n.
Proof.
  intros Hall b Hb Hlo. pose proof (forall_byte _ Hall b Hb) as H. cbv beta in H.
  destruct (Z.leb_spec lo b), (Z.ltb_spec b hi); try lia. by apply Nat.eqb_eq.
Qed.

(** The shape of the encoding of a non-ASCII scalar: a leading byte whose leading
    ones count the bytes. *)
Lemma utf8_encode_shape s :
  0x80 <= s < 0x110000 ->
  exists b0 bytes, utf8_encode s = b0 :: bytes /\ Forall is_byte (b0 :: bytes) /\
    (1 <= length bytes <= 3)%nat /\ countl_one 8 b0 = S (length bytes) /\ 128 <= b0.
Proof.
  intros Hs.
  assert (Hmod : forall z, is_byte (0x80 + z mod 64)) by (intros z; unfold is_byte; zlia).
  assert (Hshape : forall b0 bytes lo hi, Forall is_byte bytes -> (1 <= length bytes <= 3)%nat ->
    forallb (fun b => implb ((lo <=? b) && (b <? hi)) (countl_one 8 b =? S (length bytes))%nat)
      (seqZ 0 256) = true ->
    128 <= lo -> hi <= 256 -> lo <= b0 < hi ->
    exists b0' bytes', b0 :: bytes = b0' :: bytes' /\ Forall is_byte (b0' :: bytes') /\
      (1 <= length bytes' <= 3)%nat /\ countl_one 8 b0' = S (length bytes') /\ 128 <= b0').
  { intros b0 bytes lo hi Hb Hl Hall Hlo Hhi Hb0. exists b0, bytes. split_and!; try done; try lia.
    - constructor; [unfold is_byte; lia|done].
    - eapply countl_one_between; [exact Hall|lia|lia]. }
  unfold utf8_encode. destruct (Z.ltb_spec s 0x80); [lia|].
  destruct (Z.ltb_spec s 0x800); [|destruct (Z.ltb_spec s 0x10000)].
  - apply (Hshape _ _ 0xc0 0xe0); [repeat (apply Forall_cons_2; [apply Hmod|]); apply Forall_nil_2|cbn; lia|by vm_compute|lia|lia|zlia].
  - apply (Hshape _ _ 0xe0 0xf0); [repeat (apply Forall_cons_2; [apply Hmod|]); apply Forall_nil_2|cbn; lia|by vm_compute|lia|lia|zlia].
  - apply (Hshape _ _ 0xf0 0xf8); [repeat (apply Forall_cons_2; [apply Hmod|]); apply Forall_nil_2|cbn; lia|by vm_compute|lia|lia|zlia].
Qed.

Section Identifiers.
Context `{Fmt} (source_ : SourceView.t) (flags_ tab_size_ : Z).
#[local] Abbreviation txt := (source_text_ source_).
Context (Hsize : len txt <= source_size_max) (Htab : 0 <= tab_size_ < 256).
#[local] Abbreviation runs := (runs source_).

(** The bytes read are packed above the ones already there. *)
Lemma runs_continuation_packs w i n rest :
  0 <= i -> i + len w <= 4 -> 0 <= n < 2 ^ (8 * i) ->
  runs (continuation_bytes (length w) i n) (w ++ rest) (fun r tr it' =>
    it' = rest /\ tr = tread w /\ r = n + 2 ^ (8 * i) * pack_bytes (map byte_val w)).
Proof.
  revert i n. induction w as [|c w IH]; intros i n Hi Hw Hn; cbn [continuation_bytes length map pack_bytes].
  - apply runs_ret. split_and!; [done..|lia].
  - apply runs_next; [|done]. intros d it' [= <- <-].
    pose proof (byte_val_range c) as Hc. set (b := byte_val c) in *. rewrite len_cons in Hw.
    pose proof (len_nonneg w) as Hlen.
    assert (Hpow : 2 ^ (8 * (i + 1)) = 256 * 2 ^ (8 * i)).
    { replace (8 * (i + 1)) with (8 + 8 * i) by lia. by rewrite Z.pow_add_r by lia. }
    assert (Hstep : Z.lor n (u32 (Z.shiftl b (i * 8))) = n + 2 ^ (8 * i) * b).
    { rewrite Z.shiftl_mul_pow2 by lia. rewrite (Z.mul_comm i 8).
      assert (2 ^ (8 * (i + 1)) <= 2 ^ 32) by (apply Z.pow_le_mono_r; lia).
      assert (0 < 2 ^ (8 * i)) by (apply Z.pow_pos_nonneg; lia).
      rewrite u32_small by nia. rewrite Z.lor_comm, lor_shiftl_add by lia. lia. }
    rewrite Hstep. eapply runs_post; [apply IH; [lia|lia|nia]|].
    intros r tr it2 _ (-> & -> & ->). split_and!; [done..|]. rewrite Hpow. lia.
Qed.

Lemma pack_bytes_cons b bytes : pack_bytes (b :: bytes) = b + 256 * pack_bytes bytes.
Proof. reflexivity. Qed.

(** A well-formed multibyte character is read whole, and nothing is reported if
    it satisfies the predicate. *)
Lemma runs_multibyte_exact s c w offset pred rest :
  0x80 <= s < 0x110000 -> utf8_text s = c :: w -> pred (pack_bytes (utf8_encode s)) = true ->
  runs (consume_multibyte_utf8_char source_ tab_size_ c offset pred) (w ++ rest) (fun ok tr it' =>
    ok = true /\ tr = tread w /\ it' = rest).
Proof.
  intros Hs Htext Hpred. destruct (utf8_encode_shape s Hs) as (b0 & bytes & He & Hb & Hl & Hones & Hb0).
  assert (Hval : map byte_val (c :: w) = b0 :: bytes) by (rewrite <-Htext, <-He; unfold utf8_text;
    rewrite bytes_text_val; [done|by rewrite He]).
  cbn [map] in Hval. injection Hval as Hc Hw.
  assert (Hlen : length w = length bytes) by (by rewrite <-Hw, length_map).
  unfold consume_multibyte_utf8_char. rewrite Hc, Hones.
  replace ((2 <=? S (length bytes))%nat && (S (length bytes) <=? 4)%nat) with true
    by (symmetry; apply andb_true_intro; split; apply Nat.leb_le; lia).
  replace (S (length bytes) - 1)%nat with (length w) by lia.
  pose proof (byte_val_range c) as Hr. rewrite Hc in Hr.
  eapply runs_bind; [apply runs_continuation_packs; [lia|unfold len; lia|change (2 ^ (8 * 1)) with 256; lia]|].
  intros r tr it' _ (-> & -> & ->). change (2 ^ (8 * 1)) with 256.
  rewrite Hw, <-pack_bytes_cons, <-He, Hpred. apply runs_ret. by rewrite tapp_nil_r.
Qed.

Lemma utf8_text_cons s : 0x80 <= s < 0x110000 -> exists c w, utf8_text s = c :: w /\ is_ascii c = false.
Proof.
  intros Hs. destruct (utf8_encode_shape s Hs) as (b0 & bytes & He & Hb & _ & _ & Hb0).
  exists (ascii_of_N (Z.to_N b0)), (bytes_text bytes). unfold utf8_text. rewrite He. split; [done|].
  destruct (is_ascii _) eqn:Ha; [|done]. apply is_ascii_spec in Ha.
  inversion Hb as [|? ? Hb' _]. unfold is_byte in Hb'. unfold byte_val in Ha.
  rewrite N_ascii_embedding in Ha by lia. lia.
Qed.

Lemma identifier_rest_word w : identifier_rest w -> word w.
Proof.
  induction 1 as [|c w Hc _ IH|s w Hs _ _ IH]; [constructor|by apply word_cons|].
  destruct (utf8_text_cons s Hs) as (c & v & -> & Hc). apply word_app; [by right|done].
Qed.

Lemma xid_continue_packed s :
  0x80 <= s < 0x110000 -> in_table xid_continue_table s ->
  is_utf8_xid_continue_char (pack_bytes (utf8_encode s)) = true.
Proof. intros Hs Hin. apply xid_continue_spec. by rewrite decode_encode by lia. Qed.

Lemma xid_start_packed s :
  0x80 <= s < 0x110000 -> in_table xid_start_table s ->
  is_utf8_xid_start_char (pack_bytes (utf8_encode s)) = true.
Proof. intros Hs Hin. apply xid_start_spec. by rewrite decode_encode by lia. Qed.

(** [consume_word] reads exactly the longest run of identifier characters. *)
Lemma runs_consume_identifier pre w rest :
  txt = pre ++ w ++ rest -> identifier_rest w -> ends_word rest ->
  runs (consume_word source_ tab_size_) (w ++ rest) (fun _ tr it' => tr = tread w /\ it' = rest).
Proof.
  intros Ht Hw Hend.
  apply runs_loop with (I := fun _ tr => exists v u, tr = tread v /\ w = v ++ u /\ identifier_rest u).
  { exists [], w. done. }
  intros [] tr it' Hit (v & u & -> & Huv & Hu). cbn in Hit.
  assert (it' = u ++ rest) as ->.
  { rewrite Huv, <-app_assoc in Hit. by apply app_inv_head in Hit. }
  apply runs_peek. change (match u ++ rest with [] => _ | _ => _ end) with (front (u ++ rest)).
  destruct Hu as [|c u Hc Hu|s u Hs Hin Hu].
  - cbn [app]. rewrite app_nil_r in Huv. subst v.
    destruct rest as [|c rest]; [apply runs_ret; by rewrite tapp_nil_r|].
    cbn [front]. destruct (is_null c); [apply runs_ret; by rewrite tapp_nil_r|].
    destruct Hend as [Ha Hi]. rewrite Hi, Ha. apply runs_ret. by rewrite tapp_nil_r.
  - cbn [app front].
    destruct (is_null c) eqn:Hn; [apply is_null_spec in Hn; subst c; discriminate|]. rewrite Hc.
    apply runs_advance, runs_ret. split; [done|]. exists (v ++ [c]), u.
    rewrite tread_snoc. split; [done|]. rewrite Huv. split; [app_eq|done].
  - destruct (utf8_text_cons s Hs) as (c & t & Htext & Hc). rewrite Htext. cbn [app front].
    destruct (is_null c) eqn:Hn; [apply is_null_spec in Hn; subst c; discriminate|].
    destruct (is_ascii_identifier_char c) eqn:Hid; [apply identifier_char_is_ascii in Hid; congruence|].
    rewrite Hc. rewrite <-app_assoc.
    apply (runs_get_offset_and_advance source_ Hsize) with (pre := pre ++ v).
    { rewrite Ht, Huv, Htext. app_eq. }
    eapply runs_bind; [eapply runs_multibyte_exact; [exact Hs|done|by apply xid_continue_packed]|].
    intros ok tr it2 _ (-> & -> & ->). apply runs_ret. split; [done|].
    exists (v ++ c :: t), u. rewrite tapp_nil_r, !tread_app. split; [done|].
    rewrite Huv, Htext. split; [app_eq|done].
Qed.

End Identifiers.

(** An identifier or keyword: a start character and characters that continue it. *)
Inductive identifier_text : text -> Prop :=
| identifier_text_ascii c w :
    identifier_start c = true -> identifier_rest w -> identifier_text (c :: w)
| identifier_text_utf8 s w :
    0x80 <= s < 0x110000 -> in_table xid_start_table s ->
    identifier_rest w -> identifier_text (utf8_text s ++ w).

Lemma runs_identifier_text `{Fmt} source flags tab_size pre w rest :
  source_text_ source = pre ++ w ++ rest -> len (source_text_ source) <= source_size_max ->
  0 <= tab_size < 256 -> identifier_text w -> ends_word rest ->
  runs source (handle_next_character source flags tab_size (hd Ascii.zero w)) (w ++ rest)
    (fun _ tr it' => it' = rest /\ emitted tr = [word_token pre w] /\ reported tr = []).
Proof.
  intros Ht Hsize Htab Hw Hend.
  destruct Hw as [c w Hc Hw|s w Hs Hin Hw].
  - cbn [hd app]. eapply runs_post.
    + eapply (runs_identifier_start source flags tab_size Hsize pre c (w ++ rest)
        (fun w' reps it' => w' = w /\ reps = [] /\ it' = rest)); [by rewrite Ht| |done].
      eapply runs_post; [apply (runs_consume_identifier source tab_size Hsize Htab (pre ++ [c]));
        [rewrite Ht; app_eq|done|done]|].
      intros _ tr it' _ (-> & ->). exists w, []. split; [done|]. split; [by apply identifier_rest_word|done].
    + intros _ tr it' _ (w' & reps' & _ & _ & (-> & -> & ->) & ->). done.
  - destruct (utf8_text_cons s Hs) as (c & t & Htext & Hc). rewrite Htext in Ht |- *. cbn [hd app].
    assert (Hother : handle_next_character source flags tab_size c = on_other_char source tab_size c).
    { clear Htext Ht. by destruct c as [[] [] [] [] [] [] [] []]. }
    rewrite Hother. unfold on_other_char. rewrite <-app_assoc.
    apply (runs_get_offset_and_advance source Hsize) with (pre := pre); [rewrite Ht; app_eq|].
    eapply runs_bind; [eapply runs_multibyte_exact with (s := s); [done|done|done|by apply xid_start_packed]|].
    intros ok tr it2 _ (-> & -> & ->).
    eapply runs_bind; [apply (runs_consume_identifier source tab_size Hsize Htab (pre ++ c :: t));
      [rewrite Ht; app_eq|done|done]|].
    intros _ tr it2 _ (-> & ->).
    apply (runs_length_from source Hsize) with (w := (c :: t) ++ w); [rewrite Ht; app_eq|].
    apply runs_last, runs_put, runs_ret. split; [done|]. split; [|done].
    unfold word_token, tapp, tput. cbn [emitted tread tnil app].
    destruct (keyword_kind (c :: t ++ w)) as [k|] eqn:Hk; [|done].
    apply keyword_kind_ok in Hk as (_ & Hp & _). inversion Hp as [|? ? Hcid]. subst.
    apply identifier_char_is_ascii in Hcid. congruence.
Qed.

(** C22. A run of identifier characters (ASCII letters, digits, underscores and UTF-8
    encoded XID characters, starting with a letter, an underscore or an XID_Start
    character) that ends at the end of the source or before another ASCII
    character is read whole as one token, without a report: the keyword that it
    spells or else an identifier of its length. *)
Theorem identifier_is_one_token : forall `{Fmt} source flags tab_size pre w rest toks reps,
  source_text_ source = pre ++ w ++ rest -> len (source_text_ source) <= source_size_max ->
  0 <= tab_size < 256 -> identifier_text w -> ends_word rest ->
  handle_next_character source flags tab_size (hd Ascii.zero w) (st source toks (w ++ rest) reps) =
  Done tt (st source (toks ++ [match keyword_kind w with
                               | Some kind => fixed_token kind (len pre)
                               | None => make_token TokenKind.identifier (len pre) (len w)
                               end]) rest reps).
Proof.
  intros F source flags tab_size pre w rest toks reps Ht Hsize Htab Hw Hend.
  destruct (runs_identifier_text source flags tab_size pre w rest) as ([] & tr & it' & _ & (-> & He & Hr) & Hm);
    [done..|]. by rewrite Hm, He, Hr, app_nil_r.
Qed.

Lemma in_table_by_search lower table s :
  table_sorted lower table = true -> binary_search table s = true -> in_table table s.
Proof. intros Hsorted Hb. by apply (binary_search_spec lower). Qed.

Lemma identifier_is_one_token_witness :
  let w := utf8_text 0xe9 ++ lit "t1" in
  let source := test_source (lit "x " ++ w ++ lit " y") (lit "t") in
  identifier_text w /\
  handle_next_character source LexerFlags.none 4 (hd Ascii.zero w) (st source [] (w ++ lit " y") []) =
  Done tt (st source ([] ++ [match keyword_kind w with
                             | Some kind => fixed_token kind (len (lit "x "))
                             | None => make_token TokenKind.identifier (len (lit "x ")) (len w)
                             end]) (lit " y") []).
Proof.
  assert (Hw : identifier_text (utf8_text 0xe9 ++ lit "t1")).
  { apply identifier_text_utf8; [lia| |].
    - apply (in_table_by_search (-1)); vm_compute; reflexivity.
    - repeat (apply identifier_rest_ascii; [reflexivity|]). constructor. }
  split; [exact Hw|].
  apply (identifier_is_one_token (test_source (lit "x " ++ (utf8_text 0xe9 ++ lit "t1") ++ lit " y") (lit "t"))
    LexerFlags.none 4 (lit "x ")); [vm_compute; reflexivity|vm_compute; discriminate|lia|exact Hw|].
  split; reflexivity.
Defined.

(** * Operators *)

(** An operator that is read whole: the text starts with one, and it starts neither
    with a comment nor with a dot, which can begin a number. *)
Definition starts_operator (s : text) : Prop :=
  (exists o, o ∈ operators /\ o `prefix_of` s) /\ front s <> "." /\
  ~ ["/"; "/"] `prefix_of` s /\ ~ ["/"; "*"] `prefix_of` s.

Definition starts_handler (c : ascii) : bool :=
  match operator_tree c with Some _ => true | None => Ascii.eqb c "/" || Ascii.eqb c "." end.

Lemma operators_start_checked : forallb (fun o => starts_handler (front o)) operators = true.
Proof. vm_compute. reflexivity. Qed.

Lemma operators_start o :
  o ∈ operators -> operator_tree (front o) <> None \/ front o = "/" \/ front o = ".".
Proof.
  intros Ho%list_elem_of_In. pose proof (proj1 (forallb_forall _ _) operators_start_checked o Ho) as Hs.
  cbv beta in Hs. generalize dependent (front o). intros c. unfold starts_handler.
  destruct (operator_tree c); [by left|]. intros [?%Ascii.eqb_eq|?%Ascii.eqb_eq]%orb_true_iff; auto.
Qed.

Lemma operators_nonempty o : o ∈ operators -> o <> [].
Proof. by intros Ho ->; destruct (operators_start [] Ho) as [Hs|[Hs|Hs]]. Qed.

(** What follows the slash is read like any other operator. *)
Lemma runs_slash_operator `{Fmt} source flags tab_size pre it :
  len (source_text_ source) <= source_size_max -> source_text_ source = pre ++ "/" :: it ->
  ~ ["/"; "/"] `prefix_of` ("/" :: it) -> ~ ["/"; "*"] `prefix_of` ("/" :: it) ->
  runs source (on_slash source flags tab_size) ("/" :: it) (fun _ tr _ =>
    reported tr = [] /\ read_ tr <> [] /\ operator_tokens (len pre) (read_ tr) (emitted tr) /\
    longest_operator (read_ tr) ("/" :: it)).
Proof.
  intros Hsize Ht Hline Hblock. unfold on_slash.
  apply (runs_get_offset_and_advance source Hsize) with (pre := pre); [done|].
  apply runs_match; [intros it' ->; destruct Hline; by exists it'|]. intros _.
  apply runs_match; [intros it' ->; destruct Hblock; by exists it'|]. intros _.
  eapply runs_post.
  - apply (runs_op_run source (OpIf "=" (OpPut TokenKind.slash_eq) (OpPut TokenKind.slash)) pre ["/"] it
      (filter (fun w => starts ["/"] w = true) operators)); [done|vm_compute; reflexivity|].
    intros o Ho Hp Hl. apply list_elem_of_filter. split; [|done]. apply bool_decide_eq_true.
    destruct (prefix_weak_total ["/"] o (["/"] ++ it)) as [|Hop]; [by apply prefix_app_r|done|done|].
    apply prefix_length in Hop. lia.
  - cbn. intros _ tr it' _ (? & ? & ?). done.
Qed.

Lemma runs_operator `{Fmt} source flags tab_size pre c it :
  len (source_text_ source) <= source_size_max -> source_text_ source = pre ++ c :: it -> starts_operator (c :: it) ->
  runs source (handle_next_character source flags tab_size c) (c :: it) (fun _ tr _ =>
    reported tr = [] /\ read_ tr <> [] /\ operator_tokens (len pre) (read_ tr) (emitted tr) /\
    longest_operator (read_ tr) (c :: it)).
Proof.
  intros Hsize Ht ((o & Ho & Hp) & Hdot & Hline & Hblock). cbn in Hdot.
  assert (Hfront : front o = c).
  { pose proof (operators_nonempty o Ho). destruct o as [|d o]; [done|]. destruct Hp as [k [= -> _]]. done. }
  pose proof (operators_start o Ho) as Hc. rewrite Hfront in Hc. clear Ho Hp Hfront o.
  destruct Hc as [Hc|[-> | ->]].
  - destruct (operator_tree c) as [tree|] eqn:Htree; [|done].
    rewrite (operator_handler source flags tab_size tree) by done. by apply runs_operator_tree.
  - by apply (runs_slash_operator source flags tab_size pre it).
  - done.
Qed.

(** C16. Operators and punctuation are read by maximal munch: in a text that starts
    with an operator, and not with a comment or a dot, the lexer reads the longest
    operator that the text starts with and puts the one token that is spelled like
    it, without a report. The one exception is [>>], which is read whole but put as
    two [>] tokens (so that nested generic brackets close). *)
Theorem operators_maximal_munch : forall `{Fmt} source flags tab_size pre c it toks reps,
  source_text_ source = pre ++ c :: it -> len (source_text_ source) <= source_size_max ->
  0 <= tab_size < 256 -> starts_operator (c :: it) ->
  exists w rest new,
    c :: it = w ++ rest /\ w <> [] /\ longest_operator w (c :: it) /\
    ((exists kind, spelling kind = Some w /\ new = [fixed_token kind (len pre)]) \/
     (w = [">"; ">"] /\
        new = [fixed_token TokenKind.r_angle (len pre); fixed_token TokenKind.r_angle (len pre + 1)])) /\
    handle_next_character source flags tab_size c (st source toks (c :: it) reps) =
    Done tt (st source (toks ++ new) rest reps).
Proof.
  intros F source flags tab_size pre c it toks reps Ht Hsize Htab Hop.
  destruct (runs_operator source flags tab_size pre c it) as
    ([] & tr & it' & Hit & (Hr & Hne & Htoks & Hlong) & Hm); [done..|].
  exists (read_ tr), it', (emitted tr). split_and!; try done.
  - destruct Htoks as [(kind & ? & ?)|[? He]]; [left; by exists kind|right].
    split; [done|]. rewrite He. rewrite Ht in Hsize.
    change source_size_max with (2 ^ 24 - 1) in Hsize. by rewrite u32_small by len_lia.
  - by rewrite Hm, Hr, app_nil_r.
Qed.

Lemma operators_maximal_munch_witness :
  let source := test_source (lit "/=a") (lit "t") in
  starts_operator (lit "/=a") /\
  exists w rest new,
    lit "/=a" = w ++ rest /\ w <> [] /\ longest_operator w (lit "/=a") /\
    ((exists kind, spelling kind = Some w /\ new = [fixed_token kind (len [])]) \/
     (w = [">"; ">"] /\
        new = [fixed_token TokenKind.r_angle (len []); fixed_token TokenKind.r_angle (len [] + 1)])) /\
    handle_next_character source LexerFlags.none 4 "/" (st source [] (lit "/=a") []) =
    Done tt (st source ([] ++ new) rest []).
Proof.
  assert (Hop : starts_operator (lit "/=a")).
  { split_and!; [|done|by intros [k ?]|by intros [k ?]]. exists ["/"; "="]. split; [|by exists ["a"]].
    apply (bool_decide_unpack _). vm_compute. exact I. }
  split; [exact Hop|].
  apply (operators_maximal_munch (test_source (lit "/=a") (lit "t")) LexerFlags.none 4 [] "/" (lit "=a"));
    [reflexivity|vm_compute; discriminate|lia|exact Hop].
Defined.

(** * Digit sequences *)

(** C23. [consume_digit_sequence] reads the digits and the white space between them
    as far as possible, puts and reports nothing, and returns the length from the
    given offset up to the last digit: white space after it is skipped but not
    counted. *)
Theorem digit_sequence_spec : forall `{Fmt} source pred pre w it toks reps,
  source_text_ source = pre ++ w ++ it -> len (source_text_ source) <= source_size_max ->
  pred Ascii.zero = false ->
  exists v ws rest,
    it = v ++ ws ++ rest /\ digit_run pred v /\ all_whitespace ws /\ ends_digits pred rest /\
    consume_digit_sequence pred (len pre) (st source toks it reps) =
    Done (len w + len v) (st source toks rest reps).
Proof.
  intros F source pred pre w it toks reps Ht Hsize Hp.
  destruct (runs_consume_digit_sequence source Hsize pred Hp pre w it Ht)
    as (n & tr & rest & Hit & (v & ws & -> & -> & Hv & Hws & Hend) & Hm).
  exists v, ws, rest. cbn in Hit. rewrite <-app_assoc in Hit. split_and!; [done..|].
  rewrite Hm. cbn. by rewrite !app_nil_r, len_app.
Qed.

Lemma digit_sequence_spec_witness :
  let source := test_source (lit "x = 1 000 ;") (lit "t") in
  is_decimal_digit Ascii.zero = false /\
  exists v ws rest,
    lit " 000 ;" = v ++ ws ++ rest /\ digit_run is_decimal_digit v /\ all_whitespace ws /\
    ends_digits is_decimal_digit rest /\
    consume_digit_sequence is_decimal_digit (len (lit "x = ")) (st source [] (lit " 000 ;") []) =
    Done (len (lit "1") + len v) (st source [] rest []).
Proof.
  split; [reflexivity|].
  apply (digit_sequence_spec (test_source (lit "x = 1 000 ;") (lit "t")));
    [reflexivity|vm_compute; discriminate|reflexivity].
Defined.

(** * Comments *)

(** C24. [consume_block_comment] finds the end of a block comment with nested block
    comments exactly as the reference definition on natural-number depths does:
    the 32-bit counter never wraps around. An unterminated comment takes the rest
    of the source and is reported once, where it starts. *)
Theorem block_comment_nesting : forall `{Fmt} source tab_size pre offset it toks reps,
  source_text_ source = pre ++ it -> len (source_text_ source) <= source_size_max ->
  0 <= tab_size < 256 -> 0 <= offset ->
  match comment_rest 1 it with
  | Some rest =>
      consume_block_comment source tab_size offset (st source toks it reps) =
      Done tt (st source toks rest reps)
  | None =>
      exists r, is_report source tab_size unterminated_block_comment offset [] r /\
      consume_block_comment source tab_size offset (st source toks it reps) =
      Done tt (st source toks [] (reps ++ [r]))
  end.
Proof.
  intros F source tab_size pre offset it toks reps Ht Hsize Htab Ho.
  destruct (runs_consume_block_comment source tab_size Hsize Htab pre offset it Ht Ho)
    as ([] & tr & it' & _ & (w & reps' & -> & Hr) & Hm).
  specialize (Hm toks reps). cbn in Hm. rewrite app_nil_r in Hm.
  destruct (comment_rest 1 it) as [rest|].
  - destruct Hr as [-> ->]. by rewrite app_nil_r in Hm.
  - destruct Hr as (-> & r & -> & Hr). by exists r.
Qed.

Lemma block_comment_nesting_witness :
  let source := test_source (lit "/* a /* b */ c */ d") (lit "t") in
  consume_block_comment source 4 0 (st source [] (lit " a /* b */ c */ d") []) =
  Done tt (st source [] (lit " d") []).
Proof.
  exact (block_comment_nesting (test_source (lit "/* a /* b */ c */ d") (lit "t")) 4 (lit "/*") 0
    (lit " a /* b */ c */ d") [] [] eq_refl ltac:(vm_compute; discriminate) ltac:(lia) ltac:(lia)).
Defined.

(** * Quoted literals *)

(** C25. A quoted literal ends at its closing quote, where a backslash takes the
    next character (a quote, a backslash) with it, and its token has the length
    of the text read. Only a line break before the closing quote is reported; a
    literal that the end of the source (or a null byte) cuts off is accepted
    silently. *)
Theorem quoted_literal_spec : forall `{Fmt} source tab_size pre kind quote it toks reps,
  source_text_ source = pre ++ quote :: it -> len (source_text_ source) <= source_size_max ->
  0 <= tab_size < 256 -> quote <> "\" ->
  let (v, how) := quote_scan quote it in
  exists rest new, it = v ++ rest /\
    match how with
    | at_newline => exists r, new = [r] /\
        is_report source tab_size missing_closing_quote (len pre + len (quote :: v)) [] r
    | _ => new = []
    end /\
    on_quote source tab_size kind quote (st source toks (quote :: it) reps) =
    Done tt (st source (toks ++ [make_token kind (len pre) (len (quote :: v))]) rest (reps ++ new)).
Proof.
  intros F source tab_size pre kind quote it toks reps Ht Hsize Htab Hq.
  assert (Hruns : runs source (on_quote source tab_size kind quote) (quote :: it) (fun _ tr it' =>
    it = fst (quote_scan quote it) ++ it' /\
    emitted tr = [make_token kind (len pre) (len (quote :: fst (quote_scan quote it)))] /\
    match snd (quote_scan quote it) with
    | at_newline => exists r, reported tr = [r] /\ is_report source tab_size missing_closing_quote
        (len pre + len (quote :: fst (quote_scan quote it))) [] r
    | _ => reported tr = []
    end)).
  { unfold on_quote. apply (runs_get_offset_and_advance source Hsize) with (pre := pre); [done|].
    eapply runs_bind; [apply (runs_consume_quoted source tab_size Hsize Htab (pre ++ [quote]));
      [by rewrite <-app_assoc|done]|].
    intros _ tr it' Hit (reps' & -> & Hr). cbn [read_ scan] in Hit.
    apply (runs_length_from source Hsize) with (w := quote :: fst (quote_scan quote it));
      [rewrite Ht, Hit at 1; app_eq|].
    apply runs_last, runs_put, runs_ret. split; [done|]. split; [done|].
    unfold tapp, scan, tput. cbn [reported tread tnil app]. rewrite app_nil_r.
    destruct (snd _); try done. destruct Hr as (r & -> & Hr). exists r. split; [done|].
    rewrite len_app in Hr. rewrite !len_cons in *. by rewrite Z.add_assoc. }
  destruct Hruns as ([] & tr & rest & _ & (Hit & He & Hr) & Hm).
  destruct (quote_scan quote it) as [v how]. cbn [fst snd] in *.
  exists rest, (reported tr). split_and!; [done|exact Hr|]. by rewrite Hm, He.
Qed.

Lemma quoted_literal_spec_witness :
  let source := test_source (double_quote :: lit "ab") (lit "t") in
  exists rest new, lit "ab" = lit "ab" ++ rest /\ new = [] /\
    on_quote source 4 TokenKind.string_literal double_quote (st source [] (double_quote :: lit "ab") []) =
    Done tt (st source ([] ++ [make_token TokenKind.string_literal (len []) (len (double_quote :: lit "ab"))])
                rest ([] ++ new)).
Proof.
  exact (quoted_literal_spec (test_source (double_quote :: lit "ab") (lit "t")) 4 []
    TokenKind.string_literal double_quote (lit "ab") [] [] eq_refl ltac:(vm_compute; discriminate)
    ltac:(lia) ltac:(discriminate)).
Defined.

(** * Flags *)

(** C26. The [emit_comments] flag only decides whether comment tokens are put:
    without it the lexer gives the same tokens less the comments, and exactly the
    same reports. *)
Theorem emit_comments_only_adds_comments : forall `{Fmt} source with_comments without tab_size reports,
  len (SourceView.get_text source) <= source_size_max -> 0 <= tab_size < 256 ->
  has_flags with_comments LexerFlags.emit_comments = true ->
  has_flags without LexerFlags.emit_comments = false ->
  exists toks reports',
    run_lexer source with_comments tab_size reports = Done toks reports' /\
    run_lexer source without tab_size reports =
    Done (filter (fun token => TokenCursor.is_comment (kind token) = false) toks) reports'.
Proof.
  intros F source with_comments without tab_size reports Hsize Htab Hwith Hwithout.
  destruct (filtered_run source with_comments without tab_size Hsize Htab Hwith Hwithout [] reports)
    as (tr1 & tr2 & it' & off & _ & Hr & He & Hrun1 & Hrun2).
  exists (([] ++ emitted tr1) ++ [fixed_token TokenKind.end_of_file off]), (reports ++ reported tr1).
  unfold run_lexer. change {| tokens_ := _; cursor_ := _; reports_ := _ |} with
    (st source [] (source_text_ source) reports).
  rewrite Hrun1, Hrun2. split; [done|]. cbn [tokens_ reports_ st app]. rewrite Hr, He. f_equal.
  symmetry. exact (filter_app _ (emitted tr1) [fixed_token TokenKind.end_of_file off]).
Qed.

Lemma emit_comments_only_adds_comments_witness :
  let source := test_source (lit "a /* b */ c") (lit "t") in
  has_flags LexerFlags.emit_comments LexerFlags.emit_comments = true /\
  has_flags LexerFlags.none LexerFlags.emit_comments = false /\
  exists toks reports',
    run_lexer source LexerFlags.emit_comments 4 [] = Done toks reports' /\
    run_lexer source LexerFlags.none 4 [] =
    Done (filter (fun token => TokenCursor.is_comment (kind token) = false) toks) reports'.
Proof.
  split; [reflexivity|]. split; [reflexivity|].
  apply (emit_comments_only_adds_comments (test_source (lit "a /* b */ c") (lit "t")));
    [vm_compute; discriminate|lia|reflexivity|reflexivity].
Defined.
