(* ===== verification/Memory.v ===== *)
(** Memory as the arena uses it: blocks from [operator new], the bytes in them,
    and objects of trivially copyable types as bytes. Every access is checked: one
    outside the allocated blocks, a read of bytes that were never written, or a
    deletion of something that is not an allocated block is undefined behaviour
    and ends in [Aborted]. Addresses are integers, 0 is the null pointer. *)

From stdpp Require Import gmap.
From S2P Require Import Prelude.

(** * The heap *)

(** The allocated blocks with their sizes, and the bytes that were written. *)
Record Heap := {
  blocks : gmap Z Z;
  memory : gmap Z Z;
}.

Definition empty_heap : Heap := {| blocks := ∅; memory := ∅ |}.

(** Regions of memory: start and size. *)
Definition disjoint_regions (p n q m : Z) : Prop := p + n <= q \/ q + m <= p.

(** [n] bytes from [p] on lie in one allocated block. *)
Definition accessible (heap : Heap) (p n : Z) : Prop :=
  map_Exists (fun addr size => addr <= p /\ p + n <= addr + size) (blocks heap).

#[export] Instance accessible_dec heap p n : Decision (accessible heap p n) := _.

(** The address that [operator new] chooses for a block of the given size, or
    [None] for [std::bad_alloc]. *)
Class Allocator := choose_address : Heap -> Z -> option Z.

(** What the standard says of [operator new]: the block is new, its address is not
    null and is aligned for every type of fundamental alignment, and it lies in
    the address space. *)
Class AllocatorLaws `{Allocator} : Prop := {
  new_fresh heap size addr p n :
    choose_address heap size = Some addr -> blocks heap !! p = Some n ->
    disjoint_regions addr size p n;
  new_range heap size addr :
    choose_address heap size = Some addr -> 0 < addr /\ addr + size < 2 ^ 63;
  new_aligned heap size addr : choose_address heap size = Some addr -> addr mod 16 = 0;
}.

(** The bytes of a new block are indeterminate. *)
Definition operator_new `{Allocator} (size : Z) : M Heap Z := fun heap =>
  match choose_address heap size with
  | None => Aborted
  | Some addr =>
      Done addr {| blocks := <[addr := size]> (blocks heap);
                   memory := filter (fun byte => ~ (addr <= byte.1 < addr + size)) (memory heap) |}
  end.

Definition operator_delete (p : Z) : M Heap unit := fun heap =>
  if p =? 0 then Done tt heap
  else match blocks heap !! p with
       | None => Aborted
       | Some _ => Done tt {| blocks := delete p (blocks heap); memory := memory heap |}
       end.

(** * Bytes *)

Fixpoint read_bytes (mem : gmap Z Z) (p : Z) (n : nat) : option (list Z) :=
  match n with
  | O => Some []
  | S n =>
      match mem !! p, read_bytes mem (p + 1) n with
      | Some b, Some bs => Some (b :: bs)
      | _, _ => None
      end
  end.

(** [None] writes an indeterminate byte. *)
Fixpoint write_bytes (mem : gmap Z Z) (p : Z) (bs : list (option Z)) : gmap Z Z :=
  match bs with
  | [] => mem
  | b :: bs => write_bytes (partial_alter (fun _ => b) p mem) (p + 1) bs
  end.

Definition load_bytes (p n : Z) : M Heap (list Z) := fun heap =>
  if bool_decide (accessible heap p n) then
    match read_bytes (memory heap) p (Z.to_nat n) with
    | Some bs => Done bs heap
    | None => Aborted
    end
  else Aborted.

Definition store_bytes (p : Z) (bs : list (option Z)) : M Heap unit := fun heap =>
  if bool_decide (accessible heap p (Z.of_nat (length bs))) then
    Done tt {| blocks := blocks heap; memory := write_bytes (memory heap) p bs |}
  else Aborted.

(** [memcpy] copies bytes whether they are indeterminate or not; the regions must
    not overlap. A copy of no bytes touches neither region. *)
Definition memcpy (dest src count : Z) : M Heap unit := fun heap =>
  if count =? 0 then Done tt heap
  else if bool_decide (accessible heap src count /\ disjoint_regions dest count src count) then
    store_bytes dest (map (fun i => memory heap !! (src + i)) (seqZ 0 count)) heap
  else Aborted.

(** * Objects *)

(** A trivially copyable type: [sizeof] and [alignof], the bytes of a value and the
    value of bytes. [representable] are the values that the type has. *)
Class Trivial (T : Type) := {
  size_of : Z;
  align_of : Z;
  to_bytes : T -> list Z;
  from_bytes : list Z -> T;
  representable : T -> Prop;
}.
#[global] Arguments size_of T {_}.
#[global] Arguments align_of T {_}.

Class TrivialLaws (T : Type) `{Trivial T} : Prop := {
  size_of_positive : 0 < size_of T;
  to_bytes_length (v : T) : Z.of_nat (length (to_bytes v)) = size_of T;
  from_to_bytes (v : T) : representable v -> from_bytes (to_bytes v) = v;
}.

Definition load {T} `{Trivial T} (p : Z) : M Heap T :=
  bs <- load_bytes p (size_of T) ;;
  ret (from_bytes bs).

Definition store {T} `{Trivial T} (p : Z) (value : T) : M Heap unit :=
  store_bytes p (map Some (to_bytes value)).

(** The objects of an array of [n] elements. *)
Fixpoint load_elements {T} `{Trivial T} (n : nat) (p : Z) : M Heap (list T) :=
  match n with
  | O => ret []
  | S n =>
      v <- load p ;;
      vs <- load_elements n (p + size_of T) ;;
      ret (v :: vs)
  end.

(** Pointers are 64-bit words, little-endian. *)
Definition pointer : Type := Z.

Fixpoint le_bytes (n : nat) (z : Z) : list Z :=
  match n with
  | O => []
  | S n => z mod 256 :: le_bytes n (z / 256)
  end.

Fixpoint le_value (bs : list Z) : Z :=
  match bs with
  | [] => 0
  | b :: bs => b + 256 * le_value bs
  end.

#[export] Instance pointer_trivial : Trivial pointer := {|
  size_of := 8;
  align_of := 8;
  to_bytes := le_bytes 8;
  from_bytes := le_value;
  representable := fun p => 0 <= p < 2 ^ 64;
|}.

(** * Lemmas *)

Lemma le_bytes_length n z : length (le_bytes n z) = n.
Proof. revert z. induction n; intros z; cbn; auto. Qed.

Lemma le_value_bytes n z : 0 <= z < 256 ^ Z.of_nat n -> le_value (le_bytes n z) = z.
Proof.
  revert z. induction n as [|n IH]; intros z Hz; cbn [le_bytes le_value].
  - cbn in Hz. lia.
  - rewrite Nat2Z.inj_succ, Z.pow_succ_r in Hz by lia. rewrite IH; [zlia|].
    split; [zlia|]. apply Z.div_lt_upper_bound; lia.
Qed.

#[export] Instance pointer_laws : TrivialLaws pointer.
Proof.
  split; [done| |].
  - intros v. cbn [to_bytes pointer_trivial]. by rewrite le_bytes_length.
  - intros v Hv. change (le_value (le_bytes 8 v) = v). apply le_value_bytes. cbn in Hv |- *. lia.
Qed.

(** ** Access *)

Lemma accessible_intro heap p n addr size :
  blocks heap !! addr = Some size -> addr <= p -> p + n <= addr + size -> accessible heap p n.
Proof. intros Hb ??. exists addr, size. by split_and!. Qed.

Lemma accessible_part heap p n q m :
  accessible heap p n -> p <= q -> q + m <= p + n -> accessible heap q m.
Proof. intros (addr & size & Hb & ? & ?) ??. eapply accessible_intro; [exact Hb|lia..]. Qed.

(** The bytes [bs] are in memory from [p] on. *)
Definition stored (mem : gmap Z Z) (p : Z) (bs : list Z) : Prop :=
  forall i b, bs !! i = Some b -> mem !! (p + Z.of_nat i) = Some b.

Lemma read_bytes_stored mem p n bs :
  read_bytes mem p n = Some bs <-> length bs = n /\ stored mem p bs.
Proof.
  revert p bs. induction n as [|n IH]; intros p bs; cbn [read_bytes].
  - split.
    + intros [= <-]. split; [done|]. by intros i b ?%lookup_nil_Some || intros [] b.
    + intros [->%nil_length_inv _]. done.
  - split.
    + destruct (mem !! p) as [b|] eqn:Hb; [|done]. destruct (read_bytes mem (p + 1) n) as [bs'|] eqn:Hr; [|done].
      intros [= <-]. apply IH in Hr as [Hl Hs]. split; [by cbn; rewrite Hl|].
      intros [|i] b' Hi; cbn in Hi.
      * injection Hi as <-. by rewrite Z.add_0_r.
      * apply Hs in Hi. rewrite <-Hi. f_equal. lia.
    + intros [Hl Hs]. destruct bs as [|b bs]; [done|]. injection Hl as Hl.
      pose proof (Hs 0%nat b eq_refl) as Hb. rewrite Z.add_0_r in Hb. rewrite Hb.
      assert (Hr : read_bytes mem (p + 1) n = Some bs).
      { apply IH. split; [done|]. intros i b' Hi. rewrite <-(Hs (S i) b' Hi). f_equal. lia. }
      by rewrite Hr.
Qed.

Lemma write_bytes_lookup mem p bs q :
  write_bytes mem p bs !! q =
  if bool_decide (p <= q < p + Z.of_nat (length bs)) then default None (bs !! Z.to_nat (q - p))
  else mem !! q.
Proof.
  revert mem p. induction bs as [|b bs IH]; intros mem p; cbn [write_bytes length].
  - rewrite bool_decide_eq_false_2 by lia. done.
  - rewrite IH. destruct (decide (q = p)) as [->|Hne].
    + rewrite bool_decide_eq_false_2 by lia. rewrite bool_decide_eq_true_2 by lia.
      rewrite lookup_partial_alter_eq, Z.sub_diag. done.
    + destruct (decide (p + 1 <= q < p + 1 + Z.of_nat (length bs))) as [Hin|Hout].
      * rewrite !bool_decide_eq_true_2 by lia.
        replace (Z.to_nat (q - p)) with (S (Z.to_nat (q - (p + 1)))) by lia. done.
      * rewrite !bool_decide_eq_false_2 by lia. by rewrite lookup_partial_alter_ne.
Qed.

Lemma store_bytes_run p bs heap :
  accessible heap p (Z.of_nat (length bs)) ->
  store_bytes p bs heap = Done tt {| blocks := blocks heap; memory := write_bytes (memory heap) p bs |}.
Proof. intros Ha. unfold store_bytes. by rewrite bool_decide_eq_true_2. Qed.

Lemma load_bytes_run p n bs heap heap' :
  load_bytes p n heap = Done bs heap' <->
  heap' = heap /\ accessible heap p n /\ length bs = Z.to_nat n /\ stored (memory heap) p bs.
Proof.
  unfold load_bytes. case_bool_decide as Ha; [|naive_solver].
  rewrite <-read_bytes_stored. destruct (read_bytes _ _ _); naive_solver.
Qed.

Lemma memcpy_run dest src n heap :
  0 <= n ->
  n = 0 \/ accessible heap src n /\ accessible heap dest n /\ disjoint_regions dest n src n ->
  exists mem, memcpy dest src n heap = Done tt {| blocks := blocks heap; memory := mem |} /\
    (forall i, 0 <= i < n -> mem !! (dest + i) = memory heap !! (src + i)) /\
    (forall q, ~ (dest <= q < dest + n) -> mem !! q = memory heap !! q).
Proof.
  intros Hn Hcase. unfold memcpy. destruct (Z.eqb_spec n 0) as [->|Hne].
  { exists (memory heap). split; [by destruct heap|]. split; [lia|done]. }
  destruct Hcase as [?|(Hs & Hd & Hdis)]; [lia|]. rewrite bool_decide_eq_true_2 by done.
  assert (Hlen : Z.of_nat (length (map (fun i => memory heap !! (src + i)) (seqZ 0 n))) = n).
  { rewrite length_map, length_seqZ. lia. }
  eexists. split; [apply store_bytes_run; by rewrite Hlen|]. split; intros i Hi; rewrite write_bytes_lookup, Hlen.
  - rewrite bool_decide_eq_true_2 by lia. rewrite list_lookup_fmap, lookup_seqZ_lt by lia. cbn.
    f_equal. lia.
  - by rewrite bool_decide_eq_false_2.
Qed.

Section Objects.
Context {T : Type} `{TrivialLaws T}.

Lemma to_bytes_size (v : T) : length (to_bytes v) = Z.to_nat (size_of T).
Proof. pose proof (to_bytes_length v). lia. Qed.

(** An object that was stored is read back. *)
Lemma load_stored p (v : T) heap :
  representable v -> accessible heap p (size_of T) -> stored (memory heap) p (to_bytes v) ->
  load p heap = Done v heap.
Proof.
  intros Hv Ha Hs. unfold load, bind. destruct (load_bytes_run p (size_of T) (to_bytes v) heap heap) as [_ Hl].
  rewrite Hl; [unfold ret; by rewrite from_to_bytes|]. split_and!; [done|done|apply to_bytes_size|done].
Qed.

Lemma store_run p (v : T) heap :
  accessible heap p (size_of T) ->
  exists mem, store p v heap = Done tt {| blocks := blocks heap; memory := mem |} /\
    stored mem p (to_bytes v) /\
    (forall q, ~ (p <= q < p + size_of T) -> mem !! q = memory heap !! q).
Proof.
  intros Ha. eexists. split; [apply store_bytes_run; by rewrite length_map, to_bytes_length|]. split.
  - intros i b Hi. pose proof (lookup_lt_Some _ _ _ Hi). rewrite write_bytes_lookup, length_map.
    rewrite bool_decide_eq_true_2 by lia. replace (Z.to_nat (p + Z.of_nat i - p)) with i by lia.
    by rewrite list_lookup_fmap, Hi.
  - intros q Hq. rewrite write_bytes_lookup, length_map, to_bytes_length. by rewrite bool_decide_eq_false_2.
Qed.

Lemma load_reads p (v : T) heap heap' : load p heap = Done v heap' -> heap' = heap.
Proof.
  unfold load, bind, ret. destruct (load_bytes p _ heap) eqn:Hb; try done.
  apply load_bytes_run in Hb as [-> _]. congruence.
Qed.

(** The bytes at [p] in [heap] and at [q] in [heap'] are the same. *)
Definition same_bytes (heap : Heap) (p : Z) (heap' : Heap) (q n : Z) : Prop :=
  forall i, 0 <= i < n -> memory heap' !! (q + i) = memory heap !! (p + i).

Lemma load_same p q heap heap' (v : T) :
  same_bytes heap p heap' q (size_of T) -> accessible heap' q (size_of T) ->
  load p heap = Done v heap -> load q heap' = Done v heap'.
Proof.
  intros Hsame Ha. unfold load, bind, ret.
  destruct (load_bytes p (size_of T) heap) as [bs h| | |] eqn:Hl; try done. intros [= <- ->].
  apply load_bytes_run in Hl as (_ & _ & Hlen & Hs).
  destruct (load_bytes_run q (size_of T) bs heap' heap') as [_ Hrun]. rewrite Hrun; [done|].
  split; [done|]. split; [done|]. split; [done|]. intros i b Hi. pose proof (lookup_lt_Some _ _ _ Hi).
  rewrite Hsame by lia. by apply Hs.
Qed.

Lemma load_elements_same n p q heap heap' (vs : list T) :
  same_bytes heap p heap' q (Z.of_nat n * size_of T) -> accessible heap' q (Z.of_nat n * size_of T) ->
  load_elements n p heap = Done vs heap -> load_elements n q heap' = Done vs heap'.
Proof.
  pose proof (size_of_positive (T := T)) as Hpos.
  revert p q vs. induction n as [|n IH]; intros p q vs Hsame Ha; cbn [load_elements].
  { unfold ret. by intros [= <-]. }
  unfold bind. destruct (load p heap) as [v h| | |] eqn:Hl; try done.
  pose proof (load_reads p v heap h Hl) as ->.
  destruct (load_elements n (p + size_of T) heap) as [vs' h| | |] eqn:Hls; try done.
  unfold ret. intros [= <- ->].
  rewrite (load_same p q heap heap' v); [|intros i Hi; apply Hsame; nia| |done].
  2: { eapply accessible_part; [exact Ha|lia|nia]. }
  rewrite (IH (p + size_of T) (q + size_of T) vs'); [done| | |done].
  - intros i Hi. rewrite <-!Z.add_assoc. apply Hsame. nia.
  - eapply accessible_part; [exact Ha|nia..].
Qed.

Lemma load_elements_snoc n p heap (vs : list T) (v : T) :
  load_elements n p heap = Done vs heap -> load (p + Z.of_nat n * size_of T) heap = Done v heap ->
  load_elements (S n) p heap = Done (vs ++ [v]) heap.
Proof.
  revert p vs. induction n as [|n IH]; intros p vs; cbn [load_elements].
  - unfold ret. intros [= <-]. rewrite Z.mul_0_l, Z.add_0_r. intros Hl. unfold bind. by rewrite Hl.
  - intros Hls Hv. unfold bind in Hls |- *. destruct (load p heap) as [v' h| | |] eqn:Hl; try done.
    destruct (load_elements n (p + size_of T) h) as [vs' h'| | |] eqn:Hls'; try done.
    unfold ret in Hls. injection Hls as <- ->.
    pose proof (load_reads p v' heap h Hl) as ->.
    specialize (IH (p + size_of T) vs' Hls'). cbn [load_elements] in IH. unfold bind in IH.
    rewrite IH; [done|]. rewrite <-Hv. f_equal. lia.
Qed.

End Objects.

(** ** Growing heaps *)

(** The blocks of [heap] are still there, with their contents. *)
Record extends (heap heap' : Heap) : Prop := {
  extends_blocks : blocks heap ⊆ blocks heap';
  extends_memory : forall q, accessible heap q 1 -> memory heap' !! q = memory heap !! q;
}.

Lemma extends_accessible heap heap' p n : extends heap heap' -> accessible heap p n -> accessible heap' p n.
Proof.
  intros [Hb _] (addr & size & Ha & ? & ?). eapply accessible_intro; [|done..].
  by eapply lookup_weaken.
Qed.

#[export] Instance extends_preorder : PreOrder extends.
Proof.
  split.
  - intros heap. by split.
  - intros h1 h2 h3 H12 H23. split.
    + etrans; [apply (extends_blocks _ _ H12)|apply (extends_blocks _ _ H23)].
    + intros q Hq. rewrite (extends_memory _ _ H23) by by eapply extends_accessible.
      by apply (extends_memory _ _ H12).
Qed.

(** Allocated blocks have an address and a size and do not overlap. *)
Record heap_ok (heap : Heap) : Prop := {
  heap_range : forall p n, blocks heap !! p = Some n -> 0 < p /\ 0 < n /\ p + n < 2 ^ 63;
  heap_disjoint : forall p n q m, blocks heap !! p = Some n -> blocks heap !! q = Some m -> p <> q ->
    disjoint_regions p n q m;
}.

Lemma empty_heap_ok : heap_ok empty_heap.
Proof. split; cbn; intros *; by rewrite lookup_empty. Qed.

Section Allocation.
Context `{AllocatorLaws}.

Lemma operator_new_ok size heap :
  heap_ok heap -> 0 < size ->
  match operator_new size heap with
  | Done p heap' =>
      heap_ok heap' /\ extends heap heap' /\ blocks heap !! p = None /\ blocks heap' = <[p := size]> (blocks heap) /\
      p mod 16 = 0 /\ 0 < p /\ p + size < 2 ^ 63 /\
      (forall q n, blocks heap !! q = Some n -> disjoint_regions p size q n)
  | Aborted => choose_address heap size = None
  | _ => False
  end.
Proof.
  intros Hok Hsize. unfold operator_new. destruct (choose_address heap size) as [p|] eqn:Hnew; [|done].
  destruct (new_range _ _ _ Hnew) as [Hp Hend].
  assert (Hd : forall q n, blocks heap !! q = Some n -> disjoint_regions p size q n) by (intros; by eapply new_fresh).
  assert (Hno : blocks heap !! p = None).
  { destruct (blocks heap !! p) as [n|] eqn:Hb; [|done]. specialize (Hd p n Hb).
    destruct (heap_range _ Hok p n Hb). unfold disjoint_regions in Hd. lia. }
  split_and!; [| |done|done|by eapply new_aligned|done|done|done].
  - split; cbn.
    + intros q n [[<- <-]|[_ Hq]]%lookup_insert_Some; [lia|]. by apply (heap_range _ Hok).
    + intros q n q' n' [[<- <-]|[_ Hq]]%lookup_insert_Some [[<- <-]|[_ Hq']]%lookup_insert_Some Hne;
        [done|by apply Hd| |by apply (heap_disjoint _ Hok)].
      specialize (Hd q n Hq). unfold disjoint_regions in *. lia.
  - split; cbn; [by apply insert_subseteq|].
    intros q (addr & n & Hb & ? & ?). specialize (Hd addr n Hb). unfold disjoint_regions in Hd.
    rewrite map_lookup_filter. destruct (memory heap !! q); cbn; [|done]. rewrite option_guard_True; [done|lia].
Qed.

End Allocation.
