(* ===== verification/Arena.v ===== *)
(** Memory arenas (src/cero/util/memory_arena.hh, memory_arena.cc): the bump
    allocator that owns the nodes of the syntax tree, and the dynamic array in
    it, over the memory of Memory.v. *)

From stdpp Require Import gmap.
From S2P Require Import Prelude Memory.

(** [std::align]: the first aligned address from [ptr] at which [size] bytes fit
    into [space], and the space left from there. *)
Definition align (alignment size ptr space : Z) : option (Z * Z) :=
  if space <? size then None
  else
    let aligned := u64 (ptr + alignment - 1) / alignment * alignment in
    let diff := aligned - ptr in
    if space - size <? diff then None else Some (aligned, space - diff).

(** * The arena *)

(** [MemoryArena::Block], the header at the front of each block: its only member,
    the pointer [next], is stored there as a [pointer]. *)
Definition Block : Type := pointer.

Definition sizeof_Block : Z := size_of Block.

Record MemoryArena := {
  next_ptr_ : Z;
  remaining_size_ : Z;
  next_block_size_ : Z;
  head_block_ : Z;
  total_size_ : Z;
}.

Definition initial_block_size : Z := 1024.

(** [MemoryArena(initial_size)]; the default constructor's size is
    [initial_block_size]. *)
Definition new_arena (initial_size : Z) : MemoryArena :=
  {| next_ptr_ := 0; remaining_size_ := 0; next_block_size_ := initial_size;
     head_block_ := 0; total_size_ := 0 |}.

(** Functions on one arena act on it and on the heap. *)
Definition A (B : Type) : Type := M (Heap * MemoryArena) B.

Definition on_heap {B} (m : M Heap B) : A B := fun '(heap, a) =>
  match m heap with
  | Done b heap => Done b (heap, a)
  | Thrown heap => Thrown (heap, a)
  | Aborted => Aborted
  | OutOfFuel => OutOfFuel
  end.

Definition this_arena : A MemoryArena := read snd.
Definition set_arena (a : MemoryArena) : A unit := modify (fun '(heap, _) => (heap, a)).

Section Arena.
Context `{Allocator}.

Definition create_block (size alignment : Z) : A unit :=
  a <- this_arena ;;
  let block_size := Z.max (next_block_size_ a) (u64 (size + sizeof_Block)) in
  block <- on_heap (operator_new block_size) ;;
  on_heap (store (T := Block) block (head_block_ a)) ;;
  let '(next_ptr, remaining_size) :=
    match align alignment size (block + sizeof_Block) (block_size - sizeof_Block) with
    | Some (ptr, space) => (ptr, space)
    | None => (0, block_size - sizeof_Block)
    end in
  set_arena {| next_ptr_ := next_ptr;
               remaining_size_ := remaining_size;
               next_block_size_ := u64 (next_block_size_ a + next_block_size_ a / 2);
               head_block_ := block;
               total_size_ := u64 (total_size_ a + block_size) |}.

(** [next_ptr_ += size; remaining_size_ -= size; return ptr;] *)
Definition bump (ptr size : Z) : A Z :=
  a <- this_arena ;;
  set_arena {| next_ptr_ := next_ptr_ a + size;
               remaining_size_ := u64 (remaining_size_ a - size);
               next_block_size_ := next_block_size_ a;
               head_block_ := head_block_ a;
               total_size_ := total_size_ a |} ;;
  ret ptr.

(** A call of [std::align] on [next_ptr_] and [remaining_size_]: the pointer, null
    if there is no room. *)
Definition align_next (alignment size : Z) : A Z :=
  a <- this_arena ;;
  match align alignment size (next_ptr_ a) (remaining_size_ a) with
  | Some (ptr, space) =>
      set_arena {| next_ptr_ := ptr; remaining_size_ := space;
                   next_block_size_ := next_block_size_ a;
                   head_block_ := head_block_ a; total_size_ := total_size_ a |} ;;
      ret ptr
  | None => ret 0
  end.

Definition allocate (size alignment : Z) : A Z :=
  ptr <- align_next alignment size ;;
  if ptr =? 0 then
    create_block size alignment ;;
    a <- this_arena ;;
    bump (next_ptr_ a) size
  else bump ptr size.

(** [create<T>(args)] for the object [value] that the constructor makes. *)
Definition create {T} `{Trivial T} (value : T) : A Z :=
  storage <- allocate (size_of T) (align_of T) ;;
  on_heap (store storage value) ;;
  ret storage.

(** One iteration of the loop in [release]. *)
Definition release_step (block : Z) : M Heap (Loop Z unit) :=
  if block =? 0 then ret (Break tt)
  else
    next <- load (T := Block) block ;;
    operator_delete block ;;
    ret (Continue next).

(** Every iteration deletes an allocated block: the fuel is their number. *)
Definition release : A unit :=
  a <- this_arena ;;
  on_heap (loop (fun heap => size (blocks heap)) release_step (head_block_ a)) ;;
  set_arena {| next_ptr_ := next_ptr_ a; remaining_size_ := remaining_size_ a;
               next_block_size_ := next_block_size_ a; head_block_ := 0; total_size_ := 0 |}.

Definition get_total_size (a : MemoryArena) : Z := total_size_ a.

(** The destructor. *)
Definition destroy : A unit := release.

(** The move constructor: the new arena, and what is left in [other]. *)
Definition move_construct (other : MemoryArena) : MemoryArena * MemoryArena :=
  (other, new_arena initial_block_size).

(** [a = std::move(other)] for different objects; returns what is left in [other]. *)
Definition move_assign (other : MemoryArena) : A MemoryArena :=
  release ;;
  set_arena other ;;
  ret (new_arena initial_block_size).

(** * ArenaArray *)

Record ArenaArray (T : Type) := {
  data_ : Z;
  count_ : Z;
  capacity_ : Z;
}.
#[global] Arguments data_ {T} _.
#[global] Arguments count_ {T} _.
#[global] Arguments capacity_ {T} _.

Definition initial_capacity : Z := 4.

Definition new_array {T} : ArenaArray T := {| data_ := 0; count_ := 0; capacity_ := 0 |}.

Definition array_put {T} `{Trivial T} (array : ArenaArray T) (value : T) : A (ArenaArray T) :=
  array <- (if count_ array =? capacity_ array then
              let new_cap := Z.max (capacity_ array + capacity_ array / 2) initial_capacity in
              storage <- allocate (u64 (new_cap * size_of T)) (align_of T) ;;
              on_heap (memcpy storage (data_ array) (u64 (count_ array * size_of T))) ;;
              ret {| data_ := storage; count_ := count_ array; capacity_ := u32 new_cap |}
            else ret array) ;;
  on_heap (store (data_ array + count_ array * size_of T) value) ;;
  ret {| data_ := data_ array; count_ := u32 (count_ array + 1); capacity_ := capacity_ array |}.

Definition array_begin {T} (array : ArenaArray T) : Z := data_ array.
Definition array_end {T} `{Trivial T} (array : ArenaArray T) : Z := data_ array + count_ array * size_of T.

(** What a loop over the array from [begin()] to [end()] reads. *)
Definition array_elements {T} `{Trivial T} (array : ArenaArray T) : M Heap (list T) :=
  load_elements (Z.to_nat ((array_end array - array_begin array) / size_of T)) (array_begin array).

End Arena.
