(* ===== verification/ArenaFacts.v ===== *)
(** The arena hands out aligned, disjoint regions of the memory it owns, keeps what
    is stored in them, and gives all of it back. *)

From stdpp Require Import gmap.
From S2P Require Import Prelude Memory Arena.

(** * Invariant *)

(** A block that an arena owns. *)
Record OwnedBlock := {
  block_addr : Z;
  block_size : Z;
}.

#[export] Instance OwnedBlock_eq_dec : EqDecision OwnedBlock.
Proof. solve_decision. Defined.

(** The list of blocks in memory, from the header at [p] on. *)
Fixpoint chain (heap : Heap) (p : Z) (bs : list OwnedBlock) : Prop :=
  match bs with
  | [] => p = 0
  | b :: bs =>
      p = block_addr b /\ blocks heap !! p = Some (block_size b) /\ sizeof_Block <= block_size b /\
      exists next : pointer, representable next /\ stored (memory heap) p (to_bytes next) /\ chain heap next bs
  end.

(** The region lies in the payload of the block. *)
Definition inside (region : Z * Z) (b : OwnedBlock) : Prop :=
  0 <= snd region /\ block_addr b + sizeof_Block <= fst region /\
  fst region + snd region <= block_addr b + block_size b.

(** [a] owns the blocks [bs] of [heap]; the regions [regs] that it has handed out lie
    in them, do not overlap, and are behind the part of the newest block that is
    still free. *)
Record arena_ok (heap : Heap) (a : MemoryArena) (bs : list OwnedBlock) (regs : list (Z * Z)) : Prop := {
  ok_heap : heap_ok heap;
  ok_chain : chain heap (head_block_ a) bs;
  ok_nodup : NoDup (map block_addr bs);
  ok_free : (next_ptr_ a = 0 /\ remaining_size_ a = 0) \/
    exists b rest, bs = b :: rest /\ block_addr b + sizeof_Block <= next_ptr_ a /\
      next_ptr_ a + remaining_size_ a = block_addr b + block_size b /\ 0 <= remaining_size_ a;
  ok_next_size : 0 <= next_block_size_ a < 2 ^ 64;
  ok_regions : forall region, region ∈ regs -> exists b, b ∈ bs /\ inside region b /\
    (head bs = Some b -> next_ptr_ a <> 0 -> fst region + snd region <= next_ptr_ a);
  ok_disjoint : forall i j r1 r2, i <> j -> regs !! i = Some r1 -> regs !! j = Some r2 ->
    disjoint_regions (fst r1) (snd r1) (fst r2) (snd r2);
}.

Lemma new_arena_ok size heap :
  0 <= size < 2 ^ 64 -> heap_ok heap -> arena_ok heap (new_arena size) [] [].
Proof.
  intros Hs Hh. split; cbn; try done.
  - constructor.
  - by left.
  - intros r Hr. by apply elem_of_nil in Hr.
Qed.

(** ** The list of blocks *)

Lemma chain_live heap p bs b : chain heap p bs -> b ∈ bs -> blocks heap !! block_addr b = Some (block_size b).
Proof.
  revert p. induction bs as [|c bs IH]; intros p Hc Hb; [by apply elem_of_nil in Hb|].
  destruct Hc as (-> & Hblock & _ & next & _ & _ & Hnext). apply elem_of_cons in Hb as [->|Hb]; eauto.
Qed.

Lemma chain_size heap p bs b : chain heap p bs -> b ∈ bs -> sizeof_Block <= block_size b.
Proof.
  revert p. induction bs as [|c bs IH]; intros p Hc Hb; [by apply elem_of_nil in Hb|].
  destruct Hc as (_ & _ & Hs & next & _ & _ & Hnext). apply elem_of_cons in Hb as [->|Hb]; eauto.
Qed.

(** The list depends on its blocks and on their headers only. *)
Lemma chain_frame heap heap' p bs :
  chain heap p bs ->
  (forall b, b ∈ bs -> blocks heap' !! block_addr b = blocks heap !! block_addr b) ->
  (forall b q, b ∈ bs -> block_addr b <= q < block_addr b + sizeof_Block -> memory heap' !! q = memory heap !! q) ->
  chain heap' p bs.
Proof.
  revert p. induction bs as [|c bs IH]; intros p Hc Hb Hm; [done|].
  destruct Hc as (-> & Hblock & Hs & next & Hn & Hst & Hnext). cbn [chain]. split_and!; [done| |done|].
  - rewrite Hb by left. done.
  - exists next. split_and!; [done| |].
    + intros i x Hi. rewrite <-(Hst i x Hi). apply (Hm c); [left|].
      pose proof (lookup_lt_Some _ _ _ Hi) as Hl. rewrite to_bytes_size in Hl. unfold sizeof_Block, Block in *.
      cbn in *. lia.
    + apply IH; [done|intros; apply Hb; by right|]. intros b q Hin. apply (Hm b q). by right.
Qed.

Lemma chain_head heap p bs : chain heap p bs -> heap_ok heap -> 0 <= p < 2 ^ 63.
Proof.
  intros Hc Hh. destruct bs as [|b bs]; [cbn in Hc; lia|]. destruct Hc as (_ & Hb & _).
  apply (heap_range _ Hh) in Hb. lia.
Qed.

(** Blocks that are owned are different or the same. *)
Lemma owned_disjoint heap a bs regs b1 b2 :
  arena_ok heap a bs regs -> b1 ∈ bs -> b2 ∈ bs -> b1 <> b2 ->
  disjoint_regions (block_addr b1) (block_size b1) (block_addr b2) (block_size b2).
Proof.
  intros Hok H1 H2 Hne. pose proof (chain_live _ _ _ _ (ok_chain _ _ _ _ Hok) H1) as L1.
  pose proof (chain_live _ _ _ _ (ok_chain _ _ _ _ Hok) H2) as L2.
  apply (heap_disjoint _ (ok_heap _ _ _ _ Hok)); [done..|].
  intros Heq. apply Hne. rewrite Heq in L1. destruct b1, b2. cbn in *. congruence.
Qed.

Lemma owned_range heap a bs regs b :
  arena_ok heap a bs regs -> b ∈ bs ->
  0 < block_addr b /\ sizeof_Block <= block_size b /\ block_addr b + block_size b < 2 ^ 63.
Proof.
  intros Hok Hb. pose proof (chain_size _ _ _ _ (ok_chain _ _ _ _ Hok) Hb).
  pose proof (chain_live _ _ _ _ (ok_chain _ _ _ _ Hok) Hb) as Hl.
  apply (heap_range _ (ok_heap _ _ _ _ Hok)) in Hl. lia.
Qed.

(** A region is memory that may be accessed. *)
Lemma region_accessible heap a bs regs p n :
  arena_ok heap a bs regs -> (p, n) ∈ regs -> accessible heap p n.
Proof.
  intros Hok Hr. destruct (ok_regions _ _ _ _ Hok _ Hr) as (b & Hb & (_ & Hlow & Hhigh) & _). cbn in *.
  eapply accessible_intro; [by eapply chain_live; [apply (ok_chain _ _ _ _ Hok)|]| |done].
  unfold sizeof_Block, Block in *. cbn in *. lia.
Qed.

(** Stores into a region keep the invariant. *)
Lemma store_in_region heap a bs regs p n mem :
  arena_ok heap a bs regs -> (p, n) ∈ regs ->
  (forall q, ~ (p <= q < p + n) -> mem !! q = memory heap !! q) ->
  arena_ok {| blocks := blocks heap; memory := mem |} a bs regs.
Proof.
  intros Hok Hr Hmem. destruct (ok_regions _ _ _ _ Hok _ Hr) as (b & Hb & (Hn & Hlow & Hhigh) & _). cbn in *.
  split; [|eapply chain_frame; [apply (ok_chain _ _ _ _ Hok)|done|]|apply Hok..].
  - split; cbn; apply (ok_heap _ _ _ _ Hok).
  - intros b' q Hb' Hq. apply Hmem. intros Hin. change sizeof_Block with 8 in *.
    destruct (decide (b' = b)) as [->|Hne]; [lia|].
    pose proof (owned_disjoint _ _ _ _ b' b Hok Hb' Hb Hne) as Hd.
    pose proof (owned_range _ _ _ _ b' Hok Hb'). unfold disjoint_regions in Hd.
    change sizeof_Block with 8 in *. lia.
Qed.

(** * [std::align] *)

Lemma align_some al size ptr space q space' :
  0 < al <= 8 -> 0 <= ptr -> ptr + space < 2 ^ 63 -> 0 <= size ->
  align al size ptr space = Some (q, space') ->
  ptr <= q /\ q mod al = 0 /\ q + space' = ptr + space /\ size <= space'.
Proof.
  intros Hal Hptr Hspace Hsize. unfold align. destruct (Z.ltb_spec space size); [done|].
  unfold u64. rewrite Z.mod_small by lia.
  destruct (Z.ltb_spec (space - size) ((ptr + al - 1) / al * al - ptr)) as [|Hle]; [done|].
  intros [= <- <-]. pose proof (Z.div_mod (ptr + al - 1) al ltac:(lia)) as Hdiv.
  pose proof (Z.mod_pos_bound (ptr + al - 1) al ltac:(lia)).
  split_and!; [lia|by apply Z.mod_mul; lia|lia|lia].
Qed.

(** An aligned pointer stays where it is, if there is room. *)
Lemma align_aligned al size ptr space :
  0 < al <= 8 -> ptr mod al = 0 -> 0 <= ptr < 2 ^ 63 -> size <= space ->
  align al size ptr space = Some (ptr, space).
Proof.
  intros Hal Hmod Hptr Hsize. unfold align. destruct (Z.ltb_spec space size); [lia|].
  unfold u64. rewrite Z.mod_small by lia.
  assert (Hq : (ptr + al - 1) / al * al = ptr).
  { pose proof (Z.div_mod ptr al ltac:(lia)) as Hdiv. rewrite Hmod in Hdiv.
    assert (Hd : (ptr + al - 1) / al = ptr / al).
    { symmetry. apply Z.div_unique with (al - 1); [left; lia|]. lia. }
    rewrite Hd. lia. }
  rewrite Hq, Z.sub_diag. destruct (Z.ltb_spec (space - size) 0); [lia|]. by rewrite Z.sub_0_r.
Qed.

(** * Allocation *)

(** * Allocation *)

(** * Allocation *)

(** * Allocation *)

(** * Allocation *)

(** * Allocation *)

(** * Allocation *)

(** * Allocation *)

Section Facts.
Context `{AllocatorLaws}.

(** Alignments up to that of the block header divide 8. *)
Definition small_alignment (al : Z) : Prop := al = 1 \/ al = 2 \/ al = 4 \/ al = 8.

Lemma small_alignment_range al : small_alignment al -> 0 < al <= 8.
Proof. unfold small_alignment. lia. Qed.

Lemma aligned_payload addr al : addr mod 16 = 0 -> small_alignment al -> (addr + sizeof_Block) mod al = 0.
Proof.
  intros Hmod Hal. change sizeof_Block with 8. destruct Hal as [-> | [-> | [-> | ->]]]; zlia.
Qed.

(** Handing out a region from the free part. *)
Lemma bump_ok heap a bs regs ptr size space :
  arena_ok heap a bs regs -> 0 <= size <= space ->
  (exists b rest, bs = b :: rest /\ block_addr b + sizeof_Block <= ptr /\
     ptr + space = block_addr b + block_size b /\
     forall region, region ∈ regs -> inside region b -> fst region + snd region <= ptr) ->
  arena_ok heap
    {| next_ptr_ := ptr + size; remaining_size_ := u64 (space - size);
       next_block_size_ := next_block_size_ a; head_block_ := head_block_ a;
       total_size_ := total_size_ a |} bs ((ptr, size) :: regs).
Proof.
  intros Hok Hsize (b & rest & Hhead & Hlow & Hhigh & Hbehind).
  assert (Hin : b ∈ bs) by (rewrite Hhead; left).
  destruct (owned_range _ _ _ _ b Hok Hin) as (Hb1 & Hb2 & Hb3). change sizeof_Block with 8 in *.
  assert (Hnew : forall region, region ∈ regs -> disjoint_regions (fst region) (snd region) ptr size).
  { intros region Hr. destruct (ok_regions _ _ _ _ Hok region Hr) as (b1 & Hb1in & Hins & _).
    unfold disjoint_regions. destruct (decide (b1 = b)) as [->|Hne].
    - left. by apply Hbehind.
    - pose proof (owned_disjoint _ _ _ _ b1 b Hok Hb1in Hin Hne) as Hd.
      unfold disjoint_regions, inside in *. change sizeof_Block with 8 in *. lia. }
  split; cbn [next_ptr_ remaining_size_ next_block_size_ head_block_]; [apply Hok..| |apply Hok| |].
  - right. exists b, rest. unfold u64. rewrite Z.mod_small by lia.
    split_and!; [done|change sizeof_Block with 8; lia|lia..].
  - intros region [->|Hr]%elem_of_cons.
    + exists b. split; [done|]. split; [unfold inside; cbn; change sizeof_Block with 8; lia|].
      intros _ _. cbn. lia.
    + destruct (ok_regions _ _ _ _ Hok region Hr) as (b1 & Hb1in & Hins & _). exists b1.
      split; [done|]. split; [done|]. rewrite Hhead. intros [= <-] _.
      specialize (Hbehind region Hr Hins). lia.
  - intros [|i] [|j] r1 r2 Hij H1 H2; cbn in H1, H2; [done| | |].
    + injection H1 as <-. apply list_elem_of_lookup_2, Hnew in H2. unfold disjoint_regions in *. cbn. lia.
    + injection H2 as <-. by apply list_elem_of_lookup_2, Hnew in H1.
    + apply (ok_disjoint _ _ _ _ Hok i j); [congruence|done..].
Qed.

(** A store into a new block leaves the old ones as they were. *)
Lemma store_extends heap mid p (n : Z) mem :
  extends heap mid ->
  (forall q m, blocks heap !! q = Some m -> disjoint_regions p n q m) ->
  (forall q, ~ (p <= q < p + n) -> mem !! q = memory mid !! q) ->
  extends heap {| blocks := blocks mid; memory := mem |}.
Proof.
  intros [Hb Hm] Hd Hmem. split; [done|]. cbn. intros q Hq. rewrite <-Hm by done. apply Hmem.
  destruct Hq as (addr & m & Ha & ? & ?). specialize (Hd addr m Ha). unfold disjoint_regions in Hd. lia.
Qed.

(** A new block in front of the list. *)
Lemma chain_cons heap heap' head bs b :
  chain heap head bs -> 0 <= head < 2 ^ 63 -> heap_ok heap -> extends heap heap' ->
  blocks heap' !! block_addr b = Some (block_size b) -> sizeof_Block <= block_size b ->
  stored (memory heap') (block_addr b) (to_bytes (head : pointer)) ->
  chain heap' (block_addr b) (b :: bs).
Proof.
  intros Hc Hhead Hok He Hb Hs Hst. split_and!; [done..|]. exists head. split_and!; [cbn; lia|done|].
  eapply chain_frame; [exact Hc| |].
  - intros b' Hb'. pose proof (chain_live _ _ _ _ Hc Hb') as Hl. rewrite Hl.
    eapply lookup_weaken; [exact Hl|apply He].
  - intros b' q Hb' Hq. apply He. eapply accessible_intro; [by eapply chain_live|lia|].
    pose proof (chain_size _ _ _ _ Hc Hb'). lia.
Qed.

(** A new block that is large enough: its payload becomes the free part. *)
Lemma create_block_ok heap a bs regs size al :
  arena_ok heap a bs regs -> 0 <= size < 2 ^ 62 -> small_alignment al ->
  match create_block size al (heap, a) with
  | Done _ (heap', a') => exists b,
      arena_ok heap' a' (b :: bs) regs /\ extends heap heap' /\
      0 < next_ptr_ a' /\ next_ptr_ a' mod al = 0 /\ size <= remaining_size_ a' /\
      (forall region, region ∈ regs -> ~ inside region b)
  | Aborted => exists n, choose_address heap n = None
  | _ => False
  end.
Proof.
  intros Hok Hsize Hal. pose proof (small_alignment_range al Hal) as Halr.
  pose proof (ok_next_size _ _ _ _ Hok) as Hnext. pose proof (ok_heap _ _ _ _ Hok) as Hheap.
  unfold create_block. change sizeof_Block with 8.
  unfold bind, this_arena, read, on_heap. cbn [snd].
  replace (u64 (size + 8)) with (size + 8) by (symmetry; apply Z.mod_small; lia).
  set (n := Z.max (next_block_size_ a) (size + 8)).
  pose proof (operator_new_ok n heap Hheap ltac:(lia)) as Hnew.
  destruct (operator_new n heap) as [addr mid| | |]; try done; [|by exists n].
  destruct Hnew as (Hmid & He & Hno & Hblocks & Hmod & Hpos & Hend & Hd).
  destruct (store_run (T := Block) addr (head_block_ a) mid) as (mem & -> & Hst & Hmem).
  { eapply (accessible_intro _ _ _ addr n); [rewrite Hblocks; apply lookup_insert_eq|lia|cbn; lia]. }
  rewrite (align_aligned al size (addr + 8) (n - 8)); [|done|by apply (aligned_payload addr)|lia|lia].
  unfold set_arena, modify. exists {| block_addr := addr; block_size := n |}.
  set (heap' := {| blocks := blocks mid; memory := mem |}).
  assert (He' : extends heap heap').
  { apply (store_extends heap mid addr n); [done..|]. intros q Hq. apply Hmem. cbn. lia. }
  assert (Hfresh : forall region, region ∈ regs -> ~ inside region {| block_addr := addr; block_size := n |}).
  { intros region Hr Hins'. destruct (ok_regions _ _ _ _ Hok region Hr) as (b & Hb & Hins & _).
    pose proof (Hd _ _ (chain_live _ _ _ _ (ok_chain _ _ _ _ Hok) Hb)) as Hdb.
    unfold disjoint_regions, inside in *. change sizeof_Block with 8 in *. cbn in *. lia. }
  split_and!; [|done|cbn; lia|cbn; by apply (aligned_payload addr)|cbn; lia|done].
  split; cbn [next_ptr_ remaining_size_ next_block_size_ head_block_].
  - split; cbn; apply Hmid.
  - apply (chain_cons heap heap' (head_block_ a) bs {| block_addr := addr; block_size := n |});
      [apply Hok|by eapply chain_head; [apply Hok|]|done|done|cbn; rewrite Hblocks; apply lookup_insert_eq| |done].
    change sizeof_Block with 8. cbn. lia.
  - cbn. constructor; [|apply Hok]. intros (b & Heq & Hb)%list_elem_of_fmap. cbn in Heq. subst addr.
    rewrite (chain_live _ _ _ _ (ok_chain _ _ _ _ Hok) Hb) in Hno. done.
  - right. eexists _, bs. change sizeof_Block with 8. split_and!; [done|cbn; lia..].
  - unfold u64. apply Z.mod_pos_bound. lia.
  - intros region Hr. destruct (ok_regions _ _ _ _ Hok region Hr) as (b & Hb & Hins & _).
    exists b. split; [by right|]. split; [done|]. intros [= Heq] _. subst b. by destruct (Hfresh region Hr).
  - apply Hok.
Qed.

(** The main lemma: [allocate] gives an aligned new region and keeps what is in
    memory, or fails with the heap. *)
Definition allocated (heap : Heap) (bs : list OwnedBlock) (regs : list (Z * Z)) (size al : Z)
    (o : Outcome (Heap * MemoryArena) Z) : Prop :=
  match o with
  | Done ptr (heap', a') =>
      0 < ptr /\ ptr mod al = 0 /\ extends heap heap' /\
      exists new, arena_ok heap' a' (new ++ bs) ((ptr, size) :: regs)
  | Aborted => exists n, choose_address heap n = None
  | _ => False
  end.

Lemma allocate_in_new_block heap a bs regs size al :
  arena_ok heap a bs regs -> 0 <= size < 2 ^ 62 -> small_alignment al ->
  allocated heap bs regs size al
    (bind (create_block size al) (fun _ => a <- this_arena ;; bump (next_ptr_ a) size) (heap, a)).
Proof.
  intros Hok Hsize Hal. pose proof (create_block_ok heap a bs regs size al Hok Hsize Hal) as Hc. unfold bind.
  destruct (create_block size al (heap, a)) as [[] [heap' a']| | |]; try done.
  destruct Hc as (b & Hok' & He & Hpos & Hmod & Hroom & Hfresh). cbn. split_and!; [done..|]. exists [b].
  destruct (ok_free _ _ _ _ Hok') as [[? _]|(b' & rest & [= <- <-] & Hlow & Hend & _)]; [lia|].
  apply bump_ok; [done|lia|]. exists b, bs. split_and!; [done|lia|lia|].
  intros region Hr Hins. by destruct (Hfresh region Hr).
Qed.

Lemma allocate_ok heap a bs regs size al :
  arena_ok heap a bs regs -> 0 <= size < 2 ^ 62 -> small_alignment al ->
  allocated heap bs regs size al (allocate size al (heap, a)).
Proof.
  intros Hok Hsize Hal. pose proof (small_alignment_range al Hal) as Halr.
  pose proof (allocate_in_new_block heap a bs regs size al Hok Hsize Hal) as Hnew.
  unfold allocate. unfold bind at 1, align_next, bind at 1, this_arena, read at 1. cbn [snd].
  destruct (align al size (next_ptr_ a) (remaining_size_ a)) as [[ptr space]|] eqn:Halign; [|exact Hnew].
  unfold bind at 1, set_arena, modify, ret at 1.
  destruct (ok_free _ _ _ _ Hok) as [[Hnull Hrem]|(b & rest & Hhead & Hlow & Hend & Hrem)].
  - rewrite Hnull, Hrem in Halign.
    assert (ptr = 0 /\ space = 0) as [-> ->].
    { apply align_some in Halign; [|done|lia|lia|lia]. destruct Halign as (? & Hmod & ? & ?). zlia. }
    cbn [Z.eqb]. replace {| next_ptr_ := 0; remaining_size_ := 0; next_block_size_ := next_block_size_ a;
      head_block_ := head_block_ a; total_size_ := total_size_ a |} with a; [exact Hnew|].
    destruct a; cbn in *; by subst.
  - destruct (owned_range _ _ _ _ b Hok ltac:(rewrite Hhead; left)) as (Hb1 & Hb2 & Hb3).
    change sizeof_Block with 8 in *. apply align_some in Halign; [|done|lia|lia|lia].
    destruct Halign as (Hge & Hmod & Hsum & Hroom).
    destruct (Z.eqb_spec ptr 0); [lia|]. cbn. split_and!; [lia|done|reflexivity|]. exists [].
    apply (bump_ok heap a bs regs ptr size space Hok); [lia|].
    exists b, rest. change sizeof_Block with 8. split_and!; [done|lia|lia|].
    intros region Hr Hins. destruct (ok_regions _ _ _ _ Hok region Hr) as (b' & Hb' & Hins' & Hbehind).
    rewrite Hhead in Hbehind. destruct (decide (b' = b)) as [->|Hne].
    + specialize (Hbehind eq_refl ltac:(lia)). lia.
    + pose proof (owned_disjoint _ _ _ _ b' b Hok Hb' ltac:(rewrite Hhead; left) Hne) as Hd.
      unfold disjoint_regions, inside in *. change sizeof_Block with 8 in *. lia.
Qed.

End Facts.

(** * Release *)

(** The blocks of a list, deleted. *)
Definition without (bs : list OwnedBlock) (heap : Heap) : Heap :=
  {| blocks := filter (fun b => b.1 ∉ map block_addr bs) (blocks heap); memory := memory heap |}.

Lemma without_lookup bs heap p :
  blocks (without bs heap) !! p = if bool_decide (p ∈ map block_addr bs) then None else blocks heap !! p.
Proof.
  cbn. rewrite map_lookup_filter. destruct (blocks heap !! p) as [n|]; cbn.
  - case_bool_decide as Hp; [by rewrite option_guard_False by tauto|by rewrite option_guard_True].
  - by case_bool_decide.
Qed.

Lemma release_step_block b bs heap :
  chain heap (block_addr b) (b :: bs) -> 0 < block_addr b ->
  exists next, chain heap next bs /\
    release_step (block_addr b) heap =
    Done (Continue next) {| blocks := delete (block_addr b) (blocks heap); memory := memory heap |}.
Proof.
  intros (_ & Hb & Hs & next & Hrep & Hst & Hnext) Hpos. exists next. split; [done|].
  unfold release_step, sizeof_Block in *. destruct (Z.eqb_spec (block_addr b) 0); [lia|]. unfold bind.
  rewrite (load_stored (T := Block) (block_addr b) next heap Hrep); [|by eapply accessible_intro; [exact Hb|lia..]|done].
  unfold operator_delete. destruct (Z.eqb_spec (block_addr b) 0); [lia|]. by rewrite Hb.
Qed.

Lemma release_loop bs :
  forall heap p fuel,
    chain heap p bs -> NoDup (map block_addr bs) -> Forall (fun b => 0 < block_addr b) bs ->
    (length bs < fuel)%nat ->
    loop_fuel fuel release_step p heap = Done tt (without bs heap).
Proof.
  induction bs as [|b bs IH]; intros heap p [|fuel] Hc Hnd Hpos Hfuel; cbn in Hfuel; [lia| |lia|].
  - cbn in Hc. subst p. cbn. unfold without. destruct heap. f_equal. f_equal. cbn.
    symmetry. apply map_filter_id. intros i x _. by apply not_elem_of_nil.
  - inversion Hpos as [|? ? Hb Hpos']. subst. inversion Hnd as [|? ? Hnotin Hnd']. subst.
    pose proof Hc as (Hp & _). subst p. destruct (release_step_block b bs heap Hc Hb) as (next & Hnext & Hstep).
    cbn [loop_fuel]. unfold bind. rewrite Hstep. rewrite IH; [| |done|done|lia].
    + f_equal. unfold without. cbn. f_equal. apply map_eq. intros i.
      rewrite !map_lookup_filter. destruct (decide (i = block_addr b)) as [->|Hne].
      * rewrite lookup_delete_eq. cbn. destruct (blocks heap !! block_addr b); cbn; [|done].
        rewrite option_guard_False; [done|]. intros Hn. apply Hn. left.
      * rewrite lookup_delete_ne by done. destruct (blocks heap !! i); cbn; [|done].
        apply option_guard_iff. rewrite not_elem_of_cons. naive_solver.
    + eapply chain_frame; [exact Hnext| |done]. cbn. intros b' Hb'. apply lookup_delete_ne.
      intros Heq. apply Hnotin. rewrite Heq. by apply list_elem_of_fmap_2.
Qed.

(** The list has no more blocks than the heap. *)
Lemma chain_length heap p bs : chain heap p bs -> NoDup (map block_addr bs) -> (length bs <= size (blocks heap))%nat.
Proof.
  intros Hc Hnd. rewrite <-(length_map block_addr), <-(size_list_to_set (C := gset Z) _ Hnd), <-size_dom.
  apply subseteq_size. intros q (b & -> & Hb)%elem_of_list_to_set%list_elem_of_fmap.
  apply elem_of_dom. exists (block_size b). by eapply chain_live.
Qed.

(** [release] deletes the arena's blocks and no others, and keeps all members but
    the list and the total size. *)
Lemma release_run heap a bs regs :
  arena_ok heap a bs regs ->
  release (heap, a) = Done tt (without bs heap,
    {| next_ptr_ := next_ptr_ a; remaining_size_ := remaining_size_ a;
       next_block_size_ := next_block_size_ a; head_block_ := 0; total_size_ := 0 |}).
Proof.
  intros Hok. unfold release, bind, this_arena, read, on_heap, loop. cbn [snd].
  rewrite (release_loop bs heap (head_block_ a)); [done|apply Hok|apply Hok| |].
  - apply Forall_forall. intros b Hb. by destruct (owned_range _ _ _ _ b Hok Hb).
  - pose proof (chain_length heap (head_block_ a) bs (ok_chain _ _ _ _ Hok) (ok_nodup _ _ _ _ Hok)). lia.
Qed.

(** * Objects *)

(** The regions keep their bytes. *)
Definition keeps (heap heap' : Heap) (regs : list (Z * Z)) : Prop :=
  blocks heap ⊆ blocks heap' /\
  forall r q, r ∈ regs -> fst r <= q < fst r + snd r -> memory heap' !! q = memory heap !! q.

Lemma extends_keeps heap heap' a bs regs : arena_ok heap a bs regs -> extends heap heap' -> keeps heap heap' regs.
Proof.
  intros Hok He. split; [apply He|]. intros [p n] q Hr Hq. apply He.
  eapply accessible_part; [by eapply region_accessible|cbn in Hq; lia..].
Qed.

Lemma keeps_trans h1 h2 h3 regs1 regs2 :
  keeps h1 h2 regs1 -> keeps h2 h3 regs2 -> (forall r, r ∈ regs1 -> r ∈ regs2) -> keeps h1 h3 regs1.
Proof.
  intros [Hb1 Hm1] [Hb2 Hm2] Hsub. split; [by etrans|]. intros r q Hr Hq. rewrite (Hm2 r q) by auto. by apply (Hm1 r).
Qed.

(** The newest region does not overlap with the others. *)
Lemma newest_disjoint heap a bs r regs r' :
  arena_ok heap a bs (r :: regs) -> r' ∈ regs -> disjoint_regions (fst r) (snd r) (fst r') (snd r').
Proof.
  intros Hok [j Hj]%list_elem_of_lookup. by apply (ok_disjoint _ _ _ _ Hok 0%nat (S j) r r').
Qed.

Section Objects.
Context `{AllocatorLaws} {T : Type} `{TrivialLaws T}.

Lemma load_keeps heap heap' a bs regs p (v : T) :
  arena_ok heap a bs regs -> keeps heap heap' regs -> (p, size_of T) ∈ regs ->
  load p heap = Done v heap -> load p heap' = Done v heap'.
Proof.
  intros Hok [Hb Hm] Hr Hl. apply (load_same p p heap heap'); [| |done].
  - intros i Hi. apply (Hm (p, size_of T)); [done|cbn; lia].
  - destruct (region_accessible _ _ _ _ _ _ Hok Hr) as (addr & size & Ha & ? & ?).
    eapply accessible_intro; [by eapply lookup_weaken|done..].
Qed.

(** [create] puts the object into a new region. *)
Lemma create_ok heap a bs regs (v : T) :
  arena_ok heap a bs regs -> representable v -> size_of T < 2 ^ 62 -> small_alignment (align_of T) ->
  match create v (heap, a) with
  | Done p (heap', a') =>
      0 < p /\ p mod align_of T = 0 /\ load p heap' = Done v heap' /\ keeps heap heap' regs /\
      exists new, arena_ok heap' a' (new ++ bs) ((p, size_of T) :: regs)
  | Aborted => exists n, choose_address heap n = None
  | _ => False
  end.
Proof.
  intros Hok Hv Hsize Hal. pose proof (size_of_positive (T := T)) as Hpos.
  assert (Hrange : 0 <= size_of T < 2 ^ 62) by lia.
  pose proof (allocate_ok heap a bs regs (size_of T) (align_of T) Hok Hrange Hal) as Ha.
  unfold create, bind. destruct (allocate _ _ (heap, a)) as [p [mid a']| | |]; try done.
  destruct Ha as (Hp & Hmod & He & new & Hok').
  assert (Hacc : accessible mid p (size_of T)) by (eapply region_accessible; [exact Hok'|left]).
  destruct (store_run p v mid Hacc) as (mem & Hstore & Hst & Hmem). unfold on_heap. rewrite Hstore. unfold ret.
  set (heap' := {| blocks := blocks mid; memory := mem |}).
  assert (Hok2 : arena_ok heap' a' (new ++ bs) ((p, size_of T) :: regs)).
  { by apply (store_in_region mid a' (new ++ bs) _ p (size_of T) mem); [done|left|]. }
  split_and!; [done..| | |by exists new].
  - by apply load_stored.
  - destruct (extends_keeps heap mid a bs regs Hok He) as [Hb Hm]. split; [done|]. intros r q Hr Hq.
    cbn. rewrite Hmem; [by apply (Hm r)|].
    pose proof (newest_disjoint _ _ _ _ _ r Hok' Hr) as Hd. unfold disjoint_regions in Hd. cbn in Hd. lia.
Qed.

(** ** Arrays *)

(** The array's storage is a region handed out by the arena, with room for its
    capacity, and its elements fit. *)
Definition array_ok (array : ArenaArray T) (regs : list (Z * Z)) : Prop :=
  0 <= count_ array <= capacity_ array /\ capacity_ array < 2 ^ 31 /\
  (capacity_ array = 0 \/ (data_ array, capacity_ array * size_of T) ∈ regs).

Lemma array_elements_eq (array : ArenaArray T) :
  array_elements array = load_elements (Z.to_nat (count_ array)) (data_ array).
Proof.
  unfold array_elements, array_end, array_begin. pose proof (size_of_positive (T := T)).
  by replace (data_ array + count_ array * size_of T - data_ array) with (count_ array * size_of T) by lia;
    rewrite Z.div_mul by lia.
Qed.

(** The elements of a region stay readable when the regions keep their bytes. *)
Lemma load_elements_keeps heap heap' a bs regs (array : ArenaArray T) vs :
  arena_ok heap a bs regs -> keeps heap heap' regs -> 0 <= count_ array <= capacity_ array ->
  (data_ array, capacity_ array * size_of T) ∈ regs ->
  load_elements (Z.to_nat (count_ array)) (data_ array) heap = Done vs heap ->
  load_elements (Z.to_nat (count_ array)) (data_ array) heap' = Done vs heap'.
Proof.
  intros Hok [Hb Hm] Hcount Hr Hvs. pose proof (size_of_positive (T := T)) as Hpos.
  apply (load_elements_same _ (data_ array) (data_ array) heap); [| |done].
  - intros i Hi. apply (Hm _ _ Hr). cbn. nia.
  - destruct (region_accessible _ _ _ _ _ _ Hok Hr) as (addr & size & Ha & ? & ?).
    eapply accessible_intro; [by eapply lookup_weaken|done|nia].
Qed.

(** New storage with the old elements in it. *)
Lemma grow_ok heap a bs regs (array : ArenaArray T) vs storage n :
  arena_ok heap a bs ((storage, n) :: regs) -> 0 <= count_ array -> count_ array * size_of T <= n ->
  (count_ array = 0 \/ (data_ array, count_ array * size_of T) ∈ regs) ->
  load_elements (Z.to_nat (count_ array)) (data_ array) heap = Done vs heap ->
  exists mem, let heap' := {| blocks := blocks heap; memory := mem |} in
    memcpy storage (data_ array) (count_ array * size_of T) heap = Done tt heap' /\
    arena_ok heap' a bs ((storage, n) :: regs) /\ keeps heap heap' regs /\
    load_elements (Z.to_nat (count_ array)) storage heap' = Done vs heap'.
Proof.
  intros Hok Hc Hn Hdata Hvs. pose proof (size_of_positive (T := T)) as Hpos.
  assert (Hacc : accessible heap storage (count_ array * size_of T)).
  { eapply accessible_part; [eapply region_accessible; [exact Hok|left]|lia..]. }
  destruct (memcpy_run storage (data_ array) (count_ array * size_of T) heap) as (mem & Hrun & Hin & Hout); [nia| |].
  { destruct Hdata as [->|Hr]; [by left|right]. split_and!; [|done|].
    - eapply region_accessible; [exact Hok|by right].
    - pose proof (newest_disjoint _ _ _ _ _ _ Hok Hr) as Hd. unfold disjoint_regions in *. cbn in Hd. lia. }
  exists mem. split_and!; [exact Hrun| | |].
  - apply (store_in_region heap a bs _ storage n mem Hok); [left|]. intros q Hq. apply Hout. lia.
  - split; [done|]. intros r q Hr Hq. apply Hout. pose proof (newest_disjoint _ _ _ _ _ _ Hok Hr) as Hd.
    unfold disjoint_regions in Hd. cbn in Hd. lia.
  - apply (load_elements_same _ (data_ array) storage heap); [|rewrite Z2Nat.id by lia; exact Hacc|exact Hvs].
    intros i Hi. rewrite Z2Nat.id in Hi by lia. by apply Hin.
Qed.

(** A value stored behind the elements. *)
Lemma put_last_ok heap a bs regs data count capacity vs (v : T) :
  arena_ok heap a bs regs -> (data, capacity * size_of T) ∈ regs -> 0 <= count < capacity -> representable v ->
  load_elements (Z.to_nat count) data heap = Done vs heap ->
  exists mem, let heap' := {| blocks := blocks heap; memory := mem |} in
    store (data + count * size_of T) v heap = Done tt heap' /\
    arena_ok heap' a bs regs /\
    (forall q, ~ (data <= q < data + capacity * size_of T) -> mem !! q = memory heap !! q) /\
    load_elements (Z.to_nat (count + 1)) data heap' = Done (vs ++ [v]) heap'.
Proof.
  intros Hok Hr Hcount Hv Hvs. pose proof (size_of_positive (T := T)) as Hpos.
  pose proof (region_accessible _ _ _ _ _ _ Hok Hr) as Hacc.
  assert (Hslot : accessible heap (data + count * size_of T) (size_of T)).
  { eapply accessible_part; [exact Hacc|nia..]. }
  destruct (store_run _ v heap Hslot) as (mem & Hrun & Hst & Hmem). exists mem.
  assert (Hout : forall q, ~ (data <= q < data + capacity * size_of T) -> mem !! q = memory heap !! q).
  { intros q Hq. apply Hmem. nia. }
  split_and!; [exact Hrun|by eapply store_in_region|done|].
  rewrite Z2Nat.inj_add, Nat.add_1_r by lia. apply load_elements_snoc.
  - apply (load_elements_same _ data data heap); [|eapply accessible_part; [exact Hacc|lia|nia]|exact Hvs].
    intros i Hi. apply Hmem. nia.
  - rewrite Z2Nat.id by lia. by apply load_stored.
Qed.

End Objects.
