(* ===== verification/ArenaTheorems.v ===== *)
(** The theorems about arenas, with a concrete heap for their examples. *)

From stdpp Require Import gmap.
From S2P Require Import Prelude Memory Arena ArenaFacts.

(** * A concrete heap *)

(** The first address behind all blocks, rounded up to 16. *)
Fixpoint heap_end (bs : list (Z * Z)) : Z :=
  match bs with
  | [] => 16
  | b :: bs => Z.max (fst b + snd b) (heap_end bs)
  end.

Definition round16 (z : Z) : Z := (z + 15) / 16 * 16.

Definition simple_new (heap : Heap) (size : Z) : option Z :=
  let addr := round16 (heap_end (map_to_list (blocks heap))) in
  if addr + size <? 2 ^ 63 then Some addr else None.

Definition simple_allocator : Allocator := simple_new.

Lemma heap_end_bound bs b : b ∈ bs -> fst b + snd b <= heap_end bs.
Proof.
  induction bs as [|c bs IH]; [by intros ?%elem_of_nil|].
  intros [->|Hb]%elem_of_cons; cbn [heap_end]; [lia|]. specialize (IH Hb). lia.
Qed.

Lemma heap_end_positive bs : 16 <= heap_end bs.
Proof. induction bs; cbn [heap_end]; lia. Qed.

Lemma simple_allocator_laws : @AllocatorLaws simple_allocator.
Proof.
  split; intros heap size addr; unfold choose_address, simple_allocator, simple_new, round16;
    set (top := heap_end (map_to_list (blocks heap))); pose proof (heap_end_positive (map_to_list (blocks heap))).
  - intros p n. destruct (_ <? _); [|done]. intros [= <-] Hb%elem_of_map_to_list.
    pose proof (heap_end_bound _ _ Hb) as Hle. cbn [fst snd] in Hle. right. fold top in Hle. zlia.
  - destruct (Z.ltb_spec ((top + 15) / 16 * 16 + size) (2 ^ 63)); [|done]. intros [= <-].
    fold top in H. split; [zlia|done].
  - destruct (_ <? _); [|done]. intros [= <-]. zlia.
Qed.

(** Five objects are put into an array and read back: its storage has grown once. *)
Example put_five :
  let put := @array_put simple_allocator pointer _ in
  match bind (put new_array 10) (fun l => bind (put l 20) (fun l => bind (put l 30) (fun l =>
        bind (put l 40) (fun l => put l 50)))) (empty_heap, new_arena 64) with
  | Done l (heap, a) =>
      match array_elements l heap with Done vs _ => vs = [10; 20; 30; 40; 50] | _ => False end /\
      count_ l = 5 /\ capacity_ l = 6
  | _ => False
  end.
Proof. vm_compute. split_and!; reflexivity. Qed.

(** * Allocation *)

(** A sequence of requests, each a size and an alignment: the regions that the
    calls of [allocate] return, the newest first. *)
Fixpoint allocate_all `{Allocator} (requests : list (Z * Z)) (regs : list (Z * Z)) : A (list (Z * Z)) :=
  match requests with
  | [] => ret regs
  | (size, alignment) :: requests =>
      ptr <- allocate size alignment ;;
      allocate_all requests ((ptr, size) :: regs)
  end.

(** The sizes and alignments that the theorems cover. *)
Definition good_request (request : Z * Z) : Prop := 0 <= fst request < 2 ^ 62 /\ small_alignment (snd request).

Lemma allocate_all_ok `{AllocatorLaws} requests heap a bs regs :
  Forall good_request requests -> arena_ok heap a bs regs ->
  match allocate_all requests regs (heap, a) with
  | Done regs' (heap', a') =>
      length regs' = (length requests + length regs)%nat /\ exists bs', arena_ok heap' a' bs' regs'
  | Aborted => exists heap n, choose_address heap n = None
  | _ => False
  end.
Proof.
  intros Hreq. revert heap a bs regs. induction Hreq as [|[size al] requests [Hs Hal] _ IH]; intros heap a bs regs Hok.
  { cbn. eauto. }
  cbn [allocate_all]. pose proof (allocate_ok heap a bs regs size al Hok Hs Hal) as Ha. unfold bind.
  destruct (allocate size al (heap, a)) as [ptr [heap' a']| | |]; try done; [|destruct Ha; eauto].
  destruct Ha as (_ & _ & _ & new & Hok'). specialize (IH heap' a' _ _ Hok').
  destruct (allocate_all requests _ (heap', a')) as [regs' [heap2 a2]| | |]; try done.
  destruct IH as [Hl ?]. split; [|done]. rewrite Hl. cbn. lia.
Qed.

(** C19. An arena that serves a sequence of allocations, each of a size below 2^62
    and with one of the alignments 1, 2, 4 and 8 (those up to the alignment of the
    block header, which are all that the syntax tree needs; a larger alignment can
    give a null pointer), returns or the heap is exhausted, and the regions that it
    has handed out lie in the payloads of the allocated blocks on its list and do
    not overlap. *)
Theorem arena_regions_disjoint : forall `{AllocatorLaws} requests heap0 initial_size,
  heap_ok heap0 -> Forall good_request requests -> 0 <= initial_size < 2 ^ 64 ->
  match allocate_all requests [] (heap0, new_arena initial_size) with
  | Done regs (heap, a) =>
      length regs = length requests /\
      (exists bs, chain heap (head_block_ a) bs /\ forall region, region ∈ regs ->
         exists b, b ∈ bs /\ blocks heap !! block_addr b = Some (block_size b) /\ inside region b) /\
      (forall i j r1 r2, i <> j -> regs !! i = Some r1 -> regs !! j = Some r2 ->
         disjoint_regions (fst r1) (snd r1) (fst r2) (snd r2))
  | Aborted => exists heap n, choose_address heap n = None
  | _ => False
  end.
Proof.
  intros alloc laws requests heap0 initial_size Hheap Hreq Hsize.
  pose proof (allocate_all_ok requests heap0 _ [] [] Hreq (new_arena_ok initial_size heap0 Hsize Hheap)) as Hall.
  destruct (allocate_all requests [] _) as [regs [heap a]| | |]; try done.
  destruct Hall as [Hl (bs & Hok)]. cbn in Hl. split; [lia|]. split; [|apply (ok_disjoint _ _ _ _ Hok)].
  exists bs. split; [apply Hok|]. intros region Hr.
  destruct (ok_regions _ _ _ _ Hok region Hr) as (b & Hb & Hins & _).
  exists b. split; [done|]. split; [|done]. by eapply chain_live; [apply Hok|].
Qed.

Lemma arena_regions_disjoint_witness :
  let requests := [(24, 8); (1, 1); (2000, 4)] in
  Forall good_request requests /\
  match @allocate_all simple_allocator requests [] (empty_heap, new_arena 64) with
  | Done regs (heap, a) =>
      length regs = length requests /\
      (exists bs, chain heap (head_block_ a) bs /\ forall region, region ∈ regs ->
         exists b, b ∈ bs /\ blocks heap !! block_addr b = Some (block_size b) /\ inside region b) /\
      (forall i j r1 r2, i <> j -> regs !! i = Some r1 -> regs !! j = Some r2 ->
         disjoint_regions (fst r1) (snd r1) (fst r2) (snd r2))
  | Aborted => exists heap n, @choose_address simple_allocator heap n = None
  | _ => False
  end.
Proof.
  assert (Hreq : Forall good_request [(24, 8); (1, 1); (2000, 4)]).
  { repeat constructor; cbn; unfold small_alignment; lia. }
  split; [exact Hreq|].
  apply (@arena_regions_disjoint simple_allocator simple_allocator_laws _ empty_heap 64 empty_heap_ok Hreq). lia.
Defined.


Lemma empty_arena_ok : arena_ok empty_heap (new_arena initial_block_size) [] [].
Proof. by apply new_arena_ok; [|apply empty_heap_ok]. Qed.


(** * Objects *)

(** Objects created one after the other: their addresses. *)
Fixpoint create_all `{Allocator} {T} `{Trivial T} (values : list T) : A (list Z) :=
  match values with
  | [] => ret []
  | v :: values =>
      p <- create v ;;
      ps <- create_all values ;;
      ret (p :: ps)
  end.

Lemma create_all_ok `{AllocatorLaws} {T} `{TrivialLaws T} (values : list T) heap a bs regs :
  Forall representable values -> size_of T < 2 ^ 62 -> small_alignment (align_of T) -> arena_ok heap a bs regs ->
  match create_all values (heap, a) with
  | Done ps (heap', a') =>
      keeps heap heap' regs /\
      Forall2 (fun p v => 0 < p /\ p mod align_of T = 0 /\ load p heap' = Done v heap') ps values
  | Aborted => exists heap n, choose_address heap n = None
  | _ => False
  end.
Proof.
  intros Hvs Hsize Hal. revert heap a bs regs. induction Hvs as [|v values Hv _ IH]; intros heap a bs regs Hok.
  { cbn. split; [by split|constructor]. }
  cbn [create_all]. pose proof (create_ok heap a bs regs v Hok Hv Hsize Hal) as Hc. unfold bind.
  destruct (create v (heap, a)) as [p [mid a1]| | |]; try done; [|destruct Hc; eauto].
  destruct Hc as (Hp & Hmod & Hload & Hkeep & new & Hok1). specialize (IH mid a1 _ _ Hok1).
  destruct (create_all values (mid, a1)) as [ps [heap' a']| | |]; try done.
  destruct IH as [Hkeep' Hps]. unfold ret. split.
  - eapply keeps_trans; [exact Hkeep|exact Hkeep'|]. intros r Hr. by right.
  - constructor; [|done]. split_and!; [done..|].
    eapply load_keeps; [exact Hok1|exact Hkeep'|left|done].
Qed.


Definition example_pointers : list pointer := [3; 2 ^ 40; 2 ^ 64 - 1].


(** * Release *)

(** C39. [release] walks the list of blocks in memory to its end, deletes exactly the
    arena's blocks, each once, and leaves the other blocks and all bytes of them
    alone; the arena owns nothing afterwards. *)
Theorem release_frees_all_blocks : forall heap a bs regs,
  arena_ok heap a bs regs ->
  exists heap' a',
    release (heap, a) = Done tt (heap', a') /\
    (forall p, blocks heap' !! p = if bool_decide (p ∈ map block_addr bs) then None else blocks heap !! p) /\
    memory heap' = memory heap /\ head_block_ a' = 0 /\ get_total_size a' = 0 /\ chain heap' (head_block_ a') [].
Proof.
  intros heap a bs regs Hok. eexists _, _. split; [by eapply release_run|]. split; [|done].
  intros p. apply without_lookup.
Qed.

(** A heap with a block of an arena that has handed out a region of 40 bytes, and with
    a block of another owner. *)
Definition used_heap : Heap :=
  {| blocks := {[16 := 1024; 2048 := 64]}; memory := write_bytes ∅ 16 (map Some (to_bytes (0 : pointer))) |}.
Definition used_arena : MemoryArena :=
  {| next_ptr_ := 64; remaining_size_ := 976; next_block_size_ := 1536; head_block_ := 16; total_size_ := 1024 |}.
Definition used_blocks : list OwnedBlock := [{| block_addr := 16; block_size := 1024 |}].

Lemma used_block_cases p n : blocks used_heap !! p = Some n -> p = 16 /\ n = 1024 \/ p = 2048 /\ n = 64.
Proof. cbn. intros [[<- <-]|[_ Hs]]%lookup_insert_Some; [by left|]. apply lookup_singleton_Some in Hs as [<- <-]. by right. Qed.

Lemma used_arena_ok : arena_ok used_heap used_arena used_blocks [(24, 40)].
Proof.
  split.
  - split.
    + intros p n [[-> ->]|[-> ->]]%used_block_cases; lia.
    + intros p n q m [[-> ->]|[-> ->]]%used_block_cases [[-> ->]|[-> ->]]%used_block_cases Hne;
        unfold disjoint_regions; lia.
  - cbn [chain used_blocks]. split_and!; [done|reflexivity|vm_compute; discriminate|].
    exists (0 : pointer). split_and!; [cbn; lia| |done].
    intros i b Hi. do 8 (destruct i as [|i]; [cbn in Hi; injection Hi as <-; reflexivity|]). done.
  - cbn. constructor; [by intros ?%elem_of_nil|constructor].
  - right. eexists _, []. change sizeof_Block with 8. split_and!; [reflexivity|cbn; lia..].
  - cbn. lia.
  - intros region ->%list_elem_of_singleton. eexists. split; [left|]. unfold inside. change sizeof_Block with 8. cbn. lia.
  - intros [|i] [|j] r1 r2 Hne H1 H2; done.
Qed.

Lemma release_frees_all_blocks_witness :
  arena_ok used_heap used_arena used_blocks [(24, 40)] /\
  exists heap' a',
    release (used_heap, used_arena) = Done tt (heap', a') /\
    (forall p, blocks heap' !! p =
       if bool_decide (p ∈ map block_addr used_blocks) then None else blocks used_heap !! p) /\
    memory heap' = memory used_heap /\ head_block_ a' = 0 /\ get_total_size a' = 0 /\ chain heap' (head_block_ a') [].
Proof.
  split; [exact used_arena_ok|].
  exact (release_frees_all_blocks used_heap used_arena used_blocks [(24, 40)] used_arena_ok).
Defined.

(** C40. [release] keeps [next_ptr_] and [remaining_size_]: if the newest block had
    room for a size (below 2^62, with an alignment of 1, 2, 4 or 8), the next
    [allocate] returns a pointer into that block, which has been given back: the
    memory at the pointer may not be accessed any more. *)
Theorem allocate_after_release_dangles : forall `{Allocator} heap a bs regs size alignment ptr space,
  arena_ok heap a bs regs -> 0 < size < 2 ^ 62 -> small_alignment alignment ->
  align alignment size (next_ptr_ a) (remaining_size_ a) = Some (ptr, space) ->
  exists heap' a',
    bind release (fun _ => allocate size alignment) (heap, a) = Done ptr (heap', a') /\
    (exists b, head bs = Some b /\ inside (ptr, size) b /\ blocks heap' !! block_addr b = None) /\
    ~ accessible heap' ptr size.
Proof.
  intros alloc heap a bs regs size alignment ptr space Hok Hsize Hal Halign.
  pose proof (small_alignment_range alignment Hal) as Halr.
  destruct (ok_free _ _ _ _ Hok) as [[Hnull Hrem]|(b & rest & Hbs & Hlow & Hend & Hrem)].
  { rewrite Hnull, Hrem in Halign. apply align_some in Halign; [|done|lia|lia|lia]. lia. }
  assert (Hin : b ∈ bs) by (rewrite Hbs; left).
  destruct (owned_range _ _ _ _ b Hok Hin) as (Hb1 & Hb2 & Hb3). change sizeof_Block with 8 in *.
  pose proof Halign as Hsome. apply align_some in Hsome as (Hge & _ & Hsum & Hroom); [|done|lia|lia|lia].
  exists (without bs heap). eexists. split.
  { unfold bind at 1. rewrite (release_run heap a bs regs Hok). unfold allocate, bind, align_next, bind, this_arena, read.
    cbn [snd next_ptr_ remaining_size_]. rewrite Halign. unfold set_arena, modify, bind, ret.
    destruct (Z.eqb_spec ptr 0); [lia|]. reflexivity. }
  assert (Hgone : forall b', b' ∈ bs -> blocks (without bs heap) !! block_addr b' = None).
  { intros b' Hb'. rewrite without_lookup, bool_decide_eq_true_2; [done|]. by apply list_elem_of_fmap_2. }
  split.
  - exists b. rewrite Hbs. split; [done|]. rewrite <-Hbs. split; [|by apply Hgone].
    unfold inside. change sizeof_Block with 8. cbn. lia.
  - intros (addr & n & Hlive & Ha1 & Ha2). rewrite without_lookup in Hlive. case_bool_decide as Hno; [done|].
    pose proof (chain_live _ _ _ _ (ok_chain _ _ _ _ Hok) Hin) as Hb.
    pose proof (heap_disjoint _ (ok_heap _ _ _ _ Hok) _ _ _ _ Hlive Hb) as Hd. unfold disjoint_regions in Hd.
    destruct Hd as [Hd|Hd]; [|lia..]. intros ->. apply Hno. by apply list_elem_of_fmap_2.
Qed.

Lemma allocate_after_release_dangles_witness :
  arena_ok used_heap used_arena used_blocks [(24, 40)] /\
  align 8 8 (next_ptr_ used_arena) (remaining_size_ used_arena) = Some (64, 976) /\
  exists heap' a',
    bind release (fun _ => @allocate simple_allocator 8 8) (used_heap, used_arena) = Done 64 (heap', a') /\
    (exists b, head used_blocks = Some b /\ inside (64, 8) b /\ blocks heap' !! block_addr b = None) /\
    ~ accessible heap' 64 8.
Proof.
  split; [exact used_arena_ok|]. split; [reflexivity|].
  apply (@allocate_after_release_dangles simple_allocator _ _ _ _ 8 8 64 976 used_arena_ok);
    [lia|unfold small_alignment; lia|reflexivity].
Defined.

(** A request with alignment 16 that is too large for the next block's planned
    size gets a block without room for the padding behind its header, and
    [allocate] returns a null pointer. *)
Example overaligned_allocation_is_null :
  match @allocate simple_allocator 2048 16 (empty_heap, new_arena initial_block_size) with
  | Done ptr _ => ptr = 0
  | _ => False
  end.
Proof. vm_compute. reflexivity. Qed.

(** * ArenaArray *)


