(* ===== verification/Ast.v ===== *)
(** The abstract syntax tree (src/cero/syntax/ast.hh, ast.cc) and its visitor
    (ast_visitor.hh). Nodes are values here; the memory they are created in is
    modelled in Arena.v. *)

From S2P Require Import Prelude Report Source Token.

(** * Enumerations *)

Module AstNodeKind.
Inductive t :=
| function_def
| function_parameter
| function_output
| ident_expr
| literal_expr
| block_expr
| return_expr
| unary_expr
| binary_expr
| call_expr.
End AstNodeKind.

Module AccessModifier.
Inductive t := none | private_ | public_.
End AccessModifier.

Module LiteralKind.
Inductive t := dec_int | hex_int | bin_int | oct_int | float_ | char_ | string.
End LiteralKind.

Module UnaryOperator.
Inductive t :=
| pre_increment
| pre_decrement
| post_increment
| post_decrement
| negate
| bit_not
| logic_not
| addr_of
| deref.

#[global] Instance eq_dec : EqDecision t.
Proof. solve_decision. Defined.
End UnaryOperator.

Module BinaryOperator.
Inductive t :=
| add
| sub
| mul
| div
| rem
| bit_and
| bit_or
| bit_xor
| shl
| shr
| logic_and
| logic_or
| eq
| neq
| less
| less_eq
| greater
| greater_eq
| assign
| add_assign
| sub_assign
| mul_assign
| div_assign
| rem_assign
| bit_and_assign
| bit_or_assign
| xor_assign
| shl_assign
| shr_assign
| logic_and_assign
| logic_or_assign.

#[global] Instance eq_dec : EqDecision t.
Proof. solve_decision. Defined.
End BinaryOperator.

(** * Names *)

Record AstName := {
  name_offset : Z;
  name_length : Z;
}.

(** The default member initialisers. *)
Definition empty_name : AstName := {| name_offset := 0; name_length := 0 |}.

(** [AstName::from]; [None] is the failed assertion. *)
Definition AstName_from (token : Token) : option AstName :=
  if TokenKind.eqb (kind token) TokenKind.identifier then
    Some {| name_offset := offset token; name_length := variable_length token |}
  else None.

(** [AstName::get] *)
Definition AstName_get (name : AstName) (source_text : text) : option text :=
  substr source_text (name_offset name) (name_length name).

(** [AstName::is_empty] *)
Definition AstName_is_empty (name : AstName) : bool := name_length name =? 0.

(** * Nodes *)

(** The offset stored by the constructor of [AstNode], in 24 bits. *)
Definition node_offset (offset : Z) : Z := Z.land offset 0xffffff.

(** Expressions; the first argument of a constructor is [token_offset]. The
    statements of a block are expressions, since those are the only nodes that
    the parser puts there. *)
#[warnings="-register-all"]
Inductive AstExpression :=
| AstIdentExpr (token_offset length : Z)
| AstLiteralExpr (token_offset : Z) (literal_kind : LiteralKind.t) (length : Z)
| AstBlockExpr (token_offset : Z) (statements : list AstExpression)
| AstReturnExpr (token_offset : Z) (ret_values : list AstExpression)
| AstUnaryExpr (token_offset : Z) (op : UnaryOperator.t) (operand : AstExpression)
| AstBinaryExpr (token_offset : Z) (op : BinaryOperator.t) (left right : AstExpression)
| AstCallExpr (token_offset : Z) (callee : AstExpression) (args : list AstExpression).

Definition token_offset (expr : AstExpression) : Z :=
  match expr with
  | AstIdentExpr o _ | AstLiteralExpr o _ _ | AstBlockExpr o _ | AstReturnExpr o _
  | AstUnaryExpr o _ _ | AstBinaryExpr o _ _ _ | AstCallExpr o _ _ => o
  end.

Record AstFunctionParameter := {
  param_token_offset : Z;
  param_type : AstExpression;
  param_name : AstName;
}.

Record AstFunctionOutput := {
  output_token_offset : Z;
  output_type : AstExpression;
  output_name : AstName;
}.

(** [AstFunctionDefinition], the only [AstDefinition]. *)
Record AstFunctionDefinition := {
  def_token_offset : Z;
  access_modifier : AccessModifier.t;
  def_name : AstName;
  parameters : list AstFunctionParameter;
  outputs : list AstFunctionOutput;
  statements : list AstExpression;
}.

Record AstRoot := {
  definitions : list AstFunctionDefinition;
}.

(** A reference to any node. *)
Inductive AstNode :=
| node_function_definition (fn_def : AstFunctionDefinition)
| node_function_parameter (param : AstFunctionParameter)
| node_function_output (output : AstFunctionOutput)
| node_expression (expr : AstExpression).

Definition node_kind (node : AstNode) : AstNodeKind.t :=
  match node with
  | node_function_definition _ => AstNodeKind.function_def
  | node_function_parameter _ => AstNodeKind.function_parameter
  | node_function_output _ => AstNodeKind.function_output
  | node_expression expr =>
      match expr with
      | AstIdentExpr _ _ => AstNodeKind.ident_expr
      | AstLiteralExpr _ _ _ => AstNodeKind.literal_expr
      | AstBlockExpr _ _ => AstNodeKind.block_expr
      | AstReturnExpr _ _ => AstNodeKind.return_expr
      | AstUnaryExpr _ _ _ => AstNodeKind.unary_expr
      | AstBinaryExpr _ _ _ _ => AstNodeKind.binary_expr
      | AstCallExpr _ _ _ => AstNodeKind.call_expr
      end
  end.

Definition node_token_offset (node : AstNode) : Z :=
  match node with
  | node_function_definition fn_def => def_token_offset fn_def
  | node_function_parameter param => param_token_offset param
  | node_function_output output => output_token_offset output
  | node_expression expr => token_offset expr
  end.

(** [AstNode::locate_in] *)
Definition AstNode_locate_in (node : AstNode) (source : SourceView.t) (tab_size : Z)
    : option CodeLocation :=
  SourceView.locate source (node_token_offset node) tab_size.

(** [AstIdentExpr::get] and [AstLiteralExpr::get] *)
Definition expression_get (expr : AstExpression) (source_text : text) : option text :=
  match expr with
  | AstIdentExpr o length | AstLiteralExpr o _ length => substr source_text o length
  | _ => None
  end.

(** * The visitor (ast_visitor.hh) *)

(** The virtual functions of [AstVisitor<T>]; the arguments of the expression
    handlers are the fields of the node. *)
Class AstVisitor (T : Type) := {
  visit_function_definition : AstFunctionDefinition -> T;
  visit_function_parameter : AstFunctionParameter -> T;
  visit_function_output : AstFunctionOutput -> T;
  visit_ident_expr : Z -> Z -> T;
  visit_literal_expr : Z -> LiteralKind.t -> Z -> T;
  visit_block_expr : Z -> list AstExpression -> T;
  visit_return_expr : Z -> list AstExpression -> T;
  visit_unary_expr : Z -> UnaryOperator.t -> AstExpression -> T;
  visit_binary_expr : Z -> BinaryOperator.t -> AstExpression -> AstExpression -> T;
  visit_call_expr : Z -> AstExpression -> list AstExpression -> T;
}.

Definition visit {T} `{AstVisitor T} (node : AstNode) : T :=
  match node with
  | node_function_definition fn_def => visit_function_definition fn_def
  | node_function_parameter param => visit_function_parameter param
  | node_function_output output => visit_function_output output
  | node_expression (AstIdentExpr o length) => visit_ident_expr o length
  | node_expression (AstLiteralExpr o literal_kind length) => visit_literal_expr o literal_kind length
  | node_expression (AstBlockExpr o statements) => visit_block_expr o statements
  | node_expression (AstReturnExpr o ret_values) => visit_return_expr o ret_values
  | node_expression (AstUnaryExpr o op operand) => visit_unary_expr o op operand
  | node_expression (AstBinaryExpr o op lhs rhs) => visit_binary_expr o op lhs rhs
  | node_expression (AstCallExpr o callee args) => visit_call_expr o callee args
  end.

(** * Induction on expressions *)

(** Structural induction with hypotheses for the elements of the node lists. *)
Section AstExpression_ind.
Context (P : AstExpression -> Prop)
  (Hident : forall o n, P (AstIdentExpr o n))
  (Hliteral : forall o k n, P (AstLiteralExpr o k n))
  (Hblock : forall o l, Forall P l -> P (AstBlockExpr o l))
  (Hreturn : forall o l, Forall P l -> P (AstReturnExpr o l))
  (Hunary : forall o op e, P e -> P (AstUnaryExpr o op e))
  (Hbinary : forall o op e1 e2, P e1 -> P e2 -> P (AstBinaryExpr o op e1 e2))
  (Hcall : forall o e l, P e -> Forall P l -> P (AstCallExpr o e l)).

Fixpoint AstExpression_nested_ind (expr : AstExpression) : P expr :=
  let all := fix all (l : list AstExpression) : Forall P l :=
    match l with
    | [] => Forall_nil_2 P
    | e :: l => Forall_cons_2 P e l (AstExpression_nested_ind e) (all l)
    end in
  match expr with
  | AstIdentExpr o n => Hident o n
  | AstLiteralExpr o k n => Hliteral o k n
  | AstBlockExpr o l => Hblock o l (all l)
  | AstReturnExpr o l => Hreturn o l (all l)
  | AstUnaryExpr o op e => Hunary o op e (AstExpression_nested_ind e)
  | AstBinaryExpr o op e1 e2 =>
      Hbinary o op e1 e2 (AstExpression_nested_ind e1) (AstExpression_nested_ind e2)
  | AstCallExpr o e l => Hcall o e l (AstExpression_nested_ind e) (all l)
  end.
End AstExpression_ind.
