(* ===== verification/Outline.v ===== *)
(** Outlines of syntax trees: what a tree says, in terms of the texts of its names
    and literals, without the offsets of its tokens. Trees of different sources are
    compared by their outlines. *)

From S2P Require Import Prelude Report Source Token Ast.

(** * Nodes *)

#[global] Instance access_modifier_eq_dec : EqDecision AccessModifier.t.
Proof. solve_decision. Defined.
#[global] Instance literal_kind_eq_dec : EqDecision LiteralKind.t.
Proof. solve_decision. Defined.
#[global] Instance ast_node_kind_eq_dec : EqDecision AstNodeKind.t.
Proof. solve_decision. Defined.

(** The kind of a node with what its own tokens say. *)
Inductive Header :=
| function_definition (access : AccessModifier.t) (name : text)
| function_parameter (name : text)
| function_output (name : text)
| ident_expr (name : text)
| literal_expr (literal_kind : LiteralKind.t) (literal : text)
| block_expr
| return_expr
| unary_expr (op : UnaryOperator.t)
| binary_expr (op : BinaryOperator.t)
| call_expr.

Definition header_kind (h : Header) : AstNodeKind.t :=
  match h with
  | function_definition _ _ => AstNodeKind.function_def
  | function_parameter _ => AstNodeKind.function_parameter
  | function_output _ => AstNodeKind.function_output
  | ident_expr _ => AstNodeKind.ident_expr
  | literal_expr _ _ => AstNodeKind.literal_expr
  | block_expr => AstNodeKind.block_expr
  | return_expr => AstNodeKind.return_expr
  | unary_expr _ => AstNodeKind.unary_expr
  | binary_expr _ => AstNodeKind.binary_expr
  | call_expr => AstNodeKind.call_expr
  end.

(** Headers over the headers of the children. *)
#[warnings="-register-all"]
Inductive Outline := outline (header : Header) (children : list Outline).

(** The nodes below a node, in the order of the source. *)
Definition node_children (node : AstNode) : list AstNode :=
  match node with
  | node_function_definition d =>
      map node_function_parameter (parameters d) ++ map node_function_output (outputs d) ++
      map node_expression (statements d)
  | node_function_parameter p => [node_expression (param_type p)]
  | node_function_output o => [node_expression (output_type o)]
  | node_expression e =>
      match e with
      | AstIdentExpr _ _ | AstLiteralExpr _ _ _ => []
      | AstBlockExpr _ l | AstReturnExpr _ l => map node_expression l
      | AstUnaryExpr _ _ e => [node_expression e]
      | AstBinaryExpr _ _ e1 e2 => [node_expression e1; node_expression e2]
      | AstCallExpr _ e l => node_expression e :: map node_expression l
      end
  end.

(** [None]: a name lies outside of the source. *)
Definition node_header (source_text : text) (node : AstNode) : option Header :=
  match node with
  | node_function_definition d =>
      function_definition (access_modifier d) <$> AstName_get (def_name d) source_text
  | node_function_parameter p => function_parameter <$> AstName_get (param_name p) source_text
  | node_function_output o => function_output <$> AstName_get (output_name o) source_text
  | node_expression e =>
      match e with
      | AstIdentExpr _ _ => ident_expr <$> expression_get e source_text
      | AstLiteralExpr _ k _ => literal_expr k <$> expression_get e source_text
      | AstBlockExpr _ _ => Some block_expr
      | AstReturnExpr _ _ => Some return_expr
      | AstUnaryExpr _ op _ => Some (unary_expr op)
      | AstBinaryExpr _ op _ _ => Some (binary_expr op)
      | AstCallExpr _ _ _ => Some call_expr
      end
  end.

(** * Outlines of nodes *)

(** [outlines s node r]: in the source text [s], the node says [r]. *)
#[warnings="-register-all"]
Inductive outlines (source_text : text) : AstNode -> Outline -> Prop :=
| outlines_node node h rs :
    node_header source_text node = Some h ->
    Forall2 (outlines source_text) (node_children node) rs ->
    outlines source_text node (outline h rs).

(** Whether a list of options has no [None], with its values. *)
Fixpoint all_some {A} (l : list (option A)) : option (list A) :=
  match l with
  | [] => Some []
  | o :: l => match o, all_some l with Some a, Some l => Some (a :: l) | _, _ => None end
  end.

(** The outline as a function. *)
Definition outline_with (source_text : text) (node : AstNode) (children : list (option Outline)) : option Outline :=
  match node_header source_text node, all_some children with
  | Some h, Some rs => Some (outline h rs)
  | _, _ => None
  end.

Fixpoint outline_expression (source_text : text) (e : AstExpression) : option Outline :=
  outline_with source_text (node_expression e)
    (match e with
     | AstIdentExpr _ _ | AstLiteralExpr _ _ _ => []
     | AstBlockExpr _ l | AstReturnExpr _ l => map (outline_expression source_text) l
     | AstUnaryExpr _ _ e => [outline_expression source_text e]
     | AstBinaryExpr _ _ e1 e2 => [outline_expression source_text e1; outline_expression source_text e2]
     | AstCallExpr _ e l => outline_expression source_text e :: map (outline_expression source_text) l
     end).

Definition outline_parameter (source_text : text) (p : AstFunctionParameter) : option Outline :=
  outline_with source_text (node_function_parameter p) [outline_expression source_text (param_type p)].

Definition outline_output (source_text : text) (o : AstFunctionOutput) : option Outline :=
  outline_with source_text (node_function_output o) [outline_expression source_text (output_type o)].

Definition outline_definition (source_text : text) (d : AstFunctionDefinition) : option Outline :=
  outline_with source_text (node_function_definition d)
    (map (outline_parameter source_text) (parameters d) ++ map (outline_output source_text) (outputs d) ++
     map (outline_expression source_text) (statements d)).

Definition outline_node (source_text : text) (node : AstNode) : option Outline :=
  match node with
  | node_function_definition d => outline_definition source_text d
  | node_function_parameter p => outline_parameter source_text p
  | node_function_output o => outline_output source_text o
  | node_expression e => outline_expression source_text e
  end.

Definition outline_root (source_text : text) (root : AstRoot) : option (list Outline) :=
  all_some (map (outline_definition source_text) (definitions root)).

(** * Lemmas *)

Lemma all_some_spec {A B} (f : A -> option B) (l : list A) rs :
  all_some (map f l) = Some rs <-> Forall2 (fun a r => f a = Some r) l rs.
Proof.
  revert rs. induction l as [|a l IH]; intros rs; cbn.
  - split; [by intros [= <-]|by inversion 1].
  - split.
    + destruct (f a) eqn:Ha; [|done]. destruct (all_some (map f l)) eqn:Hl; [|done].
      intros [= <-]. constructor; [done|by apply IH].
    + inversion 1 as [|? r ? rs' Ha Hl]; subst. apply IH in Hl. by rewrite Ha, Hl.
Qed.

Lemma all_some_app {A} (l1 l2 : list (option A)) :
  all_some (l1 ++ l2) = match all_some l1, all_some l2 with
                        | Some r1, Some r2 => Some (r1 ++ r2) | _, _ => None end.
Proof.
  induction l1 as [|o l1 IH]; cbn; [by destruct (all_some l2)|].
  rewrite IH. by destruct o, (all_some l1), (all_some l2).
Qed.

(** Induction on outlines with hypotheses for the children. *)
Fixpoint Outline_nested_ind (P : Outline -> Prop)
    (H : forall h rs, Forall P rs -> P (outline h rs)) (r : Outline) : P r :=
  match r with
  | outline h rs =>
      H h rs ((fix all (rs : list Outline) : Forall P rs :=
                 match rs with
                 | [] => Forall_nil_2 P
                 | r :: rs => Forall_cons_2 P r rs (Outline_nested_ind P H r) (all rs)
                 end) rs)
  end.

Lemma outline_node_children s node :
  outline_node s node = outline_with s node (map (outline_node s) (node_children node)).
Proof.
  destruct node as [d|p|o|e]; [|done|done|].
  - cbn. unfold outline_definition. by rewrite !map_app, !map_map.
  - destruct e; cbn; rewrite ?map_map; done.
Qed.

(** The function computes the relation. *)
Lemma outline_node_spec s r : forall node, outline_node s node = Some r <-> outlines s node r.
Proof.
  induction r as [h rs IH] using Outline_nested_ind. intros node.
  rewrite outline_node_children. unfold outline_with.
  assert (Hall : all_some (map (outline_node s) (node_children node)) = Some rs <->
                 Forall2 (outlines s) (node_children node) rs).
  { rewrite all_some_spec. generalize (node_children node).
    induction IH as [|r rs Hr _ IHrs]; intros l.
    - split; inversion 1; constructor.
    - split; inversion 1; subst; constructor; by try apply Hr; try apply IHrs. }
  split.
  - destruct (node_header s node) eqn:Hh; [|done]. destruct (all_some _) as [rs'|]; [|done].
    intros [= -> ->]. constructor; [done|by apply Hall].
  - inversion 1; subst. rewrite (proj2 Hall) by done. by simplify_option_eq.
Qed.

(** A node says one thing. *)
Lemma outlines_functional s node r1 r2 : outlines s node r1 -> outlines s node r2 -> r1 = r2.
Proof. rewrite <-!outline_node_spec. congruence. Qed.

Lemma outline_root_spec s root rs :
  outline_root s root = Some rs <-> Forall2 (outlines s) (map node_function_definition (definitions root)) rs.
Proof.
  unfold outline_root. rewrite all_some_spec, Forall2_fmap_l.
  split; intros HF; (eapply Forall2_impl; [exact HF|]); intros d r; cbn; by rewrite <-outline_node_spec.
Qed.
