(* ===== verification/AstCompare.v ===== *)
(** The comparison of syntax trees in the repository's tests
    (src/tests/syntax/ast_compare.hh, ast_compare.cc): a test records the nodes that
    it expects, in the order of the source, and the comparison walks the tree along
    with it. *)

From Stdlib Require Import String.
From S2P Require Import Prelude Report Platform FileView Source Token Ast Outline.

Module AstCompare.

(** What a record sets and the visit of a node takes out again: one
    [ExpectedState] each. *)
Record Expectations := {
  expected_children_ : option (list AstNode);
  node_kind_ : option AstNodeKind.t;
  access_ : option AccessModifier.t;
  str_ : option text;
  unary_op_ : option UnaryOperator.t;
  binary_op_ : option BinaryOperator.t;
  literal_kind_ : option LiteralKind.t;
}.

Definition no_expectations : Expectations :=
  {| expected_children_ := None; node_kind_ := None; access_ := None; str_ := None;
     unary_op_ := None; binary_op_ := None; literal_kind_ := None |}.

(** The members of [AstCompare] but for the tree and the source. Counts stay far
    below 2^64. *)
Record State := {
  root_child_count_ : Z;
  recorded_child_count_ : Z;
  next_children_ : list AstNode;
  expectations : Expectations;
  failed : bool;
}.

(** The exception of a failed REQUIRE is [Thrown]; [failed] is whether any check of
    the test failed. *)
Definition C (A : Type) : Type := M State A.

Definition set_count (n : Z) (s : State) : State :=
  {| root_child_count_ := root_child_count_ s; recorded_child_count_ := n;
     next_children_ := next_children_ s; expectations := expectations s; failed := failed s |}.
Definition set_next (nodes : list AstNode) (s : State) : State :=
  {| root_child_count_ := root_child_count_ s; recorded_child_count_ := recorded_child_count_ s;
     next_children_ := nodes; expectations := expectations s; failed := failed s |}.
Definition set_expectations (e : Expectations) (s : State) : State :=
  {| root_child_count_ := root_child_count_ s; recorded_child_count_ := recorded_child_count_ s;
     next_children_ := next_children_ s; expectations := e; failed := failed s |}.
Definition set_failed (s : State) : State :=
  {| root_child_count_ := root_child_count_ s; recorded_child_count_ := recorded_child_count_ s;
     next_children_ := next_children_ s; expectations := expectations s; failed := true |}.

(** CHECK and REQUIRE of the test framework. *)
Definition check (b : bool) : C unit := if b then ret tt else modify set_failed.
Definition require (b : bool) : C unit := if b then ret tt else modify set_failed ;; throw.

(** ** ExpectedState *)

Record Slot (T : Type) := {
  slot_value : Expectations -> option T;
  slot_update : option T -> Expectations -> Expectations;
}.
Arguments slot_value {T}.
Arguments slot_update {T}.

Definition put_slot {T} (slot : Slot T) (value : option T) : C unit :=
  modify (fun s => set_expectations (slot_update slot value (expectations s)) s).

Definition ExpectedState_set {T} (slot : Slot T) (val : T) : C unit :=
  value <- read (fun s => slot_value slot (expectations s)) ;;
  cero_assert (match value with None => true | Some _ => false end) ;;
  put_slot slot (Some val).

Definition ExpectedState_get {T} (slot : Slot T) : C T :=
  value <- read (fun s => slot_value slot (expectations s)) ;;
  val <- expect_some value ;;
  put_slot slot None ;;
  ret val.

Definition children_slot : Slot (list AstNode) := {|
  slot_value := expected_children_;
  slot_update v e := {| expected_children_ := v; node_kind_ := node_kind_ e; access_ := access_ e;
    str_ := str_ e; unary_op_ := unary_op_ e; binary_op_ := binary_op_ e; literal_kind_ := literal_kind_ e |};
|}.
Definition node_kind_slot : Slot AstNodeKind.t := {|
  slot_value := node_kind_;
  slot_update v e := {| expected_children_ := expected_children_ e; node_kind_ := v; access_ := access_ e;
    str_ := str_ e; unary_op_ := unary_op_ e; binary_op_ := binary_op_ e; literal_kind_ := literal_kind_ e |};
|}.
Definition access_slot : Slot AccessModifier.t := {|
  slot_value := access_;
  slot_update v e := {| expected_children_ := expected_children_ e; node_kind_ := node_kind_ e; access_ := v;
    str_ := str_ e; unary_op_ := unary_op_ e; binary_op_ := binary_op_ e; literal_kind_ := literal_kind_ e |};
|}.
Definition str_slot : Slot text := {|
  slot_value := str_;
  slot_update v e := {| expected_children_ := expected_children_ e; node_kind_ := node_kind_ e;
    access_ := access_ e; str_ := v; unary_op_ := unary_op_ e; binary_op_ := binary_op_ e;
    literal_kind_ := literal_kind_ e |};
|}.
Definition unary_op_slot : Slot UnaryOperator.t := {|
  slot_value := unary_op_;
  slot_update v e := {| expected_children_ := expected_children_ e; node_kind_ := node_kind_ e;
    access_ := access_ e; str_ := str_ e; unary_op_ := v; binary_op_ := binary_op_ e;
    literal_kind_ := literal_kind_ e |};
|}.
Definition binary_op_slot : Slot BinaryOperator.t := {|
  slot_value := binary_op_;
  slot_update v e := {| expected_children_ := expected_children_ e; node_kind_ := node_kind_ e;
    access_ := access_ e; str_ := str_ e; unary_op_ := unary_op_ e; binary_op_ := v;
    literal_kind_ := literal_kind_ e |};
|}.
Definition literal_kind_slot : Slot LiteralKind.t := {|
  slot_value := literal_kind_;
  slot_update v e := {| expected_children_ := expected_children_ e; node_kind_ := node_kind_ e;
    access_ := access_ e; str_ := str_ e; unary_op_ := unary_op_ e; binary_op_ := binary_op_ e;
    literal_kind_ := v |};
|}.

(** ** The visitor *)

Section AstCompare.
Context (source_ : text).

Definition expect (node : AstNode) (children : list AstNode) : C unit :=
  kind <- ExpectedState_get node_kind_slot ;;
  require (bool_decide (kind = node_kind node)) ;;
  ExpectedState_set children_slot children.

(** [CHECK_EQ(slot.get(), value)]; an exception of [value] fails the check. *)
Definition check_slot {T} `{EqDecision T} (slot : Slot T) (value : option T) : C unit :=
  expected <- ExpectedState_get slot ;;
  check (bool_decide (Some expected = value)).

Definition visit_function_definition (fn_def : AstFunctionDefinition) : C unit :=
  expect (node_function_definition fn_def)
    (map node_function_parameter (parameters fn_def) ++ map node_function_output (outputs fn_def) ++
     map node_expression (statements fn_def)) ;;
  check_slot access_slot (Some (access_modifier fn_def)) ;;
  check_slot str_slot (AstName_get (def_name fn_def) source_).

Definition visit_function_parameter (param : AstFunctionParameter) : C unit :=
  expect (node_function_parameter param) [node_expression (param_type param)] ;;
  check_slot str_slot (AstName_get (param_name param) source_).

Definition visit_function_output (output : AstFunctionOutput) : C unit :=
  expect (node_function_output output) [node_expression (output_type output)] ;;
  check_slot str_slot (AstName_get (output_name output) source_).

(** Outside of a check the exception of [get] ends the test. *)
Definition name_of_node (value : option text) : C text :=
  match value with Some name => ret name | None => modify set_failed ;; throw end.

Definition visit_ident_expr (offset length : Z) : C unit :=
  expect (node_expression (AstIdentExpr offset length)) [] ;;
  ident <- name_of_node (expression_get (AstIdentExpr offset length) source_) ;;
  check_slot str_slot (Some ident).

Definition visit_literal_expr (offset : Z) (kind : LiteralKind.t) (length : Z) : C unit :=
  expect (node_expression (AstLiteralExpr offset kind length)) [] ;;
  literal <- name_of_node (expression_get (AstLiteralExpr offset kind length) source_) ;;
  check_slot str_slot (Some literal) ;;
  check_slot literal_kind_slot (Some kind).

Definition visit_block_expr (offset : Z) (statements : list AstExpression) : C unit :=
  expect (node_expression (AstBlockExpr offset statements)) (map node_expression statements).

Definition visit_return_expr (offset : Z) (ret_values : list AstExpression) : C unit :=
  expect (node_expression (AstReturnExpr offset ret_values)) (map node_expression ret_values).

Definition visit_unary_expr (offset : Z) (op : UnaryOperator.t) (operand : AstExpression) : C unit :=
  expect (node_expression (AstUnaryExpr offset op operand)) [node_expression operand] ;;
  check_slot unary_op_slot (Some op).

Definition visit_binary_expr (offset : Z) (op : BinaryOperator.t) (lhs rhs : AstExpression) : C unit :=
  expect (node_expression (AstBinaryExpr offset op lhs rhs)) [node_expression lhs; node_expression rhs] ;;
  check_slot binary_op_slot (Some op).

Definition visit_call_expr (offset : Z) (callee : AstExpression) (args : list AstExpression) : C unit :=
  expect (node_expression (AstCallExpr offset callee args)) (node_expression callee :: map node_expression args).

#[export] Instance compare_visitor : AstVisitor (C unit) := {|
  Ast.visit_function_definition := visit_function_definition;
  Ast.visit_function_parameter := visit_function_parameter;
  Ast.visit_function_output := visit_function_output;
  Ast.visit_ident_expr := visit_ident_expr;
  Ast.visit_literal_expr := visit_literal_expr;
  Ast.visit_block_expr := visit_block_expr;
  Ast.visit_return_expr := visit_return_expr;
  Ast.visit_unary_expr := visit_unary_expr;
  Ast.visit_binary_expr := visit_binary_expr;
  Ast.visit_call_expr := visit_call_expr;
|}.

(** ** Recording *)

Definition record_kind (kind : AstNodeKind.t) : C unit :=
  ExpectedState_set node_kind_slot kind ;;
  modify (fun s => set_count (recorded_child_count_ s + 1) s).

(** The two [PushState] objects around the rest of [visit_node], which put the old
    values back in the opposite order, also when an exception passes. *)
Definition with_children (children : list AstNode) (m : C unit) : C unit := fun s =>
  let (count, old_count) := PushState_construct (recorded_child_count_ s) 0 in
  let (next, old_next) := PushState_construct (next_children_ s) children in
  let restore s' := set_count (PushState_destruct (recorded_child_count_ s') old_count)
                      (set_next (PushState_destruct (next_children_ s') old_next) s') in
  match m (set_next next (set_count count s)) with
  | Done a s' => Done a (restore s')
  | Thrown s' => Thrown (restore s')
  | Aborted => Aborted
  | OutOfFuel => OutOfFuel
  end.

Definition visit_node (child_scope : C unit) : C unit :=
  next_children <- read next_children_ ;;
  match next_children with
  | [] => require false
  | next :: rest =>
      modify (set_next rest) ;;
      visit next ;;
      expected_children <- ExpectedState_get children_slot ;;
      with_children expected_children
        (child_scope ;;
         count <- read recorded_child_count_ ;;
         require (count =? Z.of_nat (List.length expected_children)))
  end.

Definition function_definition (access : AccessModifier.t) (name : text) (cs : C unit) : C unit :=
  record_kind AstNodeKind.function_def ;;
  ExpectedState_set access_slot access ;;
  ExpectedState_set str_slot name ;;
  visit_node cs.

Definition function_parameter (name : text) (cs : C unit) : C unit :=
  record_kind AstNodeKind.function_parameter ;;
  ExpectedState_set str_slot name ;;
  visit_node cs.

Definition function_output (name : text) (cs : C unit) : C unit :=
  record_kind AstNodeKind.function_output ;;
  ExpectedState_set str_slot name ;;
  visit_node cs.

Definition ident_expr (ident : text) : C unit :=
  record_kind AstNodeKind.ident_expr ;;
  ExpectedState_set str_slot ident ;;
  visit_node (ret tt).

(** No visit here. *)
Definition literal_expr (literal_kind : LiteralKind.t) (literal : text) : C unit :=
  record_kind AstNodeKind.literal_expr ;;
  ExpectedState_set literal_kind_slot literal_kind ;;
  ExpectedState_set str_slot literal.

Definition block_expr (cs : C unit) : C unit :=
  record_kind AstNodeKind.block_expr ;;
  visit_node cs.

Definition return_expr (cs : C unit) : C unit :=
  record_kind AstNodeKind.return_expr ;;
  visit_node cs.

Definition unary_expr (op : UnaryOperator.t) (cs : C unit) : C unit :=
  record_kind AstNodeKind.unary_expr ;;
  ExpectedState_set unary_op_slot op ;;
  visit_node cs.

Definition binary_expr (op : BinaryOperator.t) (cs : C unit) : C unit :=
  record_kind AstNodeKind.binary_expr ;;
  ExpectedState_set binary_op_slot op ;;
  visit_node cs.

Definition call_expr (cs : C unit) : C unit :=
  record_kind AstNodeKind.call_expr ;;
  visit_node cs.

(** ** A test case *)

(** [visit_root] of the constructor. *)
Definition construct (root : AstRoot) : State :=
  let children := map node_function_definition (definitions root) in
  {| root_child_count_ := Z.of_nat (List.length children); recorded_child_count_ := 0;
     next_children_ := children; expectations := no_expectations; failed := false |}.

(** Whether the destructors of the [ExpectedState] members pass their assertion. *)
Definition nothing_expected (e : Expectations) : bool :=
  match e with
  | {| expected_children_ := None; node_kind_ := None; access_ := None; str_ := None;
       unary_op_ := None; binary_op_ := None; literal_kind_ := None |} => true
  | _ => false
  end.

Inductive Verdict := passed | test_failed | crashed.

(** The destructor of [AstCompare] and of its members. *)
Definition destruct (s : State) : Verdict :=
  let ok := negb (failed s) && (recorded_child_count_ s =? root_child_count_ s) in
  if nothing_expected (expectations s) then (if ok then passed else test_failed) else crashed.

Definition test_case (root : AstRoot) (body : C unit) : Verdict :=
  match body (construct root) with
  | Done _ s | Thrown s => destruct s
  | Aborted | OutOfFuel => crashed
  end.

(** The calls that record an outline. *)
Fixpoint record_outline (r : Outline) : C unit :=
  match r with
  | outline h rs =>
      let scope := fold_right (fun r m => record_outline r ;; m) (ret tt) rs in
      match h with
      | Outline.function_definition access name => function_definition access name scope
      | Outline.function_parameter name => function_parameter name scope
      | Outline.function_output name => function_output name scope
      | Outline.ident_expr name => ident_expr name
      | Outline.literal_expr kind literal => literal_expr kind literal
      | Outline.block_expr => block_expr scope
      | Outline.return_expr => return_expr scope
      | Outline.unary_expr op => unary_expr op scope
      | Outline.binary_expr op => binary_expr op scope
      | Outline.call_expr => call_expr scope
      end
  end.

Definition record_outlines (rs : list Outline) : C unit :=
  fold_right (fun r m => record_outline r ;; m) (ret tt) rs.

End AstCompare.
End AstCompare.

(** The outlines that the interface can record: names and literals have no scope
    for children. *)
Definition leaf_header (h : Header) : bool :=
  match h with ident_expr _ | literal_expr _ _ => true | _ => false end.

Fixpoint recordable (r : Outline) : bool :=
  match r with
  | outline h rs => (negb (leaf_header h) || match rs with [] => true | _ => false end) && forallb recordable rs
  end.

Definition literal_header (h : Header) : bool :=
  match h with literal_expr _ _ => true | _ => false end.

Fixpoint literal_free (r : Outline) : bool :=
  match r with outline h rs => negb (literal_header h) && forallb literal_free rs end.
