(* ===== verification/AstCompareTheorems.v ===== *)
(** The theorem about the comparison of trees in the tests: a recording passes
    exactly when it is the outline of the tree and there is no literal in it. *)

From Stdlib Require Import String.
From S2P Require Import Prelude Report Platform FileView Source Token Ast Outline AstCompare.

Import AstCompare.

(** * Single records *)

(** Nothing pending and no failed check. *)
Definition idle (s : State) : Prop := nothing_expected (expectations s) = true /\ failed s = false.

Definition children_only (l : list AstNode) : Expectations :=
  {| expected_children_ := Some l; node_kind_ := None; access_ := None; str_ := None;
     unary_op_ := None; binary_op_ := None; literal_kind_ := None |}.

Lemma nothing_expected_spec e : nothing_expected e = true <-> e = no_expectations.
Proof. split; [|by intros ->]. by destruct e as [[] [] [] [] [] [] []]. Qed.

Lemma idle_expectations s : idle s -> expectations s = no_expectations /\ failed s = false.
Proof. unfold idle. by rewrite nothing_expected_spec. Qed.

(** What a record sets before the visit. *)
Definition announce_details (h : Header) : C unit :=
  match h with
  | Outline.function_definition access name =>
      ExpectedState_set access_slot access ;; ExpectedState_set str_slot name
  | Outline.function_parameter name | Outline.function_output name | Outline.ident_expr name =>
      ExpectedState_set str_slot name
  | Outline.literal_expr kind literal =>
      ExpectedState_set literal_kind_slot kind ;; ExpectedState_set str_slot literal
  | Outline.unary_expr op => ExpectedState_set unary_op_slot op
  | Outline.binary_expr op => ExpectedState_set binary_op_slot op
  | Outline.block_expr | Outline.return_expr | Outline.call_expr => ret tt
  end.

Definition announce (h : Header) : C unit := record_kind (header_kind h) ;; announce_details h.

(** A record is the announcement and, but for literals, the visit of a node. *)
Lemma record_outline_run source h rs s :
  recordable (outline h rs) = true ->
  record_outline source (outline h rs) s =
  (if literal_header h then announce h
   else announce h ;; visit_node source (record_outlines source rs)) s.
Proof.
  intros Hr. destruct h; cbn in Hr |- *; try (destruct rs; [|done]); unfold announce;
    cbn [announce_details header_kind];
    unfold function_definition, function_parameter, function_output, ident_expr, literal_expr,
      block_expr, return_expr, unary_expr, binary_expr, call_expr, bind;
    destruct (record_kind _ s) as [[] s1|s1| |]; try done;
    repeat (match goal with |- context [ExpectedState_set ?sl ?v ?s1] =>
              destruct (ExpectedState_set sl v s1) as [[] ?|?| |]; try done end).
Qed.

Ltac expose_visit :=
  unfold visit_function_definition, visit_function_parameter, visit_function_output, visit_ident_expr,
    visit_literal_expr, visit_block_expr, visit_return_expr, visit_unary_expr, visit_binary_expr,
    visit_call_expr, expect, check_slot, name_of_node, require, check, ExpectedState_get, ExpectedState_set, bind.

(** A matching node, seen from an idle state. *)
Lemma visit_match source h node s :
  idle s -> literal_header h = false -> node_header source node = Some h ->
  exists s1, announce h s = Done tt s1 /\
    forall rest, visit (H := compare_visitor source) node (set_next rest s1) =
      Done tt (set_expectations (children_only (node_children node))
                 (set_next rest (set_count (recorded_child_count_ s + 1) s))).
Proof.
  intros [He Hf]%idle_expectations Hl Hn. destruct s as [rc cc nx e f]. cbn in He, Hf. subst e f.
  destruct node as [d|p|o|[]]; cbn in Hn |- *;
    try (match type of Hn with ?g <$> ?o = Some h => destruct o as [name|] eqn:Hname; [|done] end);
    cbn in Hn; try (injection Hn as <-); try done;
    (eexists; split; [reflexivity|]); intros rest; expose_visit;
    cbn -[Z.add]; rewrite ?Hname; cbn -[Z.add];
    repeat (rewrite bool_decide_eq_true_2 by done; cbn -[Z.add]); done.
Qed.

(** ** Inversion of successful steps *)

Lemma bind_returned {A B} (m : C A) (k : A -> C B) s b s' :
  bind m k s = Done b s' -> exists a s1, m s = Done a s1 /\ k a s1 = Done b s'.
Proof. unfold bind. destruct (m s); [eauto|done..]. Qed.

Lemma set_done {T} (slot : Slot T) v s s' :
  ExpectedState_set slot v s = Done tt s' ->
  slot_value slot (expectations s) = None /\
  s' = set_expectations (slot_update slot (Some v) (expectations s)) s.
Proof.
  unfold ExpectedState_set, bind, read. destruct (slot_value slot (expectations s)); [done|].
  by intros [= <-].
Qed.

Lemma get_done {T} (slot : Slot T) v s s' :
  ExpectedState_get slot s = Done v s' ->
  slot_value slot (expectations s) = Some v /\
  s' = set_expectations (slot_update slot None (expectations s)) s.
Proof.
  unfold ExpectedState_get, bind, read. destruct (slot_value slot (expectations s)); [|done].
  by intros [= <- <-].
Qed.

Lemma require_done b s s' : require b s = Done tt s' -> b = true /\ s' = s.
Proof. destruct b; [by intros [= <-]|done]. Qed.

Lemma check_done b s s' : check b s = Done tt s' -> failed s' = false -> b = true /\ s' = s.
Proof. destruct b; [by intros [= <-]|by intros [= <-]]. Qed.

Lemma check_failed b s s' : check b s = Done tt s' -> failed s = true -> failed s' = true.
Proof. destruct b; by intros [= <-]. Qed.

Lemma check_slot_done {T} `{EqDecision T} (slot : Slot T) value s s' :
  check_slot slot value s = Done tt s' -> failed s' = false ->
  slot_value slot (expectations s) = value /\ value <> None /\
  s' = set_expectations (slot_update slot None (expectations s)) s.
Proof.
  unfold check_slot. intros (v & s1 & [Hv ->]%get_done & Hc)%bind_returned Hf.
  apply check_done in Hc as [Hb%bool_decide_eq_true ->]; [|done]. subst value. by rewrite Hv.
Qed.

Lemma expect_done node children s s' :
  expect node children s = Done tt s' ->
  node_kind_ (expectations s) = Some (node_kind node) /\ expected_children_ (expectations s) = None /\
  s' = set_expectations (slot_update children_slot (Some children)
         (slot_update node_kind_slot None (expectations s))) s.
Proof.
  unfold expect. intros (k & s1 & [Hk ->]%get_done & H1)%bind_returned.
  apply bind_returned in H1 as ([] & s2 & [Hb%bool_decide_eq_true ->]%require_done & [Hc ->]%set_done).
  subst k. split_and!; [done|done|]. by destruct s.
Qed.

Lemma name_of_node_done o name s s' : name_of_node o s = Done name s' -> o = Some name /\ s' = s.
Proof. destruct o; [by intros [= -> ->]|done]. Qed.

Lemma record_kind_done kind s s' :
  record_kind kind s = Done tt s' ->
  node_kind_ (expectations s) = None /\
  s' = set_count (recorded_child_count_ s + 1)
         (set_expectations (slot_update node_kind_slot (Some kind) (expectations s)) s).
Proof. unfold record_kind. intros ([] & s1 & [Hn ->]%set_done & [= <-])%bind_returned. done. Qed.

Ltac invert_done :=
  repeat match goal with
  | H : bind _ _ _ = Done _ _ |- _ => apply bind_returned in H as (? & ? & ? & ?)
  | x : () |- _ => destruct x
  | H : ExpectedState_set _ _ _ = Done _ _ |- _ => apply set_done in H as [? ->]
  | H : expect _ _ _ = Done _ _ |- _ => apply expect_done in H as (? & ? & ->)
  | H : name_of_node _ _ = Done _ _ |- _ => apply name_of_node_done in H as [? ->]
  | H : ret _ _ = Done _ _ |- _ => injection H as <-
  | H : check_slot _ _ _ = Done _ ?s, Hf : failed ?s = false |- _ =>
      apply check_slot_done in H as (? & ? & ->); [|exact Hf]; cbn in Hf
  end.

#[local] Arguments ExpectedState_set : simpl never.
#[local] Arguments expect : simpl never.
#[local] Arguments check_slot : simpl never.

Lemma announce_next h s s1 : announce h s = Done tt s1 -> next_children_ s1 = next_children_ s.
Proof.
  unfold announce. intros ([] & s0 & [_ ->]%record_kind_done & Ha)%bind_returned.
  by destruct h; cbn in Ha; invert_done.
Qed.

(** Only a matching node gets through the visit with nothing left but its children. *)
Lemma visit_inversion source h node s s1 rest s2 l :
  literal_header h = false -> announce h s = Done tt s1 ->
  visit (H := compare_visitor source) node (set_next rest s1) = Done tt s2 ->
  expectations s2 = children_only l -> failed s2 = false ->
  idle s /\ node_header source node = Some h.
Proof.
  intros Hl Ha Hv He Hf. destruct s as [rc cc nx [ec nk ac st uo bo lk] f].
  unfold announce in Ha. apply bind_returned in Ha as ([] & s0 & [Hn ->]%record_kind_done & Ha).
  cbn in Hn. subst nk.
  destruct h; try done; cbn in Ha; invert_done;
    destruct node as [d|p|o|[]]; cbn in Hv;
    unfold visit_function_definition, visit_function_parameter, visit_function_output, visit_ident_expr,
      visit_literal_expr, visit_block_expr, visit_return_expr, visit_unary_expr, visit_binary_expr,
      visit_call_expr in Hv; invert_done; cbn in *; simplify_eq/=.
  all: injection He; clear He; intros; subst; (split; [by split|]);
    repeat match goal with H : Some _ = _ |- _ => rewrite <-H; clear H | H : _ = Some _ |- _ => rewrite H; clear H end; done.
Qed.

(** * Recordings *)

(** The state after [n] nodes of [rest0] were recorded and [rest] are left. *)
Definition recorded (n : nat) (rest : list AstNode) (s : State) : State :=
  set_next rest (set_count (recorded_child_count_ s + Z.of_nat n) s).

Lemma recorded_idle n rest s : idle s -> idle (recorded n rest s).
Proof. done. Qed.

Lemma recorded_recorded n m rest1 rest2 s :
  recorded n rest2 (recorded m rest1 s) = recorded (m + n) rest2 s.
Proof. unfold recorded. cbn. unfold set_next, set_count. cbn. f_equal. lia. Qed.

Lemma outlines_leaf source node h rs :
  outlines source node (outline h rs) -> leaf_header h = true -> rs = [].
Proof.
  inversion 1 as [? ? ? Hh Hc]; subst. intros Hl.
  destruct node as [d|p|o|[]]; cbn in Hh, Hc; try (by inversion Hc);
    try (match type of Hh with ?g <$> ?o = _ => destruct o; [|done] end); cbn in Hh; by simplify_eq.
Qed.

(** The outline of a node can be recorded. *)
Lemma outlines_recordable source r : forall node, outlines source node r -> recordable r = true.
Proof.
  induction r as [h rs IH] using Outline_nested_ind. intros node Ho. cbn.
  apply andb_true_intro. split.
  - destruct (leaf_header h) eqn:Hl; [|done]. by rewrite (outlines_leaf _ _ _ _ Ho Hl).
  - inversion Ho as [? ? ? _ Hc]; subst. apply Is_true_true, forallb_True.
    clear Ho. revert IH. induction Hc as [|n r ns rs Hr _ IHc]; intros IH; [done|].
    inversion IH; subst. constructor; [|by apply IHc]. apply Is_true_true. eauto.
Qed.

(** With a node to visit, a record of its outline goes on behind it. *)
Definition records (source : text) (r : Outline) (node : AstNode) : Prop :=
  forall s rest, idle s -> next_children_ s = node :: rest ->
    record_outline source r s = Done tt (recorded 1 rest s).

Lemma record_outlines_run source rs nodes :
  Forall2 (fun node r => records source r node) nodes rs ->
  forall s rest, idle s -> next_children_ s = nodes ++ rest ->
    record_outlines source rs s = Done tt (recorded (length rs) rest s).
Proof.
  induction 1 as [|node r nodes rs Hr _ IH]; intros s rest Hs Hn; cbn.
  - unfold ret, recorded. destruct s; cbn in Hn |- *. subst. unfold set_next, set_count. cbn. by rewrite Z.add_0_r.
  - fold (record_outlines source rs). unfold bind. rewrite (Hr s (nodes ++ rest)) by done.
    rewrite (IH _ rest) by (by try apply recorded_idle). by rewrite recorded_recorded.
Qed.

Lemma outlines_records source r :
  literal_free r = true -> forall node, outlines source node r -> records source r node.
Proof.
  induction r as [h rs IH] using Outline_nested_ind. intros [Hl Hrs]%andb_prop node Ho s rest Hs Hn.
  apply negb_true_iff in Hl. rewrite record_outline_run by (by eapply outlines_recordable).
  rewrite Hl. inversion Ho as [? ? ? Hh Hc]; subst.
  destruct (visit_match source h node s Hs Hl Hh) as (s1 & Ha & Hv).
  assert (Hn1 : next_children_ s1 = node :: rest).
  { rewrite <-Hn. by eapply announce_next. }
  unfold bind. rewrite Ha. unfold visit_node, bind, read. rewrite Hn1. cbn [modify].
  rewrite Hv. unfold ExpectedState_get, bind, read. cbn -[Z.add].
  apply idle_expectations in Hs as [He Hf].
  assert (Hscope : Forall2 (fun node r => records source r node) (node_children node) rs).
  { clear Ho Hn Hn1 Hv Ha. revert Hrs. induction Hc as [|n r ns rs Hr _ IHc]; intros Hrs; [done|].
    cbn in Hrs. apply andb_prop in Hrs as [Hr1 Hrs]. inversion IH; subst. constructor; auto. }
  unfold with_children. cbn -[Z.add]. unfold bind.
  rewrite (record_outlines_run _ _ _ Hscope _ []);
    [|by split; cbn; rewrite ?He|cbn; by rewrite app_nil_r].
  cbn -[Z.add]. unfold read. cbn -[Z.add]. rewrite <-(Forall2_length _ _ _ Hc), Z.eqb_refl. cbn.
  unfold recorded, set_next, set_count. destruct s; cbn in *. subst. reflexivity.
Qed.

(** ** What a passing recording means *)

Lemma visit_node_done source m s s' :
  visit_node source m s = Done tt s' ->
  exists node rest s2 l sd,
    next_children_ s = node :: rest /\
    visit (H := compare_visitor source) node (set_next rest s) = Done tt s2 /\
    expected_children_ (expectations s2) = Some l /\
    m (set_next l (set_count 0 (set_expectations (slot_update children_slot None (expectations s2)) s2)))
      = Done tt sd /\
    recorded_child_count_ sd = Z.of_nat (length l) /\
    s' = set_count (recorded_child_count_ s2) (set_next (next_children_ s2) sd).
Proof.
  unfold visit_node. intros (nodes & s1 & [= <- <-] & Hv)%bind_returned.
  destruct (next_children_ s) as [|node rest] eqn:Hn; [done|].
  apply bind_returned in Hv as ([] & s1 & [= <-] & Hv). apply bind_returned in Hv as ([] & s2 & Hvisit & Hv).
  apply bind_returned in Hv as (l & s3 & [Hl ->]%get_done & Hv).
  unfold with_children in Hv. cbn -[bind] in Hv.
  destruct (bind m _ _) as [[] sd| | |] eqn:Hm; [|done..]. injection Hv as <-.
  apply bind_returned in Hm as ([] & sd' & Hm & Hc). apply bind_returned in Hc as (n & s3 & [= <- <-] & Hc).
  apply require_done in Hc as [Hc%Z.eqb_eq ->]. exists node, rest, s2, l, sd'. by destruct s2, sd'.
Qed.

(** A passing record of an outline was made in an idle state, for the next node. *)
Definition sound (source : text) (r : Outline) : Prop :=
  recordable r = true ->
  forall s s', record_outline source r s = Done tt s' -> idle s' ->
    idle s /\ literal_free r = true /\
    exists node rest, next_children_ s = node :: rest /\ outlines source node r /\ s' = recorded 1 rest s.

Lemma record_outlines_sound source rs :
  Forall (sound source) rs -> forallb recordable rs = true ->
  forall s s', record_outlines source rs s = Done tt s' -> idle s' ->
    idle s /\ forallb literal_free rs = true /\
    exists nodes rest, next_children_ s = nodes ++ rest /\ Forall2 (outlines source) nodes rs /\
      s' = recorded (length rs) rest s.
Proof.
  induction 1 as [|r rs Hr _ IH]; intros Hrec s s' Hrun Hs.
  - injection Hrun as <-. split_and!; [done..|]. exists [], (next_children_ s). split_and!; [done..|].
    destruct s. unfold recorded, set_next, set_count. cbn. by rewrite Z.add_0_r.
  - cbn in Hrec. apply andb_prop in Hrec as [Hrec1 Hrec].
    apply bind_returned in Hrun as ([] & s1 & Hrun1 & Hrun2).
    destruct (IH Hrec s1 s' Hrun2 Hs) as (Hs1 & Hl & nodes & rest & Hn & Ho & ->).
    destruct (Hr Hrec1 s s1 Hrun1 Hs1) as (Hs0 & Hl1 & node & rest1 & Hn1 & Ho1 & ->).
    cbn in Hn. subst rest1. split; [done|]. split; [cbn; by rewrite Hl1|].
    exists (node :: nodes), rest. split; [done|]. split; [by constructor|].
    by rewrite recorded_recorded.
Qed.

Lemma record_outline_sound source r : sound source r.
Proof.
  induction r as [h rs IH] using Outline_nested_ind. intros Hrec s s' Hrun Hs.
  rewrite record_outline_run in Hrun by done.
  destruct (literal_header h) eqn:Hl.
  { destruct h; try done. cbn in Hrun. unfold announce in Hrun.
    apply bind_returned in Hrun as ([] & s0 & [_ ->]%record_kind_done & Ha). cbn in Ha. invert_done.
    destruct Hs as [Hs _]. apply nothing_expected_spec in Hs. by injection Hs. }
  apply bind_returned in Hrun as ([] & s1 & Ha & Hv).
  apply visit_node_done in Hv as (node & rest & s2 & l & sd & Hn & Hvisit & Hexp & Hscope & Hcount & ->).
  assert (Hrs : forallb recordable rs = true) by (cbn in Hrec; by apply andb_prop in Hrec as [_ ?]).
  destruct (record_outlines_sound source rs IH Hrs _ sd Hscope Hs)
    as (Hidle & Hlit & nodes & rest2 & Hnodes & Ho & ->).
  apply idle_expectations in Hidle as [He2 Hf2]. cbn in He2, Hf2, Hnodes, Hcount. subst l.
  assert (Hnil : rest2 = []).
  { apply length_zero_iff_nil. rewrite length_app, <-(Forall2_length _ _ _ Ho) in Hcount. lia. }
  subst rest2. rewrite app_nil_r in *.
  assert (He : expectations s2 = children_only nodes).
  { destruct (expectations s2). cbn in *. injection He2. intros; subst. done. }
  destruct (visit_inversion source h node s s1 rest s2 nodes Hl Ha Hvisit He Hf2) as [Hs0 Hh].
  destruct (visit_match source h node s Hs0 Hl Hh) as (s1' & Ha' & Hv').
  rewrite Ha in Ha'. injection Ha' as <-. rewrite Hv' in Hvisit. injection Hvisit as <-.
  injection He as <-. rewrite (announce_next _ _ _ Ha) in Hn.
  split; [done|]. split; [by cbn; rewrite Hl|]. exists node, rest. split_and!; [done|by constructor|].
  apply idle_expectations in Hs0 as [He0 Hf0]. unfold recorded, set_next, set_count.
  destruct s; cbn in *. by subst.
Qed.

(** * Test cases *)

(** An exception is that of a failed check. *)
Definition fails {A} (m : C A) : Prop := forall s s', m s = Thrown s' -> failed s' = true.

Create HintDb fails.

Lemma fails_bind {A B} (m : C A) (k : A -> C B) : fails m -> (forall a, fails (k a)) -> fails (bind m k).
Proof. intros Hm Hk s s'. unfold bind. destruct (m s) eqn:H; [apply Hk|intros [= <-]; eauto|done..]. Qed.
#[local] Hint Resolve fails_bind : fails.

Lemma fails_require b : fails (require b).
Proof. destruct b; [done|]. by intros s s' [= <-]. Qed.
#[local] Hint Resolve fails_require : fails.

Lemma fails_name o : fails (name_of_node o).
Proof. destruct o; [done|]. by intros s s' [= <-]. Qed.
#[local] Hint Resolve fails_name : fails.

Lemma fails_set {T} (slot : Slot T) v : fails (ExpectedState_set slot v).
Proof. intros s s'. unfold ExpectedState_set, bind, read. by destruct (slot_value _ _). Qed.
#[local] Hint Resolve fails_set : fails.

Lemma fails_get {T} (slot : Slot T) : fails (ExpectedState_get slot).
Proof. intros s s'. unfold ExpectedState_get, bind, read. by destruct (slot_value _ _). Qed.
#[local] Hint Resolve fails_get : fails.

Lemma fails_check b : fails (check b).
Proof. by destruct b. Qed.
#[local] Hint Resolve fails_check : fails.

Lemma fails_ret {A} (a : A) : fails (ret a).
Proof. done. Qed.
#[local] Hint Resolve fails_ret : fails.

Lemma fails_modify f : fails (modify f).
Proof. done. Qed.
#[local] Hint Resolve fails_modify : fails.

Lemma fails_read {A} (f : State -> A) : fails (read f).
Proof. done. Qed.
#[local] Hint Resolve fails_read : fails.

Ltac fails_steps := repeat (lazymatch goal with |- fails (bind _ _) => apply fails_bind; [|intros ?] end).

Lemma fails_expect node l : fails (expect node l).
Proof. unfold expect. fails_steps; auto with fails. Qed.
#[local] Hint Resolve fails_expect : fails.

Lemma fails_check_slot {T} `{EqDecision T} (slot : Slot T) v : fails (check_slot slot v).
Proof. unfold check_slot. fails_steps; auto with fails. Qed.
#[local] Hint Resolve fails_check_slot : fails.

Lemma fails_visit source node : fails (visit (H := compare_visitor source) node).
Proof.
  destruct node as [| | |[]]; cbn; unfold visit_function_definition, visit_function_parameter,
    visit_function_output, visit_ident_expr, visit_literal_expr, visit_block_expr, visit_return_expr,
    visit_unary_expr, visit_binary_expr, visit_call_expr; fails_steps; auto with fails.
Qed.
#[local] Hint Resolve fails_visit : fails.

Lemma fails_visit_node source m : fails m -> fails (visit_node source m).
Proof.
  intros Hm. unfold visit_node. apply fails_bind; [auto with fails|]. intros [|node rest]; [auto with fails|].
  do 3 (apply fails_bind; [auto with fails|intros ?]).
  intros s s'. unfold with_children. cbn -[bind]. destruct (bind m _ _) as [|s1| |] eqn:Hb; [done| |done..].
  intros [= <-]. cbn. revert Hb. apply fails_bind; [done|]. intros []. apply fails_bind; auto with fails.
Qed.

Lemma fails_record_outlines source rs :
  Forall (fun r => fails (record_outline source r)) rs -> fails (record_outlines source rs).
Proof. induction 1; [done|]. by apply fails_bind. Qed.

Lemma fails_record_outline source r : fails (record_outline source r).
Proof.
  induction r as [h rs IH%fails_record_outlines] using Outline_nested_ind.
  destruct h; cbn; unfold function_definition, function_parameter, function_output, ident_expr, literal_expr,
    block_expr, return_expr, unary_expr, binary_expr, call_expr, record_kind; fails_steps; auto using fails_visit_node with fails.
Qed.

(** A test case that passes ran to its end and left nothing pending. *)
Lemma test_case_passed source root rs :
  test_case root (record_outlines source rs) = passed ->
  exists s, record_outlines source rs (construct root) = Done tt s /\ idle s /\
    recorded_child_count_ s = root_child_count_ s.
Proof.
  assert (Hpass : forall s, destruct s = passed -> idle s /\ recorded_child_count_ s = root_child_count_ s).
  { intros s. unfold destruct, idle. destruct (nothing_expected _); [|done].
    destruct (failed s); [done|]. cbn. by destruct (Z.eqb_spec (recorded_child_count_ s) (root_child_count_ s)). }
  unfold test_case. destruct (record_outlines source rs (construct root)) as [[] s|s| |] eqn:Hrun; try done.
  - intros Hd%Hpass. eauto.
  - intros [[_ Hf] _]%Hpass. assert (Hfail : fails (record_outlines source rs)).
    { apply fails_record_outlines, Forall_forall. intros r _. apply fails_record_outline. }
    apply Hfail in Hrun. congruence.
Qed.

(** C31. The tests' comparison of trees does what it is for, except for literals: a
    test case that records outlines passes exactly when they are the outlines of the
    definitions of the tree and none of them contains a literal. A recording with a
    literal never passes, not even on the tree that it describes, since recording a
    literal does not visit a node. *)
Theorem ast_compare_accepts_outlines : forall source root rs,
  forallb recordable rs = true ->
  test_case root (record_outlines source rs) = passed <->
  outline_root source root = Some rs /\ forallb literal_free rs = true.
Proof.
  intros source root rs Hrec. rewrite outline_root_spec.
  set (nodes := map node_function_definition (definitions root)). split.
  - intros (s & Hrun & Hs & Hcount)%test_case_passed.
    destruct (record_outlines_sound source rs) with (s := construct root) (s' := s)
      as (_ & Hl & ns & rest & Hn & Ho & ->); [|done..|].
    { apply Forall_forall. intros r _. apply record_outline_sound. }
    split; [|done]. cbn -[Z.add] in Hn, Hcount. fold nodes in Hn, Hcount.
    assert (rest = []) as ->.
    { apply length_zero_iff_nil. rewrite Hn, length_app, (Forall2_length _ _ _ Ho) in Hcount. lia. }
    by rewrite app_nil_r in Hn; subst ns.
  - intros [Ho Hl]. unfold test_case.
    rewrite (record_outlines_run source rs nodes) with (rest := []); [|..|done|cbn; by rewrite app_nil_r].
    + unfold destruct. cbn -[Z.add]. rewrite <-(Forall2_length _ _ _ Ho). unfold nodes.
      by rewrite Z.add_0_l, Z.eqb_refl.
    + clear Hrec. induction Ho as [|n r ns rs Hr _ IH]; [constructor|].
      cbn in Hl. apply andb_prop in Hl as [Hl1 Hl]. constructor; [|by apply IH]. by apply outlines_records.
Qed.

(** The tree of [f() { return 1; }]. *)
Definition literal_root : AstRoot := {| definitions := [
  {| def_token_offset := 0; access_modifier := AccessModifier.none;
     def_name := {| name_offset := 0; name_length := 1 |}; parameters := []; outputs := [];
     statements := [AstReturnExpr 6 [AstLiteralExpr 13 LiteralKind.dec_int 1]] |}] |}.

Definition literal_outline : list Outline :=
  [outline (Outline.function_definition AccessModifier.none (lit "f"))
     [outline Outline.return_expr [outline (Outline.literal_expr LiteralKind.dec_int (lit "1")) []]]].

(** The recording that describes this tree crashes. *)
Lemma ast_compare_accepts_outlines_witness :
  let source := lit "f() { return 1; }" in
  outline_root source literal_root = Some literal_outline /\
  forallb recordable literal_outline = true /\
  test_case literal_root (record_outlines source literal_outline) = crashed /\
  (test_case literal_root (record_outlines source literal_outline) = passed <->
   outline_root source literal_root = Some literal_outline /\ forallb literal_free literal_outline = true).
Proof.
  split; [vm_compute; reflexivity|]. split; [reflexivity|]. split; [vm_compute; reflexivity|].
  exact (ast_compare_accepts_outlines (lit "f() { return 1; }") literal_root literal_outline eq_refl).
Defined.
