(* ===== verification/Evaluator.v ===== *)
(** What there is of the evaluator and the type context
    (src/cero/sema/evaluator.cc, type_context.hh): a visitor whose functions are
    empty, a function without a body, and a map without operations. *)

From stdpp Require Import gmap.
From S2P Require Import Prelude Report Source Ast.

(** [class Type], and [TypeContext] with its only member; a [TypeId] is a 64-bit
    number. *)
Inductive Type_ := type_.
Record TypeContext := { type_map_ : gmap Z Type_ }.

Section Evaluator.
Context {S : Type}.

#[export] Instance Evaluator : AstVisitor (M S unit) := {|
  visit_function_definition _ := ret tt;
  visit_function_parameter _ := ret tt;
  visit_function_output _ := ret tt;
  visit_ident_expr _ _ := ret tt;
  visit_literal_expr _ _ _ := ret tt;
  visit_block_expr _ _ := ret tt;
  visit_return_expr _ _ := ret tt;
  visit_unary_expr _ _ _ := ret tt;
  visit_binary_expr _ _ _ _ := ret tt;
  visit_call_expr _ _ _ := ret tt;
|}.

(** A function that flows off its end without a result. *)
Definition evaluate_type : M S Z := abort.

(** Evaluating a node does nothing, and does not go into its children. *)
Lemma evaluator_skips node s : visit (T := M S unit) node s = Done tt s.
Proof. by destruct node as [| | |[]]. Qed.

End Evaluator.
