(* ===== verification/Parser.v ===== *)
(** The parser (src/cero/syntax/parser.hh, parser.cc): a recursive-descent
    parser with a precedence-climbing core and two recovery points. One
    definition per member function; the recursion goes through [Recursion] and
    [parse]. The theorems are in ParserFacts.v and Grammar.v. *)

From Stdlib Require Import String.
From S2P Require Import Prelude Report Source Token Ast.

(** * Precedences *)

Module Precedence.
Inductive t :=
| statement
| assignment
| logical
| comparison
| additive_or_bit
| multiplicative
| prefix
| postfix.

(** The underlying value of an enumerator. *)
Definition value (p : t) : Z :=
  match p with
  | statement => 0
  | assignment => 1
  | logical => 2
  | comparison => 3
  | additive_or_bit => 4
  | multiplicative => 5
  | prefix => 6
  | postfix => 7
  end.

(** [operator<] on the enumeration *)
Definition ltb (p q : t) : bool := value p <? value q.
End Precedence.

Definition lookup_precedence_for_associativity (op : BinaryOperator.t) : Precedence.t :=
  match op with
  | BinaryOperator.add | BinaryOperator.sub => Precedence.additive_or_bit
  | BinaryOperator.mul | BinaryOperator.div | BinaryOperator.rem => Precedence.multiplicative
  | BinaryOperator.bit_and | BinaryOperator.bit_or | BinaryOperator.bit_xor
  | BinaryOperator.shl | BinaryOperator.shr => Precedence.additive_or_bit
  | BinaryOperator.eq | BinaryOperator.neq | BinaryOperator.less | BinaryOperator.less_eq
  | BinaryOperator.greater | BinaryOperator.greater_eq => Precedence.comparison
  | BinaryOperator.logic_and | BinaryOperator.logic_or => Precedence.logical
  | BinaryOperator.assign | BinaryOperator.add_assign | BinaryOperator.sub_assign
  | BinaryOperator.mul_assign | BinaryOperator.div_assign | BinaryOperator.rem_assign
  | BinaryOperator.bit_and_assign | BinaryOperator.bit_or_assign | BinaryOperator.xor_assign
  | BinaryOperator.shl_assign | BinaryOperator.shr_assign
  | BinaryOperator.logic_and_assign | BinaryOperator.logic_or_assign => Precedence.assignment
  end.

(** * State *)

(** The mutable members of [struct Parser], without the tree, whose nodes are
    the values that the functions return; [reports_] is the sequence of reports
    that the reporter has received. *)
Record ParserState := {
  cursor_ : TokenCursor.t;
  reports_ : list Report;
}.

Definition P (A : Type) : Type := M ParserState A.

(** The measure of the parser's loops: the tokens left. *)
Definition remaining (s : ParserState) : nat := length (cursor_ s).

(** * Calls on the cursor *)

(** A call that only reads the cursor, and one that may move it. *)
Definition on_cursor {A} (f : TokenCursor.t -> option A) : P A :=
  fun s => match f (cursor_ s) with Some a => Done a s | None => Aborted end.
Definition move_cursor {A} (f : TokenCursor.t -> option (A * TokenCursor.t)) : P A :=
  fun s => match f (cursor_ s) with
           | Some (a, cursor) => Done a {| cursor_ := cursor; reports_ := reports_ s |}
           | None => Aborted
           end.

Definition cursor_peek : P Token := on_cursor TokenCursor.peek.
Definition cursor_peek_kind : P TokenKind.t := on_cursor TokenCursor.peek_kind.
Definition cursor_peek_offset : P Z := on_cursor TokenCursor.peek_offset.
Definition cursor_peek_ahead : P Token := on_cursor TokenCursor.peek_ahead.
Definition cursor_next : P Token := move_cursor TokenCursor.next.
Definition cursor_match (kind : TokenKind.t) : P bool :=
  move_cursor (fun it => TokenCursor.match_kind it kind).
Definition cursor_match_token (kind : TokenKind.t) : P (option Token) :=
  move_cursor (fun it => TokenCursor.match_token it kind).
Definition cursor_advance : P unit :=
  move_cursor (fun it => pair tt <$> TokenCursor.advance it).

Section Parser.
Context `{Fmt} (source_ : SourceView.t) (tab_size_ : Z).

(** * Reporting utilities *)

Definition report (message : Message) (location : CodeLocation) (args : MessageArgs) : P unit :=
  r <- expect_some (make_report location message args) ;;
  modify (fun s => {| cursor_ := cursor_ s; reports_ := reports_ s ++ [r] |}).

Definition report_expected (message : Message) : P unit :=
  token <- cursor_peek ;;
  location <- expect_some (Token_locate_in token source_ tab_size_) ;;
  let format := get_token_message_format (kind token) in
  lexeme <- expect_some (Token_get_text token source_) ;;
  let message_str := vformat format [arg_string lexeme] in
  report message location [arg_string message_str].

Definition expect (kind : TokenKind.t) (message : Message) : P unit :=
  b <- cursor_match kind ;;
  if negb b then report_expected message ;; throw else ret tt.

Definition expect_identifier (message : Message) : P AstName :=
  token <- cursor_match_token TokenKind.identifier ;;
  match token with
  | Some token => expect_some (AstName_from token)
  | None => report_expected message ;; ret empty_name
  end.

(** [do { node = item(); put(list, node); } while (cursor_.match(comma))] *)
Definition comma_separated {A} (item : P A) : P (list A) :=
  loop remaining (fun list =>
    node <- item ;;
    let list := list ++ [node] in
    comma <- cursor_match TokenKind.comma ;;
    if comma : bool then ret (Continue list) else ret (Break list)) [].

(** * Heads that do not recurse *)

Definition on_identifier : P AstExpression :=
  token <- cursor_next ;;
  ret (AstIdentExpr (node_offset (offset token)) (variable_length token)).

Definition on_literal (literal_kind : LiteralKind.t) : P AstExpression :=
  token <- cursor_next ;;
  ret (AstLiteralExpr (node_offset (offset token)) literal_kind (variable_length token)).

Definition recover_at_statement_level : P bool :=
  kind <- cursor_peek_kind ;;
  loop remaining (fun kind =>
    if TokenKind.eqb kind TokenKind.end_of_file then ret (Break true)
    else if TokenKind.eqb kind TokenKind.semicolon then cursor_advance ;; ret (Break false)
    else if TokenKind.eqb kind TokenKind.r_brace then ret (Break false)
    else
      cursor_advance ;;
      kind <- cursor_peek_kind ;;
      ret (Continue kind)) kind.

(** * Expressions and statements *)

(** The functions through which parsing recurses. *)
Record Recursion := {
  rec_expression : Precedence.t -> P AstExpression;
  rec_block : P (list AstExpression);
}.

Section Bodies.
Context (rec : Recursion).

(** Calls of [parse_expression] and [parse_block] from below. *)
Let parse_expression (precedence : Precedence.t) : P AstExpression := rec_expression rec precedence.
Let parse_block : P (list AstExpression) := rec_block rec.

Definition on_prefix_left_brace : P AstExpression :=
  token <- cursor_next ;;
  statements <- parse_block ;;
  ret (AstBlockExpr (node_offset (offset token)) statements).

Definition on_prefix_operator (op : UnaryOperator.t) : P AstExpression :=
  token <- cursor_next ;;
  operand <- parse_expression Precedence.prefix ;;
  ret (AstUnaryExpr (node_offset (offset token)) op operand).

(** The kinds of token that begin an expression: the cases of
    [lookup_head_parse_fn] that are not [nullptr]. *)
Inductive HeadParseFunction :=
| head_identifier
| head_literal (literal_kind : LiteralKind.t)
| head_left_brace
| head_return
| head_prefix_operator (op : UnaryOperator.t).

Definition lookup_head_parse_fn (kind : TokenKind.t) : option HeadParseFunction :=
  match kind with
  | TokenKind.identifier => Some head_identifier
  | TokenKind.dec_int_literal => Some (head_literal LiteralKind.dec_int)
  | TokenKind.hex_int_literal => Some (head_literal LiteralKind.hex_int)
  | TokenKind.bin_int_literal => Some (head_literal LiteralKind.bin_int)
  | TokenKind.oct_int_literal => Some (head_literal LiteralKind.oct_int)
  | TokenKind.float_literal => Some (head_literal LiteralKind.float_)
  | TokenKind.char_literal => Some (head_literal LiteralKind.char_)
  | TokenKind.string_literal => Some (head_literal LiteralKind.string)
  | TokenKind.l_brace => Some head_left_brace
  | TokenKind.kw_return => Some head_return
  | TokenKind.ampersand => Some (head_prefix_operator UnaryOperator.addr_of)
  | TokenKind.minus => Some (head_prefix_operator UnaryOperator.negate)
  | TokenKind.tilde => Some (head_prefix_operator UnaryOperator.bit_not)
  | TokenKind.bang => Some (head_prefix_operator UnaryOperator.logic_not)
  | TokenKind.plus_plus => Some (head_prefix_operator UnaryOperator.pre_increment)
  | TokenKind.minus_minus => Some (head_prefix_operator UnaryOperator.pre_decrement)
  | _ => None
  end.

Definition is_expression_next : P bool :=
  kind <- cursor_peek_kind ;;
  ret match lookup_head_parse_fn kind with Some _ => true | None => false end.

Definition on_kw_return : P AstExpression :=
  token <- cursor_next ;;
  next <- is_expression_next ;;
  ret_values <- (if next : bool then comma_separated (parse_expression Precedence.statement)
                 else ret []) ;;
  ret (AstReturnExpr (node_offset (offset token)) ret_values).

(** [(this->*head_fn)()] *)
Definition call_head (head_fn : HeadParseFunction) : P AstExpression :=
  match head_fn with
  | head_identifier => on_identifier
  | head_literal literal_kind => on_literal literal_kind
  | head_left_brace => on_prefix_left_brace
  | head_return => on_kw_return
  | head_prefix_operator op => on_prefix_operator op
  end.

(** The functions that continue an expression after its head. *)
Inductive TailParseFunction :=
| tail_binary_operator (op : BinaryOperator.t)
| tail_postfix_operator (op : UnaryOperator.t)
| tail_left_paren.

(** A rule is a precedence and a function ([None] is [nullptr]). *)
Definition lookup_tail_parse_rule (token : Token) : P (Precedence.t * option TailParseFunction) :=
  let binary p op := ret (p, Some (tail_binary_operator op)) in
  let postfix_operator op := ret (Precedence.postfix, Some (tail_postfix_operator op)) in
  match kind token with
  | TokenKind.eq => binary Precedence.assignment BinaryOperator.assign
  | TokenKind.plus_eq => binary Precedence.assignment BinaryOperator.add_assign
  | TokenKind.minus_eq => binary Precedence.assignment BinaryOperator.sub_assign
  | TokenKind.star_eq => binary Precedence.assignment BinaryOperator.mul_assign
  | TokenKind.slash_eq => binary Precedence.assignment BinaryOperator.div_assign
  | TokenKind.percent_eq => binary Precedence.assignment BinaryOperator.rem_assign
  | TokenKind.ampersand_eq => binary Precedence.assignment BinaryOperator.bit_and_assign
  | TokenKind.pipe_eq => binary Precedence.assignment BinaryOperator.bit_or_assign
  | TokenKind.tilde_eq => binary Precedence.assignment BinaryOperator.xor_assign
  | TokenKind.l_angle_angle_eq => binary Precedence.assignment BinaryOperator.shl_assign
  | TokenKind.r_angle_angle_eq => binary Precedence.assignment BinaryOperator.shr_assign
  | TokenKind.and_and_eq => binary Precedence.assignment BinaryOperator.logic_and_assign
  | TokenKind.pipe_pipe_eq => binary Precedence.assignment BinaryOperator.logic_or_assign
  | TokenKind.and_and => binary Precedence.logical BinaryOperator.logic_and
  | TokenKind.pipe_pipe => binary Precedence.logical BinaryOperator.logic_or
  | TokenKind.eq_eq => binary Precedence.comparison BinaryOperator.eq
  | TokenKind.bang_eq => binary Precedence.comparison BinaryOperator.neq
  | TokenKind.l_angle => binary Precedence.comparison BinaryOperator.less
  | TokenKind.l_angle_eq => binary Precedence.comparison BinaryOperator.less_eq
  | TokenKind.r_angle_eq => binary Precedence.comparison BinaryOperator.greater_eq
  | TokenKind.plus => binary Precedence.additive_or_bit BinaryOperator.add
  | TokenKind.minus => binary Precedence.additive_or_bit BinaryOperator.sub
  | TokenKind.ampersand => binary Precedence.additive_or_bit BinaryOperator.bit_and
  | TokenKind.pipe => binary Precedence.additive_or_bit BinaryOperator.bit_or
  | TokenKind.tilde => binary Precedence.additive_or_bit BinaryOperator.bit_xor
  | TokenKind.l_angle_angle => binary Precedence.additive_or_bit BinaryOperator.shl
  | TokenKind.star => binary Precedence.multiplicative BinaryOperator.mul
  | TokenKind.slash => binary Precedence.multiplicative BinaryOperator.div
  | TokenKind.percent => binary Precedence.multiplicative BinaryOperator.rem
  | TokenKind.caret => postfix_operator UnaryOperator.deref
  | TokenKind.plus_plus => postfix_operator UnaryOperator.post_increment
  | TokenKind.minus_minus => postfix_operator UnaryOperator.post_decrement
  | TokenKind.l_paren => ret (Precedence.postfix, Some tail_left_paren)
  | TokenKind.r_angle =>
      next <- cursor_peek_ahead ;;
      if TokenKind.eqb (kind next) TokenKind.r_angle && (offset next =? offset token + 1) then
        binary Precedence.additive_or_bit BinaryOperator.shr
      else binary Precedence.comparison BinaryOperator.greater
  | _ => ret (Precedence.statement, None)
  end.

Definition get_next_tail_parse_fn (current_precedence : Precedence.t)
    : P (option TailParseFunction) :=
  token <- cursor_peek ;;
  rule <- lookup_tail_parse_rule token ;;
  let (precedence, fn) := rule : Precedence.t * option TailParseFunction in
  if Precedence.ltb current_precedence precedence then ret fn else ret None.

Definition on_binary_operator (op : BinaryOperator.t) (left : AstExpression) : P AstExpression :=
  cursor_advance ;;
  (if bool_decide (op = BinaryOperator.shr) then cursor_advance else ret tt) ;;
  let precedence := lookup_precedence_for_associativity op in
  right <- parse_expression precedence ;;
  ret (AstBinaryExpr (node_offset (token_offset left)) op left right).

Definition on_postfix_operator (op : UnaryOperator.t) (left : AstExpression) : P AstExpression :=
  cursor_advance ;;
  ret (AstUnaryExpr (node_offset (token_offset left)) op left).

Definition on_infix_left_paren (left : AstExpression) : P AstExpression :=
  cursor_advance ;;
  closed <- cursor_match TokenKind.r_paren ;;
  args <- (if negb closed then
             args <- comma_separated (parse_expression Precedence.statement) ;;
             expect TokenKind.r_paren expect_closing_paren_in_call ;;
             ret args
           else ret []) ;;
  ret (AstCallExpr (node_offset (token_offset left)) left args).

(** [(this->*tail_fn)(expr)] *)
Definition call_tail (tail_fn : TailParseFunction) (expr : AstExpression) : P AstExpression :=
  match tail_fn with
  | tail_binary_operator op => on_binary_operator op expr
  | tail_postfix_operator op => on_postfix_operator op expr
  | tail_left_paren => on_infix_left_paren expr
  end.

Definition parse_expression_body (precedence : Precedence.t) : P AstExpression :=
  next <- cursor_peek ;;
  match lookup_head_parse_fn (kind next) with
  | None => report_expected expect_expression ;; throw
  | Some head_fn =>
      expr <- call_head head_fn ;;
      loop remaining (fun expr =>
        tail_fn <- get_next_tail_parse_fn precedence ;;
        match tail_fn with
        | Some tail_fn =>
            expr <- call_tail tail_fn expr ;;
            ret (Continue expr)
        | None => ret (Break expr)
        end) expr
  end.

(** The statement rules: the parse function and [needs_semicolon]. *)
Definition lookup_statement_rule : P (P AstExpression * bool) :=
  next <- cursor_peek_kind ;;
  match next with
  | TokenKind.l_brace => ret (on_prefix_left_brace, false)
  | _ => ret (parse_expression_body Precedence.statement, true)
  end.

Definition parse_statement : P AstExpression :=
  rule <- lookup_statement_rule ;;
  let (parse_fn, needs_semicolon) := rule : P AstExpression * bool in
  last_expr <- parse_fn ;;
  (if needs_semicolon : bool then expect TokenKind.semicolon expect_semicolon else ret tt) ;;
  ret last_expr.

Definition parse_block_body : P (list AstExpression) :=
  loop remaining (fun statements =>
    closed <- cursor_match TokenKind.r_brace ;;
    if negb closed then
      catch
        (statement <- parse_statement ;;
         ret (Continue (statements ++ [statement])))
        (at_end <- recover_at_statement_level ;;
         if at_end : bool then ret (Break statements) else ret (Continue statements))
    else ret (Break statements)) [].

End Bodies.

(** The recursion, with [fuel] bounding its depth. *)
Fixpoint parse (fuel : nat) : Recursion :=
  match fuel with
  | O => {| rec_expression := fun _ => diverge; rec_block := diverge |}
  | S fuel =>
      let rec := parse fuel in
      {| rec_expression := parse_expression_body rec; rec_block := parse_block_body rec |}
  end.

(** Every recursive call comes after at least one token was consumed, so the
    number of tokens left bounds the depth. *)
Definition parse_expression (precedence : Precedence.t) : P AstExpression :=
  fun s => rec_expression (parse (S (remaining s))) precedence s.
Definition parse_block : P (list AstExpression) :=
  fun s => rec_block (parse (S (remaining s))) s.

(** * Definitions *)

Definition parse_type (error_message : Message) : P AstExpression :=
  kind <- cursor_peek_kind ;;
  if TokenKind.eqb kind TokenKind.identifier then on_identifier
  else report_expected error_message ;; throw.

Definition parse_function_definition_parameter : P AstFunctionParameter :=
  offset <- cursor_peek_offset ;;
  type <- parse_type expect_parameter_type ;;
  name <- expect_identifier expect_parameter_name ;;
  if AstName_is_empty name then throw
  else ret {| param_token_offset := node_offset offset; param_type := type; param_name := name |}.

Definition parse_function_definition_parameters : P (list AstFunctionParameter) :=
  closed <- cursor_match TokenKind.r_paren ;;
  if negb closed then
    parameters <- comma_separated parse_function_definition_parameter ;;
    expect TokenKind.r_paren expect_paren_after_parameters ;;
    ret parameters
  else ret [].

Definition parse_function_definition_output : P AstFunctionOutput :=
  offset <- cursor_peek_offset ;;
  type <- parse_type expect_return_type ;;
  ret {| output_token_offset := node_offset offset; output_type := type; output_name := empty_name |}.

Definition parse_function_definition_outputs : P (list AstFunctionOutput) :=
  arrow <- cursor_match TokenKind.thin_arrow ;;
  if arrow : bool then comma_separated parse_function_definition_output else ret [].

Definition parse_function_definition (offset : Z) (access_modifier : AccessModifier.t)
    (identifier : Token) : P AstFunctionDefinition :=
  name <- expect_some (AstName_from identifier) ;;
  expect TokenKind.l_paren expect_paren_after_function_name ;;
  parameters <- parse_function_definition_parameters ;;
  outputs <- parse_function_definition_outputs ;;
  expect TokenKind.l_brace expect_brace_before_function_body ;;
  statements <- parse_block ;;
  ret {| def_token_offset := node_offset offset;
         access_modifier := access_modifier;
         def_name := name;
         parameters := parameters;
         outputs := outputs;
         statements := statements |}.

Definition parse_definition : P AstFunctionDefinition :=
  offset <- cursor_peek_offset ;;
  private <- cursor_match TokenKind.kw_private ;;
  access_modifier <-
    (if private : bool then ret AccessModifier.private_
     else
       public <- cursor_match TokenKind.kw_public ;;
       if public : bool then ret AccessModifier.public_ else ret AccessModifier.none) ;;
  token <- cursor_match_token TokenKind.identifier ;;
  match token with
  | Some token => parse_function_definition offset access_modifier token
  | None => report_expected expect_function_struct_or_enum ;; throw
  end.

Definition recovery_tokens : list TokenKind.t :=
  [TokenKind.kw_public; TokenKind.kw_private; TokenKind.kw_struct; TokenKind.kw_enum;
   TokenKind.end_of_file].

Definition recover_at_definition_level : P unit :=
  loop remaining (fun _ =>
    cursor_advance ;;
    kind <- cursor_peek_kind ;;
    if negb (existsb (TokenKind.eqb kind) recovery_tokens) then ret (Continue tt)
    else ret (Break tt)) tt.

Definition run : P AstRoot :=
  loop remaining (fun definitions =>
    at_end <- cursor_match TokenKind.end_of_file ;;
    if negb at_end then
      catch
        (definition <- parse_definition ;;
         ret (Continue (definitions ++ [definition])))
        (recover_at_definition_level ;;
         ret (Continue definitions))
    else ret (Break {| definitions := definitions |})) [].

(** [run_parser] on a reporter that has received [reports]. *)
Definition run_parser (token_list : TokenList) : M (list Report) AstRoot :=
  fun reports =>
    let parser := {| cursor_ := TokenCursor.new token_list; reports_ := reports |} in
    match run parser with
    | Done root parser => Done root (reports_ parser)
    | Thrown parser => Thrown (reports_ parser)
    | Aborted => Aborted
    | OutOfFuel => OutOfFuel
    end.

End Parser.
