(* ===== verification/Grammar.v ===== *)
(** The grammar of Cero as a relation between token sequences and syntax trees,
    without cursor, fuel, exceptions or recovery: what the parser of Parser.v
    accepts without a report (ParserFacts.v and ParserComplete.v). *)

From S2P Require Import Prelude Report Source Token Ast Parser.

(** * Operators *)

Definition binary_operator_of (kind : TokenKind.t) : option BinaryOperator.t :=
  match kind with
  | TokenKind.eq => Some BinaryOperator.assign
  | TokenKind.plus_eq => Some BinaryOperator.add_assign
  | TokenKind.minus_eq => Some BinaryOperator.sub_assign
  | TokenKind.star_eq => Some BinaryOperator.mul_assign
  | TokenKind.slash_eq => Some BinaryOperator.div_assign
  | TokenKind.percent_eq => Some BinaryOperator.rem_assign
  | TokenKind.ampersand_eq => Some BinaryOperator.bit_and_assign
  | TokenKind.pipe_eq => Some BinaryOperator.bit_or_assign
  | TokenKind.tilde_eq => Some BinaryOperator.xor_assign
  | TokenKind.l_angle_angle_eq => Some BinaryOperator.shl_assign
  | TokenKind.r_angle_angle_eq => Some BinaryOperator.shr_assign
  | TokenKind.and_and_eq => Some BinaryOperator.logic_and_assign
  | TokenKind.pipe_pipe_eq => Some BinaryOperator.logic_or_assign
  | TokenKind.and_and => Some BinaryOperator.logic_and
  | TokenKind.pipe_pipe => Some BinaryOperator.logic_or
  | TokenKind.eq_eq => Some BinaryOperator.eq
  | TokenKind.bang_eq => Some BinaryOperator.neq
  | TokenKind.l_angle => Some BinaryOperator.less
  | TokenKind.l_angle_eq => Some BinaryOperator.less_eq
  | TokenKind.r_angle => Some BinaryOperator.greater
  | TokenKind.r_angle_eq => Some BinaryOperator.greater_eq
  | TokenKind.plus => Some BinaryOperator.add
  | TokenKind.minus => Some BinaryOperator.sub
  | TokenKind.ampersand => Some BinaryOperator.bit_and
  | TokenKind.pipe => Some BinaryOperator.bit_or
  | TokenKind.tilde => Some BinaryOperator.bit_xor
  | TokenKind.l_angle_angle => Some BinaryOperator.shl
  | TokenKind.star => Some BinaryOperator.mul
  | TokenKind.slash => Some BinaryOperator.div
  | TokenKind.percent => Some BinaryOperator.rem
  | _ => None
  end.

Definition postfix_operator_of (kind : TokenKind.t) : option UnaryOperator.t :=
  match kind with
  | TokenKind.caret => Some UnaryOperator.deref
  | TokenKind.plus_plus => Some UnaryOperator.post_increment
  | TokenKind.minus_minus => Some UnaryOperator.post_decrement
  | _ => None
  end.

Definition prefix_operator_of (kind : TokenKind.t) : option UnaryOperator.t :=
  match kind with
  | TokenKind.ampersand => Some UnaryOperator.addr_of
  | TokenKind.minus => Some UnaryOperator.negate
  | TokenKind.tilde => Some UnaryOperator.bit_not
  | TokenKind.bang => Some UnaryOperator.logic_not
  | TokenKind.plus_plus => Some UnaryOperator.pre_increment
  | TokenKind.minus_minus => Some UnaryOperator.pre_decrement
  | _ => None
  end.

Definition literal_kind_of (kind : TokenKind.t) : option LiteralKind.t :=
  match kind with
  | TokenKind.dec_int_literal => Some LiteralKind.dec_int
  | TokenKind.hex_int_literal => Some LiteralKind.hex_int
  | TokenKind.bin_int_literal => Some LiteralKind.bin_int
  | TokenKind.oct_int_literal => Some LiteralKind.oct_int
  | TokenKind.float_literal => Some LiteralKind.float_
  | TokenKind.char_literal => Some LiteralKind.char_
  | TokenKind.string_literal => Some LiteralKind.string
  | _ => None
  end.

(** Two adjacent [>] tokens are the operator [>>]. *)
Definition is_shr (it : list Token) : bool :=
  match it with
  | t1 :: t2 :: _ =>
      TokenKind.eqb (kind t1) TokenKind.r_angle && TokenKind.eqb (kind t2) TokenKind.r_angle &&
      (offset t2 =? offset t1 + 1)
  | _ => false
  end.

(** What the next tokens add to an expression before them. *)
Inductive Continuation :=
| adds_binary (op : BinaryOperator.t)
| adds_postfix (op : UnaryOperator.t)
| adds_call.

Definition continuation (it : list Token) : option Continuation :=
  match it with
  | [] => None
  | t :: _ =>
      if is_shr it then Some (adds_binary BinaryOperator.shr)
      else match binary_operator_of (kind t), postfix_operator_of (kind t) with
           | Some op, _ => Some (adds_binary op)
           | _, Some op => Some (adds_postfix op)
           | _, _ => if TokenKind.eqb (kind t) TokenKind.l_paren then Some adds_call else None
           end
  end.

(** How tightly a continuation binds what is before it. *)
Definition binding (c : Continuation) : Precedence.t :=
  match c with
  | adds_binary op => lookup_precedence_for_associativity op
  | adds_postfix _ | adds_call => Precedence.postfix
  end.

(** The continuation that binds tighter than [p], if there is one. *)
Definition next_continuation (p : Precedence.t) (it : list Token) : option Continuation :=
  match continuation it with
  | Some c => if Precedence.ltb p (binding c) then Some c else None
  | None => None
  end.

Definition starts_expression (it : list Token) : bool :=
  match it with
  | [] => false
  | t :: _ =>
      match prefix_operator_of (kind t), literal_kind_of (kind t) with
      | None, None => TokenKind.eqb (kind t) TokenKind.identifier
                      || TokenKind.eqb (kind t) TokenKind.l_brace
                      || TokenKind.eqb (kind t) TokenKind.kw_return
      | _, _ => true
      end
  end.

Definition next_is (kind_ : TokenKind.t) (it : list Token) : Prop :=
  match it with t :: _ => kind t = kind_ | [] => False end.

(** * Expressions and statements *)

(** [parses_expr p e it it']: the tokens [it] start with an expression with the
    tree [e], all of whose top-level operators bind tighter than [p] and which is
    as long as possible; [it'] follow it. *)
Inductive parses_expr : Precedence.t -> AstExpression -> list Token -> list Token -> Prop :=
| parses_expr_intro p e0 e it it1 it' :
    parses_head e0 it it1 -> parses_tails p e0 e it1 it' -> parses_expr p e it it'

(** Expressions by their first token. *)
with parses_head : AstExpression -> list Token -> list Token -> Prop :=
| parses_identifier t it :
    kind t = TokenKind.identifier ->
    parses_head (AstIdentExpr (node_offset (offset t)) (variable_length t)) (t :: it) it
| parses_literal t it k :
    literal_kind_of (kind t) = Some k ->
    parses_head (AstLiteralExpr (node_offset (offset t)) k (variable_length t)) (t :: it) it
| parses_block_expr t statements it it' :
    kind t = TokenKind.l_brace -> parses_block statements it it' ->
    parses_head (AstBlockExpr (node_offset (offset t)) statements) (t :: it) it'
| parses_bare_return t it :
    kind t = TokenKind.kw_return -> starts_expression it = false ->
    parses_head (AstReturnExpr (node_offset (offset t)) []) (t :: it) it
| parses_return t values it it' :
    kind t = TokenKind.kw_return -> starts_expression it = true ->
    parses_list values it it' ->
    parses_head (AstReturnExpr (node_offset (offset t)) values) (t :: it) it'
| parses_prefix t op operand it it' :
    prefix_operator_of (kind t) = Some op -> parses_expr Precedence.prefix operand it it' ->
    parses_head (AstUnaryExpr (node_offset (offset t)) op operand) (t :: it) it'

(** [parses_tails p e0 e it it']: the continuations at the front of [it] that bind
    tighter than [p] make [e] out of [e0]; operators of one precedence associate
    to the left. *)
with parses_tails : Precedence.t -> AstExpression -> AstExpression -> list Token -> list Token -> Prop :=
| parses_no_tail p e it : next_continuation p it = None -> parses_tails p e e it it
| parses_binary p e0 e op right t it it1 it2 it' :
    next_continuation p (t :: it) = Some (adds_binary op) ->
    it1 = (if bool_decide (op = BinaryOperator.shr) then tail it else it) ->
    parses_expr (lookup_precedence_for_associativity op) right it1 it2 ->
    parses_tails p (AstBinaryExpr (node_offset (token_offset e0)) op e0 right) e it2 it' ->
    parses_tails p e0 e (t :: it) it'
| parses_postfix p e0 e op t it it' :
    next_continuation p (t :: it) = Some (adds_postfix op) ->
    parses_tails p (AstUnaryExpr (node_offset (token_offset e0)) op e0) e it it' ->
    parses_tails p e0 e (t :: it) it'
| parses_empty_call p e0 e t t2 it it' :
    next_continuation p (t :: t2 :: it) = Some adds_call -> kind t2 = TokenKind.r_paren ->
    parses_tails p (AstCallExpr (node_offset (token_offset e0)) e0 []) e it it' ->
    parses_tails p e0 e (t :: t2 :: it) it'
| parses_call p e0 e args t t2 it it2 it' :
    next_continuation p (t :: it) = Some adds_call -> ~ next_is TokenKind.r_paren it ->
    parses_list args it (t2 :: it2) -> kind t2 = TokenKind.r_paren ->
    parses_tails p (AstCallExpr (node_offset (token_offset e0)) e0 args) e it2 it' ->
    parses_tails p e0 e (t :: it) it'

(** Expressions separated by commas. *)
with parses_list : list AstExpression -> list Token -> list Token -> Prop :=
| parses_one e it it' :
    parses_expr Precedence.statement e it it' -> ~ next_is TokenKind.comma it' ->
    parses_list [e] it it'
| parses_more e es t it it1 it' :
    parses_expr Precedence.statement e it (t :: it1) -> kind t = TokenKind.comma ->
    parses_list es it1 it' -> parses_list (e :: es) it it'

(** The statements of a block up to its closing brace. *)
with parses_block : list AstExpression -> list Token -> list Token -> Prop :=
| parses_close t it : kind t = TokenKind.r_brace -> parses_block [] (t :: it) it
| parses_statement e es it it1 it' :
    ~ next_is TokenKind.r_brace it -> parses_stmt e it it1 -> parses_block es it1 it' ->
    parses_block (e :: es) it it'

(** A statement is a block, or an expression and a semicolon. *)
with parses_stmt : AstExpression -> list Token -> list Token -> Prop :=
| parses_block_stmt t statements it it' :
    kind t = TokenKind.l_brace -> parses_block statements it it' ->
    parses_stmt (AstBlockExpr (node_offset (offset t)) statements) (t :: it) it'
| parses_expr_stmt e t it it' :
    ~ next_is TokenKind.l_brace it -> parses_expr Precedence.statement e it (t :: it') ->
    kind t = TokenKind.semicolon -> parses_stmt e it it'.

Scheme parses_expr_mind := Minimality for parses_expr Sort Prop
  with parses_head_mind := Minimality for parses_head Sort Prop
  with parses_tails_mind := Minimality for parses_tails Sort Prop
  with parses_list_mind := Minimality for parses_list Sort Prop
  with parses_block_mind := Minimality for parses_block Sort Prop
  with parses_stmt_mind := Minimality for parses_stmt Sort Prop.
Combined Scheme grammar_ind from parses_expr_mind, parses_head_mind, parses_tails_mind,
  parses_list_mind, parses_block_mind, parses_stmt_mind.

(** * Definitions *)

(** [sep R l it it']: elements of [R] separated by commas. *)
Inductive sep {A} (R : A -> list Token -> list Token -> Prop) : list A -> list Token -> list Token -> Prop :=
| sep_one a it it' : R a it it' -> ~ next_is TokenKind.comma it' -> sep R [a] it it'
| sep_more a l t it it1 it' :
    R a it (t :: it1) -> kind t = TokenKind.comma -> sep R l it1 it' -> sep R (a :: l) it it'.

Lemma sep_parses_list es it it' :
  sep (parses_expr Precedence.statement) es it it' <-> parses_list es it it'.
Proof.
  split.
  - induction 1; [by apply parses_one|by eapply parses_more].
  - induction 1; [by apply sep_one|by eapply sep_more].
Qed.

(** A type is an identifier. *)
Inductive parses_type : AstExpression -> list Token -> list Token -> Prop :=
| parses_type_name t it :
    kind t = TokenKind.identifier ->
    parses_type (AstIdentExpr (node_offset (offset t)) (variable_length t)) (t :: it) it.

Definition name_of (t : Token) : AstName :=
  {| name_offset := offset t; name_length := variable_length t |}.

Inductive parses_parameter : AstFunctionParameter -> list Token -> list Token -> Prop :=
| parses_parameter_intro t type t2 it it' :
    parses_type type (t :: it) (t2 :: it') -> kind t2 = TokenKind.identifier ->
    parses_parameter {| param_token_offset := node_offset (offset t); param_type := type;
                        param_name := name_of t2 |} (t :: it) it'.

(** The parameters after the opening parenthesis. *)
Inductive parses_parameters : list AstFunctionParameter -> list Token -> list Token -> Prop :=
| parses_no_parameters t it : kind t = TokenKind.r_paren -> parses_parameters [] (t :: it) it
| parses_some_parameters l t it it' :
    ~ next_is TokenKind.r_paren it -> sep parses_parameter l it (t :: it') ->
    kind t = TokenKind.r_paren -> parses_parameters l it it'.

Inductive parses_output : AstFunctionOutput -> list Token -> list Token -> Prop :=
| parses_output_intro t type it it' :
    parses_type type (t :: it) it' ->
    parses_output {| output_token_offset := node_offset (offset t); output_type := type;
                     output_name := empty_name |} (t :: it) it'.

Inductive parses_outputs : list AstFunctionOutput -> list Token -> list Token -> Prop :=
| parses_no_outputs it : ~ next_is TokenKind.thin_arrow it -> parses_outputs [] it it
| parses_some_outputs l t it it' :
    kind t = TokenKind.thin_arrow -> sep parses_output l it it' -> parses_outputs l (t :: it) it'.

Inductive parses_access : AccessModifier.t -> list Token -> list Token -> Prop :=
| parses_private t it : kind t = TokenKind.kw_private -> parses_access AccessModifier.private_ (t :: it) it
| parses_public t it : kind t = TokenKind.kw_public -> parses_access AccessModifier.public_ (t :: it) it
| parses_no_access it :
    ~ next_is TokenKind.kw_private it -> ~ next_is TokenKind.kw_public it ->
    parses_access AccessModifier.none it it.

Inductive parses_definition : AstFunctionDefinition -> list Token -> list Token -> Prop :=
| parses_definition_intro t access name paren brace params outs body it it1 it2 it3 it' :
    parses_access access (t :: it) (name :: paren :: it1) ->
    kind name = TokenKind.identifier -> kind paren = TokenKind.l_paren ->
    parses_parameters params it1 it2 -> parses_outputs outs it2 (brace :: it3) ->
    kind brace = TokenKind.l_brace -> parses_block body it3 it' ->
    parses_definition
      {| def_token_offset := node_offset (offset t); access_modifier := access;
         def_name := name_of name; parameters := params; outputs := outs; statements := body |}
      (t :: it) it'.

(** The definitions of a source up to its end. *)
Inductive parses_root : list AstFunctionDefinition -> list Token -> Prop :=
| parses_end t : kind t = TokenKind.end_of_file -> parses_root [] [t]
| parses_next_definition d ds it it' :
    ~ next_is TokenKind.end_of_file it -> parses_definition d it it' -> parses_root ds it' ->
    parses_root (d :: ds) it.
