(* ===== verification/GrammarFacts.v ===== *)
(** Precedence and associativity of the trees that the grammar derives. *)

From S2P Require Import Prelude Report Source Token Ast Parser Grammar.

(** * Well-nested trees *)

Definition is_prefix_operator (op : UnaryOperator.t) : bool :=
  match op with
  | UnaryOperator.pre_increment | UnaryOperator.pre_decrement | UnaryOperator.negate
  | UnaryOperator.bit_not | UnaryOperator.logic_not | UnaryOperator.addr_of => true
  | UnaryOperator.post_increment | UnaryOperator.post_decrement | UnaryOperator.deref => false
  end.

(** The value of the precedence of the operator at the root of a tree. *)
Definition tightness (e : AstExpression) : Z :=
  match e with
  | AstBinaryExpr _ op _ _ => Precedence.value (lookup_precedence_for_associativity op)
  | AstUnaryExpr _ op _ =>
      Precedence.value (if is_prefix_operator op then Precedence.prefix else Precedence.postfix)
  | _ => Precedence.value Precedence.postfix
  end.

(** Operands bind at least as tightly as their operator, right operands tighter:
    the tree is the one that the operators' precedences and associativity to the
    left give to its text. *)
#[warnings="-register-all"]
Inductive well_nested : AstExpression -> Prop :=
| wn_ident o n : well_nested (AstIdentExpr o n)
| wn_literal o k n : well_nested (AstLiteralExpr o k n)
| wn_block o es : Forall well_nested es -> well_nested (AstBlockExpr o es)
| wn_return o es : Forall well_nested es -> well_nested (AstReturnExpr o es)
| wn_prefix o op e :
    is_prefix_operator op = true -> well_nested e -> Precedence.value Precedence.prefix <= tightness e ->
    well_nested (AstUnaryExpr o op e)
| wn_postfix o op e :
    is_prefix_operator op = false -> well_nested e ->
    Precedence.value Precedence.postfix <= tightness e ->
    well_nested (AstUnaryExpr o op e)
| wn_binary o op left right :
    well_nested left -> well_nested right ->
    Precedence.value (lookup_precedence_for_associativity op) <= tightness left ->
    Precedence.value (lookup_precedence_for_associativity op) < tightness right ->
    well_nested (AstBinaryExpr o op left right)
| wn_call o callee args :
    well_nested callee -> Forall well_nested args ->
    Precedence.value Precedence.postfix <= tightness callee ->
    well_nested (AstCallExpr o callee args).

(** * Lemmas *)

Lemma binary_precedence op : 1 <= Precedence.value (lookup_precedence_for_associativity op) <= 5.
Proof. by destruct op. Qed.

Lemma binding_range c : 1 <= Precedence.value (binding c) <= 7.
Proof. destruct c; cbn; [pose proof (binary_precedence op)|..]; lia. Qed.

Lemma postfix_not_prefix k op : postfix_operator_of k = Some op -> is_prefix_operator op = false.
Proof. destruct k; try done; by intros [= <-]. Qed.

Lemma prefix_is_prefix k op : prefix_operator_of k = Some op -> is_prefix_operator op = true.
Proof. destruct k; try done; by intros [= <-]. Qed.

Lemma next_continuation_some p it c :
  next_continuation p it = Some c -> continuation it = Some c /\ Precedence.value p < Precedence.value (binding c).
Proof.
  unfold next_continuation. destruct (continuation it) as [d|]; [|done].
  unfold Precedence.ltb. destruct (Z.ltb_spec (Precedence.value p) (Precedence.value (binding d))); [|done].
  intros [= <-]. done.
Qed.

Lemma next_continuation_none p it c :
  next_continuation p it = None -> continuation it = Some c ->
  Precedence.value (binding c) <= Precedence.value p.
Proof.
  intros Hn Hc. unfold next_continuation in Hn. rewrite Hc in Hn. unfold Precedence.ltb in Hn.
  by destruct (Z.ltb_spec (Precedence.value p) (Precedence.value (binding c))).
Qed.

Lemma continuation_postfix t it op : continuation (t :: it) = Some (adds_postfix op) ->
  postfix_operator_of (kind t) = Some op.
Proof.
  unfold continuation. destruct (is_shr (t :: it)); [done|].
  destruct (binary_operator_of (kind t)); [done|]. destruct (postfix_operator_of (kind t)); [by intros [= <-]|].
  by destruct (TokenKind.eqb _ _).
Qed.

(** Nothing at the front of [it] binds tighter than [n]. *)
Definition follows_at (n : Z) (it : list Token) : Prop :=
  forall c, continuation it = Some c -> Precedence.value (binding c) <= n.

Definition expr_nested p (e : AstExpression) (_ it' : list Token) : Prop :=
  well_nested e /\ (Precedence.value p <= 5 -> Precedence.value p < tightness e) /\
  (p = Precedence.prefix -> Precedence.value Precedence.prefix <= tightness e) /\
  follows_at (Precedence.value p) it'.

Definition head_nested (e : AstExpression) (_ it' : list Token) : Prop :=
  well_nested e /\ Precedence.value Precedence.prefix <= tightness e /\ follows_at (tightness e) it'.

(** Tails keep a tree that is nested so far nested. *)
Definition tails_nested p (e0 e : AstExpression) (it it' : list Token) : Prop :=
  well_nested e0 -> (Precedence.value p <= 5 -> Precedence.value p < tightness e0) ->
  (p = Precedence.prefix -> Precedence.value Precedence.prefix <= tightness e0) ->
  follows_at (tightness e0) it -> expr_nested p e it it'.

Lemma follows_any it : follows_at 7 it.
Proof. intros c _. apply binding_range. Qed.

Lemma follows_none p it : next_continuation p it = None -> follows_at (Precedence.value p) it.
Proof. intros Hn c Hc. by eapply next_continuation_none. Qed.

Lemma grammar_nested :
  (forall p e it it', parses_expr p e it it' -> expr_nested p e it it') /\
  (forall e it it', parses_head e it it' -> head_nested e it it') /\
  (forall p e0 e it it', parses_tails p e0 e it it' -> tails_nested p e0 e it it') /\
  (forall es it it', parses_list es it it' -> Forall well_nested es /\ follows_at 0 it') /\
  (forall es it it', parses_block es it it' -> Forall well_nested es) /\
  (forall e it it', parses_stmt e it it' -> well_nested e).
Proof.
  apply grammar_ind.
  - intros p e0 e it it1 it' _ (Hw & Ht & Hf) _ Htails. apply Htails; [done| |done|done].
    intros Hp. cbn in Ht. lia.
  - intros t it Hk. split_and!; [constructor|done|apply follows_any].
  - intros t it k Hk. split_and!; [constructor|done|apply follows_any].
  - intros t es it it' Hk _ Hes. split_and!; [by constructor|done|apply follows_any].
  - intros t it Hk Hs. split_and!; [by constructor|done|apply follows_any].
  - intros t es it it' Hk Hs _ [Hes _]. split_and!; [by constructor|done|apply follows_any].
  - intros t op e it it' Hk _ (Hw & _ & Ht & Hf). pose proof (prefix_is_prefix _ _ Hk) as Hop.
    split_and!; [by apply wn_prefix; auto|cbn; rewrite Hop; done|cbn; rewrite Hop; exact Hf].
  - intros p e it Hn Hw H1 H2 Hf. split_and!; [done..|by apply follows_none].
  - intros p e0 e op right t it it1 it2 it' Hn Hit1 _ (Hwr & Htr & _ & Hfr) _ Htails Hw H1 H2 Hf.
    apply next_continuation_some in Hn as [Hc Hlt]. pose proof (binary_precedence op) as Hop.
    specialize (Hf _ Hc). cbn [binding] in Hf, Hlt.
    apply Htails; [apply wn_binary; auto; apply Htr; lia|cbn; lia| |exact Hfr].
    intros ->. cbn in Hlt. lia.
  - intros p e0 e op t it it' Hn _ Htails Hw H1 H2 Hf.
    apply next_continuation_some in Hn as [Hc Hlt]. specialize (Hf _ Hc). cbn [binding] in Hf.
    pose proof (postfix_not_prefix _ _ (continuation_postfix _ _ _ Hc)) as Hop.
    apply Htails; cbn [tightness]; rewrite ?Hop; [by apply wn_postfix|cbn; lia|cbn; lia|apply follows_any].
  - intros p e0 e t t2 it it' Hn Hk2 _ Htails Hw H1 H2 Hf.
    apply next_continuation_some in Hn as [Hc Hlt]. specialize (Hf _ Hc). cbn [binding] in Hf.
    apply Htails; [by apply wn_call|cbn; lia|cbn; lia|apply follows_any].
  - intros p e0 e args t t2 it it2 it' Hn Hno _ [Hargs _] Hk2 _ Htails Hw H1 H2 Hf.
    apply next_continuation_some in Hn as [Hc Hlt]. specialize (Hf _ Hc). cbn [binding] in Hf.
    apply Htails; [by apply wn_call|cbn; lia|cbn; lia|apply follows_any].
  - intros e it it' _ (Hw & _ & _ & Hf) Hno. split; [by repeat constructor|exact Hf].
  - intros e es t it it1 it' _ (Hw & _) Hk _ [Hes Hf]. split; [by constructor|done].
  - intros t it Hk. constructor.
  - intros e es it it1 it' Hno _ He _ Hes. by constructor.
  - intros t es it it' Hk _ Hes. by constructor.
  - intros e t it it' Hno _ (Hw & _) Hk. done.
Qed.
