(* ===== verification/ParserFacts.v ===== *)
(** The parser is total and sound: on a token list that ends with an end-of-file
    token it returns a tree; every parse error is reported; and what it parses
    without a report is derived by the grammar. *)

From S2P Require Import Prelude Report Source SourceFacts Token Ast Parser Grammar.

(** * Token cursors *)

Section Facts.
Context `{Fmt} (source_ : SourceView.t) (tab_size_ : Z).

(** A token that can be located and shown in a message. *)
Definition printable (t : Token) : Prop :=
  is_Some (Token_locate_in t source_ tab_size_) /\ is_Some (Token_get_text t source_).

(** The tokens from a cursor on: the last one and no other is the end of file. *)
Inductive good : list Token -> Prop :=
| good_eof t : kind t = TokenKind.end_of_file -> printable t -> good [t]
| good_cons t it : kind t <> TokenKind.end_of_file -> printable t -> good it -> good (t :: it).

Definition ps (it : list Token) (reps : list Report) : ParserState :=
  {| cursor_ := it; reports_ := reps |}.

Lemma good_inv it : good it -> exists t rest, it = t :: rest /\ printable t.
Proof. destruct 1; eauto. Qed.

Lemma good_front k t it : good (t :: it) -> kind t = k -> k <> TokenKind.end_of_file -> good it.
Proof. inversion 1; subst; congruence. Qed.

Lemma advance_good t it :
  good (t :: it) -> kind t <> TokenKind.end_of_file ->
  TokenCursor.advance (t :: it) = Some it /\ good it.
Proof.
  intros Hg Hk. cbn. destruct (TokenKind.eqb_spec (kind t) TokenKind.end_of_file); [done|].
  inversion Hg; subst; done.
Qed.

(** * The specification of a parsing function *)

(** Started at the tokens [it], [m] returns or, if [throws], lets a [ParseError]
    escape after reporting something. The cursor has moved forward, by at least
    [n a] tokens when [a] is returned; reports are only added; and [G] holds of a
    result that was returned without a report and the tokens after it. *)
Definition parses {A} (throws : bool) (n : A -> nat) (m : P A) (it : list Token)
    (G : A -> list Token -> Prop) : Prop :=
  forall reps,
  wp m
    (fun a s' => good (cursor_ s') /\ cursor_ s' `suffix_of` it /\
       (length (cursor_ s') + n a <= length it)%nat /\
       exists new, reports_ s' = reps ++ new /\ (new = [] -> G a (cursor_ s')))
    (fun s' => throws = true /\ good (cursor_ s') /\ cursor_ s' `suffix_of` it /\
       exists new, reports_ s' = reps ++ new /\ new <> [])
    (ps it reps).

Definition none_consumed {A} : A -> nat := fun _ => 0%nat.
Definition one_consumed {A} : A -> nat := fun _ => 1%nat.

Lemma parses_weaken {A} (throws throws' : bool) n n' (m : P A) it (G G' : A -> list Token -> Prop) :
  parses throws n m it G -> (throws = true -> throws' = true) -> (forall a, n' a <= n a)%nat ->
  (forall a it', good it' -> it' `suffix_of` it -> G a it' -> G' a it') ->
  parses throws' n' m it G'.
Proof.
  intros Hm Ht Hn HG reps. eapply wp_mono; [apply Hm| |]; cbv beta.
  - intros a s' (Hg & Hs & Hl & new & Hr & Hnew). specialize (Hn a).
    split_and!; [done..|lia|]. exists new. auto.
  - intros s' (? & ? & ? & ?). auto.
Qed.

Lemma parses_ret {A} throws n (a : A) it (G : A -> list Token -> Prop) :
  good it -> n a = 0%nat -> G a it -> parses throws n (ret a) it G.
Proof.
  intros Hg Hn HG reps. apply wp_return. split_and!; [done..|cbn; lia|]. exists []. by rewrite app_nil_r.
Qed.

Lemma parses_bind {A B} throws n1 n (m : P A) (k : A -> P B) it G1 (G : B -> list Token -> Prop) :
  parses throws n1 m it G1 ->
  (forall a it', good it' -> it' `suffix_of` it -> (length it' + n1 a <= length it)%nat ->
     parses throws (fun b => n b - n1 a)%nat (k a) it' (fun b it2 => G1 a it' -> G b it2)) ->
  parses throws n (bind m k) it G.
Proof.
  intros Hm Hk reps. apply wp_bind. eapply wp_mono; [apply Hm| |]; cbv beta; [|done].
  intros a [it' reps'] (Hg & Hs & Hl & new & Hr & Hnew). cbn [cursor_ reports_] in *. subst reps'.
  eapply wp_mono; [by apply (Hk a it')| |]; cbv beta.
  - intros b s2 (Hg2 & Hs2 & Hl2 & new2 & Hr2 & Hnew2). split_and!; [done|by etrans|lia|].
    exists (new ++ new2). rewrite Hr2, app_assoc. split; [done|]. intros [-> ->]%app_eq_nil. auto.
  - intros s2 (Ht2 & Hg2 & Hs2 & new2 & Hr2 & Hnew2). split_and!; [done..|by etrans|].
    exists (new ++ new2). rewrite Hr2, app_assoc. split; [done|]. by intros [-> ->]%app_eq_nil.
Qed.

(** [try { m } catch (ParseError) { h }]: in the handler something was reported. *)
Lemma parses_catch {A} throws n (m h : P A) it (G : A -> list Token -> Prop) :
  parses true n m it G ->
  (forall it', good it' -> it' `suffix_of` it -> parses throws (fun a => n a - (length it - length it'))%nat h it' (fun _ _ => True)) ->
  parses throws n (catch m h) it G.
Proof.
  intros Hm Hh reps. apply wp_catch. eapply wp_mono; [apply Hm| |]; cbv beta; [done|].
  intros [it' reps'] (_ & Hg & Hs & new & Hr & Hne). cbn [cursor_ reports_] in *. subst reps'.
  pose proof (suffix_length _ _ Hs) as Hlen.
  eapply wp_mono; [by apply (Hh it')| |]; cbv beta.
  - intros b s2 (Hg2 & Hs2 & Hl2 & new2 & Hr2 & _). split_and!; [done|by etrans|lia|].
    exists (new ++ new2). rewrite Hr2, app_assoc. split; [done|]. by intros [-> ->]%app_eq_nil.
  - intros s2 (Ht2 & Hg2 & Hs2 & new2 & Hr2 & Hnew2). split_and!; [done..|by etrans|].
    exists (new ++ new2). rewrite Hr2, app_assoc. split; [done|]. by intros [-> ->]%app_eq_nil.
Qed.

(** The loop rule: [J] holds of the loop's variables and the tokens left as long
    as nothing was reported; going on consumes a token. *)
Lemma parses_loop {C A} throws n (body : C -> P (Loop C A)) (J : C -> list Token -> Prop) c it
    (G : A -> list Token -> Prop) :
  good it -> J c it ->
  (forall c0 it0, good it0 -> it0 `suffix_of` it ->
     parses throws (fun r => match r with Continue _ => 1%nat | Break a => n a end) (body c0) it0
       (fun r it1 => J c0 it0 -> match r with Continue c1 => J c1 it1 | Break a => G a it1 end)) ->
  parses throws n (loop remaining body c) it G.
Proof.
  intros Hg HJ Hbody reps.
  apply wp_loop with (I := fun c0 s => good (cursor_ s) /\ cursor_ s `suffix_of` it /\
    exists new, reports_ s = reps ++ new /\ (new = [] -> J c0 (cursor_ s))).
  { split_and!; [done..|]. exists []. by rewrite app_nil_r. }
  intros c0 [it0 reps0] (Hg0 & Hs0 & new & Hr & HJ0). cbn [cursor_ reports_] in *. subst reps0.
  pose proof (suffix_length _ _ Hs0) as Hlen.
  eapply wp_mono; [by apply (Hbody c0 it0)| |]; cbv beta.
  - intros [c1|a] [it1 reps1] (Hg1 & Hs1 & Hl1 & new1 & Hr1 & Hnew1); cbn [cursor_ reports_] in *; subst reps1.
    + split; [|unfold remaining; cbn [cursor_]; lia]. split_and!; [done|by etrans|].
      exists (new ++ new1). rewrite app_assoc. split; [done|]. intros [-> ->]%app_eq_nil. auto.
    + split_and!; [done|by etrans|lia|]. exists (new ++ new1). rewrite app_assoc. split; [done|].
      intros [-> ->]%app_eq_nil. auto.
  - intros [it1 reps1] (Ht & Hg1 & Hs1 & new1 & Hr1 & Hnew1); cbn [cursor_ reports_] in *; subst reps1.
    split_and!; [done..|by etrans|]. exists (new ++ new1). rewrite app_assoc. split; [done|].
    by intros [-> ->]%app_eq_nil.
Qed.

(** ** Calls on the cursor *)

Lemma parses_read {A B} throws n (f : TokenCursor.t -> option A) a (k : A -> P B) it G :
  f it = Some a -> parses throws n (k a) it G -> parses throws n (bind (on_cursor f) k) it G.
Proof.
  intros Hf Hk reps. apply wp_bind. unfold wp at 1, on_cursor. cbn. rewrite Hf. apply Hk.
Qed.

Lemma parses_peek {B} throws n (k : Token -> P B) t it G :
  parses throws n (k t) (t :: it) G -> parses throws n (bind cursor_peek k) (t :: it) G.
Proof. by apply parses_read. Qed.

Lemma parses_peek_kind {B} throws n (k : TokenKind.t -> P B) t it G :
  parses throws n (k (kind t)) (t :: it) G -> parses throws n (bind cursor_peek_kind k) (t :: it) G.
Proof. by apply parses_read. Qed.

Lemma parses_peek_offset {B} throws n (k : Z -> P B) t it G :
  parses throws n (k (offset t)) (t :: it) G -> parses throws n (bind cursor_peek_offset k) (t :: it) G.
Proof. by apply parses_read. Qed.

(** A call that consumes the next token. *)
Lemma parses_move {A B} throws n (f : TokenCursor.t -> option (A * TokenCursor.t)) a (k : A -> P B) t it G :
  f (t :: it) = Some (a, it) -> parses throws (fun b => pred (n b)) (k a) it G ->
  parses throws n (bind (move_cursor f) k) (t :: it) G.
Proof.
  intros Hf Hk reps. apply wp_bind. unfold wp at 1, move_cursor. cbn [cursor_ ps]. rewrite Hf.
  eapply wp_mono; [apply Hk| |]; cbv beta.
  - intros b s' (Hg & Hs & Hl & Hr). split_and!; [done|by apply suffix_cons_r|cbn; lia|done].
  - intros s' (Ht & Hg & Hs & Hr). split_and!; [done..|by apply suffix_cons_r|done].
Qed.

Lemma parses_next {B} throws n (k : Token -> P B) t it G :
  kind t <> TokenKind.end_of_file -> parses throws (fun b => pred (n b)) (k t) it G ->
  parses throws n (bind cursor_next k) (t :: it) G.
Proof.
  intros Hk. apply parses_move. unfold TokenCursor.next. cbn.
  by destruct (TokenKind.eqb_spec (kind t) TokenKind.end_of_file).
Qed.

Lemma parses_advance {B} throws n (k : unit -> P B) t it G :
  kind t <> TokenKind.end_of_file -> parses throws (fun b => pred (n b)) (k tt) it G ->
  parses throws n (bind cursor_advance k) (t :: it) G.
Proof.
  intros Hk. apply parses_move. cbn.
  by destruct (TokenKind.eqb_spec (kind t) TokenKind.end_of_file).
Qed.

(** A call that leaves the cursor where it is. *)
Lemma parses_stay {A B} throws n (f : TokenCursor.t -> option (A * TokenCursor.t)) a (k : A -> P B) it G :
  f it = Some (a, it) -> parses throws n (k a) it G -> parses throws n (bind (move_cursor f) k) it G.
Proof.
  intros Hf Hk reps. apply wp_bind. unfold wp at 1, move_cursor. cbn [cursor_ ps]. rewrite Hf. apply Hk.
Qed.

Lemma parses_match {B} throws n expected (k : bool -> P B) t it G :
  expected <> TokenKind.end_of_file ->
  (kind t = expected -> parses throws (fun b => pred (n b)) (k true) it G) ->
  (kind t <> expected -> parses throws n (k false) (t :: it) G) ->
  parses throws n (bind (cursor_match expected) k) (t :: it) G.
Proof.
  intros He Hyes Hno. destruct (decide (kind t = expected)) as [Hk|Hk].
  - apply parses_move with true; [|by apply Hyes].
    unfold TokenCursor.match_kind. cbn. rewrite Hk, TokenKind.eqb_refl.
    by destruct (TokenKind.eqb_spec expected TokenKind.end_of_file).
  - apply parses_stay with false; [|by apply Hno]. unfold TokenCursor.match_kind. cbn.
    by destruct (TokenKind.eqb_spec (kind t) expected).
Qed.

Lemma parses_match_token {B} throws n expected (k : option Token -> P B) t it G :
  expected <> TokenKind.end_of_file ->
  (kind t = expected -> parses throws (fun b => pred (n b)) (k (Some t)) it G) ->
  (kind t <> expected -> parses throws n (k None) (t :: it) G) ->
  parses throws n (bind (cursor_match_token expected) k) (t :: it) G.
Proof.
  intros He Hyes Hno. destruct (decide (kind t = expected)) as [Hk|Hk].
  - apply parses_move with (Some t); [|by apply Hyes].
    unfold TokenCursor.match_token. cbn. rewrite Hk, TokenKind.eqb_refl.
    by destruct (TokenKind.eqb_spec expected TokenKind.end_of_file).
  - apply parses_stay with None; [|by apply Hno]. unfold TokenCursor.match_token. cbn.
    by destruct (TokenKind.eqb_spec (kind t) expected).
Qed.

(** ** Reports *)

Lemma report_expected_run message it :
  good it -> (forall s, valid_for_message [arg_string s] message = true) ->
  exists r, forall reps, report_expected source_ tab_size_ message (ps it reps) = Done tt (ps it (reps ++ [r])).
Proof.
  intros Hg Hv. destruct (good_inv it Hg) as (t & rest & -> & [l Hl] & [w Hw]).
  destruct (make_report_valid l message
    [arg_string (vformat (get_token_message_format (kind t)) [arg_string w])] (Hv _)) as [r Hr].
  exists r. intros reps. unfold report_expected, bind, cursor_peek, on_cursor. cbn.
  rewrite Hl. cbn. rewrite Hw. cbn. unfold report, bind. by rewrite Hr.
Qed.

(** Reporting and going on; what was parsed so far no longer matters. *)
Lemma parses_report_expected {B} throws n message (k : unit -> P B) it G :
  good it -> (forall s, valid_for_message [arg_string s] message = true) ->
  parses throws n (k tt) it (fun _ _ => True) ->
  parses throws n (report_expected source_ tab_size_ message ;; k tt) it G.
Proof.
  intros Hg Hv Hk reps. destruct (report_expected_run message it Hg Hv) as [r Hr].
  apply wp_bind. unfold wp at 1. rewrite Hr. eapply wp_mono; [apply Hk| |]; cbv beta.
  - intros a s' (? & ? & ? & new & Hnew & _). split_and!; [done..|]. exists (r :: new).
    rewrite Hnew. split; [app_eq|done].
  - intros s' (? & ? & ? & new & Hnew & _). split_and!; [done..|]. exists (r :: new).
    rewrite Hnew. split; [app_eq|done].
Qed.

Lemma parses_fail {A} n message it (G : A -> list Token -> Prop) :
  good it -> (forall s, valid_for_message [arg_string s] message = true) ->
  parses true n (report_expected source_ tab_size_ message ;; throw) it G.
Proof.
  intros Hg Hv reps. destruct (report_expected_run message it Hg Hv) as [r Hr].
  apply wp_bind. unfold wp at 1. rewrite Hr. apply wp_throw. split_and!; [done..|]. by exists [r].
Qed.

Lemma parses_expect {B} n expected message (k : unit -> P B) t it G :
  good (t :: it) -> expected <> TokenKind.end_of_file ->
  (forall s, valid_for_message [arg_string s] message = true) ->
  (kind t = expected -> parses true (fun b => pred (n b)) (k tt) it G) ->
  parses true n (bind (expect source_ tab_size_ expected message) k) (t :: it) G.
Proof.
  intros Hg He Hv Hk reps.
  assert (Hp : parses true n (bind (cursor_match expected) (fun b => if negb b then
      (report_expected source_ tab_size_ message ;; throw) else k tt)) (t :: it) G).
  { apply parses_match; [done|exact Hk|]. intros _. by apply parses_fail. }
  specialize (Hp reps). unfold wp, bind, expect in Hp |- *. unfold bind.
  destruct (cursor_match expected (ps (t :: it) reps)) as [[] s'|s'| |]; try exact Hp; cbn [negb] in *.
  destruct (report_expected source_ tab_size_ message s') as [[] s2|s2| |]; exact Hp.
Qed.

End Facts.
