(* ===== verification/ParserSound.v ===== *)
(** Every parsing function meets its specification: totality, progress, every
    error reported, and soundness for the grammar. *)

From S2P Require Import Prelude Report Source SourceFacts Token Ast Parser Grammar ParserFacts.

Section Sound.
Context `{Fmt} (source_ : SourceView.t) (tab_size_ : Z).
#[local] Abbreviation good := (good source_ tab_size_).
#[local] Abbreviation parses := (parses source_ tab_size_).

(** * Heads and tails against the grammar's tables *)

Definition tail_of (c : Continuation) : TailParseFunction :=
  match c with
  | adds_binary op => tail_binary_operator op
  | adds_postfix op => tail_postfix_operator op
  | adds_call => tail_left_paren
  end.

Lemma good_two t it : good (t :: it) -> kind t <> TokenKind.end_of_file -> exists t2 it2, it = t2 :: it2 /\ good it.
Proof. inversion 1 as [|? ? ? ? Hg]; subst; [done|]. destruct (good_inv _ _ _ Hg) as (t2 & it2 & -> & _). eauto. Qed.

(** The parser's choice of a tail is the grammar's continuation. *)
Lemma get_next_tail p it reps :
  good it ->
  get_next_tail_parse_fn p (ps it reps) = Done (tail_of <$> next_continuation p it) (ps it reps).
Proof.
  intros Hg. destruct (good_inv _ _ _ Hg) as (t & rest & -> & _).
  unfold get_next_tail_parse_fn, bind, cursor_peek, on_cursor. cbn [ps cursor_ TokenCursor.peek head].
  destruct (TokenKind.eqb_spec (kind t) TokenKind.r_angle) as [Hk|Hk].
  - destruct (good_two t rest Hg) as (t2 & it2 & -> & _); [congruence|].
    unfold lookup_tail_parse_rule, next_continuation, continuation, is_shr. rewrite Hk. cbn.
    unfold bind, cursor_peek_ahead, on_cursor, TokenCursor.peek_ahead. cbn. rewrite Hk. cbn.
    destruct (_ && _); cbn; by destruct (Precedence.ltb _ _).
  - assert (Hshr : is_shr (t :: rest) = false).
    { cbn. destruct rest; [done|]. by destruct (TokenKind.eqb_spec (kind t) TokenKind.r_angle). }
    unfold next_continuation, continuation. rewrite Hshr. unfold lookup_tail_parse_rule.
    destruct (kind t); cbn; try done; by destruct (Precedence.ltb _ _).
Qed.

(** A call that only reads. *)
Lemma parses_pure {A B} throws n (m : P A) a (k : A -> P B) it G :
  (forall reps, m (ps it reps) = Done a (ps it reps)) -> parses throws n (k a) it G ->
  parses throws n (bind m k) it G.
Proof. intros Hm Hk reps. apply wp_bind. unfold wp at 1. rewrite Hm. apply Hk. Qed.

Lemma parses_next_tail {B} throws n p (k : option TailParseFunction -> P B) it G :
  good it -> parses throws n (k (tail_of <$> next_continuation p it)) it G ->
  parses throws n (bind (get_next_tail_parse_fn p) k) it G.
Proof. intros Hg. apply parses_pure. intros reps. by apply get_next_tail. Qed.

Lemma starts_expression_head t it :
  starts_expression (t :: it) = match lookup_head_parse_fn (kind t) with Some _ => true | None => false end.
Proof. cbn. by destruct (kind t). Qed.

(** A continuation is never at the end of the file. *)
Lemma continuation_not_eof p t it c :
  next_continuation p (t :: it) = Some c -> kind t <> TokenKind.end_of_file.
Proof.
  unfold next_continuation, continuation. intros Hc He. rewrite He in Hc. cbn in Hc.
  rewrite He in Hc. by destruct it.
Qed.

Lemma continuation_shr p t it :
  next_continuation p (t :: it) = Some (adds_binary BinaryOperator.shr) ->
  exists t2 it2, it = t2 :: it2 /\ kind t2 = TokenKind.r_angle.
Proof.
  unfold next_continuation, continuation. destruct (is_shr (t :: it)) eqn:Hs.
  - intros _. cbn in Hs. destruct it as [|t2 it2]; [done|]. exists t2, it2. split; [done|].
    apply andb_prop in Hs as [[_ Hs]%andb_prop _]. by apply TokenKind.eqb_eq.
  - destruct (kind t); cbn; try done; repeat case_match; done.
Qed.

Lemma continuation_call p t it :
  next_continuation p (t :: it) = Some adds_call -> kind t = TokenKind.l_paren.
Proof.
  unfold next_continuation, continuation. destruct (is_shr (t :: it)); [by destruct (Precedence.ltb _ _)|].
  destruct (kind t); cbn; try done; repeat case_match; done.
Qed.

(** * Lists *)

Lemma parses_comma_separated {A} throws (item : P A) (R : A -> list Token -> list Token -> Prop) it :
  good it ->
  (forall it0, good it0 -> it0 `suffix_of` it ->
     parses throws one_consumed item it0 (fun a it1 => R a it0 it1)) ->
  parses throws one_consumed (comma_separated item) it (fun l it' => sep R l it it').
Proof.
  intros Hg Hitem. unfold comma_separated.
  apply parses_loop with (J := fun l0 it0 => forall l it', sep R l it0 it' -> sep R (l0 ++ l) it it').
  { done. }
  { done. }
  intros l0 it0 Hg0 Hs0. eapply parses_bind; [by apply Hitem|].
  intros a it1 Hg1 Hs1 Hl1. destruct (good_inv _ _ _ Hg1) as (t & it2 & -> & _).
  apply parses_match; [done| |].
  - intros Hk. apply parses_ret; [by eapply good_front|done|]. intros Ha HJ l it' Hl.
    rewrite <-app_assoc. apply HJ. by eapply sep_more.
  - intros Hk. apply parses_ret; [done|done|]. intros Ha HJ. apply HJ. by apply sep_one.
Qed.

(** * Expressions and statements *)

(** What the recursion gives for fewer than [k] tokens. *)
Record rec_ok (k : nat) (rec : Recursion) : Prop := {
  expression_ok p it : good it -> (length it < k)%nat ->
    parses true one_consumed (rec_expression rec p) it (fun e it' => parses_expr p e it it');
  block_ok it : good it -> (length it < k)%nat ->
    parses false none_consumed (rec_block rec) it (fun es it' => parses_block es it it');
}.

Section Bodies.
Context (rec : Recursion) (k : nat) (Hrec : rec_ok k rec).

Lemma parses_rec_block {B} n (c : list AstExpression -> P B) it G :
  good it -> (length it < k)%nat ->
  (forall es it', good it' -> it' `suffix_of` it ->
     parses true n (c es) it' (fun b it2 => parses_block es it it' -> G b it2)) ->
  parses true n (bind (rec_block rec) c) it G.
Proof.
  intros Hg Hl Hc. eapply (parses_bind _ _ true none_consumed).
  - eapply parses_weaken; [by apply (block_ok k rec Hrec)|done|done|]. intros es it' _ _ Hes. exact Hes.
  - intros es it' Hg' Hs' _. eapply parses_weaken; [by apply Hc|done| |done].
    intros b. unfold none_consumed. lia.
Qed.

Lemma parses_on_prefix_left_brace t it :
  good (t :: it) -> kind t = TokenKind.l_brace -> (length (t :: it) <= k)%nat ->
  parses true one_consumed (on_prefix_left_brace rec) (t :: it) (fun e it' =>
    exists es, e = AstBlockExpr (node_offset (offset t)) es /\ parses_block es it it').
Proof.
  intros Hg Hk Hl. unfold on_prefix_left_brace. apply parses_next; [congruence|].
  apply parses_rec_block; [by eapply good_front|cbn in Hl; lia|].
  intros es it' Hg' _. apply parses_ret; [done|done|]. eauto.
Qed.

Lemma parses_on_kw_return t it :
  good (t :: it) -> kind t = TokenKind.kw_return -> (length (t :: it) <= k)%nat ->
  parses true one_consumed (on_kw_return rec) (t :: it) (fun e it' => parses_head e (t :: it) it').
Proof.
  intros Hg Hk Hl. unfold on_kw_return. apply parses_next; [congruence|].
  assert (Hg1 : good it) by (by eapply good_front).
  apply parses_pure with (a := starts_expression it).
  { intros reps. destruct (good_inv _ _ _ Hg1) as (t2 & it2 & -> & _). rewrite starts_expression_head.
    reflexivity. }
  eapply (parses_bind _ _ true none_consumed) with
    (G1 := fun l it' => if starts_expression it then parses_list l it it' else l = [] /\ it' = it).
  - destruct (starts_expression it); [|by apply parses_ret].
    eapply parses_weaken; [apply parses_comma_separated; [done|]|done|unfold none_consumed; lia|].
    + intros it0 Hg0 Hs0. apply (expression_ok k rec Hrec); [done|].
      apply suffix_length in Hs0. cbn in Hl. lia.
    + intros l it' _ _ Hl'. apply sep_parses_list in Hl'. exact Hl'.
  - intros l it' Hg' Hs' _. apply parses_ret; [done|done|].
    destruct (starts_expression it) eqn:Hstart; [by apply parses_return|].
    intros [-> ->]. by apply parses_bare_return.
Qed.

Lemma parses_on_prefix_operator t op it :
  good (t :: it) -> prefix_operator_of (kind t) = Some op -> (length (t :: it) <= k)%nat ->
  parses true one_consumed (on_prefix_operator rec op) (t :: it) (fun e it' => parses_head e (t :: it) it').
Proof.
  intros Hg Hk Hl. unfold on_prefix_operator.
  assert (Hne : kind t <> TokenKind.end_of_file) by (intros He; by rewrite He in Hk).
  apply parses_next; [done|].
  eapply (parses_bind _ _ true one_consumed).
  - apply (expression_ok k rec Hrec); [by eapply good_front|cbn in Hl; lia].
  - intros e it' Hg' _ _. apply parses_ret; [done|done|]. by apply parses_prefix.
Qed.

Lemma parses_call_head t it head_fn :
  good (t :: it) -> lookup_head_parse_fn (kind t) = Some head_fn -> (length (t :: it) <= k)%nat ->
  parses true one_consumed (call_head rec head_fn) (t :: it) (fun e it' => parses_head e (t :: it) it').
Proof.
  intros Hg Hf Hl.
  assert (Hne : kind t <> TokenKind.end_of_file) by (intros He; by rewrite He in Hf).
  assert (Hg1 : good it) by (by eapply good_front).
  destruct head_fn as [|lk| | |op]; cbn [call_head].
  - apply parses_next; [done|]. apply parses_ret; [done|done|]. apply parses_identifier.
    by destruct (kind t).
  - apply parses_next; [done|]. apply parses_ret; [done|done|]. apply parses_literal.
    destruct (kind t); try discriminate Hf; cbn in *; congruence.
  - assert (Hk : kind t = TokenKind.l_brace) by by destruct (kind t).
    eapply parses_weaken; [by apply parses_on_prefix_left_brace|done|done|].
    intros e it' _ _ (es & -> & Hes). by apply parses_block_expr.
  - apply parses_on_kw_return; [done| |done]. by destruct (kind t).
  - apply parses_on_prefix_operator; [done| |done].
    destruct (kind t); try discriminate Hf; cbn in *; congruence.
Qed.

(** A continuation: the tokens it consumes, and how a derivation goes on after it. *)
Lemma parses_call_tail p c e0 t it :
  good (t :: it) -> next_continuation p (t :: it) = Some c -> (length (t :: it) <= k)%nat ->
  parses true one_consumed (call_tail source_ tab_size_ rec (tail_of c) e0) (t :: it) (fun e1 it1 =>
    forall e it', parses_tails p e1 e it1 it' -> parses_tails p e0 e (t :: it) it').
Proof.
  intros Hg Hc Hl. pose proof (continuation_not_eof _ _ _ _ Hc) as Hne.
  assert (Hg1 : good it) by (by eapply good_front).
  destruct c as [op|op|]; cbn [tail_of call_tail].
  - unfold on_binary_operator. apply parses_advance; [done|].
    assert (Hright : forall n it1, good it1 -> (length it1 <= length it)%nat -> (forall b, n b <= 1)%nat ->
      it1 = (if bool_decide (op = BinaryOperator.shr) then tail it else it) ->
      parses true n (let precedence := lookup_precedence_for_associativity op in
        right <- rec_expression rec precedence ;;
        ret (AstBinaryExpr (node_offset (token_offset e0)) op e0 right)) it1 (fun e1 it' =>
          forall e it2, parses_tails p e1 e it' it2 -> parses_tails p e0 e (t :: it) it2)).
    { intros n it1 Hg1' Hl1 Hn Hit1. cbv zeta. eapply (parses_bind _ _ true one_consumed).
      - apply (expression_ok k rec Hrec); [done|cbn in Hl; lia].
      - intros right it2 Hg2 _ _. apply parses_ret; [done|specialize (Hn (AstBinaryExpr
          (node_offset (token_offset e0)) op e0 right)); unfold one_consumed; lia|].
        intros Hright e it' Htails. by eapply parses_binary. }
    case_bool_decide as Hop; [subst op|].
    2: { apply parses_pure with (a := tt); [done|]. apply Hright; [done|done|cbn; lia|done]. }
    destruct (continuation_shr _ _ _ Hc) as (t2 & it2 & -> & Hk2).
    apply parses_advance; [congruence|].
    apply Hright; [by eapply good_front; [exact Hg1|exact Hk2|]|cbn; lia|cbn; lia|done].
  - unfold on_postfix_operator. apply parses_advance; [done|]. apply parses_ret; [done|done|].
    intros e it' Htails. by eapply parses_postfix.
  - pose proof (continuation_call _ _ _ Hc) as Hparen.
    unfold on_infix_left_paren. apply parses_advance; [done|].
    destruct (good_inv _ _ _ Hg1) as (t2 & it2 & -> & _). apply parses_match; [done| |].
    + intros Hk2. apply parses_pure with (a := []); [done|].
      apply parses_ret; [by eapply good_front; [exact Hg1|exact Hk2|]|done|].
      intros e it' Htails. by eapply parses_empty_call.
    + intros Hk2. cbn [negb]. eapply (parses_bind _ _ true none_consumed) with
        (G1 := fun args it1 => exists t3, kind t3 = TokenKind.r_paren /\ parses_list args (t2 :: it2) (t3 :: it1)).
      * eapply (parses_bind _ _ true one_consumed).
        { eapply parses_weaken; [apply parses_comma_separated; [done|]|done|done|].
          - intros it0 Hg0 Hs0. apply (expression_ok k rec Hrec); [done|].
            apply suffix_length in Hs0. cbn in *. lia.
          - intros l it' _ _ Hl'. apply sep_parses_list in Hl'. exact Hl'. }
        intros args it1 Hg' _ _. destruct (good_inv _ _ _ Hg') as (t3 & it3 & -> & _).
        apply parses_expect; [done|done|done|]. intros Hk3.
        apply parses_ret; [by eapply good_front; [exact Hg'|exact Hk3|]|done|]. eauto.
      * intros args it1 Hg' _ _. apply parses_ret; [done|done|]. intros (t3 & Hk3 & Hargs) e it' Htails.
        by eapply parses_call.
Qed.

Lemma parses_expression_body p it :
  good it -> (length it <= k)%nat ->
  parses true one_consumed (parse_expression_body source_ tab_size_ rec p) it
    (fun e it' => parses_expr p e it it').
Proof.
  intros Hg Hl. destruct (good_inv _ _ _ Hg) as (t & rest & -> & _).
  unfold parse_expression_body. apply parses_peek.
  destruct (lookup_head_parse_fn (kind t)) as [head_fn|] eqn:Hf; [|by apply parses_fail].
  eapply (parses_bind _ _ true one_consumed); [by apply parses_call_head|].
  intros e0 it1 Hg1 Hs1 Hl1.
  eapply parses_weaken with (n := none_consumed) (throws := true); [|done|done|].
  - apply parses_loop with (J := fun e1 it0 =>
      forall e it', parses_tails p e1 e it0 it' -> parses_tails p e0 e it1 it')
      (G := fun e it' => parses_tails p e0 e it1 it'); [done|done|].
    intros e1 it2 Hg2 Hs2. apply parses_next_tail; [done|].
    destruct (good_inv _ _ _ Hg2) as (t2 & it3 & -> & _).
    destruct (next_continuation p (t2 :: it3)) as [c|] eqn:Hc; cbn [fmap option_fmap option_map].
    + eapply (parses_bind _ _ true one_consumed); [eapply parses_call_tail; [done|done|]|].
      { apply suffix_length in Hs2. cbn in *. unfold one_consumed in *. lia. }
      intros e2 it4 Hg4 _ _. apply parses_ret; [done|done|]. auto.
    + apply parses_ret; [done|done|]. intros HJ. apply HJ. by apply parses_no_tail.
  - intros e it' _ _ Htails Hhead. by eapply parses_expr_intro.
Qed.

Lemma parses_parse_statement it :
  good it -> (length it <= k)%nat ->
  parses true one_consumed (parse_statement source_ tab_size_ rec) it (fun e it' => parses_stmt e it it').
Proof.
  intros Hg Hl. destruct (good_inv _ _ _ Hg) as (t & rest & -> & _).
  unfold parse_statement.
  apply parses_pure with (a := if TokenKind.eqb (kind t) TokenKind.l_brace then (on_prefix_left_brace rec, false)
    else (parse_expression_body source_ tab_size_ rec Precedence.statement, true)).
  { intros reps. unfold lookup_statement_rule, bind, cursor_peek_kind, on_cursor. cbn. by destruct (kind t). }
  destruct (TokenKind.eqb_spec (kind t) TokenKind.l_brace) as [Hk|Hk].
  - eapply (parses_bind _ _ true one_consumed); [by apply parses_on_prefix_left_brace|].
    intros e it' Hg' _ _. apply parses_pure with (a := tt); [done|]. apply parses_ret; [done|done|].
    intros (es & -> & Hes). by apply parses_block_stmt.
  - eapply (parses_bind _ _ true one_consumed); [by apply parses_expression_body|].
    intros e it' Hg' _ _. destruct (good_inv _ _ _ Hg') as (t2 & it2 & -> & _).
    apply parses_expect; [done|done|done|]. intros Hk2.
    apply parses_ret; [by eapply good_front; [exact Hg'|exact Hk2|]|done|].
    intros He. by eapply parses_expr_stmt.
Qed.

End Bodies.

(** * Recovery *)

(** Where recovery at statement level stops: after a semicolon, before a closing
    brace, or ([true]) at the end of the file. *)
Fixpoint statement_sync (it : list Token) : bool * list Token :=
  match it with
  | [] => (true, [])
  | t :: rest =>
      if TokenKind.eqb (kind t) TokenKind.end_of_file then (true, it)
      else if TokenKind.eqb (kind t) TokenKind.semicolon then (false, rest)
      else if TokenKind.eqb (kind t) TokenKind.r_brace then (false, it)
      else statement_sync rest
  end.

(** The body of the recovery's loop. *)
Definition sync_step (kind : TokenKind.t) : P (Loop TokenKind.t bool) :=
  if TokenKind.eqb kind TokenKind.end_of_file then ret (Break true)
  else if TokenKind.eqb kind TokenKind.semicolon then cursor_advance ;; ret (Break false)
  else if TokenKind.eqb kind TokenKind.r_brace then ret (Break false)
  else
    cursor_advance ;;
    kind <- cursor_peek_kind ;;
    ret (Continue kind).

Lemma sync_step_run t it reps :
  good (t :: it) ->
  sync_step (kind t) (ps (t :: it) reps) =
  if TokenKind.eqb (kind t) TokenKind.end_of_file then Done (Break true) (ps (t :: it) reps)
  else if TokenKind.eqb (kind t) TokenKind.semicolon then Done (Break false) (ps it reps)
  else if TokenKind.eqb (kind t) TokenKind.r_brace then Done (Break false) (ps (t :: it) reps)
  else match it with t2 :: _ => Done (Continue (kind t2)) (ps it reps) | [] => Aborted end.
Proof.
  intros Hg. unfold sync_step. destruct (TokenKind.eqb (kind t) TokenKind.end_of_file) eqn:He; [done|].
  assert (Hadv : cursor_advance (ps (t :: it) reps) = Done tt (ps it reps)).
  { unfold cursor_advance, move_cursor. cbn. by rewrite He. }
  destruct (TokenKind.eqb (kind t) TokenKind.semicolon); [unfold bind; by rewrite Hadv|].
  destruct (TokenKind.eqb (kind t) TokenKind.r_brace); [done|].
  unfold bind. rewrite Hadv. by destruct it.
Qed.

Lemma recover_at_statement_level_run it reps :
  good it ->
  recover_at_statement_level (ps it reps) = Done (fst (statement_sync it)) (ps (snd (statement_sync it)) reps).
Proof.
  intros Hg. destruct (good_inv _ _ _ Hg) as (t & rest & -> & _).
  change (recover_at_statement_level (ps (t :: rest) reps)) with
    (loop_fuel (S (length (t :: rest))) sync_step (kind t) (ps (t :: rest) reps)).
  assert (Hn : (length (t :: rest) < S (length (t :: rest)))%nat) by lia. revert Hn.
  generalize (S (length (t :: rest))) as n. intros n Hn. revert t Hg n Hn.
  induction rest as [|t2 rest IH]; intros t Hg [|n] Hn; try (cbn in Hn; lia);
    cbn [loop_fuel statement_sync]; unfold bind at 1; rewrite sync_step_run by done;
    destruct (TokenKind.eqb_spec (kind t) TokenKind.end_of_file) as [|Hne]; try done.
  - inversion Hg as [|? ? ? ? Hg']; subst; [done|inversion Hg'].
  - destruct (TokenKind.eqb (kind t) TokenKind.semicolon); [done|].
    destruct (TokenKind.eqb (kind t) TokenKind.r_brace); [done|].
    apply IH; [by inversion Hg; subst|cbn in *; lia].
Qed.

Lemma statement_sync_good it :
  good it ->
  good (snd (statement_sync it)) /\ snd (statement_sync it) `suffix_of` it /\
  (fst (statement_sync it) = false -> (next_is TokenKind.r_brace it) \/ (length (snd (statement_sync it)) < length it)%nat) /\
  (fst (statement_sync it) = true -> next_is TokenKind.end_of_file (snd (statement_sync it))).
Proof.
  induction 1 as [t He Hp|t it He Hp Hg (IH1 & IH2 & IH3 & IH4)]; cbn [statement_sync].
  - rewrite He. cbn. split_and!; [by apply good_eof|done|done|done].
  - destruct (TokenKind.eqb_spec (kind t) TokenKind.end_of_file); [done|].
    destruct (TokenKind.eqb_spec (kind t) TokenKind.semicolon).
    { cbn. split_and!; [done|by apply suffix_cons_r|intros _; right; lia|done]. }
    destruct (TokenKind.eqb_spec (kind t) TokenKind.r_brace).
    { cbn. split_and!; [by apply good_cons|done|by left|done]. }
    split_and!; [done|by apply suffix_cons_r| |done]. intros _. right.
    apply suffix_length in IH2. cbn. lia.
Qed.

Lemma parses_block_body rec k it :
  rec_ok k rec -> good it -> (length it <= k)%nat ->
  parses false none_consumed (parse_block_body source_ tab_size_ rec) it
    (fun es it' => parses_block es it it').
Proof.
  intros Hrec Hg Hl. unfold parse_block_body.
  apply parses_loop with (J := fun es0 it0 =>
    forall es it', parses_block es it0 it' -> parses_block (es0 ++ es) it it'); [done|done|].
  intros es0 it0 Hg0 Hs0. destruct (good_inv _ _ _ Hg0) as (t & rest & -> & _).
  apply parses_match; [done| |].
  { intros Hk. apply parses_ret; [by eapply good_front; [exact Hg0|exact Hk|]|done|]. intros HJ.
    rewrite <-(app_nil_r es0). apply HJ. by apply parses_close. }
  intros Hk. cbn [negb]. apply parses_catch.
  - eapply (parses_bind _ _ true one_consumed).
    + apply (parses_parse_statement rec k Hrec); [done|]. apply suffix_length in Hs0. lia.
    + intros e it1 Hg1 _ _. apply parses_ret; [done|done|]. intros Hstmt HJ es it' Hes.
      rewrite <-app_assoc. apply HJ. by eapply parses_statement.
  - intros it1 Hg1 Hs1 reps. apply wp_bind. unfold wp at 1. rewrite recover_at_statement_level_run by done.
    destruct (statement_sync_good it1 Hg1) as (Hg2 & Hs2 & Hlt & Heof).
    pose proof (suffix_length _ _ Hs1) as Hl1. pose proof (suffix_length _ _ Hs2) as Hl2.
    destruct (statement_sync it1) as [[] it2]; cbn [fst snd] in *; apply wp_return; cbn [ps cursor_ reports_].
    + split_and!; [done..|unfold none_consumed; lia|]. exists []. by rewrite app_nil_r.
    + split_and!; [done..| |exists []; by rewrite app_nil_r].
      destruct (Hlt eq_refl) as [Hbrace|?]; [|lia].
      destruct (decide (length it1 = length (t :: rest))) as [Heq|]; [|lia].
      destruct Hs1 as [l Hl3]. apply (f_equal length) in Hl3 as Hl4. rewrite length_app in Hl4.
      destruct l; [|cbn [length] in *; lia]. cbn in Hl3. subst it1. cbn in Hbrace. done.
Qed.

(** ** The end of a block *)

(** The last token read is a closing brace, or something was reported and the end of
    the file is next. *)
Definition ends_block (it : list Token) (reps : list Report) (s : ParserState) : Prop :=
  (exists consumed brace, it = consumed ++ brace :: cursor_ s /\ kind brace = TokenKind.r_brace) \/
  next_is TokenKind.end_of_file (cursor_ s) /\ (length reps < length (reports_ s))%nat.

Lemma ends_block_later it it1 reps reps1 s :
  it1 `suffix_of` it -> (length reps <= length reps1)%nat -> ends_block it1 reps1 s -> ends_block it reps s.
Proof.
  intros [l ->] Hl [(consumed & brace & -> & Hk)|[He Hr]]; [left|right].
  - exists (l ++ consumed), brace. split; [by rewrite <-app_assoc|done].
  - split; [done|lia].
Qed.

(** The body of the loop over a block's statements. *)
Definition block_step (rec : Recursion) (statements : list AstExpression)
    : P (Loop (list AstExpression) (list AstExpression)) :=
  closed <- cursor_match TokenKind.r_brace ;;
  if negb closed then
    catch
      (statement <- parse_statement source_ tab_size_ rec ;;
       ret (Continue (statements ++ [statement])))
      (at_end <- recover_at_statement_level ;;
       if at_end : bool then ret (Break statements) else ret (Continue statements))
  else ret (Break statements).

Lemma block_step_end rec k es0 it reps r s :
  rec_ok k rec -> good it -> (length it <= k)%nat -> block_step rec es0 (ps it reps) = Done r s ->
  match r with
  | Continue _ => good (cursor_ s) /\ cursor_ s `suffix_of` it /\ (length reps <= length (reports_ s))%nat
  | Break _ => ends_block it reps s
  end.
Proof.
  intros Hrec Hg Hl. destruct (good_inv _ _ _ Hg) as (t & rest & -> & _). unfold block_step, bind at 1.
  unfold cursor_match, move_cursor, TokenCursor.match_kind. cbn.
  destruct (TokenKind.eqb_spec (kind t) TokenKind.r_brace) as [Hk|Hk].
  { rewrite Hk. cbn. intros [= <- <-]. left. by exists [], t. }
  cbn. pose proof (parses_parse_statement rec k Hrec (t :: rest) Hg Hl reps) as Hp. unfold wp, ps in Hp.
  unfold catch, bind at 1.
  destruct (parse_statement source_ tab_size_ rec _) as [e s1|[it1 reps1]| |]; try done; cbn in Hp.
  - destruct Hp as (Hg1 & Hs1 & _ & new & Hr & _). intros [= <- <-]. rewrite Hr, length_app. split_and!; [done..|lia].
  - destruct Hp as (_ & Hg1 & Hs1 & new & Hr & Hne). apply (f_equal length) in Hr. rewrite length_app in Hr.
    assert (length new <> 0%nat) by (by intros ->%nil_length_inv). unfold bind at 1. fold (ps it1 reps1).
    rewrite recover_at_statement_level_run by done. destruct (statement_sync_good it1 Hg1) as (Hg2 & Hs2 & _ & Heof).
    destruct (statement_sync it1) as [[] it2]; cbn [fst snd] in *; intros [= <- <-]; cbn.
    + right. split; [by apply Heof|cbn in *; lia].
    + split_and!; [done|by etrans|cbn in *; lia].
Qed.

(** Whatever the statements are, the loop over them ends there. *)
Lemma block_loop_end rec k n :
  rec_ok k rec -> forall it es0 reps es s, good it -> (length it <= k)%nat ->
  loop_fuel n (block_step rec) es0 (ps it reps) = Done es s -> ends_block it reps s.
Proof.
  intros Hrec. induction n as [|n IH]; intros it es0 reps es s Hg Hl; cbn [loop_fuel]; [done|].
  unfold bind. destruct (block_step rec es0 (ps it reps)) as [r [it1 reps1]| | |] eqn:Hstep; try done.
  pose proof (block_step_end rec k es0 it reps r _ Hrec Hg Hl Hstep) as Hr. destruct r as [es1|es1].
  - destruct Hr as (Hg1 & Hs1 & Hr1). cbn in Hg1, Hs1, Hr1. pose proof (suffix_length _ _ Hs1). intros Hrun.
    eapply ends_block_later; [exact Hs1|exact Hr1|]. apply (IH it1 es1 reps1 es s); [done|lia|exact Hrun].
  - by intros [= <- <-].
Qed.

(** * The recursion closed *)

Lemma parse_ok fuel : rec_ok fuel (parse source_ tab_size_ fuel).
Proof.
  induction fuel as [|fuel IH]; split; intros; cbn [parse rec_expression rec_block]; try lia.
  - apply (parses_expression_body _ fuel IH); [done|lia].
  - apply (parses_block_body _ fuel _ IH); [done|lia].
Qed.

Lemma parses_parse_expression p it :
  good it ->
  parses true one_consumed (parse_expression source_ tab_size_ p) it (fun e it' => parses_expr p e it it').
Proof.
  intros Hg reps. unfold parse_expression, wp.
  apply (expression_ok _ _ (parse_ok (S (length it)))); [done|lia].
Qed.

Lemma parses_parse_block it :
  good it ->
  parses false none_consumed (parse_block source_ tab_size_) it (fun es it' => parses_block es it it').
Proof.
  intros Hg reps. unfold parse_block, wp.
  apply (block_ok _ _ (parse_ok (S (length it)))); [done|lia].
Qed.

Lemma parse_block_end it reps es s :
  good it -> parse_block source_ tab_size_ (ps it reps) = Done es s -> ends_block it reps s.
Proof.
  intros Hg Hrun. eapply (block_loop_end (parse source_ tab_size_ (length it))); [apply parse_ok|done|done|exact Hrun].
Qed.

(** * Definitions *)

Lemma parses_parse_type message it :
  good it -> (forall s, valid_for_message [arg_string s] message = true) ->
  parses true one_consumed (parse_type source_ tab_size_ message) it (fun e it' => parses_type e it it').
Proof.
  intros Hg Hv. destruct (good_inv _ _ _ Hg) as (t & rest & -> & _). unfold parse_type.
  apply parses_peek_kind. destruct (TokenKind.eqb_spec (kind t) TokenKind.identifier) as [Hk|Hk].
  - apply parses_next; [congruence|]. apply parses_ret; [by eapply good_front|done|]. by constructor.
  - by apply parses_fail.
Qed.

(** A name token that can be shown is not empty. *)
Lemma printable_name t :
  printable source_ tab_size_ t -> kind t = TokenKind.identifier -> AstName_is_empty (name_of t) = false.
Proof.
  intros [_ [w Hw]] Hk. unfold Token_get_text in Hw. rewrite Hk in Hw. unfold AstName_is_empty. cbn.
  destruct (Z.ltb_spec 0 (variable_length t)); [|done]. apply Z.eqb_neq. lia.
Qed.

Lemma parses_parse_parameter it :
  good it ->
  parses true one_consumed (parse_function_definition_parameter source_ tab_size_) it
    (fun p it' => parses_parameter p it it').
Proof.
  intros Hg. destruct (good_inv _ _ _ Hg) as (t & rest & -> & _).
  unfold parse_function_definition_parameter. apply parses_peek_offset.
  eapply (parses_bind _ _ true one_consumed); [by apply parses_parse_type|].
  intros type it1 Hg1 _ _. destruct (good_inv _ _ _ Hg1) as (t2 & it2 & -> & Hp2).
  (* The two ways through [expect_identifier]. *)
  set (k := fun name => if AstName_is_empty name then throw else ret {|
    param_token_offset := node_offset (offset t); param_type := type; param_name := name |}).
  assert (Hp : parses true (fun b => one_consumed b - one_consumed type)%nat
    (bind (cursor_match_token TokenKind.identifier) (fun token =>
      match token with
      | Some token => bind (expect_some (AstName_from token)) k
      | None => report_expected source_ tab_size_ expect_parameter_name ;; throw
      end)) (t2 :: it2)
    (fun p it' => parses_type type (t :: rest) (t2 :: it2) -> parses_parameter p (t :: rest) it')).
  { apply parses_match_token; [done| |].
    - intros Hk. apply parses_pure with (a := name_of t2); [intros reps; unfold AstName_from; by rewrite Hk|].
      unfold k. rewrite printable_name by done.
      apply parses_ret; [by eapply good_front; [exact Hg1|exact Hk|]|done|].
      intros Htype. by constructor.
    - intros Hk. by apply parses_fail. }
  intros reps. specialize (Hp reps). unfold wp, bind, expect_identifier in Hp |- *. unfold bind.
  destruct (cursor_match_token TokenKind.identifier (ps (t2 :: it2) reps)) as [[token|] s'|s'| |]; try exact Hp.
  destruct (report_expected _ _ _ s'); exact Hp.
Qed.

Lemma parses_parse_parameters it :
  good it ->
  parses true one_consumed (parse_function_definition_parameters source_ tab_size_) it
    (fun l it' => parses_parameters l it it').
Proof.
  intros Hg. destruct (good_inv _ _ _ Hg) as (t & rest & -> & _).
  unfold parse_function_definition_parameters. apply parses_match; [done| |].
  - intros Hk. apply parses_ret; [by eapply good_front; [exact Hg|exact Hk|]|done|]. by constructor.
  - intros Hk. cbn [negb]. eapply (parses_bind _ _ true one_consumed).
    { apply parses_comma_separated; [done|]. intros it0 Hg0 _. by apply parses_parse_parameter. }
    intros l it1 Hg1 _ _. destruct (good_inv _ _ _ Hg1) as (t2 & it2 & -> & _).
    apply parses_expect; [done|done|done|]. intros Hk2.
    apply parses_ret; [by eapply good_front; [exact Hg1|exact Hk2|]|done|].
    intros Hl. by eapply parses_some_parameters.
Qed.

Lemma parses_parse_output it :
  good it ->
  parses true one_consumed (parse_function_definition_output source_ tab_size_) it
    (fun o it' => parses_output o it it').
Proof.
  intros Hg. destruct (good_inv _ _ _ Hg) as (t & rest & -> & _).
  unfold parse_function_definition_output. apply parses_peek_offset.
  eapply (parses_bind _ _ true one_consumed); [by apply parses_parse_type|].
  intros type it1 Hg1 _ _. apply parses_ret; [done|done|]. by constructor.
Qed.

Lemma parses_parse_outputs it :
  good it ->
  parses true none_consumed (parse_function_definition_outputs source_ tab_size_) it
    (fun l it' => parses_outputs l it it').
Proof.
  intros Hg. destruct (good_inv _ _ _ Hg) as (t & rest & -> & _).
  unfold parse_function_definition_outputs. apply parses_match; [done| |].
  - intros Hk. assert (Hg1 : good rest) by (by eapply good_front; [exact Hg|exact Hk|]).
    eapply parses_weaken; [apply parses_comma_separated; [done|]|done| |].
    + intros it0 Hg0 _. by apply parses_parse_output.
    + intros l. unfold none_consumed, one_consumed. lia.
    + intros l it' _ _ Hl. by apply parses_some_outputs.
  - intros Hk. apply parses_ret; [done|done|]. by constructor.
Qed.

Lemma parses_parse_function_definition off access name it :
  good it -> kind name = TokenKind.identifier ->
  parses true one_consumed (parse_function_definition source_ tab_size_ off access name) it (fun d it' =>
    exists paren brace params outs body it1 it2 it3,
      it = paren :: it1 /\ kind paren = TokenKind.l_paren /\
      parses_parameters params it1 it2 /\ parses_outputs outs it2 (brace :: it3) /\
      kind brace = TokenKind.l_brace /\ parses_block body it3 it' /\
      d = {| def_token_offset := node_offset off; access_modifier := access;
             def_name := name_of name; parameters := params; outputs := outs; statements := body |}).
Proof.
  intros Hg Hname. destruct (good_inv _ _ _ Hg) as (t & rest & -> & _). unfold parse_function_definition.
  apply parses_pure with (a := name_of name); [intros reps; unfold AstName_from; by rewrite Hname|].
  apply parses_expect; [done|done|done|]. intros Hk.
  assert (Hg1 : good rest) by (by eapply good_front; [exact Hg|exact Hk|]).
  eapply (parses_bind _ _ true one_consumed); [by apply parses_parse_parameters|].
  intros params it2 Hg2 _ _. eapply (parses_bind _ _ true none_consumed); [by apply parses_parse_outputs|].
  intros outs it3 Hg3 _ _. destruct (good_inv _ _ _ Hg3) as (brace & it4 & -> & _).
  apply parses_expect; [done|done|done|]. intros Hk3.
  assert (Hg4 : good it4) by (by eapply good_front; [exact Hg3|exact Hk3|]).
  eapply (parses_bind _ _ true none_consumed).
  { eapply parses_weaken; [by apply parses_parse_block|done|done|]. intros body it' _ _ Hb. exact Hb. }
  intros body it' Hg' _ _. apply parses_ret; [done|done|]. intros Hbody Houts Hparams.
  eauto 15.
Qed.

Lemma parses_parse_definition it :
  good it ->
  parses true one_consumed (parse_definition source_ tab_size_) it (fun d it' => parses_definition d it it').
Proof.
  intros Hg. destruct (good_inv _ _ _ Hg) as (t & rest & -> & _). unfold parse_definition.
  apply parses_peek_offset.
  assert (Hrest : forall n access it1, good it1 -> (forall b, n b <= 1)%nat ->
    parses_access access (t :: rest) it1 ->
    parses true n (token <- cursor_match_token TokenKind.identifier ;;
      match token with
      | Some token => parse_function_definition source_ tab_size_ (offset t) access token
      | None => report_expected source_ tab_size_ expect_function_struct_or_enum ;; throw
      end) it1 (fun d it' => parses_definition d (t :: rest) it')).
  { intros n access it1 Hg1 Hn Haccess. destruct (good_inv _ _ _ Hg1) as (name & it2 & -> & _).
    apply parses_match_token; [done| |intros _; by apply parses_fail]. intros Hk.
    assert (Hg2 : good it2) by (by eapply good_front; [exact Hg1|exact Hk|]).
    eapply parses_weaken; [by apply parses_parse_function_definition|done| |].
    - intros b. specialize (Hn b). unfold one_consumed. lia.
    - intros d it' _ _ (paren & brace & params & outs & body & it3 & it4 & it5 & -> & ? & ? & ? & ? & ? & ->).
      by eapply parses_definition_intro. }
  assert (Hassoc : forall {A B C} (m : P A) (f : A -> P B) (g : B -> P C) n G it,
    parses true n (bind m (fun a => bind (f a) g)) it G -> parses true n (bind (bind m f) g) it G).
  { intros A B C m f g n G it0 Hm reps. specialize (Hm reps). unfold wp, bind in *. by destruct (m _). }
  apply parses_match; [done| |].
  - intros Hk. apply parses_pure with (a := AccessModifier.private_); [done|].
    apply Hrest; [by eapply good_front; [exact Hg|exact Hk|]|cbn; lia|by constructor].
  - intros Hk. apply Hassoc. apply parses_match; [done| |].
    + intros Hk2. apply parses_pure with (a := AccessModifier.public_); [done|].
      apply Hrest; [by eapply good_front; [exact Hg|exact Hk2|]|intros ?; unfold one_consumed; lia|by constructor].
    + intros Hk2. apply parses_pure with (a := AccessModifier.none); [done|].
      apply Hrest; [done|intros ?; unfold one_consumed; lia|by constructor].
Qed.

(** * The whole source *)

Definition is_recovery_token (t : Token) : bool := existsb (TokenKind.eqb (kind t)) recovery_tokens.

(** The first recovery token. *)
Fixpoint definition_sync (it : list Token) : list Token :=
  match it with
  | [] => []
  | t :: rest => if is_recovery_token t then it else definition_sync rest
  end.

(** Where recovery at definition level stops: it always skips the current token,
    unless that is the end of the file. *)
Definition next_definition (it : list Token) : list Token :=
  match it with
  | [] => []
  | t :: rest => if TokenKind.eqb (kind t) TokenKind.end_of_file then it else definition_sync rest
  end.

Lemma next_definition_good it :
  good it -> good (next_definition it) /\ next_definition it `suffix_of` it /\
  (next_is TokenKind.end_of_file it \/ (length (next_definition it) < length it)%nat).
Proof.
  assert (Hsync : forall it, good it -> good (definition_sync it) /\ definition_sync it `suffix_of` it).
  { induction 1 as [t He Hp|t it0 He Hp Hg [IH1 IH2]]; cbn [definition_sync]; unfold is_recovery_token.
    - rewrite He. cbn. split; [by apply good_eof|done].
    - destruct (existsb _ _); [split; [by apply good_cons|done]|]. split; [done|by apply suffix_cons_r]. }
  intros Hg. destruct Hg as [t He Hp|t it0 He Hp Hg]; cbn [next_definition].
  - rewrite He. cbn. split_and!; [by apply good_eof|done|by left].
  - destruct (TokenKind.eqb_spec (kind t) TokenKind.end_of_file); [done|].
    destruct (Hsync it0 Hg) as [Hg1 Hs1]. split_and!; [done|by apply suffix_cons_r|right].
    apply suffix_length in Hs1. cbn. lia.
Qed.

Definition definition_step : unit -> P (Loop unit unit) := fun _ =>
  cursor_advance ;;
  kind <- cursor_peek_kind ;;
  if negb (existsb (TokenKind.eqb kind) recovery_tokens) then ret (Continue tt) else ret (Break tt).

Lemma definition_step_run t it reps :
  good (t :: it) ->
  definition_step tt (ps (t :: it) reps) =
  if TokenKind.eqb (kind t) TokenKind.end_of_file then Done (Break tt) (ps (t :: it) reps)
  else match it with
       | t2 :: _ => Done (if is_recovery_token t2 then Break tt else Continue tt) (ps it reps)
       | [] => Aborted
       end.
Proof.
  intros Hg. unfold definition_step, bind, cursor_advance, move_cursor. cbn [ps cursor_ TokenCursor.advance].
  destruct (TokenKind.eqb (kind t) TokenKind.end_of_file) eqn:He.
  - apply TokenKind.eqb_eq in He. cbn. by rewrite He.
  - cbn [fmap option_fmap option_map]. destruct it as [|t2 it]; [done|].
    unfold cursor_peek_kind, on_cursor. cbn [cursor_ TokenCursor.peek_kind TokenCursor.peek head fmap option_fmap option_map].
    fold (is_recovery_token t2). by destruct (is_recovery_token t2).
Qed.

Lemma recover_at_definition_level_run it reps :
  good it -> recover_at_definition_level (ps it reps) = Done tt (ps (next_definition it) reps).
Proof.
  intros Hg. destruct (good_inv _ _ _ Hg) as (t & rest & -> & _).
  change (recover_at_definition_level (ps (t :: rest) reps)) with
    (loop_fuel (S (length (t :: rest))) definition_step tt (ps (t :: rest) reps)).
  assert (Hn : (length (t :: rest) < S (length (t :: rest)))%nat) by lia. revert Hn.
  generalize (S (length (t :: rest))) as n. intros n Hn. revert t Hg n Hn.
  induction rest as [|t2 rest IH]; intros t Hg [|n] Hn; try (cbn in Hn; lia);
    cbn [loop_fuel next_definition]; unfold bind at 1; rewrite definition_step_run by done;
    destruct (TokenKind.eqb_spec (kind t) TokenKind.end_of_file) as [|Hne]; try done.
  - inversion Hg as [|? ? ? ? Hg']; subst; [done|inversion Hg'].
  - assert (Hg2 : good (t2 :: rest)) by by inversion Hg; subst.
    cbn [definition_sync]. destruct (is_recovery_token t2) eqn:Hr2; [done|].
    rewrite (IH t2 Hg2) by (cbn in *; lia). cbn [next_definition].
    destruct (TokenKind.eqb_spec (kind t2) TokenKind.end_of_file) as [He2|]; [|done].
    unfold is_recovery_token in Hr2. by rewrite He2 in Hr2.
Qed.

Lemma parses_run it :
  good it ->
  parses false none_consumed (run source_ tab_size_) it
    (fun root it' => parses_root (definitions root) it).
Proof.
  intros Hg. unfold run.
  apply parses_loop with (J := fun ds0 it0 => forall ds, parses_root ds it0 -> parses_root (ds0 ++ ds) it);
    [done|done|].
  intros ds0 it0 Hg0 Hs0. destruct (good_inv _ _ _ Hg0) as (t & rest & -> & _).
  destruct (decide (kind t = TokenKind.end_of_file)) as [He|Hne].
  - assert (rest = []) as -> by by inversion Hg0; subst.
    apply (parses_stay _ _ false _ (fun it => TokenCursor.match_kind it TokenKind.end_of_file) true).
    { unfold TokenCursor.match_kind. cbn. by rewrite He. }
    apply parses_ret; [done|done|]. intros HJ. cbn. rewrite <-(app_nil_r ds0). apply HJ. by constructor.
  - apply (parses_stay _ _ false _ (fun it => TokenCursor.match_kind it TokenKind.end_of_file) false).
    { unfold TokenCursor.match_kind. cbn. by destruct (TokenKind.eqb_spec (kind t) TokenKind.end_of_file). }
    cbn [negb]. apply parses_catch.
    + eapply (parses_bind _ _ true one_consumed); [by apply parses_parse_definition|].
      intros d it1 Hg1 _ _. apply parses_ret; [done|done|]. intros Hd HJ ds Hds.
      rewrite <-app_assoc. apply HJ. by eapply parses_next_definition.
    + intros it1 Hg1 Hs1 reps. apply wp_bind. unfold wp at 1. rewrite recover_at_definition_level_run by done.
      destruct (next_definition_good it1 Hg1) as (Hg2 & Hs2 & Hlt).
      pose proof (suffix_length _ _ Hs1) as Hl1. apply wp_return. cbn [ps cursor_ reports_].
      split_and!; [done..| |exists []; by rewrite app_nil_r].
      destruct Hlt as [Heof|?]; [|lia].
      destruct (decide (length it1 = length (t :: rest))) as [Heq|].
      * destruct Hs1 as [l Hl3]. apply (f_equal length) in Hl3 as Hl4. rewrite length_app in Hl4.
        destruct l; [|cbn [length] in *; lia]. cbn in Hl3. subst it1. cbn in Heof. done.
      * pose proof (suffix_length _ _ Hs2). lia.
Qed.

(** * The parser *)

(** What [run_parser] gives for the tokens [it]. *)
Lemma run_parser_result it reports :
  good it ->
  exists root new, run_parser source_ tab_size_ it reports = Done root (reports ++ new) /\
    (new = [] -> parses_root (definitions root) it).
Proof.
  intros Hg. pose proof (parses_run it Hg reports) as Hrun. unfold wp in Hrun.
  unfold run_parser. change {| cursor_ := TokenCursor.new it; reports_ := reports |} with (ps it reports).
  destruct (run source_ tab_size_ (ps it reports)) as [root s|s| |]; try contradiction.
  - destruct Hrun as (_ & _ & _ & new & Hr & Hroot). exists root, new. by rewrite Hr.
  - by destruct Hrun.
Qed.

End Sound.
