(* ===== verification/ParserComplete.v ===== *)
(** The parser is complete for the grammar: what the grammar derives is parsed to
    the derivation's tree, without a report. *)

From S2P Require Import Prelude Report Source SourceFacts Token Ast Parser Grammar ParserFacts ParserSound.

Section Complete.
Context `{Fmt} (source_ : SourceView.t) (tab_size_ : Z).
#[local] Abbreviation good := (good source_ tab_size_).
#[local] Abbreviation parse := (parse source_ tab_size_).

(** * Steps *)

Lemma bind_done {A B} (m : P A) (k : A -> P B) s a s' : m s = Done a s' -> bind m k s = k a s'.
Proof. unfold bind. by intros ->. Qed.

Lemma next_run t it reps :
  kind t <> TokenKind.end_of_file -> cursor_next (ps (t :: it) reps) = Done t (ps it reps).
Proof.
  intros Hk. unfold cursor_next, move_cursor, TokenCursor.next. cbn.
  by destruct (TokenKind.eqb_spec (kind t) TokenKind.end_of_file).
Qed.

Lemma advance_run t it reps :
  kind t <> TokenKind.end_of_file -> cursor_advance (ps (t :: it) reps) = Done tt (ps it reps).
Proof.
  intros Hk. unfold cursor_advance, move_cursor. cbn.
  by destruct (TokenKind.eqb_spec (kind t) TokenKind.end_of_file).
Qed.

Lemma match_yes k t it reps :
  kind t = k -> k <> TokenKind.end_of_file -> cursor_match k (ps (t :: it) reps) = Done true (ps it reps).
Proof.
  intros Hk Hne. unfold cursor_match, move_cursor, TokenCursor.match_kind. cbn.
  rewrite Hk, TokenKind.eqb_refl. by destruct (TokenKind.eqb_spec k TokenKind.end_of_file).
Qed.

Lemma match_no k it reps :
  good it -> ~ next_is k it -> cursor_match k (ps it reps) = Done false (ps it reps).
Proof.
  intros Hg Hno. destruct (good_inv _ _ _ Hg) as (t & rest & -> & _).
  unfold cursor_match, move_cursor, TokenCursor.match_kind. cbn in *.
  by destruct (TokenKind.eqb_spec (kind t) k).
Qed.

Lemma expect_yes k message t it reps :
  kind t = k -> k <> TokenKind.end_of_file ->
  expect source_ tab_size_ k message (ps (t :: it) reps) = Done tt (ps it reps).
Proof. intros Hk Hne. unfold expect. by rewrite (bind_done _ _ _ _ _ (match_yes k t it reps Hk Hne)). Qed.

(** * The loops' bodies *)

Definition tail_step (rec : Recursion) (p : Precedence.t) (expr : AstExpression) : P (Loop AstExpression AstExpression) :=
  tail_fn <- get_next_tail_parse_fn p ;;
  match tail_fn with
  | Some tail_fn => expr <- call_tail source_ tab_size_ rec tail_fn expr ;; ret (Continue expr)
  | None => ret (Break expr)
  end.

Definition comma_step {A} (item : P A) (list : list A) : P (Loop (Datatypes.list A) (Datatypes.list A)) :=
  node <- item ;;
  let list := list ++ [node] in
  comma <- cursor_match TokenKind.comma ;;
  if comma : bool then ret (Continue list) else ret (Break list).

Definition block_step (rec : Recursion) (statements : list AstExpression)
    : P (Loop (list AstExpression) (list AstExpression)) :=
  closed <- cursor_match TokenKind.r_brace ;;
  if negb closed then
    catch
      (statement <- parse_statement source_ tab_size_ rec ;;
       ret (Continue (statements ++ [statement])))
      (at_end <- recover_at_statement_level ;;
       if at_end : bool then ret (Break statements) else ret (Continue statements))
  else ret (Break statements).

(** * Completeness of each part *)

Definition expr_complete p e it it' : Prop :=
  good it -> good it' /\ (length it' < length it)%nat /\
  forall fuel reps, (length it < fuel)%nat ->
    rec_expression (parse fuel) p (ps it reps) = Done e (ps it' reps).

Definition head_complete e it it' : Prop :=
  good it -> good it' /\ (length it' < length it)%nat /\
  exists t rest head_fn, it = t :: rest /\ lookup_head_parse_fn (kind t) = Some head_fn /\
    forall fuel reps, (length it <= fuel)%nat ->
      call_head (parse fuel) head_fn (ps it reps) = Done e (ps it' reps).

Definition tails_complete p e0 e it it' : Prop :=
  good it -> good it' /\ (length it' <= length it)%nat /\
  forall fuel reps n, (length it <= fuel)%nat -> (length it < n)%nat ->
    loop_fuel n (tail_step (parse fuel) p) e0 (ps it reps) = Done e (ps it' reps).

Definition list_complete es it it' : Prop :=
  good it -> good it' /\ (length it' < length it)%nat /\
  forall fuel reps n acc, (length it < fuel)%nat -> (length it < n)%nat ->
    loop_fuel n (comma_step (rec_expression (parse fuel) Precedence.statement)) acc (ps it reps) =
    Done (acc ++ es) (ps it' reps).

Definition block_complete es it it' : Prop :=
  good it -> good it' /\ (length it' < length it)%nat /\
  forall fuel reps n acc, (length it <= fuel)%nat -> (length it < n)%nat ->
    loop_fuel n (block_step (parse fuel)) acc (ps it reps) = Done (acc ++ es) (ps it' reps).

Definition stmt_complete e it it' : Prop :=
  good it -> good it' /\ (length it' < length it)%nat /\
  forall fuel reps, (length it <= fuel)%nat ->
    parse_statement source_ tab_size_ (parse fuel) (ps it reps) = Done e (ps it' reps).

Lemma body_complete p e0 e it it1 it' :
  head_complete e0 it it1 -> tails_complete p e0 e it1 it' ->
  good it -> good it' /\ (length it' < length it)%nat /\
  forall fuel reps, (length it <= fuel)%nat ->
    parse_expression_body source_ tab_size_ (parse fuel) p (ps it reps) = Done e (ps it' reps).
Proof.
  intros Hhead Htails Hg. destruct (Hhead Hg) as (Hg1 & Hl1 & t & rest & head_fn & -> & Hf & Hcall).
  destruct (Htails Hg1) as (Hg' & Hl' & Hloop). split; [done|]. split; [lia|].
  intros fuel reps Hfuel. unfold parse_expression_body.
  rewrite (bind_done _ _ _ t (ps (t :: rest) reps)) by done. rewrite Hf.
  rewrite (bind_done _ _ _ _ _ (Hcall fuel reps Hfuel)).
  apply (Hloop fuel reps (S (length it1))); lia.
Qed.

Lemma parse_expr_complete p e0 e it it1 it' :
  head_complete e0 it it1 -> tails_complete p e0 e it1 it' -> expr_complete p e it it'.
Proof.
  intros Hhead Htails Hg. destruct (body_complete _ _ _ _ _ _ Hhead Htails Hg) as (Hg' & Hl & Hbody).
  split_and!; [done..|]. intros [|fuel] reps Hfuel; [lia|]. apply Hbody. lia.
Qed.

Lemma rec_block_complete es it it' fuel reps :
  block_complete es it it' -> good it -> (length it < fuel)%nat ->
  rec_block (parse fuel) (ps it reps) = Done es (ps it' reps).
Proof.
  intros Hb Hg Hfuel. destruct (Hb Hg) as (_ & _ & Hloop). destruct fuel as [|fuel]; [lia|].
  exact (Hloop fuel reps (S (length it)) [] ltac:(lia) ltac:(lia)).
Qed.

Lemma block_expr_complete t es it it' :
  kind t = TokenKind.l_brace -> block_complete es it it' -> good (t :: it) ->
  good it' /\ (length it' < length (t :: it))%nat /\
  forall fuel reps, (length (t :: it) <= fuel)%nat ->
    on_prefix_left_brace (parse fuel) (ps (t :: it) reps) =
    Done (AstBlockExpr (node_offset (offset t)) es) (ps it' reps).
Proof.
  intros Hk Hb Hg. assert (Hg1 : good it) by (by eapply good_front). destruct (Hb Hg1) as (Hg' & Hl & _).
  split_and!; [done|cbn; lia|]. intros fuel reps Hfuel. unfold on_prefix_left_brace.
  rewrite (bind_done _ _ _ _ _ (next_run t it reps ltac:(congruence))).
  by rewrite (bind_done _ _ _ _ _ (rec_block_complete es it it' fuel reps Hb Hg1 Hfuel)).
Qed.

Lemma list_run es it it' fuel reps :
  list_complete es it it' -> good it -> (length it < fuel)%nat ->
  comma_separated (rec_expression (parse fuel) Precedence.statement) (ps it reps) = Done es (ps it' reps).
Proof.
  intros Hlist Hg Hfuel. destruct (Hlist Hg) as (_ & _ & Hloop).
  exact (Hloop fuel reps (S (length it)) [] Hfuel ltac:(lia)).
Qed.

Lemma is_expression_next_run it reps :
  good it -> is_expression_next (ps it reps) = Done (starts_expression it) (ps it reps).
Proof.
  intros Hg. destruct (good_inv _ _ _ Hg) as (t & rest & -> & _). by rewrite starts_expression_head.
Qed.

Lemma prefix_head t op :
  prefix_operator_of (kind t) = Some op -> lookup_head_parse_fn (kind t) = Some (head_prefix_operator op).
Proof. destruct (kind t); try done; cbn; congruence. Qed.

Lemma literal_head t k :
  literal_kind_of (kind t) = Some k -> lookup_head_parse_fn (kind t) = Some (head_literal k).
Proof. destruct (kind t); try done; cbn; congruence. Qed.

Lemma head_not_eof t head_fn : lookup_head_parse_fn (kind t) = Some head_fn -> kind t <> TokenKind.end_of_file.
Proof. intros Hf He. by rewrite He in Hf. Qed.

(** One step of the loop over tails, then the rest of it. *)
Lemma tails_step p c e0 e1 e t it it1 it' :
  good (t :: it) -> next_continuation p (t :: it) = Some c ->
  good it1 -> (length it1 <= length it)%nat ->
  (forall fuel reps, (length (t :: it) <= fuel)%nat ->
     call_tail source_ tab_size_ (parse fuel) (tail_of c) e0 (ps (t :: it) reps) = Done e1 (ps it1 reps)) ->
  tails_complete p e1 e it1 it' ->
  good it' /\ (length it' <= length (t :: it))%nat /\
  forall fuel reps n, (length (t :: it) <= fuel)%nat -> (length (t :: it) < n)%nat ->
    loop_fuel n (tail_step (parse fuel) p) e0 (ps (t :: it) reps) = Done e (ps it' reps).
Proof.
  intros Hg Hc Hg1 Hl1 Hcall Htails. destruct (Htails Hg1) as (Hg' & Hl' & Hloop).
  split_and!; [done|cbn; lia|]. intros fuel reps [|n] Hfuel Hn; [lia|]. cbn [loop_fuel].
  assert (Hstep : tail_step (parse fuel) p e0 (ps (t :: it) reps) = Done (Continue e1) (ps it1 reps)).
  { unfold tail_step. rewrite (bind_done _ _ _ _ _ (get_next_tail source_ tab_size_ p (t :: it) reps Hg)).
    rewrite Hc. cbn [fmap option_fmap option_map].
    by rewrite (bind_done _ _ _ _ _ (Hcall fuel reps Hfuel)). }
  rewrite (bind_done _ _ _ _ _ Hstep). apply Hloop; cbn in *; lia.
Qed.

Lemma right_complete p e0 op right t it it1 it2 :
  good (t :: it) -> next_continuation p (t :: it) = Some (adds_binary op) ->
  it1 = (if bool_decide (op = BinaryOperator.shr) then tail it else it) ->
  expr_complete (lookup_precedence_for_associativity op) right it1 it2 ->
  good it2 /\ (length it2 <= length it)%nat /\
  forall fuel reps, (length (t :: it) <= fuel)%nat ->
    call_tail source_ tab_size_ (parse fuel) (tail_of (adds_binary op)) e0 (ps (t :: it) reps) =
    Done (AstBinaryExpr (node_offset (token_offset e0)) op e0 right) (ps it2 reps).
Proof.
  intros Hg Hc -> Hright. pose proof (continuation_not_eof _ _ _ _ Hc) as Hne.
  assert (Hg1 : good it) by (by eapply good_front). cbn [call_tail tail_of]. unfold on_binary_operator.
  case_bool_decide as Hop.
  - subst op. destruct (continuation_shr _ _ _ Hc) as (t2 & it3 & -> & Hk2). cbn [tail] in Hright.
    assert (Hg3 : good it3) by (by eapply good_front; [exact Hg1|exact Hk2|]).
    destruct (Hright Hg3) as (Hg2 & Hl2 & Hrun). split_and!; [done|cbn in *; lia|].
    intros fuel reps Hfuel. rewrite (bind_done _ _ _ _ _ (advance_run t _ reps Hne)).
    cbv iota.
    rewrite (bind_done _ _ _ _ _ (advance_run t2 _ reps ltac:(congruence))).
    rewrite (bind_done _ _ _ _ _ (Hrun fuel reps ltac:(cbn in *; lia))). done.
  - destruct (Hright Hg1) as (Hg2 & Hl2 & Hrun). split_and!; [done|lia|].
    intros fuel reps Hfuel. rewrite (bind_done _ _ _ _ _ (advance_run t _ reps Hne)).
    cbv iota. rewrite (bind_done _ _ _ tt (ps it reps)) by done.
    rewrite (bind_done _ _ _ _ _ (Hrun fuel reps ltac:(cbn in *; lia))). done.
Qed.

(** A head that is one token. *)
Lemma one_token_complete t it head_fn e :
  lookup_head_parse_fn (kind t) = Some head_fn ->
  (forall fuel, call_head (parse fuel) head_fn = bind cursor_next (fun t => ret (e t))) ->
  head_complete (e t) (t :: it) it.
Proof.
  intros Hf Hcall Hg. pose proof (head_not_eof _ _ Hf) as Hne.
  split_and!; [by eapply good_front|cbn; lia|]. exists t, it, head_fn. split_and!; [done..|].
  intros fuel reps _. rewrite Hcall. by rewrite (bind_done _ _ _ _ _ (next_run t it reps Hne)).
Qed.

Lemma return_complete t es it it' :
  kind t = TokenKind.kw_return ->
  (if starts_expression it then list_complete es it it' else es = [] /\ it' = it) ->
  head_complete (AstReturnExpr (node_offset (offset t)) es) (t :: it) it'.
Proof.
  intros Hk Hes Hg. assert (Hg1 : good it) by (by eapply good_front).
  assert (Hvals : good it' /\ (length it' <= length it)%nat /\
    forall fuel reps, (length it < fuel)%nat ->
      (if starts_expression it then comma_separated (rec_expression (parse fuel) Precedence.statement)
       else ret []) (ps it reps) = Done es (ps it' reps)).
  { destruct (starts_expression it).
    - destruct (Hes Hg1) as (Hg' & Hl & _). split_and!; [done|lia|]. intros fuel reps Hfuel. by apply list_run.
    - destruct Hes as [-> ->]. done. }
  destruct Hvals as (Hg' & Hl & Hrun). split_and!; [done|cbn; lia|].
  exists t, it, head_return. split; [done|]. split; [by rewrite Hk|]. intros fuel reps Hfuel.
  cbn [call_head]. unfold on_kw_return.
  rewrite (bind_done _ _ _ _ _ (next_run t it reps ltac:(congruence))).
  rewrite (bind_done _ _ _ _ _ (is_expression_next_run it reps Hg1)).
  by rewrite (bind_done _ _ _ _ _ (Hrun fuel reps ltac:(cbn in *; lia))).
Qed.

Lemma prefix_complete t op operand it it' :
  prefix_operator_of (kind t) = Some op -> expr_complete Precedence.prefix operand it it' ->
  head_complete (AstUnaryExpr (node_offset (offset t)) op operand) (t :: it) it'.
Proof.
  intros Hk Hop Hg. pose proof (prefix_head _ _ Hk) as Hf. pose proof (head_not_eof _ _ Hf) as Hne.
  assert (Hg1 : good it) by (by eapply good_front). destruct (Hop Hg1) as (Hg' & Hl & Hrun).
  split_and!; [done|cbn; lia|]. exists t, it, (head_prefix_operator op). split_and!; [done..|].
  intros fuel reps Hfuel. cbn [call_head]. unfold on_prefix_operator.
  rewrite (bind_done _ _ _ _ _ (next_run t it reps Hne)).
  by rewrite (bind_done _ _ _ _ _ (Hrun fuel reps ltac:(cbn in *; lia))).
Qed.

Lemma no_tail_complete p e it : next_continuation p it = None -> tails_complete p e e it it.
Proof.
  intros Hc Hg. split_and!; [done..|]. intros fuel reps [|n] _ Hn; [lia|]. cbn [loop_fuel].
  assert (Hstep : tail_step (parse fuel) p e (ps it reps) = Done (Break e) (ps it reps)).
  { unfold tail_step. rewrite (bind_done _ _ _ _ _ (get_next_tail source_ tab_size_ p it reps Hg)). by rewrite Hc. }
  by rewrite (bind_done _ _ _ _ _ Hstep).
Qed.

Lemma empty_call_complete p e0 e t t2 it it' :
  next_continuation p (t :: t2 :: it) = Some adds_call -> kind t2 = TokenKind.r_paren ->
  tails_complete p (AstCallExpr (node_offset (token_offset e0)) e0 []) e it it' ->
  tails_complete p e0 e (t :: t2 :: it) it'.
Proof.
  intros Hc Hk2 Htails Hg. pose proof (continuation_not_eof _ _ _ _ Hc) as Hne.
  assert (Hg1 : good (t2 :: it)) by (by eapply good_front).
  assert (Hg2 : good it) by (by eapply good_front; [exact Hg1|exact Hk2|]).
  eapply (tails_step p adds_call); [done|exact Hc|exact Hg2|cbn; lia| |exact Htails].
  intros fuel reps Hfuel. cbn [call_tail tail_of]. unfold on_infix_left_paren.
  rewrite (bind_done _ _ _ _ _ (advance_run t _ reps Hne)).
  by rewrite (bind_done _ _ _ _ _ (match_yes _ t2 it reps Hk2 ltac:(done))).
Qed.

Lemma call_complete p e0 e args t t2 it it2 it' :
  next_continuation p (t :: it) = Some adds_call -> ~ next_is TokenKind.r_paren it ->
  list_complete args it (t2 :: it2) -> kind t2 = TokenKind.r_paren ->
  tails_complete p (AstCallExpr (node_offset (token_offset e0)) e0 args) e it2 it' ->
  tails_complete p e0 e (t :: it) it'.
Proof.
  intros Hc Hnot Hlist Hk2 Htails Hg. pose proof (continuation_not_eof _ _ _ _ Hc) as Hne.
  assert (Hg1 : good it) by (by eapply good_front). destruct (Hlist Hg1) as (Hg2 & Hl2 & _).
  assert (Hg3 : good it2) by (by eapply good_front; [exact Hg2|exact Hk2|]).
  eapply (tails_step p adds_call); [done|exact Hc|exact Hg3|cbn in *; lia| |exact Htails].
  intros fuel reps Hfuel. cbn [call_tail tail_of]. unfold on_infix_left_paren.
  rewrite (bind_done _ _ _ _ _ (advance_run t it reps Hne)).
  rewrite (bind_done _ _ _ _ _ (match_no _ it reps Hg1 Hnot)). cbn [negb].
  assert (Hargs : bind (comma_separated (rec_expression (parse fuel) Precedence.statement)) (fun args =>
      expect source_ tab_size_ TokenKind.r_paren expect_closing_paren_in_call ;; ret args) (ps it reps) =
    Done args (ps it2 reps)).
  { rewrite (bind_done _ _ _ _ _ (list_run _ _ _ fuel reps Hlist Hg1 ltac:(cbn in *; lia))).
    by rewrite (bind_done _ _ _ _ _ (expect_yes _ _ t2 it2 reps Hk2 ltac:(done))). }
  by rewrite (bind_done _ _ _ _ _ Hargs).
Qed.

Lemma one_complete e it it' :
  expr_complete Precedence.statement e it it' -> ~ next_is TokenKind.comma it' -> list_complete [e] it it'.
Proof.
  intros He Hno Hg. destruct (He Hg) as (Hg' & Hl & Hrun). split_and!; [done..|].
  intros fuel reps [|n] acc Hfuel Hn; [lia|]. cbn [loop_fuel].
  assert (Hstep : comma_step (rec_expression (parse fuel) Precedence.statement) acc (ps it reps) =
    Done (Break (acc ++ [e])) (ps it' reps)).
  { unfold comma_step. rewrite (bind_done _ _ _ _ _ (Hrun fuel reps Hfuel)).
    by rewrite (bind_done _ _ _ _ _ (match_no _ it' reps Hg' Hno)). }
  by rewrite (bind_done _ _ _ _ _ Hstep).
Qed.

Lemma more_complete e es t it it1 it' :
  expr_complete Precedence.statement e it (t :: it1) -> kind t = TokenKind.comma ->
  list_complete es it1 it' -> list_complete (e :: es) it it'.
Proof.
  intros He Hk Hes Hg. destruct (He Hg) as (Hg1 & Hl & Hrun).
  assert (Hg2 : good it1) by (by eapply good_front; [exact Hg1|exact Hk|]).
  destruct (Hes Hg2) as (Hg' & Hl2 & Hloop). cbn in Hl. split_and!; [done|lia|].
  intros fuel reps [|n] acc Hfuel Hn; [lia|]. cbn [loop_fuel].
  assert (Hstep : comma_step (rec_expression (parse fuel) Precedence.statement) acc (ps it reps) =
    Done (Continue (acc ++ [e])) (ps it1 reps)).
  { unfold comma_step. rewrite (bind_done _ _ _ _ _ (Hrun fuel reps Hfuel)).
    by rewrite (bind_done _ _ _ _ _ (match_yes _ t it1 reps Hk ltac:(done))). }
  rewrite (bind_done _ _ _ _ _ Hstep). rewrite (Hloop fuel reps n (acc ++ [e])) by lia.
  by rewrite <-app_assoc.
Qed.

Lemma close_complete t it : kind t = TokenKind.r_brace -> block_complete [] (t :: it) it.
Proof.
  intros Hk Hg. split_and!; [by eapply good_front|cbn; lia|].
  intros fuel reps [|n] acc _ Hn; [lia|]. cbn [loop_fuel].
  assert (Hstep : block_step (parse fuel) acc (ps (t :: it) reps) = Done (Break acc) (ps it reps)).
  { unfold block_step. by rewrite (bind_done _ _ _ _ _ (match_yes _ t it reps Hk ltac:(done))). }
  rewrite (bind_done _ _ _ _ _ Hstep). by rewrite app_nil_r.
Qed.

Lemma statement_complete e es it it1 it' :
  ~ next_is TokenKind.r_brace it -> stmt_complete e it it1 -> block_complete es it1 it' ->
  block_complete (e :: es) it it'.
Proof.
  intros Hno He Hes Hg. destruct (He Hg) as (Hg1 & Hl & Hrun). destruct (Hes Hg1) as (Hg' & Hl2 & Hloop).
  split_and!; [done|lia|]. intros fuel reps [|n] acc Hfuel Hn; [lia|]. cbn [loop_fuel].
  assert (Hstep : block_step (parse fuel) acc (ps it reps) = Done (Continue (acc ++ [e])) (ps it1 reps)).
  { unfold block_step. rewrite (bind_done _ _ _ _ _ (match_no _ it reps Hg Hno)). cbn [negb].
    unfold catch, bind. by rewrite (Hrun fuel reps Hfuel). }
  rewrite (bind_done _ _ _ _ _ Hstep). rewrite (Hloop fuel reps n (acc ++ [e])) by lia.
  by rewrite <-app_assoc.
Qed.

Lemma block_stmt_complete t es it it' :
  kind t = TokenKind.l_brace -> block_complete es it it' ->
  stmt_complete (AstBlockExpr (node_offset (offset t)) es) (t :: it) it'.
Proof.
  intros Hk Hb Hg. destruct (block_expr_complete t es it it' Hk Hb Hg) as (Hg' & Hl & Hrun).
  split_and!; [done..|]. intros fuel reps Hfuel. unfold parse_statement.
  rewrite (bind_done _ _ _ (on_prefix_left_brace (parse fuel), false) (ps (t :: it) reps)).
  2: { unfold lookup_statement_rule, bind, cursor_peek_kind, on_cursor. cbn. by rewrite Hk. }
  by rewrite (bind_done _ _ _ _ _ (Hrun fuel reps Hfuel)).
Qed.

Lemma expr_stmt_complete e t it it' :
  ~ next_is TokenKind.l_brace it -> (good it -> good (t :: it') /\ (length (t :: it') < length it)%nat /\
    forall fuel reps, (length it <= fuel)%nat ->
      parse_expression_body source_ tab_size_ (parse fuel) Precedence.statement (ps it reps) =
      Done e (ps (t :: it') reps)) ->
  kind t = TokenKind.semicolon -> stmt_complete e it it'.
Proof.
  intros Hno He Hk Hg. destruct (He Hg) as (Hg1 & Hl & Hrun). cbn in Hl.
  split_and!; [by eapply good_front; [exact Hg1|exact Hk|]|lia|].
  intros fuel reps Hfuel. unfold parse_statement.
  rewrite (bind_done _ _ _ (parse_expression_body source_ tab_size_ (parse fuel) Precedence.statement, true) (ps it reps)).
  2: { destruct (good_inv _ _ _ Hg) as (t2 & rest & -> & _). cbn in Hno.
    unfold lookup_statement_rule, bind, cursor_peek_kind, on_cursor. cbn. by destruct (kind t2). }
  rewrite (bind_done _ _ _ _ _ (Hrun fuel reps Hfuel)).
  by rewrite (bind_done _ _ _ _ _ (expect_yes _ _ t it' reps Hk ltac:(done))).
Qed.

(** An expression run at the level of [parse_expression_body]. *)
Lemma expr_complete_body p e it it' :
  expr_complete p e it it' ->
  good it -> good it' /\ (length it' < length it)%nat /\
  forall fuel reps, (length it <= fuel)%nat ->
    parse_expression_body source_ tab_size_ (parse fuel) p (ps it reps) = Done e (ps it' reps).
Proof.
  intros He Hg. destruct (He Hg) as (Hg' & Hl & Hrun). split_and!; [done..|].
  intros fuel reps Hfuel. apply (Hrun (S fuel) reps). lia.
Qed.

(** The grammar's derivations, all parts at once. *)
Lemma grammar_complete :
  (forall p e it it', parses_expr p e it it' -> expr_complete p e it it') /\
  (forall e it it', parses_head e it it' -> head_complete e it it') /\
  (forall p e0 e it it', parses_tails p e0 e it it' -> tails_complete p e0 e it it') /\
  (forall es it it', parses_list es it it' -> list_complete es it it') /\
  (forall es it it', parses_block es it it' -> block_complete es it it') /\
  (forall e it it', parses_stmt e it it' -> stmt_complete e it it').
Proof.
  apply grammar_ind.
  - intros p e0 e it it1 it' _ Hhead _ Htails. by eapply parse_expr_complete.
  - intros t it Hk. eapply (one_token_complete t it head_identifier
      (fun t => AstIdentExpr (node_offset (offset t)) (variable_length t))); [by rewrite Hk|done].
  - intros t it k Hk. eapply (one_token_complete t it (head_literal k)
      (fun t => AstLiteralExpr (node_offset (offset t)) k (variable_length t))); [by apply literal_head|done].
  - intros t es it it' Hk _ Hb Hg. destruct (block_expr_complete t es it it' Hk Hb Hg) as (Hg' & Hl & Hrun).
    split_and!; [done..|]. exists t, it, head_left_brace. split; [done|]. split; [by rewrite Hk|exact Hrun].
  - intros t it Hk Hs. apply return_complete; [done|]. by rewrite Hs.
  - intros t es it it' Hk Hs _ Hes. apply return_complete; [done|]. by rewrite Hs.
  - intros t op operand it it' Hk _ Hop. by apply prefix_complete.
  - intros p e it Hc. by apply no_tail_complete.
  - intros p e0 e op right t it it1 it2 it' Hc Hit1 _ Hright _ Htails Hg.
    destruct (right_complete p e0 op right t it it1 it2 Hg Hc Hit1 Hright) as (Hg2 & Hl2 & Hrun).
    by eapply (tails_step p (adds_binary op)).
  - intros p e0 e op t it it' Hc _ Htails Hg. pose proof (continuation_not_eof _ _ _ _ Hc) as Hne.
    eapply (tails_step p (adds_postfix op)); [done|exact Hc|by eapply good_front|done| |exact Htails].
    intros fuel reps Hfuel. cbn [call_tail tail_of]. unfold on_postfix_operator.
    by rewrite (bind_done _ _ _ _ _ (advance_run t it reps Hne)).
  - intros p e0 e t t2 it it' Hc Hk2 _ Htails. by apply empty_call_complete.
  - intros p e0 e args t t2 it it2 it' Hc Hno _ Hlist Hk2 _ Htails. by eapply call_complete.
  - intros e it it' _ He Hno. by apply one_complete.
  - intros e es t it it1 it' _ He Hk _ Hes. by eapply more_complete.
  - intros t it Hk. by apply close_complete.
  - intros e es it it1 it' Hno _ He _ Hes. by eapply statement_complete.
  - intros t es it it' Hk _ Hb. by apply block_stmt_complete.
  - intros e t it it' Hno _ He Hk. eapply expr_stmt_complete; [done|by apply expr_complete_body|done].
Qed.

(** * Definitions *)

(** [m] parses from [it] to [it'] and returns [a], without a report. *)
Definition parses_to {A} (m : P A) (a : A) (it it' : list Token) : Prop :=
  good it' /\ (length it' <= length it)%nat /\ forall reps, m (ps it reps) = Done a (ps it' reps).

Lemma sep_complete {A} (R : A -> list Token -> list Token -> Prop) (item : P A) :
  (forall a it it', R a it it' -> good it -> parses_to item a it it' /\ (length it' < length it)%nat) ->
  forall l it it', sep R l it it' -> good it -> parses_to (comma_separated item) l it it'.
Proof.
  intros Hitem l it it' Hsep Hg.
  assert (Hloop : good it' /\ (length it' <= length it)%nat /\ forall reps n acc, (length it < n)%nat ->
    loop_fuel n (comma_step item) acc (ps it reps) = Done (acc ++ l) (ps it' reps)).
  { revert Hg. induction Hsep as [a it it' Ha Hno|a l t it it1 it' Ha Hk _ IH]; intros Hg;
      destruct (Hitem _ _ _ Ha Hg) as ((Hg1 & _ & Hrun) & Hl).
    - split_and!; [done|lia|]. intros reps [|n] acc Hn; [lia|]. cbn [loop_fuel].
      assert (Hstep : comma_step item acc (ps it reps) = Done (Break (acc ++ [a])) (ps it' reps)).
      { unfold comma_step. rewrite (bind_done _ _ _ _ _ (Hrun reps)).
        by rewrite (bind_done _ _ _ _ _ (match_no _ it' reps Hg1 Hno)). }
      by rewrite (bind_done _ _ _ _ _ Hstep).
    - assert (Hg2 : good it1) by (by eapply good_front; [exact Hg1|exact Hk|]).
      destruct (IH Hg2) as (Hg' & Hl2 & Hloop). cbn in Hl. split_and!; [done|lia|].
      intros reps [|n] acc Hn; [lia|]. cbn [loop_fuel].
      assert (Hstep : comma_step item acc (ps it reps) = Done (Continue (acc ++ [a])) (ps it1 reps)).
      { unfold comma_step. rewrite (bind_done _ _ _ _ _ (Hrun reps)).
        by rewrite (bind_done _ _ _ _ _ (match_yes _ t it1 reps Hk ltac:(done))). }
      rewrite (bind_done _ _ _ _ _ Hstep). rewrite Hloop by lia. by rewrite <-app_assoc. }
  destruct Hloop as (Hg' & Hl & Hloop). split_and!; [done..|]. intros reps.
  exact (Hloop reps (S (length it)) [] ltac:(lia)).
Qed.

Lemma type_complete message e it it' :
  parses_type e it it' -> good it ->
  parses_to (parse_type source_ tab_size_ message) e it it' /\ (length it' < length it)%nat.
Proof.
  intros [t rest Hk] Hg. split; [|cbn; lia]. split_and!; [by eapply good_front|cbn; lia|].
  intros reps. unfold parse_type. rewrite (bind_done _ _ _ (kind t) (ps (t :: rest) reps)) by done.
  rewrite Hk, TokenKind.eqb_refl. unfold on_identifier.
  by rewrite (bind_done _ _ _ _ _ (next_run t rest reps ltac:(congruence))).
Qed.

Lemma match_token_yes k t it reps :
  kind t = k -> k <> TokenKind.end_of_file ->
  cursor_match_token k (ps (t :: it) reps) = Done (Some t) (ps it reps).
Proof.
  intros Hk Hne. unfold cursor_match_token, move_cursor, TokenCursor.match_token. cbn.
  rewrite Hk, TokenKind.eqb_refl. by destruct (TokenKind.eqb_spec k TokenKind.end_of_file).
Qed.

Lemma name_from t : kind t = TokenKind.identifier -> AstName_from t = Some (name_of t).
Proof. intros Hk. unfold AstName_from. by rewrite Hk. Qed.

Lemma parameter_complete p it it' :
  parses_parameter p it it' -> good it ->
  parses_to (parse_function_definition_parameter source_ tab_size_) p it it' /\ (length it' < length it)%nat.
Proof.
  intros [t type t2 rest rest' Htype Hk] Hg.
  destruct (type_complete expect_parameter_type _ _ _ Htype Hg) as ((Hg2 & _ & Hrun) & Hl). cbn in Hl.
  destruct (good_inv _ _ _ Hg2) as (? & ? & [= <- <-] & Hp).
  split; [|cbn; lia]. split_and!; [by eapply good_front; [exact Hg2|exact Hk|]|cbn; lia|].
  intros reps. unfold parse_function_definition_parameter.
  rewrite (bind_done _ _ _ (offset t) (ps (t :: rest) reps)) by done.
  rewrite (bind_done _ _ _ _ _ (Hrun reps)).
  assert (Hname : expect_identifier source_ tab_size_ expect_parameter_name (ps (t2 :: rest') reps) =
    Done (name_of t2) (ps rest' reps)).
  { unfold expect_identifier. rewrite (bind_done _ _ _ _ _ (match_token_yes _ t2 rest' reps Hk ltac:(done))).
    by rewrite (name_from t2 Hk). }
  rewrite (bind_done _ _ _ _ _ Hname). by rewrite (printable_name source_ tab_size_ t2 Hp Hk).
Qed.

Lemma parameters_complete l it it' :
  parses_parameters l it it' -> good it ->
  parses_to (parse_function_definition_parameters source_ tab_size_) l it it' /\ (length it' < length it)%nat.
Proof.
  intros [t rest Hk|l0 t it0 it1 Hno Hsep Hk] Hg.
  - split; [|cbn; lia]. split_and!; [by eapply good_front|cbn; lia|]. intros reps.
    unfold parse_function_definition_parameters.
    by rewrite (bind_done _ _ _ _ _ (match_yes _ t rest reps Hk ltac:(done))).
  - destruct (sep_complete _ _ parameter_complete _ _ _ Hsep Hg) as (Hg1 & Hl & Hrun). cbn in Hl.
    split; [|lia]. split_and!; [by eapply good_front; [exact Hg1|exact Hk|]|lia|]. intros reps.
    unfold parse_function_definition_parameters.
    rewrite (bind_done _ _ _ _ _ (match_no _ it0 reps Hg Hno)). cbn [negb].
    rewrite (bind_done _ _ _ _ _ (Hrun reps)).
    by rewrite (bind_done _ _ _ _ _ (expect_yes _ _ t it1 reps Hk ltac:(done))).
Qed.

Lemma output_complete o it it' :
  parses_output o it it' -> good it ->
  parses_to (parse_function_definition_output source_ tab_size_) o it it' /\ (length it' < length it)%nat.
Proof.
  intros [t type rest rest' Htype] Hg.
  destruct (type_complete expect_return_type _ _ _ Htype Hg) as ((Hg' & Hl' & Hrun) & Hl).
  split; [|done]. split_and!; [done..|]. intros reps. unfold parse_function_definition_output.
  rewrite (bind_done _ _ _ (offset t) (ps (t :: rest) reps)) by done.
  by rewrite (bind_done _ _ _ _ _ (Hrun reps)).
Qed.

Lemma outputs_complete l it it' :
  parses_outputs l it it' -> good it ->
  parses_to (parse_function_definition_outputs source_ tab_size_) l it it'.
Proof.
  intros [it0 Hno|l0 t it0 it1 Hk Hsep] Hg.
  - split_and!; [done..|]. intros reps. unfold parse_function_definition_outputs.
    by rewrite (bind_done _ _ _ _ _ (match_no _ it0 reps Hg Hno)).
  - assert (Hg0 : good it0) by (by eapply good_front).
    destruct (sep_complete _ _ output_complete _ _ _ Hsep Hg0) as (Hg1 & Hl & Hrun).
    split_and!; [done|cbn; lia|]. intros reps. unfold parse_function_definition_outputs.
    rewrite (bind_done _ _ _ _ _ (match_yes _ t it0 reps Hk ltac:(done))). apply Hrun.
Qed.

Lemma block_run es it it' :
  parses_block es it it' -> good it -> parses_to (parse_block source_ tab_size_) es it it'.
Proof.
  intros Hb Hg. destruct grammar_complete as (_ & _ & _ & _ & Hblock & _).
  destruct (Hblock _ _ _ Hb Hg) as (Hg' & Hl & _). split_and!; [done|lia|]. intros reps.
  unfold parse_block. apply rec_block_complete; [by apply Hblock|done|cbn; lia].
Qed.

Lemma access_complete access t it name it1 :
  parses_access access (t :: it) (name :: it1) -> good (t :: it) ->
  good (name :: it1) /\ (length (name :: it1) <= length (t :: it))%nat /\ forall {B} (k : _ -> P B) reps,
    bind (cursor_match TokenKind.kw_private) (fun private =>
      bind (if private : bool then ret AccessModifier.private_
            else bind (cursor_match TokenKind.kw_public) (fun public =>
              if public : bool then ret AccessModifier.public_ else ret AccessModifier.none)) k)
      (ps (t :: it) reps) = k access (ps (name :: it1) reps).
Proof.
  inversion 1 as [? ? Hk|? ? Hk|? Hno1 Hno2]; subst; intros Hg.
  - split_and!; [by eapply good_front|cbn; lia|]. intros B k reps.
    by rewrite (bind_done _ _ _ _ _ (match_yes _ t _ reps Hk ltac:(done))).
  - split_and!; [by eapply good_front|cbn; lia|]. intros B k reps.
    rewrite (bind_done _ _ _ _ _ (match_no TokenKind.kw_private _ reps Hg ltac:(cbn; congruence))).
    apply bind_done. by rewrite (bind_done _ _ _ _ _ (match_yes _ t _ reps Hk ltac:(done))).
  - split_and!; [done..|]. intros B k reps.
    rewrite (bind_done _ _ _ _ _ (match_no TokenKind.kw_private _ reps Hg Hno1)).
    apply bind_done. by rewrite (bind_done _ _ _ _ _ (match_no TokenKind.kw_public _ reps Hg Hno2)).
Qed.

Lemma definition_complete d it it' :
  parses_definition d it it' -> good it ->
  parses_to (parse_definition source_ tab_size_) d it it' /\ (length it' < length it)%nat.
Proof.
  intros [t access name paren brace params outs body rest it1 it2 it3 it4
    Haccess Hname Hparen Hparams Houts Hbrace Hbody] Hg.
  destruct (access_complete _ _ _ _ _ Haccess Hg) as (Hg0 & Hl0 & Hacc).
  assert (Hg1 : good (paren :: it1)) by (by eapply good_front; [exact Hg0|exact Hname|]).
  assert (Hg2 : good it1) by (by eapply good_front; [exact Hg1|exact Hparen|]).
  destruct (parameters_complete _ _ _ Hparams Hg2) as ((Hg3 & Hl3 & Hrun3) & _).
  destruct (outputs_complete _ _ _ Houts Hg3) as (Hg4 & Hl4 & Hrun4).
  assert (Hg5 : good it3) by (by eapply good_front; [exact Hg4|exact Hbrace|]).
  destruct (block_run _ _ _ Hbody Hg5) as (Hg6 & Hl6 & Hrun6). cbn [length] in *.
  split; [|lia]. split_and!; [done|cbn; lia|]. intros reps. unfold parse_definition.
  rewrite (bind_done _ _ _ (offset t) (ps (t :: rest) reps)) by done. rewrite Hacc.
  rewrite (bind_done _ _ _ _ _ (match_token_yes _ name _ reps Hname ltac:(done))).
  unfold parse_function_definition. rewrite (name_from name Hname).
  rewrite (bind_done _ _ _ (name_of name) (ps (paren :: it1) reps)) by done.
  rewrite (bind_done _ _ _ _ _ (expect_yes _ _ paren it1 reps Hparen ltac:(done))).
  rewrite (bind_done _ _ _ _ _ (Hrun3 reps)), (bind_done _ _ _ _ _ (Hrun4 reps)).
  rewrite (bind_done _ _ _ _ _ (expect_yes _ _ brace it3 reps Hbrace ltac:(done))).
  by rewrite (bind_done _ _ _ _ _ (Hrun6 reps)).
Qed.

Definition root_step (definitions : list AstFunctionDefinition)
    : P (Loop (list AstFunctionDefinition) AstRoot) :=
  at_end <- cursor_match TokenKind.end_of_file ;;
  if negb at_end then
    catch
      (definition <- parse_definition source_ tab_size_ ;;
       ret (Continue (definitions ++ [definition])))
      (recover_at_definition_level ;;
       ret (Continue definitions))
  else ret (Break {| definitions := definitions |}).

(** The rounds of the loop over definitions. *)
Lemma root_step_end t acc reps :
  kind t = TokenKind.end_of_file ->
  root_step acc (ps [t] reps) = Done (Break {| definitions := acc |}) (ps [t] reps).
Proof.
  intros Hk. unfold root_step, bind, cursor_match, move_cursor, TokenCursor.match_kind. cbn. by rewrite Hk.
Qed.

Lemma root_step_definition d it it' acc reps :
  ~ next_is TokenKind.end_of_file it -> parses_definition d it it' -> good it ->
  good it' /\ (length it' < length it)%nat /\
  root_step acc (ps it reps) = Done (Continue (acc ++ [d])) (ps it' reps).
Proof.
  intros Hno Hd Hg. destruct (definition_complete _ _ _ Hd Hg) as ((Hg' & _ & Hrun) & Hl).
  split; [done|]. split; [done|].
  unfold root_step. rewrite (bind_done _ _ _ _ _ (match_no _ it reps Hg Hno)). cbn [negb].
  unfold catch, bind. by rewrite (Hrun reps).
Qed.

Lemma root_complete ds it :
  parses_root ds it -> good it ->
  forall reps n acc, (length it < n)%nat ->
    exists it', loop_fuel n root_step acc (ps it reps) = Done {| definitions := acc ++ ds |} (ps it' reps).
Proof.
  induction 1 as [t Hk|d ds it it' Hno Hd _ IH]; intros Hg reps [|n] acc Hn; try lia; cbn [loop_fuel].
  - rewrite (bind_done _ _ _ _ _ (root_step_end t acc reps Hk)). exists [t]. by rewrite app_nil_r.
  - destruct (root_step_definition d it it' acc reps Hno Hd Hg) as (Hg' & Hl & Hstep).
    rewrite (bind_done _ _ _ _ _ Hstep). destruct (IH Hg' reps n (acc ++ [d]) ltac:(lia)) as [it2 Hloop].
    exists it2. by rewrite Hloop, <-app_assoc.
Qed.

Lemma run_parser_complete ds it reports :
  parses_root ds it -> good it ->
  run_parser source_ tab_size_ it reports = Done {| definitions := ds |} reports.
Proof.
  intros Hroot Hg. unfold run_parser.
  destruct (root_complete ds it Hroot Hg reports (S (length it)) [] ltac:(lia)) as [it' Hloop].
  assert (Hrun : run source_ tab_size_ {| cursor_ := TokenCursor.new it; reports_ := reports |} =
    Done {| definitions := [] ++ ds |} (ps it' reports)) by exact Hloop.
  by rewrite Hrun.
Qed.

End Complete.
