(* ===== verification/ParserRecovery.v ===== *)
(** Progress of the parser over broken sources: a stretch that starts with a stray
    token is reported and skipped up to the next token at which the parser
    recovers, and the definitions from there on get into the tree. *)

From Stdlib Require Import String.
From S2P Require Import Prelude Report Source Testing SourceFacts Token Flags Lexer Ast Parser Grammar.
From S2P Require Import GrammarFacts ParserFacts ParserSound ParserComplete.

(** * Sources with stray tokens *)

(** Tokens with which no definition starts. *)
Definition stray (t : Token) : Prop :=
  kind t ∉ [TokenKind.identifier; TokenKind.kw_private; TokenKind.kw_public; TokenKind.end_of_file].

(** [sections ds n it]: the tokens [it] consist of the definitions [ds] and of [n]
    stretches between them, each of which starts with a stray token and goes up to
    the next token at which the parser recovers ([public], [private], [struct],
    [enum] or the end of the file). A definition inside a stretch, which can only be
    one without an access modifier, is part of what is skipped and not among [ds]. *)
Inductive sections : list AstFunctionDefinition -> nat -> list Token -> Prop :=
| sections_end t : kind t = TokenKind.end_of_file -> sections [] 0 [t]
| sections_definition d ds n it it' :
    ~ next_is TokenKind.end_of_file it -> parses_definition d it it' -> sections ds n it' ->
    sections (d :: ds) n it
| sections_stray first skipped t rest ds n :
    stray first -> Forall (fun t => kind t ∉ recovery_tokens) skipped -> kind t ∈ recovery_tokens ->
    sections ds n (t :: rest) -> sections ds (S n) (first :: skipped ++ t :: rest).

Section Recovery.
Context `{Fmt} (source_ : SourceView.t) (tab_size_ : Z).
#[local] Abbreviation good := (good source_ tab_size_).

Lemma is_recovery_token_spec t : is_recovery_token t = true <-> kind t ∈ recovery_tokens.
Proof.
  unfold is_recovery_token. rewrite existsb_exists, list_elem_of_In. split.
  - intros (k & Hin & Hk). apply TokenKind.eqb_eq in Hk. by subst.
  - intros Hin. exists (kind t). split; [done|]. apply TokenKind.eqb_refl.
Qed.

Lemma definition_sync_skips skipped t rest :
  Forall (fun t => kind t ∉ recovery_tokens) skipped -> kind t ∈ recovery_tokens ->
  definition_sync (skipped ++ t :: rest) = t :: rest.
Proof.
  intros Hskip Ht. induction Hskip as [|u skipped Hu _ IH]; cbn [app definition_sync].
  - apply is_recovery_token_spec in Ht. by rewrite Ht.
  - destruct (is_recovery_token u) eqn:Hr; [by apply is_recovery_token_spec in Hr|exact IH].
Qed.

Lemma stray_fails t it reps :
  stray t -> good (t :: it) ->
  exists r, parse_definition source_ tab_size_ (ps (t :: it) reps) = Thrown (ps (t :: it) (reps ++ [r])).
Proof.
  intros Ht Hg. unfold stray in Ht. rewrite !not_elem_of_cons in Ht. destruct Ht as (Hid & Hpriv & Hpub & _ & _).
  destruct (report_expected_run source_ tab_size_ expect_function_struct_or_enum (t :: it) Hg) as [r Hr]; [done|].
  assert (Haccess : parses_access AccessModifier.none (t :: it) (t :: it)) by by apply parses_no_access.
  destruct (access_complete source_ tab_size_ _ _ _ _ _ Haccess Hg) as (_ & _ & Hacc).
  exists r. unfold parse_definition. rewrite (bind_done _ _ _ (offset t) (ps (t :: it) reps)) by done. rewrite Hacc.
  assert (Hno : cursor_match_token TokenKind.identifier (ps (t :: it) reps) = Done None (ps (t :: it) reps)).
  { unfold cursor_match_token, move_cursor, TokenCursor.match_token. cbn.
    by destruct (TokenKind.eqb_spec (kind t) TokenKind.identifier). }
  rewrite (bind_done _ _ _ _ _ Hno). by rewrite (bind_done _ _ _ _ _ (Hr reps)).
Qed.

(** A round of the loop that meets a stray token. *)
Lemma root_step_stray first skipped t rest acc reps :
  stray first -> Forall (fun t => kind t ∉ recovery_tokens) skipped -> kind t ∈ recovery_tokens ->
  good (first :: skipped ++ t :: rest) ->
  good (t :: rest) /\ exists r,
    root_step source_ tab_size_ acc (ps (first :: skipped ++ t :: rest) reps) =
    Done (Continue acc) (ps (t :: rest) (reps ++ [r])).
Proof.
  intros Hf Hskip Ht Hg. assert (Hne : kind first <> TokenKind.end_of_file).
  { unfold stray in Hf. rewrite !not_elem_of_cons in Hf. tauto. }
  destruct (next_definition_good source_ tab_size_ _ Hg) as (Hgood & _ & _).
  destruct (stray_fails first (skipped ++ t :: rest) reps Hf Hg) as [r Hr].
  pose proof (recover_at_definition_level_run source_ tab_size_ _ (reps ++ [r]) Hg) as Hrecover.
  cbn [next_definition] in *. destruct (TokenKind.eqb_spec (kind first) TokenKind.end_of_file); [done|].
  rewrite (definition_sync_skips _ _ _ Hskip Ht) in *. split; [done|]. exists r. unfold root_step.
  rewrite (bind_done _ _ _ _ _ (match_no source_ tab_size_ _ _ reps Hg Hne)). cbn [negb].
  unfold catch, bind. by rewrite Hr, Hrecover.
Qed.

Lemma sections_run ds n it :
  sections ds n it -> good it ->
  forall reps fuel acc, (length it < fuel)%nat ->
    exists it' new, length new = n /\
      loop_fuel fuel (root_step source_ tab_size_) acc (ps it reps) =
      Done {| definitions := acc ++ ds |} (ps it' (reps ++ new)).
Proof.
  induction 1 as [t Hk|d ds n it it' Hno Hd _ IH|first skipped t rest ds n Hf Hskip Ht _ IH];
    intros Hg reps [|fuel] acc Hn; try lia; cbn [loop_fuel].
  - rewrite (bind_done _ _ _ _ _ (root_step_end source_ tab_size_ t acc reps Hk)).
    exists [t], []. by rewrite !app_nil_r.
  - destruct (root_step_definition source_ tab_size_ d it it' acc reps Hno Hd Hg) as (Hg' & Hl & Hstep).
    rewrite (bind_done _ _ _ _ _ Hstep).
    destruct (IH Hg' reps fuel (acc ++ [d]) ltac:(lia)) as (it2 & new & Hlen & Hloop).
    exists it2, new. by rewrite Hloop, <-app_assoc.
  - destruct (root_step_stray first skipped t rest acc reps Hf Hskip Ht Hg) as (Hg' & r & Hstep).
    rewrite (bind_done _ _ _ _ _ Hstep). cbn [length] in Hn. rewrite length_app in Hn.
    destruct (IH Hg' (reps ++ [r]) fuel acc ltac:(lia)) as (it2 & new & Hlen & Hloop).
    exists it2, (r :: new). rewrite Hloop, <-app_assoc. cbn. by rewrite Hlen.
Qed.

End Recovery.

(** * The theorem *)


(** A function without parameters, outputs and statements. *)
Lemma empty_function t access name paren paren2 brace brace2 rest it :
  parses_access access (t :: it) (name :: paren :: paren2 :: brace :: brace2 :: rest) ->
  map kind [name; paren; paren2; brace; brace2] =
    [TokenKind.identifier; TokenKind.l_paren; TokenKind.r_paren; TokenKind.l_brace; TokenKind.r_brace] ->
  parses_definition
    {| def_token_offset := node_offset (offset t); access_modifier := access; def_name := name_of name;
       parameters := []; outputs := []; statements := [] |} (t :: it) rest.
Proof.
  intros Ha [= Hn Hp Hp2 Hb Hb2]. eapply parses_definition_intro with (brace := brace) (it3 := brace2 :: rest);
    [exact Ha|done|done|by apply parses_no_parameters| |done|by apply parses_close].
  apply parses_no_outputs. cbn. by rewrite Hb.
Qed.

(** The definition of [h] is skipped: it has no access modifier and follows a stray
    token. *)
Definition stray_source : SourceView.t := test_source (lit "f(){}+1 h(){} public g(){}") (lit "t").
Definition stray_tokens : list Token :=
  [make_token TokenKind.identifier 0 1; fixed_token TokenKind.l_paren 1; fixed_token TokenKind.r_paren 2;
   fixed_token TokenKind.l_brace 3; fixed_token TokenKind.r_brace 4; fixed_token TokenKind.plus 5;
   make_token TokenKind.dec_int_literal 6 1; make_token TokenKind.identifier 8 1;
   fixed_token TokenKind.l_paren 9; fixed_token TokenKind.r_paren 10;
   fixed_token TokenKind.l_brace 11; fixed_token TokenKind.r_brace 12; fixed_token TokenKind.kw_public 14;
   make_token TokenKind.identifier 21 1; fixed_token TokenKind.l_paren 22; fixed_token TokenKind.r_paren 23;
   fixed_token TokenKind.l_brace 24; fixed_token TokenKind.r_brace 25; fixed_token TokenKind.end_of_file 26].

(** They are the tokens of that source. *)
Example stray_tokens_lexed :
  match run_lexer stray_source LexerFlags.none 4 [] with
  | Done toks reports => toks = stray_tokens /\ reports = []
  | _ => False
  end.
Proof. vm_compute. split; reflexivity. Qed.

Definition stray_definitions : list AstFunctionDefinition :=
  [{| def_token_offset := 0; access_modifier := AccessModifier.none;
      def_name := {| name_offset := 0; name_length := 1 |}; parameters := []; outputs := []; statements := [] |};
   {| def_token_offset := 14; access_modifier := AccessModifier.public_;
      def_name := {| name_offset := 21; name_length := 1 |}; parameters := []; outputs := []; statements := [] |}].

Lemma stray_sections : sections stray_definitions 1 stray_tokens.
Proof.
  apply sections_definition with (it' := skipn 5 stray_tokens); [cbn; discriminate| |].
  { apply (empty_function (make_token TokenKind.identifier 0 1) AccessModifier.none (make_token TokenKind.identifier 0 1)
      (fixed_token TokenKind.l_paren 1) (fixed_token TokenKind.r_paren 2) (fixed_token TokenKind.l_brace 3)
      (fixed_token TokenKind.r_brace 4)); [|reflexivity]. apply parses_no_access; cbn; discriminate. }
  apply (sections_stray (fixed_token TokenKind.plus 5) [make_token TokenKind.dec_int_literal 6 1;
    make_token TokenKind.identifier 8 1; fixed_token TokenKind.l_paren 9; fixed_token TokenKind.r_paren 10;
    fixed_token TokenKind.l_brace 11; fixed_token TokenKind.r_brace 12]).
  - apply (bool_decide_unpack _). vm_compute. exact I.
  - repeat constructor; apply (bool_decide_unpack _); vm_compute; exact I.
  - left.
  - apply sections_definition with (it' := skipn 18 stray_tokens); [cbn; discriminate| |by apply sections_end].
    apply (empty_function (fixed_token TokenKind.kw_public 14) AccessModifier.public_ (make_token TokenKind.identifier 21 1)
      (fixed_token TokenKind.l_paren 22) (fixed_token TokenKind.r_paren 23) (fixed_token TokenKind.l_brace 24)
      (fixed_token TokenKind.r_brace 25)); [|reflexivity].
    by apply parses_public.
Qed.

