(* ===== verification/ParserTheorems.v ===== *)
(** The theorems about the parser: totality, agreement with the grammar,
    precedence and associativity, recovery. *)

From Stdlib Require Import String.
From S2P Require Import Prelude Report Source Testing SourceFacts Token Ast Parser Grammar.
From S2P Require Import GrammarFacts ParserFacts ParserSound ParserComplete ParserRecovery.

(** * Example input *)

(** The tokens of [f(){a+b*c;}] and the source they stand in. *)
Definition example_source : SourceView.t := test_source (lit "f(){a+b*c;}") (lit "t").
Definition example_tokens : list Token :=
  [make_token TokenKind.identifier 0 1; fixed_token TokenKind.l_paren 1;
   fixed_token TokenKind.r_paren 2; fixed_token TokenKind.l_brace 3;
   make_token TokenKind.identifier 4 1; fixed_token TokenKind.plus 5;
   make_token TokenKind.identifier 6 1; fixed_token TokenKind.star 7;
   make_token TokenKind.identifier 8 1; fixed_token TokenKind.semicolon 9;
   fixed_token TokenKind.r_brace 10; fixed_token TokenKind.end_of_file 11].

(** A decision procedure for [good]. *)
Fixpoint good_b (source : SourceView.t) (tab_size : Z) (it : list Token) : bool :=
  match it with
  | [] => false
  | t :: rest =>
      match Token_locate_in t source tab_size, Token_get_text t source with
      | Some _, Some _ =>
          if TokenKind.eqb (kind t) TokenKind.end_of_file then match rest with [] => true | _ => false end
          else good_b source tab_size rest
      | _, _ => false
      end
  end.

Lemma good_b_spec source tab_size it : good_b source tab_size it = true -> good source tab_size it.
Proof.
  induction it as [|t it IH]; cbn [good_b]; [done|].
  destruct (Token_locate_in t source tab_size) eqn:Hl; [|done].
  destruct (Token_get_text t source) eqn:Hw; [|done].
  assert (Hp : printable source tab_size t) by (split; eauto).
  destruct (TokenKind.eqb_spec (kind t) TokenKind.end_of_file).
  - destruct it; [|done]. by constructor.
  - intros Hg. constructor; auto.
Qed.

Lemma example_good : good example_source 4 example_tokens.
Proof. apply good_b_spec. vm_compute. reflexivity. Qed.

(** * Totality *)

(** C10. On every token list that ends with its only end-of-file token and whose
    tokens can be located and shown, the parser returns a tree and only adds
    reports: no assertion fails, no read goes past the tokens, no [ParseError]
    escapes, and parsing and recovery end. *)
Theorem run_parser_total : forall `{Fmt} source tab_size tokens reports,
  good source tab_size tokens ->
  exists root new, run_parser source tab_size tokens reports = Done root (reports ++ new).
Proof.
  intros F source tab_size tokens reports Hg.
  destruct (run_parser_result source tab_size tokens reports Hg) as (root & new & Hrun & _). eauto.
Qed.

Lemma run_parser_total_witness :
  good example_source 4 example_tokens /\
  exists root new, run_parser example_source 4 example_tokens [] = Done root ([] ++ new).
Proof. split; [exact example_good|]. exact (run_parser_total _ _ _ _ example_good). Defined.

(** C2. The parser implements the grammar exactly: it returns a tree without
    reporting anything if and only if the grammar derives the tokens with that
    tree. *)
Theorem run_parser_iff_grammar : forall `{Fmt} source tab_size tokens reports root,
  good source tab_size tokens ->
  run_parser source tab_size tokens reports = Done root reports <->
  parses_root (definitions root) tokens.
Proof.
  intros F source tab_size tokens reports root Hg. split.
  - intros Hrun. destruct (run_parser_result source tab_size tokens reports Hg) as (root' & new & Hrun' & Hroot).
    rewrite Hrun in Hrun'. injection Hrun' as <- Hr. apply Hroot.
    symmetry in Hr. rewrite <-(app_nil_r reports) in Hr at 2. by apply app_inv_head in Hr.
  - intros Hroot. destruct root. by apply run_parser_complete.
Qed.

Lemma run_parser_iff_grammar_witness :
  let root := {| definitions := [{|
    def_token_offset := 0; access_modifier := AccessModifier.none;
    def_name := {| name_offset := 0; name_length := 1 |}; parameters := []; outputs := [];
    statements := [AstBinaryExpr 4 BinaryOperator.add (AstIdentExpr 4 1)
      (AstBinaryExpr 6 BinaryOperator.mul (AstIdentExpr 6 1) (AstIdentExpr 8 1))] |}] |} in
  run_parser example_source 4 example_tokens [] = Done root [] /\
  parses_root (definitions root) example_tokens.
Proof.
  split; [vm_compute; reflexivity|].
  apply (run_parser_iff_grammar example_source 4 example_tokens [] _ example_good).
  vm_compute. reflexivity.
Defined.

(** C13. What the parser returns without a report respects precedence and
    associativity: in every statement of every function, down to the innermost
    expression, an operand binds at least as tightly as its operator and a right
    operand binds tighter. *)
Theorem parsed_trees_well_nested : forall `{Fmt} source tab_size tokens reports root,
  good source tab_size tokens ->
  run_parser source tab_size tokens reports = Done root reports ->
  Forall (fun d => Forall well_nested (statements d)) (definitions root).
Proof.
  intros F source tab_size tokens reports root Hg Hrun.
  destruct (run_parser_result source tab_size tokens reports Hg) as (root' & new & Hrun' & Hroot).
  rewrite Hrun in Hrun'. injection Hrun' as <- Hr.
  assert (new = []) as Hnew by (apply (app_inv_head reports); by rewrite app_nil_r).
  destruct grammar_nested as (_ & _ & _ & _ & Hblock & _).
  specialize (Hroot Hnew). clear -Hroot Hblock.
  induction Hroot as [|d ds it it' _ Hd _ IH]; [constructor|constructor; [|done]].
  inversion Hd; subst. cbn. by eapply Hblock.
Qed.

Lemma parsed_trees_well_nested_witness :
  let root := {| definitions := [{|
    def_token_offset := 0; access_modifier := AccessModifier.none;
    def_name := {| name_offset := 0; name_length := 1 |}; parameters := []; outputs := [];
    statements := [AstBinaryExpr 4 BinaryOperator.add (AstIdentExpr 4 1)
      (AstBinaryExpr 6 BinaryOperator.mul (AstIdentExpr 6 1) (AstIdentExpr 8 1))] |}] |} in
  run_parser example_source 4 example_tokens [] = Done root [] /\
  Forall (fun d => Forall well_nested (statements d)) (definitions root).
Proof.
  assert (Hrun : exists root, run_parser example_source 4 example_tokens [] = Done root [] /\
    root = {| definitions := [{|
      def_token_offset := 0; access_modifier := AccessModifier.none;
      def_name := {| name_offset := 0; name_length := 1 |}; parameters := []; outputs := [];
      statements := [AstBinaryExpr 4 BinaryOperator.add (AstIdentExpr 4 1)
        (AstBinaryExpr 6 BinaryOperator.mul (AstIdentExpr 6 1) (AstIdentExpr 8 1))] |}] |})
    by (eexists; split; vm_compute; reflexivity).
  destruct Hrun as (root & Hrun & ->). split; [exact Hrun|].
  exact (parsed_trees_well_nested example_source 4 example_tokens [] _ example_good Hrun).
Defined.

(** C17. Parsing an expression returns after consuming at least one token, or throws;
    the cursor only moves forward, reports are only added, and whenever a
    [ParseError] is thrown something was reported for it. *)
Theorem parse_expression_progress : forall `{Fmt} source tab_size p it reports,
  good source tab_size it ->
  match parse_expression source tab_size p {| cursor_ := it; reports_ := reports |} with
  | Done _ s => (exists consumed, it = consumed ++ cursor_ s /\ consumed <> []) /\
                exists new, reports_ s = reports ++ new
  | Thrown s => (exists consumed, it = consumed ++ cursor_ s) /\
                exists new, reports_ s = reports ++ new /\ new <> []
  | Aborted | OutOfFuel => False
  end.
Proof.
  intros F source tab_size p it reports Hg.
  pose proof (parses_parse_expression source tab_size p it Hg reports) as Hp. unfold wp, ps in Hp.
  destruct (parse_expression _ _ _ _) as [e s|s| |]; try contradiction.
  - destruct Hp as (_ & [l Hl] & Hlen & new & Hr & _). split; [|eauto]. exists l. split; [done|].
    intros ->. cbn in Hl. rewrite Hl in Hlen. unfold one_consumed in Hlen. lia.
  - destruct Hp as (_ & _ & [l Hl] & new & Hr & Hne). split; eauto.
Qed.

Lemma parse_expression_progress_witness :
  good example_source 4 (skipn 4 example_tokens) /\
  match parse_expression example_source 4 Precedence.statement
    {| cursor_ := skipn 4 example_tokens; reports_ := [] |} with
  | Done _ s => (exists consumed, skipn 4 example_tokens = consumed ++ cursor_ s /\ consumed <> []) /\
                exists new, reports_ s = [] ++ new
  | Thrown s => (exists consumed, skipn 4 example_tokens = consumed ++ cursor_ s) /\
                exists new, reports_ s = [] ++ new /\ new <> []
  | Aborted | OutOfFuel => False
  end.
Proof.
  assert (Hg : good example_source 4 (skipn 4 example_tokens)) by (apply good_b_spec; vm_compute; reflexivity).
  split; [exact Hg|]. exact (parse_expression_progress example_source 4 Precedence.statement _ [] Hg).
Defined.

(** C18. Parsing a block never lets a [ParseError] escape: errors in statements are
    recovered from inside the block. The block ends right behind a closing brace,
    which is the last token it reads, or, after a report, at the end of the file;
    and without a report its statements are what the grammar derives from the tokens
    read. *)
Theorem parse_block_recovers : forall `{Fmt} source tab_size it reports,
  good source tab_size it ->
  exists statements s new,
    parse_block source tab_size {| cursor_ := it; reports_ := reports |} = Done statements s /\
    reports_ s = reports ++ new /\ (new = [] -> parses_block statements it (cursor_ s)) /\
    ((exists consumed brace, it = consumed ++ brace :: cursor_ s /\ kind brace = TokenKind.r_brace) \/
     (exists consumed, it = consumed ++ cursor_ s) /\ next_is TokenKind.end_of_file (cursor_ s) /\ new <> []).
Proof.
  intros F source tab_size it reports Hg.
  pose proof (parses_parse_block source tab_size it Hg reports) as Hp. unfold wp in Hp.
  destruct (parse_block _ _ _) as [es s|s| |] eqn:Hrun; try contradiction; [|by destruct Hp].
  apply (parse_block_end source tab_size it reports es s Hg) in Hrun as Hend.
  destruct Hp as (_ & [l Hl] & _ & new & Hr & Hb). exists es, s, new. split_and!; [done..|].
  destruct Hend as [Hbrace|[He Hlen]]; [by left|right]. split_and!; [by exists l|done|].
  intros ->. rewrite Hr, app_nil_r in Hlen. lia.
Qed.

Lemma parse_block_recovers_witness :
  let it := [make_token TokenKind.identifier 4 1; fixed_token TokenKind.plus 5;
             fixed_token TokenKind.r_brace 10; fixed_token TokenKind.end_of_file 11] in
  good example_source 4 it /\
  exists statements s new,
    parse_block example_source 4 {| cursor_ := it; reports_ := [] |} = Done statements s /\
    reports_ s = [] ++ new /\ (new = [] -> parses_block statements it (cursor_ s)) /\
    ((exists consumed brace, it = consumed ++ brace :: cursor_ s /\ kind brace = TokenKind.r_brace) \/
     (exists consumed, it = consumed ++ cursor_ s) /\ next_is TokenKind.end_of_file (cursor_ s) /\ new <> []).
Proof.
  assert (Hg : good example_source 4 [make_token TokenKind.identifier 4 1; fixed_token TokenKind.plus 5;
    fixed_token TokenKind.r_brace 10; fixed_token TokenKind.end_of_file 11])
    by (apply good_b_spec; vm_compute; reflexivity).
  split; [exact Hg|]. exact (parse_block_recovers example_source 4 _ [] Hg).
Defined.

(** * Recovery *)

(** C33. Recovery at statement level stops behind the next semicolon or before the
    next closing brace, whichever comes first, and reports the end of the file
    otherwise. *)
Theorem statement_recovery_point : forall `{Fmt} source tab_size skipped t rest reports,
  good source tab_size (skipped ++ t :: rest) ->
  Forall (fun t => kind t <> TokenKind.semicolon /\ kind t <> TokenKind.r_brace) skipped ->
  kind t ∈ [TokenKind.semicolon; TokenKind.r_brace; TokenKind.end_of_file] ->
  recover_at_statement_level {| cursor_ := skipped ++ t :: rest; reports_ := reports |} =
  match kind t with
  | TokenKind.semicolon => Done false {| cursor_ := rest; reports_ := reports |}
  | TokenKind.r_brace => Done false {| cursor_ := t :: rest; reports_ := reports |}
  | _ => Done true {| cursor_ := t :: rest; reports_ := reports |}
  end.
Proof.
  intros F source tab_size skipped t rest reports Hg Hskip Hk.
  assert (Hsync : good source tab_size (t :: rest) /\
    statement_sync (skipped ++ t :: rest) = statement_sync (t :: rest)).
  { clear reports. induction Hskip as [|u skipped [Hs Hb] _ IH]; [done|]. cbn [app] in Hg |- *.
    inversion Hg as [? ? ? Hnil|? ? Hne ? Hg']; subst; [by destruct skipped|].
    destruct (IH Hg') as [Hg2 Heq]. split; [done|]. cbn [statement_sync].
    destruct (TokenKind.eqb_spec (kind u) TokenKind.end_of_file); [done|].
    destruct (TokenKind.eqb_spec (kind u) TokenKind.semicolon); [done|].
    by destruct (TokenKind.eqb_spec (kind u) TokenKind.r_brace). }
  destruct Hsync as [_ Hsync].
  pose proof (recover_at_statement_level_run source tab_size _ reports Hg) as Hrun.
  unfold ps in Hrun. rewrite Hrun, Hsync. cbn [statement_sync].
  rewrite !elem_of_cons, elem_of_nil in Hk. by destruct Hk as [->|[->|[->|[]]]].
Qed.

Lemma statement_recovery_point_witness :
  let skipped := firstn 5 (skipn 4 example_tokens) in
  recover_at_statement_level {| cursor_ := skipped ++ skipn 9 example_tokens; reports_ := [] |} =
  Done false {| cursor_ := skipn 10 example_tokens; reports_ := [] |}.
Proof.
  apply (statement_recovery_point example_source 4 (firstn 5 (skipn 4 example_tokens))
    (fixed_token TokenKind.semicolon 9) (skipn 10 example_tokens) []).
  - apply good_b_spec. vm_compute. reflexivity.
  - repeat constructor; discriminate.
  - left.
Defined.

(** Recovery at definition level always skips the current token, even when it
    is one that a definition can start with, and then goes on to the next
    [public], [private], [struct], [enum] or end of the file. *)
Theorem definition_recovery_point : forall `{Fmt} source tab_size first skipped t rest reports,
  good source tab_size (first :: skipped ++ t :: rest) ->
  kind first <> TokenKind.end_of_file ->
  Forall (fun t => kind t ∉ recovery_tokens) skipped -> kind t ∈ recovery_tokens ->
  recover_at_definition_level {| cursor_ := first :: skipped ++ t :: rest; reports_ := reports |} =
  Done tt {| cursor_ := t :: rest; reports_ := reports |}.
Proof.
  intros F source tab_size first skipped t rest reports Hg Hfirst Hskip Ht.
  pose proof (recover_at_definition_level_run source tab_size _ reports Hg) as Hrun.
  unfold ps in Hrun. rewrite Hrun. cbn [next_definition].
  destruct (TokenKind.eqb_spec (kind first) TokenKind.end_of_file); [done|]. do 2 f_equal.
  by apply definition_sync_skips.
Qed.

Lemma definition_recovery_point_witness :
  let private := fixed_token TokenKind.kw_private 0 in
  let tokens := [private; fixed_token TokenKind.plus 1; fixed_token TokenKind.kw_public 2;
                 fixed_token TokenKind.end_of_file 3] in
  recover_at_definition_level {| cursor_ := tokens; reports_ := [] |} =
  Done tt {| cursor_ := skipn 2 tokens; reports_ := [] |}.
Proof.
  apply (definition_recovery_point example_source 4 (fixed_token TokenKind.kw_private 0)
    [fixed_token TokenKind.plus 1] (fixed_token TokenKind.kw_public 2) [fixed_token TokenKind.end_of_file 3] []).
  - apply good_b_spec. vm_compute. reflexivity.
  - discriminate.
  - constructor; [|constructor]. apply (bool_decide_unpack _). vm_compute. exact I.
  - left.
Defined.

(** * Operators *)

(** The two tables that decide about binary operators agree: the precedence of
    an operator's rule is the precedence with which its right operand is parsed,
    so every binary operator, assignments included, associates to the left. *)
Theorem binary_operators_associate_left : forall token s p op s',
  lookup_tail_parse_rule token s = Done (p, Some (tail_binary_operator op)) s' ->
  p = lookup_precedence_for_associativity op /\ s' = s.
Proof.
  intros token s p op s'. unfold lookup_tail_parse_rule.
  destruct (kind token); try (intros [= <- <- <-]; done); try discriminate.
  unfold bind, cursor_peek_ahead, on_cursor. destruct (TokenCursor.peek_ahead _) as [next|]; [|done].
  destruct (_ && _); by intros [= <- <- <-].
Qed.

Lemma binary_operators_associate_left_witness :
  lookup_tail_parse_rule (fixed_token TokenKind.plus_eq 0) {| cursor_ := []; reports_ := [] |} =
    Done (Precedence.assignment, Some (tail_binary_operator BinaryOperator.add_assign))
      {| cursor_ := []; reports_ := [] |} /\
  Precedence.assignment = lookup_precedence_for_associativity BinaryOperator.add_assign /\
  {| cursor_ := []; reports_ := [] |} = {| cursor_ := []; reports_ := [] |}.
Proof.
  split; [reflexivity|].
  exact (binary_operators_associate_left (fixed_token TokenKind.plus_eq 0) {| cursor_ := []; reports_ := [] |}
    Precedence.assignment BinaryOperator.add_assign {| cursor_ := []; reports_ := [] |} eq_refl).
Defined.
