(* ===== verification/Printer.v ===== *)
(** A printer of syntax trees, the trees that it prints faithfully (canonical
    trees), and the proof that the grammar derives every canonical tree from its
    printed tokens: the specification side of the parser's round trip. *)

From S2P Require Import Prelude Report Source Token Ast Parser Grammar GrammarFacts.

(** * Tokens of operators *)

Definition binary_kind (op : BinaryOperator.t) : TokenKind.t :=
  match op with
  | BinaryOperator.add => TokenKind.plus
  | BinaryOperator.sub => TokenKind.minus
  | BinaryOperator.mul => TokenKind.star
  | BinaryOperator.div => TokenKind.slash
  | BinaryOperator.rem => TokenKind.percent
  | BinaryOperator.bit_and => TokenKind.ampersand
  | BinaryOperator.bit_or => TokenKind.pipe
  | BinaryOperator.bit_xor => TokenKind.tilde
  | BinaryOperator.shl => TokenKind.l_angle_angle
  | BinaryOperator.shr => TokenKind.r_angle
  | BinaryOperator.logic_and => TokenKind.and_and
  | BinaryOperator.logic_or => TokenKind.pipe_pipe
  | BinaryOperator.eq => TokenKind.eq_eq
  | BinaryOperator.neq => TokenKind.bang_eq
  | BinaryOperator.less => TokenKind.l_angle
  | BinaryOperator.less_eq => TokenKind.l_angle_eq
  | BinaryOperator.greater => TokenKind.r_angle
  | BinaryOperator.greater_eq => TokenKind.r_angle_eq
  | BinaryOperator.assign => TokenKind.eq
  | BinaryOperator.add_assign => TokenKind.plus_eq
  | BinaryOperator.sub_assign => TokenKind.minus_eq
  | BinaryOperator.mul_assign => TokenKind.star_eq
  | BinaryOperator.div_assign => TokenKind.slash_eq
  | BinaryOperator.rem_assign => TokenKind.percent_eq
  | BinaryOperator.bit_and_assign => TokenKind.ampersand_eq
  | BinaryOperator.bit_or_assign => TokenKind.pipe_eq
  | BinaryOperator.xor_assign => TokenKind.tilde_eq
  | BinaryOperator.shl_assign => TokenKind.l_angle_angle_eq
  | BinaryOperator.shr_assign => TokenKind.r_angle_angle_eq
  | BinaryOperator.logic_and_assign => TokenKind.and_and_eq
  | BinaryOperator.logic_or_assign => TokenKind.pipe_pipe_eq
  end.

Definition unary_kind (op : UnaryOperator.t) : TokenKind.t :=
  match op with
  | UnaryOperator.pre_increment | UnaryOperator.post_increment => TokenKind.plus_plus
  | UnaryOperator.pre_decrement | UnaryOperator.post_decrement => TokenKind.minus_minus
  | UnaryOperator.negate => TokenKind.minus
  | UnaryOperator.bit_not => TokenKind.tilde
  | UnaryOperator.logic_not => TokenKind.bang
  | UnaryOperator.addr_of => TokenKind.ampersand
  | UnaryOperator.deref => TokenKind.caret
  end.

Definition literal_token_kind (k : LiteralKind.t) : TokenKind.t :=
  match k with
  | LiteralKind.dec_int => TokenKind.dec_int_literal
  | LiteralKind.hex_int => TokenKind.hex_int_literal
  | LiteralKind.bin_int => TokenKind.bin_int_literal
  | LiteralKind.oct_int => TokenKind.oct_int_literal
  | LiteralKind.float_ => TokenKind.float_literal
  | LiteralKind.char_ => TokenKind.char_literal
  | LiteralKind.string => TokenKind.string_literal
  end.

(** * Printing *)

Definition token_at (k : TokenKind.t) (o n : Z) : Token :=
  {| kind := k; offset := o; variable_length := n |}.

(** Tokens whose place the tree does not record are put at offset 0. *)
Definition mark (k : TokenKind.t) : Token := token_at k 0 0.

(** The operator [>>] is two adjacent tokens. *)
Definition operator_tokens (op : BinaryOperator.t) : list Token :=
  match op with
  | BinaryOperator.shr => [mark TokenKind.r_angle; token_at TokenKind.r_angle 1 0]
  | _ => [mark (binary_kind op)]
  end.

Fixpoint separated (items : list (list Token)) : list Token :=
  match items with
  | [] => []
  | [item] => item
  | item :: items => item ++ mark TokenKind.comma :: separated items
  end.

Definition is_block (e : AstExpression) : bool :=
  match e with AstBlockExpr _ _ => true | _ => false end.

Fixpoint print_expression (e : AstExpression) : list Token :=
  match e with
  | AstIdentExpr o n => [token_at TokenKind.identifier o n]
  | AstLiteralExpr o k n => [token_at (literal_token_kind k) o n]
  | AstBlockExpr o es =>
      token_at TokenKind.l_brace o 0 ::
      flat_map (fun e => print_expression e ++ if is_block e then [] else [mark TokenKind.semicolon]) es ++
      [mark TokenKind.r_brace]
  | AstReturnExpr o es => token_at TokenKind.kw_return o 0 :: separated (map print_expression es)
  | AstUnaryExpr o op operand =>
      if is_prefix_operator op then token_at (unary_kind op) o 0 :: print_expression operand
      else print_expression operand ++ [mark (unary_kind op)]
  | AstBinaryExpr o op lhs rhs => print_expression lhs ++ operator_tokens op ++ print_expression rhs
  | AstCallExpr o callee args =>
      print_expression callee ++ mark TokenKind.l_paren :: separated (map print_expression args) ++
      [mark TokenKind.r_paren]
  end.

Definition print_statement (e : AstExpression) : list Token :=
  print_expression e ++ if is_block e then [] else [mark TokenKind.semicolon].

Definition print_block (es : list AstExpression) : list Token :=
  flat_map print_statement es ++ [mark TokenKind.r_brace].

Definition print_name (name : AstName) : Token :=
  token_at TokenKind.identifier (name_offset name) (name_length name).

Definition print_parameter (p : AstFunctionParameter) : list Token :=
  print_expression (param_type p) ++ [print_name (param_name p)].

Definition print_outputs (outs : list AstFunctionOutput) : list Token :=
  match outs with
  | [] => []
  | _ => mark TokenKind.thin_arrow :: separated (map (fun o => print_expression (output_type o)) outs)
  end.

Definition print_access (d : AstFunctionDefinition) : list Token :=
  match access_modifier d with
  | AccessModifier.none => []
  | AccessModifier.private_ => [token_at TokenKind.kw_private (def_token_offset d) 0]
  | AccessModifier.public_ => [token_at TokenKind.kw_public (def_token_offset d) 0]
  end.

Definition print_definition (d : AstFunctionDefinition) : list Token :=
  print_access d ++ print_name (def_name d) :: mark TokenKind.l_paren ::
  separated (map print_parameter (parameters d)) ++ mark TokenKind.r_paren ::
  print_outputs (outputs d) ++ mark TokenKind.l_brace :: print_block (statements d).

Definition print_root (ds : list AstFunctionDefinition) : list Token :=
  flat_map print_definition ds ++ [mark TokenKind.end_of_file].

(** * Canonical trees *)

(** How a tree's last token leaves the expression: finished, with a [return] that
    takes values if an expression can follow, or with a list of returned values
    that goes on as long as it can. *)
Inductive Ending := closed | bare | open.

Fixpoint ending (e : AstExpression) : Ending :=
  match e with
  | AstReturnExpr _ [] => bare
  | AstReturnExpr _ (_ :: _) => open
  | AstUnaryExpr _ op operand => if is_prefix_operator op then ending operand else closed
  | AstBinaryExpr _ _ _ rhs => ending rhs
  | _ => closed
  end.

(** Whether a tree with this ending can stand before a token that starts an
    expression or not. *)
Definition admits (end_ : Ending) (starts : bool) : bool :=
  match end_ with closed => true | bare => negb starts | open => false end.

(** The binary operators whose token is a prefix operator too. *)
Definition opens_expression (op : BinaryOperator.t) : bool :=
  match op with
  | BinaryOperator.sub | BinaryOperator.bit_and | BinaryOperator.bit_xor => true
  | _ => false
  end.

Fixpoint starts_with_brace (e : AstExpression) : bool :=
  match e with
  | AstBlockExpr _ _ => true
  | AstUnaryExpr _ op operand => if is_prefix_operator op then false else starts_with_brace operand
  | AstBinaryExpr _ _ lhs _ => starts_with_brace lhs
  | AstCallExpr _ callee _ => starts_with_brace callee
  | _ => false
  end.

(** A statement that starts with a block is that block. *)
Definition is_statement (e : AstExpression) : bool := is_block e || negb (starts_with_brace e).

(** Only the last element of a list may swallow a comma. *)
Definition items (es : list AstExpression) : bool :=
  forallb (fun e => admits (ending e) false) (removelast es).

Definition fits (o : Z) : bool := node_offset o =? o.

(** Nodes have 24-bit offsets, an operator's node has the offset of its left
    operand, and [return] stands where it can be read back. *)
Fixpoint laid_out (e : AstExpression) : bool :=
  match e with
  | AstIdentExpr o _ | AstLiteralExpr o _ _ => fits o
  | AstBlockExpr o es => fits o && forallb (fun e => laid_out e && is_statement e) es
  | AstReturnExpr o es => fits o && forallb laid_out es && items es
  | AstUnaryExpr o op operand =>
      laid_out operand &&
      if is_prefix_operator op then fits o
      else (o =? token_offset operand) && admits (ending operand) (negb (bool_decide (op = UnaryOperator.deref)))
  | AstBinaryExpr o op lhs rhs =>
      laid_out lhs && laid_out rhs && (o =? token_offset lhs) && admits (ending lhs) (opens_expression op)
  | AstCallExpr o callee args =>
      laid_out callee && (o =? token_offset callee) && admits (ending callee) false &&
      forallb laid_out args && items args
  end.

(** A type is an identifier, whose offset its owner has. *)
Definition type_laid_out (owner_offset : Z) (type : AstExpression) : bool :=
  match type with AstIdentExpr o _ => fits o && (owner_offset =? o) | _ => false end.

Definition output_laid_out (o : AstFunctionOutput) : bool :=
  type_laid_out (output_token_offset o) (output_type o) && bool_decide (name_offset (output_name o) = 0)
    && bool_decide (name_length (output_name o) = 0).

Definition definition_laid_out (d : AstFunctionDefinition) : bool :=
  match access_modifier d with
  | AccessModifier.none => def_token_offset d =? node_offset (name_offset (def_name d))
  | _ => fits (def_token_offset d)
  end &&
  forallb (fun p => type_laid_out (param_token_offset p) (param_type p)) (parameters d) &&
  forallb output_laid_out (outputs d) &&
  forallb (fun e => laid_out e && is_statement e) (statements d).

(** The trees that the parser can return without a report. *)
Definition canonical (d : AstFunctionDefinition) : Prop :=
  definition_laid_out d = true /\ Forall well_nested (statements d).
