(* ===== verification/PrinterFacts.v ===== *)
(** The grammar derives every canonical tree from its printed tokens, and derives
    canonical trees only. *)

From S2P Require Import Prelude Report Source Token Ast Parser Grammar GrammarFacts Printer.

(** * Operator tokens *)

Lemma binary_operator_of_kind op :
  op <> BinaryOperator.shr -> binary_operator_of (binary_kind op) = Some op.
Proof. by destruct op. Qed.

Lemma continuation_operator op r :
  starts_expression r = true ->
  continuation (operator_tokens op ++ r) = Some (adds_binary op).
Proof.
  intros Hr. destruct r as [|t r]; [done|].
  assert (Hk : kind t <> TokenKind.r_angle) by (intros Hk; cbn in Hr; by rewrite Hk in Hr).
  assert (Hs : forall o, is_shr (mark o :: t :: r) = false).
  { intros o. unfold is_shr. destruct (TokenKind.eqb_spec (kind t) TokenKind.r_angle); [done|].
    by rewrite andb_false_r. }
  destruct op; cbn [operator_tokens app]; unfold continuation; rewrite ?Hs; done.
Qed.

Lemma starts_operator op r : starts_expression (operator_tokens op ++ r) = opens_expression op.
Proof. by destruct op. Qed.

Lemma unary_prefix op : is_prefix_operator op = true -> prefix_operator_of (unary_kind op) = Some op.
Proof. by destruct op. Qed.

Lemma unary_postfix op :
  is_prefix_operator op = false ->
  postfix_operator_of (unary_kind op) = Some op /\ binary_operator_of (unary_kind op) = None /\
  is_shr [mark (unary_kind op)] = false /\ TokenKind.eqb (unary_kind op) TokenKind.r_angle = false.
Proof. by destruct op. Qed.

Lemma literal_kind_of_kind k : literal_kind_of (literal_token_kind k) = Some k.
Proof. by destruct k. Qed.

(** A token that continues no expression. *)
Definition ends_expression (k : TokenKind.t) : bool :=
  match binary_operator_of k, postfix_operator_of k with
  | None, None => negb (TokenKind.eqb k TokenKind.l_paren)
  | _, _ => false
  end.

Lemma not_shr k o n r : k <> TokenKind.r_angle -> is_shr (token_at k o n :: r) = false.
Proof. intros Hk. destruct r; [done|]. cbn. by destruct (TokenKind.eqb_spec k TokenKind.r_angle). Qed.

Lemma continuation_end k o n r : ends_expression k = true -> continuation (token_at k o n :: r) = None.
Proof.
  intros Hk. unfold continuation. rewrite not_shr by (by intros ->). unfold ends_expression in Hk.
  cbn [kind token_at]. destruct (binary_operator_of k); [done|]. destruct (postfix_operator_of k); [done|].
  by apply negb_true_iff in Hk as ->.
Qed.

(** * First tokens *)

(** The printed tokens of an expression start one, and start with a brace only if
    the tree does. *)
Lemma print_expression_starts e r :
  starts_expression (print_expression e ++ r) = true /\
  (next_is TokenKind.l_brace (print_expression e ++ r) -> starts_with_brace e = true).
Proof.
  revert r. induction e as [o n|o k n|o es|o es|o op e IH|o op e1 IH1 e2 _|o e IH es]; intros r; cbn -[Z.eqb].
  all: try (split; [done|discriminate || done]).
  - by destruct k.
  - destruct (is_prefix_operator op) eqn:Hop; cbn; [by destruct op|]. rewrite <-app_assoc. apply IH.
  - rewrite <-!app_assoc. apply IH1.
  - rewrite <-app_assoc. apply IH.
Qed.

Lemma separated_starts e es r :
  starts_expression (separated (map print_expression (e :: es)) ++ r) = true.
Proof.
  change (map print_expression (e :: es)) with (print_expression e :: map print_expression es).
  destruct (map print_expression es); cbn [separated]; rewrite <-?app_assoc; apply print_expression_starts.
Qed.

Lemma starts_not it k :
  starts_expression it = true ->
  k = TokenKind.r_paren \/ k = TokenKind.r_brace \/ k = TokenKind.comma \/ k = TokenKind.semicolon ->
  ~ next_is k it.
Proof.
  destruct it as [|t it]; [done|]. cbn. intros Hs Hk Ht. rewrite Ht in Hs. by destruct Hk as [->|[->|[->| ->]]].
Qed.

(** * From trees to derivations *)

(** What may follow a tree with an ending. *)
Definition may_follow (end_ : Ending) (it : list Token) : Prop :=
  match end_ with
  | closed => True
  | bare => starts_expression it = false
  | open => continuation it = None /\ ~ next_is TokenKind.comma it /\ starts_expression it = false
  end.

Lemma admits_follow end_ starts it :
  admits end_ starts = true -> starts_expression it = starts -> may_follow end_ it.
Proof. destruct end_; cbn; [done| |done]. by intros ->%negb_true_iff ->. Qed.

(** Tokens after which every expression ends. *)
Definition stop (it : list Token) : Prop :=
  continuation it = None /\ ~ next_is TokenKind.comma it /\ starts_expression it = false.

Lemma stop_follow end_ it : stop it -> may_follow end_ it.
Proof. intros (?&?&?). by destruct end_. Qed.

Lemma follows_at_none n it : continuation it = None -> follows_at n it.
Proof. intros Hc c. by rewrite Hc. Qed.

Lemma follows_at_mono n m it : n <= m -> follows_at n it -> follows_at m it.
Proof. intros Hle Hf c Hc. specialize (Hf c Hc). lia. Qed.

Lemma next_continuation_follows p it : follows_at (Precedence.value p) it -> next_continuation p it = None.
Proof.
  intros Hf. unfold next_continuation. destruct (continuation it) as [c|] eqn:Hc; [|done].
  specialize (Hf c Hc). unfold Precedence.ltb. destruct (Z.ltb_spec (Precedence.value p) (Precedence.value (binding c))); [lia|done].
Qed.

Lemma next_continuation_tighter p it c :
  continuation it = Some c -> Precedence.value p < Precedence.value (binding c) -> next_continuation p it = Some c.
Proof.
  intros Hc Hlt. unfold next_continuation. rewrite Hc. unfold Precedence.ltb.
  destruct (Z.ltb_spec (Precedence.value p) (Precedence.value (binding c))); [done|lia].
Qed.

Lemma fits_eq o : fits o = true -> node_offset o = o.
Proof. apply Z.eqb_eq. Qed.

(** The expression can be parsed at precedence [p]. *)
Definition fits_at (p : Precedence.t) (e : AstExpression) : Prop :=
  Precedence.value p <= 6 /\ (tightness e <= 5 -> Precedence.value p < tightness e).

(** Printed in front of tokens from which its tails go on, a tree is derived with
    those tails. *)
Definition derivable (e : AstExpression) : Prop :=
  (forall p e' rest it', fits_at p e -> follows_at (tightness e) rest -> may_follow (ending e) rest ->
     parses_tails p e e' rest it' -> parses_expr p e' (print_expression e ++ rest) it') /\
  (forall o es rest, e = AstBlockExpr o es -> parses_block es (print_block es ++ rest) rest).

(** A derivable tree is derived in full where nothing binds to it. *)
Lemma derivable_expr p e rest :
  derivable e -> fits_at p e -> follows_at (tightness e) rest -> follows_at (Precedence.value p) rest ->
  may_follow (ending e) rest -> parses_expr p e (print_expression e ++ rest) rest.
Proof.
  intros [He _] Hp Hf Hfp Hm. apply He; [done..|]. by apply parses_no_tail, next_continuation_follows.
Qed.

Lemma fits_statement e : 0 < tightness e -> fits_at Precedence.statement e.
Proof. intros. split; cbn; lia. Qed.

Lemma tightness_pos e : 1 <= tightness e <= 7.
Proof.
  destruct e; cbn; try lia; [destruct (is_prefix_operator _); cbn; lia|].
  pose proof (binary_precedence op). lia.
Qed.

Lemma print_list_derived es rest :
  es <> [] -> Forall derivable es -> items es = true -> stop rest ->
  parses_list es (separated (map print_expression es) ++ rest) rest.
Proof.
  intros Hne Hall Hitems Hstop. induction Hall as [|e es He Hes IH]; [done|].
  pose proof (tightness_pos e) as Ht. destruct es as [|e2 es].
  - cbn [map separated]. apply parses_one; [|apply Hstop].
    apply derivable_expr; [done|apply fits_statement; lia|..|by apply stop_follow];
      apply follows_at_none, Hstop.
  - cbn [items forallb removelast] in Hitems. apply andb_prop in Hitems as [Hadm Hitems].
    change (separated (map print_expression (e :: e2 :: es))) with
      (print_expression e ++ mark TokenKind.comma :: separated (map print_expression (e2 :: es))).
    rewrite <-app_assoc. cbn [app].
    apply (parses_more e (e2 :: es) (mark TokenKind.comma) _ (separated (map print_expression (e2 :: es)) ++ rest));
      [|reflexivity|by apply IH].
    apply derivable_expr; [done|apply fits_statement; lia|by apply follows_at_none, continuation_end..|].
    by eapply admits_follow.
Qed.

Lemma print_statement_derived e rest :
  derivable e -> laid_out e = true -> is_statement e = true -> parses_stmt e (print_statement e ++ rest) rest.
Proof.
  intros He Hl Hs. unfold print_statement. destruct (is_block e) eqn:Hb.
  - destruct e as [| |o es| | | |]; try done. rewrite app_nil_r. cbn [print_expression app].
    apply andb_prop in Hl as [Ho%fits_eq _]. rewrite <-Ho at 1.
    apply (parses_block_stmt (token_at TokenKind.l_brace o 0)); [done|].
    destruct He as [_ He]. by eapply He.
  - unfold is_statement in Hs. rewrite Hb in Hs. apply negb_true_iff in Hs.
    rewrite <-app_assoc. apply (parses_expr_stmt e (mark TokenKind.semicolon)); [| |reflexivity].
    + intros Hbrace. apply print_expression_starts in Hbrace. congruence.
    + pose proof (tightness_pos e).
      apply derivable_expr; [done|apply fits_statement; lia|by apply follows_at_none, continuation_end..|].
      apply stop_follow. split; [by apply continuation_end|done].
Qed.

Lemma print_block_derived es rest :
  Forall derivable es -> forallb (fun e => laid_out e && is_statement e) es = true -> parses_block es (print_block es ++ rest) rest.
Proof.
  unfold print_block. intros Hall. induction Hall as [|e es He _ IH]; intros Hs; cbn.
  - by apply parses_close.
  - apply andb_prop in Hs as [[Hl Hs1]%andb_prop Hs2]. rewrite <-!app_assoc.
    eapply parses_statement; [|by apply print_statement_derived|].
    + unfold print_statement. rewrite <-!app_assoc. apply starts_not; [apply print_expression_starts|auto].
    + rewrite <-app_assoc in IH. by apply IH.
Qed.

(** ** Canonical expressions *)

Lemma derivable_head e :
  (forall rest, follows_at (tightness e) rest -> may_follow (ending e) rest ->
     parses_head e (print_expression e ++ rest) rest) ->
  is_block e = false -> derivable e.
Proof.
  intros Hhead Hb. split; [|by intros o es rest ->].
  intros p e' rest it' _ Hf Hm Ht. eapply parses_expr_intro; [by apply Hhead|done].
Qed.

Lemma derivable_block o es :
  fits o = true -> Forall derivable es -> forallb (fun e => laid_out e && is_statement e) es = true ->
  derivable (AstBlockExpr o es).
Proof.
  intros Ho%fits_eq Hall Hs. pose proof (fun rest => print_block_derived es rest Hall Hs) as Hblock.
  split; [|by intros ? ? rest [= <- <-]].
  intros p e' rest it' _ _ _ Ht. eapply parses_expr_intro; [|done]. rewrite <-Ho at 1.
  apply (parses_block_expr (token_at TokenKind.l_brace o 0)); [done|]. apply Hblock.
Qed.

Lemma derivable_return o es :
  fits o = true -> Forall derivable es -> items es = true -> derivable (AstReturnExpr o es).
Proof.
  intros Ho%fits_eq Hall Hitems. apply derivable_head; [|done]. intros rest _ Hm. rewrite <-Ho at 1.
  destruct es as [|e es].
  - by apply (parses_bare_return (token_at TokenKind.kw_return o 0)).
  - apply (parses_return (token_at TokenKind.kw_return o 0)); [done| |by apply print_list_derived].
    apply separated_starts.
Qed.

Lemma derivable_prefix o op e :
  fits o = true -> is_prefix_operator op = true -> derivable e ->
  Precedence.value Precedence.prefix <= tightness e -> derivable (AstUnaryExpr o op e).
Proof.
  intros Ho%fits_eq Hop He Ht. apply derivable_head; [|done]. cbn [tightness ending print_expression].
  rewrite Hop. intros rest Hf Hm. rewrite <-Ho at 1.
  apply (parses_prefix (token_at (unary_kind op) o 0)); [by apply unary_prefix|].
  apply derivable_expr; [done|split; cbn in *; lia|by eapply follows_at_mono|done|done].
Qed.

Lemma derivable_postfix o op e :
  is_prefix_operator op = false -> token_offset e = o -> node_offset (token_offset e) = token_offset e ->
  derivable e -> admits (ending e) (negb (bool_decide (op = UnaryOperator.deref))) = true ->
  Precedence.value Precedence.postfix <= tightness e -> derivable (AstUnaryExpr o op e).
Proof.
  intros Hop Ho Hfit [He _] Hadm Ht. split; [|done]. cbn [tightness ending print_expression]. rewrite Hop.
  intros p e' rest it' [Hp _] Hf _ Htails. rewrite <-app_assoc. cbn [app].
  assert (Hc : continuation (mark (unary_kind op) :: rest) = Some (adds_postfix op)).
  { unfold continuation, mark. rewrite not_shr by by destruct op. by destruct op. }
  apply He; [split; cbn in *; lia|..].
  - intros c. rewrite Hc. intros [= <-]. done.
  - eapply admits_follow; [done|]. by destruct op.
  - eapply parses_postfix; [apply next_continuation_tighter; [exact Hc|cbn; lia]|].
    by rewrite Hfit, Ho.
Qed.

Lemma derivable_binary o op e1 e2 :
  token_offset e1 = o -> node_offset (token_offset e1) = token_offset e1 ->
  derivable e1 -> derivable e2 -> admits (ending e1) (opens_expression op) = true ->
  Precedence.value (lookup_precedence_for_associativity op) <= tightness e1 ->
  Precedence.value (lookup_precedence_for_associativity op) < tightness e2 ->
  derivable (AstBinaryExpr o op e1 e2).
Proof.
  intros Ho Hfit [He1 _] He2 Hadm Ht1 Ht2. split; [|done]. cbn [tightness ending print_expression].
  pose proof (binary_precedence op) as Hop.
  intros p e' rest it' [Hp Hlt] Hf Hm Htails. cbn [tightness] in Hlt. rewrite <-!app_assoc.
  destruct (print_expression_starts e2 rest) as [Hstart _].
  pose proof (continuation_operator op _ Hstart) as Hc.
  apply He1; [split; [done|cbn in *; lia]|..].
  - intros c. rewrite Hc. by intros [= <-].
  - eapply admits_follow; [done|]. apply starts_operator.
  - assert (Hr : parses_expr (lookup_precedence_for_associativity op) e2 (print_expression e2 ++ rest) rest).
    { apply derivable_expr; [done|split; lia|eapply follows_at_mono; [|exact Hf]; lia|done|done]. }
    assert (Hn : next_continuation p (operator_tokens op ++ print_expression e2 ++ rest) = Some (adds_binary op)).
    { apply next_continuation_tighter; [exact Hc|]. cbn. lia. }
    destruct (operator_tokens op) as [|t ts] eqn:Htoks; [by destruct op|]. cbn [app] in *.
    eapply parses_binary; [exact Hn|reflexivity| |by rewrite Hfit, Ho].
    case_bool_decide as Hshr; [subst op; by injection Htoks as <- <-|].
    destruct op; try done; by injection Htoks as <- <-.
Qed.

Lemma derivable_call o f args :
  token_offset f = o -> node_offset (token_offset f) = token_offset f ->
  derivable f -> admits (ending f) false = true -> Precedence.value Precedence.postfix <= tightness f ->
  Forall derivable args -> items args = true -> derivable (AstCallExpr o f args).
Proof.
  intros Ho Hfit [Hf _] Hadm Ht Hargs Hitems. split; [|done]. cbn [tightness ending print_expression].
  intros p e' rest it' [Hp _] Hfo _ Htails. rewrite <-app_assoc. cbn [app]. rewrite <-app_assoc. cbn [app].
  assert (Hc : forall r, continuation (mark TokenKind.l_paren :: r) = Some adds_call).
  { intros r. unfold continuation, mark. by rewrite not_shr. }
  apply Hf; [split; cbn in *; lia|..].
  - intros c. rewrite Hc. by intros [= <-].
  - by eapply admits_follow.
  - assert (Hn : forall r, next_continuation p (mark TokenKind.l_paren :: r) = Some adds_call).
    { intros r. apply next_continuation_tighter; [apply Hc|]. cbn. lia. }
    destruct args as [|a args].
    + apply parses_empty_call; [apply Hn|done|]. by rewrite Hfit, Ho.
    + eapply (parses_call p f e' (a :: args) (mark TokenKind.l_paren) (mark TokenKind.r_paren));
        [apply Hn| | |done|by rewrite Hfit, Ho].
      * apply starts_not; [apply separated_starts|auto].
      * apply print_list_derived; [done..|]. split; [by apply continuation_end|done].
Qed.

Lemma laid_out_offset e : laid_out e = true -> node_offset (token_offset e) = token_offset e.
Proof.
  induction e as [o n|o k n|o es|o es|o op e IH|o op e1 IH1 e2 _|o e IH es]; cbn [laid_out token_offset].
  - apply fits_eq.
  - apply fits_eq.
  - intros [? _]%andb_prop. by apply fits_eq.
  - intros [[? _]%andb_prop _]%andb_prop. by apply fits_eq.
  - intros [He Ho]%andb_prop. destruct (is_prefix_operator op); [by apply fits_eq|].
    apply andb_prop in Ho as [->%Z.eqb_eq _]. auto.
  - intros [[[He _]%andb_prop ->%Z.eqb_eq]%andb_prop _]%andb_prop. auto.
  - intros [[[[He ->%Z.eqb_eq]%andb_prop _]%andb_prop _]%andb_prop _]%andb_prop. auto.
Qed.

Lemma forallb_derivable (g : AstExpression -> bool) es :
  (forall e, g e = true -> laid_out e = true) ->
  Forall (fun e => laid_out e = true -> well_nested e -> derivable e) es ->
  forallb g es = true -> Forall well_nested es -> Forall derivable es.
Proof.
  intros Hg Hall Hl Hw. induction Hall as [|e es He _ IH]; [done|].
  apply andb_prop in Hl as [Hl1 Hl2]. inversion Hw; subst. constructor; auto.
Qed.

(** Every canonical expression is derivable from its tokens. *)
Lemma canonical_derivable e : laid_out e = true -> well_nested e -> derivable e.
Proof.
  induction e as [o n|o k n|o es Hes|o es Hes|o op e IH|o op e1 e2 IH1 IH2|o e es IH Hes]
    using AstExpression_nested_ind; cbn [laid_out]; intros Hl Hw.
  - apply derivable_head; [|done]. intros rest _ _. apply fits_eq in Hl. rewrite <-Hl at 1.
    by apply (parses_identifier (token_at TokenKind.identifier o n)).
  - apply derivable_head; [|done]. intros rest _ _. apply fits_eq in Hl. rewrite <-Hl at 1.
    apply (parses_literal (token_at (literal_token_kind k) o n)), literal_kind_of_kind.
  - apply andb_prop in Hl as [Ho Hs]. inversion Hw; subst. apply derivable_block; [done| |done].
    eapply forallb_derivable; [|done..]. by intros e [? _]%andb_prop.
  - apply andb_prop in Hl as [[Ho Hs]%andb_prop Hi]. inversion Hw; subst. apply derivable_return; [done| |done].
    by eapply forallb_derivable.
  - apply andb_prop in Hl as [He Ho]. inversion Hw as [| | | |? ? ? Hop|? ? ? Hop| |]; subst; rewrite Hop in Ho.
    + by apply derivable_prefix; auto.
    + apply andb_prop in Ho as [->%Z.eqb_eq Ha]. apply derivable_postfix; auto using laid_out_offset.
  - apply andb_prop in Hl as [[[H1 H2]%andb_prop ->%Z.eqb_eq]%andb_prop Ha]. inversion Hw; subst.
    apply derivable_binary; auto using laid_out_offset.
  - apply andb_prop in Hl as [[[[H1 ->%Z.eqb_eq]%andb_prop Ha]%andb_prop Hl]%andb_prop Hi]. inversion Hw; subst.
    apply derivable_call; auto using laid_out_offset. by eapply forallb_derivable.
Qed.

(** ** Canonical definitions *)

Lemma type_laid_out_inv o type :
  type_laid_out o type = true -> exists n, type = AstIdentExpr o n /\ node_offset o = o.
Proof.
  destruct type as [o' n| | | | | |]; try done. intros [Hf%fits_eq <-%Z.eqb_eq]%andb_prop. by exists n.
Qed.

Lemma print_separated_derived {A} (R : A -> list Token -> list Token -> Prop) (pr : A -> list Token) l rest :
  (forall a r, a ∈ l -> R a (pr a ++ r) r) -> l <> [] -> ~ next_is TokenKind.comma rest ->
  sep R l (separated (map pr l) ++ rest) rest.
Proof.
  intros HR Hne Hrest. induction l as [|a l IH]; [done|]. destruct l as [|b l].
  - apply sep_one; [|done]. apply HR. left.
  - change (separated (map pr (a :: b :: l))) with (pr a ++ mark TokenKind.comma :: separated (map pr (b :: l))).
    rewrite <-app_assoc. cbn [app].
    apply (sep_more R a (b :: l) (mark TokenKind.comma) _ (separated (map pr (b :: l)) ++ rest)).
    + apply HR. left.
    + done.
    + apply IH; [|done]. intros c r Hin. apply HR. by right.
Qed.

Lemma print_parameter_derived p r :
  type_laid_out (param_token_offset p) (param_type p) = true ->
  parses_parameter p (print_parameter p ++ r) r.
Proof.
  destruct p as [o type name]. cbn. intros (n & -> & Ho)%type_laid_out_inv. unfold print_parameter. cbn.
  destruct name as [no nl].
  pose proof (parses_parameter_intro (token_at TokenKind.identifier o n) (AstIdentExpr (node_offset o) n)
    (token_at TokenKind.identifier no nl) (token_at TokenKind.identifier no nl :: r) r) as Hp.
  cbn in Hp. unfold name_of in Hp. cbn in Hp. rewrite Ho in Hp. apply Hp; [|done].
  rewrite <-Ho at 1. by apply (parses_type_name (token_at TokenKind.identifier o n)).
Qed.

Lemma print_output_derived p r :
  output_laid_out p = true -> parses_output p (print_expression (output_type p) ++ r) r.
Proof.
  destruct p as [o type [no nl]]. intros [[(n & Ht & Ho)%type_laid_out_inv Hno%bool_decide_eq_true]%andb_prop
    Hnl%bool_decide_eq_true]%andb_prop. cbn in *. subst.
  pose proof (parses_output_intro (token_at TokenKind.identifier o n) (AstIdentExpr (node_offset o) n) r r) as Hp.
  cbn in Hp. rewrite Ho in Hp. apply Hp. rewrite <-Ho at 1.
  by apply (parses_type_name (token_at TokenKind.identifier o n)).
Qed.

Lemma separated_starts_with {A} (pr : A -> list Token) k l r :
  (forall a, a ∈ l -> forall r, next_is k (pr a ++ r)) -> l <> [] -> next_is k (separated (map pr l) ++ r).
Proof.
  intros Hk Hne. destruct l as [|a l]; [done|].
  change (map pr (a :: l)) with (pr a :: map pr l).
  destruct (map pr l); cbn [separated]; rewrite <-?app_assoc; apply Hk; left.
Qed.

Lemma next_is_unique k k' it : next_is k it -> k <> k' -> ~ next_is k' it.
Proof. destruct it; [done|]. cbn. congruence. Qed.

Lemma print_parameters_derived l r :
  forallb (fun p => type_laid_out (param_token_offset p) (param_type p)) l = true ->
  parses_parameters l (separated (map print_parameter l) ++ mark TokenKind.r_paren :: r) r.
Proof.
  intros Hl. rewrite forallb_forall in Hl. destruct l as [|p l].
  - by apply (parses_no_parameters (mark TokenKind.r_paren)).
  - apply (parses_some_parameters (p :: l) (mark TokenKind.r_paren)); [| |done].
    + eapply next_is_unique; [apply separated_starts_with with (k := TokenKind.identifier); [|done]|done].
      intros a Ha r'. apply list_elem_of_In, Hl, type_laid_out_inv in Ha as (n & Ht & _).
      unfold print_parameter. by rewrite Ht.
    + apply print_separated_derived; [|done|done].
      intros a r' Ha. by apply print_parameter_derived, Hl, list_elem_of_In.
Qed.

Lemma print_outputs_derived l r :
  forallb output_laid_out l = true -> ~ next_is TokenKind.comma r -> ~ next_is TokenKind.thin_arrow r ->
  parses_outputs l (print_outputs l ++ r) r.
Proof.
  intros Hl Hc Ha. rewrite forallb_forall in Hl. destruct l as [|o l]; [by apply parses_no_outputs|].
  apply (parses_some_outputs (o :: l) (mark TokenKind.thin_arrow)); [done|].
  apply print_separated_derived; [|done|done].
  intros a r' Hin. by apply print_output_derived, Hl, list_elem_of_In.
Qed.

(** The tokens of a definition after its opening parenthesis. *)
Definition signature_and_body (params : list AstFunctionParameter) (outs : list AstFunctionOutput)
    (body : list AstExpression) (r : list Token) : list Token :=
  separated (map print_parameter params) ++ mark TokenKind.r_paren ::
  print_outputs outs ++ mark TokenKind.l_brace :: print_block body ++ r.

Lemma print_definition_tokens d r :
  print_definition d ++ r =
  print_access d ++ print_name (def_name d) :: mark TokenKind.l_paren ::
  signature_and_body (parameters d) (outputs d) (statements d) r.
Proof.
  unfold print_definition, signature_and_body. rewrite <-app_assoc. f_equal. cbn [app]. do 2 f_equal.
  rewrite <-app_assoc. cbn [app]. do 2 f_equal. by rewrite <-app_assoc.
Qed.

Lemma print_definition_derived d r : canonical d -> parses_definition d (print_definition d ++ r) r.
Proof.
  intros [Hl Hw]. destruct d as [o access name params outs body].
  unfold definition_laid_out in Hl. cbn [access_modifier def_token_offset def_name parameters outputs statements] in *.
  apply andb_prop in Hl as [[[Ha Hp]%andb_prop Ho]%andb_prop Hs].
  assert (Hbody : parses_block body (print_block body ++ r) r).
  { apply print_block_derived; [|done]. rewrite forallb_forall in Hs. rewrite Forall_forall in Hw |- *.
    intros e He. apply canonical_derivable; [|by apply Hw].
    apply list_elem_of_In, Hs in He. by apply andb_prop in He as [? _]. }
  set (tail := signature_and_body params outs body r).
  assert (Hrest : forall t access' it,
    parses_access access' (t :: it) (print_name name :: mark TokenKind.l_paren :: tail) ->
    parses_definition {| def_token_offset := node_offset (offset t); access_modifier := access';
      def_name := name; parameters := params; outputs := outs; statements := body |} (t :: it) r).
  { intros t access' it Hacc. destruct name as [no nl].
    apply (parses_definition_intro t access' (token_at TokenKind.identifier no nl) (mark TokenKind.l_paren)
      (mark TokenKind.l_brace) params outs body it tail
      (print_outputs outs ++ mark TokenKind.l_brace :: print_block body ++ r) (print_block body ++ r) r);
      [exact Hacc|done|done| | |done|done].
    - by apply print_parameters_derived.
    - by apply print_outputs_derived. }
  rewrite print_definition_tokens. unfold print_access. cbn [access_modifier def_token_offset def_name parameters outputs statements]. fold tail.
  destruct access; cbn [app].
  - apply Z.eqb_eq in Ha as ->. apply (Hrest (print_name name)). by apply parses_no_access.
  - apply fits_eq in Ha. rewrite <-Ha at 1. apply (Hrest (token_at TokenKind.kw_private o 0)). by apply parses_private.
  - apply fits_eq in Ha. rewrite <-Ha at 1. apply (Hrest (token_at TokenKind.kw_public o 0)). by apply parses_public.
Qed.

Lemma print_root_derived ds : Forall canonical ds -> parses_root ds (print_root ds).
Proof.
  unfold print_root. induction 1 as [|d ds Hd _ IH]; cbn [flat_map app].
  - by apply parses_end.
  - rewrite <-app_assoc. eapply parses_next_definition; [|by apply print_definition_derived|exact IH].
    unfold print_definition, print_access. by destruct (access_modifier d).
Qed.
