(* ===== verification/PrinterTheorems.v ===== *)
(** The round trip of syntax trees through the parser: canonical trees are parsed
    back from their printed tokens, and the parser returns canonical trees. *)

From Stdlib Require Import String.
From S2P Require Import Prelude Report Source Testing Token Ast Parser Grammar GrammarFacts.
From S2P Require Import ParserFacts ParserSound ParserComplete ParserTheorems Printer PrinterFacts.

(** * Derived trees are canonical *)

Lemma fits_node_offset o : fits (node_offset o) = true.
Proof. unfold fits, node_offset. by rewrite <-Z.land_assoc, Z.land_diag, Z.eqb_refl. Qed.

(** What follows a derived tree with an ending. *)
Definition followed (end_ : Ending) (it : list Token) : Prop :=
  match end_ with
  | closed => True
  | bare => starts_expression it = false
  | open => continuation it = None /\ ~ next_is TokenKind.comma it
  end.

Lemma followed_admits end_ it c starts :
  followed end_ it -> continuation it = Some c ->
  (starts = true -> starts_expression it = true) -> admits end_ starts = true.
Proof.
  destruct end_; cbn; [done| |].
  - intros Hs _ Himp. destruct starts; [|done]. rewrite Himp in Hs by done. done.
  - intros [Hn _] Hc. congruence.
Qed.

(** A binary operator that can be a prefix operator starts an expression. *)
Lemma continuation_opens t it op :
  continuation (t :: it) = Some (adds_binary op) -> opens_expression op = true ->
  starts_expression (t :: it) = true.
Proof.
  unfold continuation. destruct (is_shr (t :: it)); [by intros [= <-]|].
  destruct (binary_operator_of (kind t)) as [op'|] eqn:Hop.
  - intros [= ->] Ho. cbn. destruct (kind t); try done; by injection Hop as <-.
  - destruct (postfix_operator_of (kind t)); [done|]. by destruct (TokenKind.eqb _ _).
Qed.

Lemma continuation_reopens t it op :
  continuation (t :: it) = Some (adds_postfix op) ->
  negb (bool_decide (op = UnaryOperator.deref)) = true -> starts_expression (t :: it) = true.
Proof.
  intros Hc Hop. apply continuation_postfix in Hc. cbn. destruct (kind t); try done. by injection Hc as <-.
Qed.

Definition expr_laid_out (e : AstExpression) (it it' : list Token) : Prop :=
  laid_out e = true /\ followed (ending e) it' /\
  (starts_with_brace e = true -> next_is TokenKind.l_brace it).

Definition tails_laid_out (e0 e : AstExpression) (it it' : list Token) : Prop :=
  laid_out e0 = true -> followed (ending e0) it ->
  laid_out e = true /\ followed (ending e) it' /\
  (starts_with_brace e = true -> starts_with_brace e0 = true).

Definition list_laid_out (es : list AstExpression) (it' : list Token) : Prop :=
  es <> [] /\ forallb laid_out es = true /\ items es = true /\
  continuation it' = None /\ ~ next_is TokenKind.comma it'.

Definition block_laid_out (es : list AstExpression) : Prop :=
  forallb (fun e => laid_out e && is_statement e) es = true.

Lemma followed_statement p e it it' :
  parses_expr p e it it' -> p = Precedence.statement -> continuation it' = None.
Proof.
  intros He ->. destruct grammar_nested as (Hn & _). destruct (Hn _ _ _ _ He) as (_ & _ & _ & Hf).
  destruct (continuation it') as [c|] eqn:Hc; [|done]. specialize (Hf c Hc).
  pose proof (binding_range c). cbn in Hf. lia.
Qed.

Lemma tail_offset e : node_offset (token_offset e) = token_offset e ->
  (node_offset (token_offset e) =? token_offset e) = true.
Proof. by intros ->%Z.eqb_eq. Qed.

Lemma grammar_laid_out :
  (forall p e it it', parses_expr p e it it' -> expr_laid_out e it it') /\
  (forall e it it', parses_head e it it' -> expr_laid_out e it it') /\
  (forall p e0 e it it', parses_tails p e0 e it it' -> tails_laid_out e0 e it it') /\
  (forall es it it', parses_list es it it' -> list_laid_out es it') /\
  (forall es it it', parses_block es it it' -> block_laid_out es) /\
  (forall e it it', parses_stmt e it it' -> laid_out e = true /\ is_statement e = true).
Proof.
  apply grammar_ind.
  - intros p e0 e it it1 it' _ (Hl & Hf & Hb) _ Htails. destruct (Htails Hl Hf) as (? & ? & ?).
    split_and!; auto.
  - intros t it Hk. split_and!; [apply fits_node_offset|done|done].
  - intros t it k Hk. split_and!; [apply fits_node_offset|done|done].
  - intros t es it it' Hk _ Hes. split_and!; [|done|done]. cbn. by rewrite fits_node_offset.
  - intros t it Hk Hs. split_and!; [|done|done]. cbn. by rewrite fits_node_offset.
  - intros t es it it' Hk Hs _ (Hne & Hl & Hi & Hc & Hcomma). split_and!; [|by destruct es|done].
    cbn. by rewrite fits_node_offset, Hl, Hi.
  - intros t op e it it' Hk _ (Hl & Hf & _). pose proof (prefix_is_prefix _ _ Hk) as Hop.
    split_and!; cbn; rewrite Hop; [|done|done]. by rewrite Hl, fits_node_offset.
  - intros p e it Hn Hl Hf. done.
  - intros p e0 e op right t it it1 it2 it' Hn Hit1 _ (Hlr & Hfr & _) _ Htails Hl Hf.
    apply next_continuation_some in Hn as [Hc _]. apply Htails; [|done]. cbn [laid_out].
    rewrite Hl, Hlr, tail_offset by by apply laid_out_offset.
    rewrite (followed_admits _ _ _ (opens_expression op) Hf Hc); [done|by eapply continuation_opens].
  - intros p e0 e op t it it' Hn _ Htails Hl Hf.
    apply next_continuation_some in Hn as [Hc _].
    pose proof (postfix_not_prefix _ _ (continuation_postfix _ _ _ Hc)) as Hop.
    destruct Htails as (H1 & H2 & H3).
    + cbn [laid_out]. rewrite Hop, Hl, tail_offset by by apply laid_out_offset.
      rewrite (followed_admits _ _ _ _ Hf Hc); [done|by eapply continuation_reopens].
    + cbn [ending]. by rewrite Hop.
    + split_and!; [done|done|]. intros He. apply H3 in He. cbn in He. by rewrite Hop in He.
  - intros p e0 e t t2 it it' Hn Hk2 _ Htails Hl Hf. apply next_continuation_some in Hn as [Hc _].
    apply Htails; [|done]. cbn [laid_out]. rewrite Hl, tail_offset by by apply laid_out_offset.
    by rewrite (followed_admits _ _ _ false Hf Hc).
  - intros p e0 e args t t2 it it2 it' Hn _ _ (_ & Hla & Hia & _) _ _ Htails Hl Hf.
    apply next_continuation_some in Hn as [Hc _].
    apply Htails; [|done]. cbn [laid_out]. rewrite Hl, Hla, Hia, tail_offset by by apply laid_out_offset.
    by rewrite (followed_admits _ _ _ false Hf Hc).
  - intros e it it' He (Hl & Hf & _) Hcomma. split_and!; [done| |done| |done].
    + cbn. by rewrite Hl.
    + by eapply followed_statement.
  - intros e es t it it1 it' _ (Hl & Hf & _) Hk _ (Hne & Hls & Hi & Hc). split_and!; [done| | |apply Hc|apply Hc].
    + cbn. by rewrite Hl, Hls.
    + unfold items in *. destruct es as [|e2 es]; [done|]. cbn [removelast forallb] in *.
      rewrite Hi, andb_true_r. destruct (ending e); [done|done|]. by destruct Hf as [_ ?].
  - done.
  - intros e es it it1 it' _ _ [Hl Hs] _ Hes. unfold block_laid_out. cbn. by rewrite Hl, Hs.
  - intros t es it it' Hk _ Hes. split; [|done]. cbn. by rewrite fits_node_offset.
  - intros e t it it' Hno _ (Hl & _ & Hb) Hk. split; [done|]. unfold is_statement.
    destruct (starts_with_brace e); [by destruct Hno; apply Hb|apply orb_true_r].
Qed.

Lemma sep_forallb {A} (R : A -> list Token -> list Token -> Prop) (f : A -> bool) l it it' :
  (forall a it it', R a it it' -> f a = true) -> sep R l it it' -> forallb f l = true.
Proof.
  intros HR. induction 1 as [a it it' Ha _|a l t it it1 it' Ha _ _ IH]; cbn; rewrite (HR _ _ _ Ha); [done|exact IH].
Qed.

Lemma type_derived_laid_out type t it it' :
  parses_type type (t :: it) it' -> type_laid_out (node_offset (offset t)) type = true.
Proof. inversion 1; subst. cbn. by rewrite fits_node_offset, Z.eqb_refl. Qed.

Lemma definition_canonical d it it' : parses_definition d it it' -> canonical d.
Proof.
  destruct 1 as [t access name paren brace params outs body it it1 it2 it3 it' Ha Hn _ Hp Ho _ Hb].
  split; [|destruct grammar_nested as (_ & _ & _ & _ & Hblock & _); by eapply Hblock].
  unfold definition_laid_out. cbn [access_modifier def_token_offset def_name parameters outputs statements].
  apply andb_true_intro. split; [apply andb_true_intro; split; [apply andb_true_intro; split|]|].
  - inversion Ha; subst; cbn [name_of name_offset]; [apply fits_node_offset..|apply Z.eqb_refl].
  - inversion Hp as [|? ? ? ? _ Hsep]; subst; [done|]. eapply sep_forallb; [|exact Hsep].
    intros p i i' Hp'. inversion Hp' as [? ? ? ? ? Ht]; subst. by eapply type_derived_laid_out.
  - inversion Ho as [|? ? ? ? _ Hsep]; subst; [done|]. eapply sep_forallb; [|exact Hsep].
    intros p i i' Hp'. inversion Hp' as [? ? ? ? Ht]; subst. unfold output_laid_out. cbn.
    by rewrite (type_derived_laid_out _ _ _ _ Ht).
  - destruct grammar_laid_out as (_ & _ & _ & _ & Hblock & _). by eapply Hblock.
Qed.

Lemma root_canonical ds it : parses_root ds it -> Forall canonical ds.
Proof. induction 1; constructor; eauto using definition_canonical. Qed.

(** * Round trip *)

(** C3. Parsing inverts printing: every canonical tree, with all its offsets and
    lengths, is what the parser returns for its printed tokens, without a report,
    whenever the tokens can be located in the source. *)
Theorem parse_print_roundtrip : forall `{Fmt} source tab_size reports root,
  Forall canonical (definitions root) ->
  good source tab_size (print_root (definitions root)) ->
  run_parser source tab_size (print_root (definitions root)) reports = Done root reports.
Proof.
  intros F source tab_size reports [ds] Hc Hg. cbn [definitions] in *.
  apply run_parser_complete; [by apply print_root_derived|done].
Qed.

(** The tree of [private f(a b) -> c { x = -y^ >> x(1, return); { return x, y; } }], with
    offsets into this source. *)
Definition roundtrip_source : SourceView.t := test_source (lit "fxyabc12") (lit "t").
Definition roundtrip_root : AstRoot := {| definitions := [
  {| def_token_offset := 3; access_modifier := AccessModifier.private_;
     def_name := {| name_offset := 0; name_length := 1 |};
     parameters := [{| param_token_offset := 3; param_type := AstIdentExpr 3 1;
                       param_name := {| name_offset := 4; name_length := 1 |} |}];
     outputs := [{| output_token_offset := 5; output_type := AstIdentExpr 5 1; output_name := empty_name |}];
     statements := [
       AstBinaryExpr 1 BinaryOperator.assign (AstIdentExpr 1 1)
         (AstBinaryExpr 2 BinaryOperator.shr
           (AstUnaryExpr 2 UnaryOperator.negate (AstUnaryExpr 2 UnaryOperator.deref (AstIdentExpr 2 1)))
           (AstCallExpr 1 (AstIdentExpr 1 1) [AstLiteralExpr 6 LiteralKind.dec_int 1; AstReturnExpr 0 []]));
       AstBlockExpr 0 [AstReturnExpr 0 [AstIdentExpr 1 1; AstIdentExpr 2 1]]] |}] |}.

Lemma roundtrip_root_canonical : Forall canonical (definitions roundtrip_root).
Proof.
  constructor; [|constructor]. split; [vm_compute; reflexivity|]. cbn [statements].
  repeat first [apply wn_prefix; [reflexivity|..] | apply wn_postfix; [reflexivity|..] | constructor];
    cbn; lia.
Qed.

Lemma parse_print_roundtrip_witness :
  Forall canonical (definitions roundtrip_root) /\
  good roundtrip_source 4 (print_root (definitions roundtrip_root)) /\
  run_parser roundtrip_source 4 (print_root (definitions roundtrip_root)) [] = Done roundtrip_root [].
Proof.
  assert (Hg : good roundtrip_source 4 (print_root (definitions roundtrip_root)))
    by (apply good_b_spec; vm_compute; reflexivity).
  split; [exact roundtrip_root_canonical|]. split; [exact Hg|].
  exact (parse_print_roundtrip roundtrip_source 4 [] roundtrip_root roundtrip_root_canonical Hg).
Defined.

(** C14. A tree that the parser returned without a report is canonical, and it is
    parsed again to the same tree from its printed tokens, in every source in which
    they can be located: printing loses nothing that the parser looks at. *)
Theorem parsed_trees_canonical : forall `{Fmt} source tab_size tokens reports root,
  good source tab_size tokens -> run_parser source tab_size tokens reports = Done root reports ->
  Forall canonical (definitions root) /\
  (forall source' reports', good source' tab_size (print_root (definitions root)) ->
     run_parser source' tab_size (print_root (definitions root)) reports' = Done root reports').
Proof.
  intros F source tab_size tokens reports root Hg Hrun.
  destruct (run_parser_result source tab_size tokens reports Hg) as (root' & new & Hrun' & Hroot).
  rewrite Hrun in Hrun'. injection Hrun' as <- Hr.
  assert (new = []) as Hnew by (apply (app_inv_head reports); by rewrite app_nil_r).
  pose proof (root_canonical _ _ (Hroot Hnew)) as Hc. split; [exact Hc|].
  intros source' reports' Hg'. destruct root as [ds].
  apply run_parser_complete; [by apply print_root_derived|done].
Qed.

Lemma parsed_trees_canonical_witness :
  exists root, run_parser example_source 4 example_tokens [] = Done root [] /\
  Forall canonical (definitions root) /\
  (forall source' reports', good source' 4 (print_root (definitions root)) ->
     run_parser source' 4 (print_root (definitions root)) reports' = Done root reports').
Proof.
  assert (Hrun : exists root, run_parser example_source 4 example_tokens [] = Done root [])
    by (eexists; vm_compute; reflexivity).
  destruct Hrun as (root & Hrun). exists root. split; [exact Hrun|].
  exact (parsed_trees_canonical example_source 4 example_tokens [] root example_good Hrun).
Defined.
