(* ===== verification/Pipeline.v ===== *)
(** From the lexer to the parser: for every source, the tokens that the lexer puts
    are what the parser relies on. *)

From Stdlib Require Import Ascii String.
From S2P Require Import Prelude Report Source SourceFacts Token Flags.
From S2P Require Import Lexer LexerSpec LexerScanners LexerCorrect Ast Parser Grammar ParserFacts.

Section Pipeline.
Context `{Fmt}.

Lemma locate_start source tab_size : is_Some (SourceView.locate source 0 tab_size).
Proof. unfold SourceView.locate. rewrite substr_prefix by lia. cbn. eauto. Qed.

(** Tokens as the lexer makes them can be located and shown. *)
Lemma lexed_printable ok source tab_size p w q toks token :
  SourceView.get_text source = p ++ w ++ q -> len (SourceView.get_text source) <= source_size_max ->
  0 <= tab_size < 256 -> lexed ok (len p) w toks -> token ∈ toks -> printable source tab_size token.
Proof.
  intros Ht Hs Htab Hl Hin.
  destruct (lexed_get_text _ _ _ _ _ _ _ Ht Hl Hin) as (p' & v & q' & _ & Ho & _ & Hget).
  split; [|by rewrite Hget].
  apply locate_total; [done| |done]. rewrite Ho. apply len_nonneg.
Qed.

Lemma good_snoc source tab_size toks last :
  Forall (fun t => kind t <> TokenKind.end_of_file /\ printable source tab_size t) toks ->
  kind last = TokenKind.end_of_file -> printable source tab_size last ->
  good source tab_size (toks ++ [last]).
Proof.
  intros Hall Hk Hp. induction Hall as [|t toks [Hne Ht] _ IH]; cbn.
  - by apply good_eof.
  - by apply good_cons.
Qed.

(** The parser gets what it relies on from the lexer, for every source. *)
Lemma run_lexer_good source flags tab_size reports :
  0 <= tab_size < 256 ->
  exists toks reps,
    run_lexer source flags tab_size reports = Done toks (reports ++ reps) /\
    good source tab_size toks /\
    (reps = [] -> exists toks', len (SourceView.get_text source) <= source_size_max /\
       lexed true 0 (SourceView.get_text source) toks' /\
       toks = toks' ++ [fixed_token TokenKind.end_of_file (len (SourceView.get_text source))]).
Proof.
  intros Htab. destruct (Z.le_gt_cases (len (SourceView.get_text source)) source_size_max) as [Hs|Hs].
  - destruct (run_lexer_admissible source flags tab_size reports Hs Htab)
      as (w & rest & toks & reps & Ht & Hl & Hend & Hrun).
    exists (toks ++ [fixed_token TokenKind.end_of_file (len w)]), reps. split; [done|]. split.
    + apply good_snoc; [|done|split; [|done]].
      * pose proof (lexed_not_eof _ _ _ _ Hl) as Hne. rewrite Forall_forall in Hne |- *.
        intros t Hin. split; [by apply Hne|].
        by apply (lexed_printable _ source tab_size [] w rest toks t Ht Hs Htab Hl).
      * apply locate_total; [done| |done]. cbn. apply Z.land_nonneg. lia.
    + intros ->. exists toks. destruct Hend as [->|[_ ?]]; [|done].
      rewrite app_nil_r in Ht. by rewrite Ht in *.
  - destruct (run_lexer_too_large source flags tab_size reports Hs) as (r & _ & Hrun).
    exists [fixed_token TokenKind.end_of_file 0], [r]. split; [done|]. split; [|done].
    apply good_eof; [done|]. split; [apply locate_start|done].
Qed.

End Pipeline.
