(* ===== verification/Spelling.v ===== *)
(** Texts of words: the lexical grammar of Cero from the side of a writer. A
    sequence of words laid out with white space and comments is read back by the
    lexer as exactly the tokens of these words, whatever the layout. *)

From Stdlib Require Import Ascii String.
From S2P Require Import Prelude Report Platform FileView Source Testing SourceFacts Unicode Token Keywords Flags.
From S2P Require Import Lexer LexerWords LexerFacts LexerSpec LexerScanners LexerHandlers LexerFlags LexerCorrect LexerTokens.

#[local] Open Scope char_scope.
#[local] Open Scope Z_scope.

(** * Words *)

(** A token's kind with the text that the kind leaves open; [>>] is one word and
    two tokens. *)
Inductive Word :=
| open_word (kind : TokenKind.t) (w : text)
| fixed_word (kind : TokenKind.t)
| shift_right.

Definition word_text (word : Word) : text :=
  match word with
  | open_word _ w => w
  | fixed_word kind => match spelling kind with Some w => w | None => [] end
  | shift_right => [">"; ">"]
  end.

(** The tokens of a word at an offset. *)
Definition word_tokens (off : Z) (word : Word) : list Token :=
  match word with
  | open_word kind w => [make_token kind off (len w)]
  | fixed_word kind => [fixed_token kind off]
  | shift_right => [fixed_token TokenKind.r_angle off; fixed_token TokenKind.r_angle (u32 (off + 1))]
  end.

(** The integer literals with a prefix: their kinds, prefixes and digits. *)
Definition radix_literals : list (TokenKind.t * text * (ascii -> bool)) :=
  [(TokenKind.hex_int_literal, ["0"; "x"], is_hexadecimal_digit);
   (TokenKind.bin_int_literal, ["0"; "b"], is_decimal_digit);
   (TokenKind.oct_int_literal, ["0"; "o"], is_decimal_digit)].

(** The quoted literals: their kinds and quotes. *)
Definition quoted_literals : list (TokenKind.t * ascii) :=
  [(TokenKind.string_literal, double_quote); (TokenKind.char_literal, "'")].

(** Where an operator or a punctuation mark [w] ends. *)
Definition ends_operator (w rest : text) : Prop :=
  longest_operator w (w ++ rest) /\
  (w = [">"] -> front rest <> ">") /\
  (w = ["/"] -> front rest <> "/" /\ front rest <> "*").

(** * Layouts *)

(** [chunk v rest word]: in a text that goes on with [rest], [v] is white space, a
    comment, or a word with white space that belongs to no other chunk. *)
Inductive chunk : text -> text -> option Word -> Prop :=
| chunk_space c rest : is_ascii_whitespace c = true -> chunk [c] rest None
| chunk_line_comment v rest :
    Forall (fun c => stops c = false) v -> rest = [] \/ front rest = newline ->
    chunk ("/" :: "/" :: v) rest None
| chunk_block_comment v rest :
    comment_rest 1 (v ++ rest) = Some rest -> chunk ("/" :: "*" :: v) rest None
| chunk_name w rest :
    identifier_text w -> keyword_kind w = None -> ends_word rest ->
    chunk w rest (Some (open_word TokenKind.identifier w))
| chunk_keyword w kind rest :
    keyword_kind w = Some kind -> ends_word rest -> chunk w rest (Some (fixed_word kind))
| chunk_operator kind w rest :
    spelling kind = Some w -> operator_tree (front w) <> None \/ front w = "/" ->
    ends_operator w rest -> chunk w rest (Some (fixed_word kind))
| chunk_shift_right rest :
    front rest <> "=" -> front rest <> ">" -> chunk [">"; ">"] rest (Some shift_right)
| chunk_dot ws rest :
    all_whitespace ws -> ends_digits is_decimal_digit rest ->
    chunk ("." :: ws) rest (Some (fixed_word TokenKind.dot))
| chunk_radix kind prefix pred v ws rest :
    (kind, prefix, pred) ∈ radix_literals -> digit_run pred v -> all_whitespace ws ->
    ends_digits pred rest -> chunk ((prefix ++ v) ++ ws) rest (Some (open_word kind (prefix ++ v)))
| chunk_decimal d v ws rest :
    is_decimal_digit d = true -> digit_run is_decimal_digit v -> all_whitespace ws ->
    ends_digits is_decimal_digit rest -> front rest <> "." ->
    (d = "0" -> front (v ++ ws ++ rest) ∉ ["x"; "b"; "o"]) ->
    chunk ((d :: v) ++ ws) rest (Some (open_word TokenKind.dec_int_literal (d :: v)))
| chunk_float d v ws1 b ws2 rest :
    is_decimal_digit d = true -> digit_run is_decimal_digit v -> all_whitespace ws1 ->
    b <> [] -> digit_run is_decimal_digit b -> all_whitespace ws2 -> ends_digits is_decimal_digit rest ->
    chunk ((d :: v ++ ws1 ++ "." :: b) ++ ws2) rest
      (Some (open_word TokenKind.float_literal (d :: v ++ ws1 ++ "." :: b)))
| chunk_fraction b ws rest :
    b <> [] -> digit_run is_decimal_digit b -> all_whitespace ws -> ends_digits is_decimal_digit rest ->
    chunk (("." :: b) ++ ws) rest (Some (open_word TokenKind.float_literal ("." :: b)))
| chunk_quoted kind quote v rest :
    (kind, quote) ∈ quoted_literals -> quote_scan quote (v ++ rest) = (v, closed) ->
    chunk (quote :: v) rest (Some (open_word kind (quote :: v))).

(** The tokens of a chunk at an offset. *)
Definition chunk_tokens (off : Z) (word : option Word) : list Token :=
  match word with Some word => word_tokens off word | None => [] end.

(** [spells off w words toks]: the text [w], which starts at the offset [off] of a
    source, consists of these words in this order, and their tokens are [toks]. *)
Inductive spells : Z -> text -> list Word -> list Token -> Prop :=
| spells_end off : spells off [] [] []
| spells_chunk off v rest word words toks :
    chunk v rest word -> spells (off + len v) rest words toks ->
    spells off (v ++ rest) (option_list word ++ words) (chunk_tokens off word ++ toks).

(** * Reading a chunk *)

(** The white space after a sequence of digits is found in one way only. *)
Section DigitRuns.
Context (pred : ascii -> bool) (Hpred : forall c, pred c = true -> is_ascii_whitespace c = false).

Definition digit_or_space (c : ascii) : bool := pred c || is_ascii_whitespace c.

Lemma digit_run_chars v ws :
  digit_run pred v -> all_whitespace ws -> Forall (fun c => digit_or_space c = true) (v ++ ws).
Proof.
  assert (Hspace : forall ws, all_whitespace ws -> Forall (fun c => digit_or_space c = true) ws).
  { intros w Hw. eapply Forall_impl; [exact Hw|]. intros c Hc. unfold digit_or_space. rewrite Hc. apply orb_true_r. }
  intros Hv Hws. apply Forall_app. split; [|by apply Hspace].
  induction Hv as [|v ws2 d _ IH Hws2 Hd]; [constructor|].
  apply Forall_app. split; [done|]. apply Forall_app. split; [by apply Hspace|].
  repeat constructor. unfold digit_or_space. by rewrite Hd.
Qed.

Lemma ends_digits_stop rest c rest' : ends_digits pred rest -> rest = c :: rest' -> digit_or_space c = false.
Proof. intros Hr ->. destruct Hr as [H1 H2]. unfold digit_or_space. by rewrite H1, H2. Qed.

Lemma prefixes_equal (a b r r' : text) :
  Forall (fun c => digit_or_space c = true) a -> Forall (fun c => digit_or_space c = true) b ->
  ends_digits pred r -> ends_digits pred r' -> a ++ r = b ++ r' -> a = b /\ r = r'.
Proof.
  intros Ha. revert b. induction Ha as [|c a Hc _ IH]; intros b Hb Hr Hr' Heq.
  - destruct Hb as [|d b Hd _]; [done|]. cbn in Heq.
    rewrite (ends_digits_stop r d (b ++ r')) in Hd by done. done.
  - destruct Hb as [|d b Hd Hb].
    + cbn in Heq. rewrite (ends_digits_stop r' c (a ++ r)) in Hc by done. done.
    + cbn in Heq. injection Heq as <- Heq. destruct (IH b Hb Hr Hr' Heq) as [-> ->]. done.
Qed.

Lemma no_space_tail v k : digit_run pred (v ++ k) -> all_whitespace k -> k = [].
Proof.
  intros Hr Hk. inversion Hr as [Heq|v2 ws d _ _ Hd Heq].
  - symmetry in Heq. by apply app_eq_nil in Heq as [_ ->].
  - destruct k as [|c k _] using rev_ind; [done|]. rewrite !app_assoc in Heq.
    apply app_inj_tail in Heq as [_ ->]. apply Forall_app in Hk as [_ Hc]. inversion Hc as [|? ? Hs]; subst.
    rewrite (Hpred _ Hd) in Hs. done.
Qed.

Lemma digit_runs_equal v ws r v' ws' r' :
  v ++ ws ++ r = v' ++ ws' ++ r' -> digit_run pred v -> digit_run pred v' ->
  all_whitespace ws -> all_whitespace ws' -> ends_digits pred r -> ends_digits pred r' ->
  v = v' /\ ws = ws' /\ r = r'.
Proof.
  intros Heq Hv Hv' Hws Hws' Hr Hr'. rewrite !app_assoc in Heq.
  destruct (prefixes_equal (v ++ ws) (v' ++ ws') r r') as [Hsame ->];
    [by apply digit_run_chars|by apply digit_run_chars|done..|].
  apply app_eq_inv in Hsame as [(k & -> & ->)|(k & -> & ->)].
  - apply Forall_app in Hws' as [Hk _].
    rewrite (no_space_tail _ _ Hv Hk) in *. by rewrite app_nil_r.
  - apply Forall_app in Hws as [Hk _].
    rewrite (no_space_tail _ _ Hv' Hk) in *. by rewrite app_nil_r.
Qed.
End DigitRuns.

Lemma decimal_not_space c : is_decimal_digit c = true -> is_ascii_whitespace c = false.
Proof.
  intros Hc. apply negb_true_iff. revert c Hc. apply forall_ascii_impl. vm_compute. reflexivity.
Qed.
Lemma hexadecimal_not_space c : is_hexadecimal_digit c = true -> is_ascii_whitespace c = false.
Proof.
  intros Hc. apply negb_true_iff. revert c Hc. apply forall_ascii_impl. vm_compute. reflexivity.
Qed.

#[local] Hint Resolve decimal_not_space hexadecimal_not_space : core.

Lemma spelling_inj k1 k2 w : spelling k1 = Some w -> spelling k2 = Some w -> k1 = k2.
Proof.
  intros H1 H2. pose proof (TokenKind.forall_kind (fun k1 => forallb (fun k2 =>
    match spelling k1, spelling k2 with
    | Some w1, Some w2 => implb (bool_decide (w1 = w2)) (TokenKind.eqb k1 k2)
    | _, _ => true
    end) TokenKind.all)) as Hall.
  specialize (Hall ltac:(vm_compute; reflexivity) k1). cbv beta in Hall.
  pose proof (TokenKind.forall_kind _ Hall k2) as H. cbv beta in H. rewrite H1, H2 in H.
  rewrite bool_decide_true in H by done. by apply TokenKind.eqb_eq.
Qed.

Section Reading.
Context `{Fmt} (source_ : SourceView.t) (flags_ tab_size_ : Z).
#[local] Abbreviation txt := (source_text_ source_).
Context (Hsize : len txt <= source_size_max) (Htab : 0 <= tab_size_ < 256).
Context (Hflags : has_flags flags_ LexerFlags.emit_comments = false).
#[local] Abbreviation runs := (runs source_).

Implicit Types (it pre v w ws rest : text).

(** The trace of a run that read [w] and put [toks]. *)
Definition quiet (w : text) (toks : list Token) : Trace := {| read_ := w; emitted := toks; reported := [] |}.

Lemma tread_quiet v w toks : tread v +++ quiet w toks = quiet (v ++ w) toks.
Proof. done. Qed.
Lemma quiet_app v w toks toks' : quiet v toks +++ quiet w toks' = quiet (v ++ w) (toks ++ toks').
Proof. done. Qed.

(** Started before [v], the member function [m] reads exactly [v] and puts exactly [toks]. *)
Definition reads (m : L unit) v rest (toks : list Token) : Prop :=
  runs m (v ++ rest) (fun _ tr it' => tr = quiet v toks /\ it' = rest).

Lemma runs_put_last token rest (R : unit -> Trace -> text -> Prop) :
  R tt (quiet [] [token]) rest -> runs (put_token token) rest R.
Proof. intros HR. apply runs_last, runs_put, runs_ret. exact HR. Qed.

(** ** White space and comments *)

Lemma reads_space c rest : is_ascii_whitespace c = true ->
  reads (handle_next_character source_ flags_ tab_size_ c) [c] rest [].
Proof.
  intros Hc. unfold reads. assert (Hh : handle_next_character source_ flags_ tab_size_ c = cursor_advance)
    by (destruct c as [[] [] [] [] [] [] [] []]; try discriminate Hc; reflexivity).
  rewrite Hh. apply runs_last, runs_advance, runs_ret. done.
Qed.

Lemma runs_no_comment kind off rest (R : unit -> Trace -> text -> Prop) :
  R tt tnil rest -> runs (emit_comment flags_ kind off) rest R.
Proof. intros HR. unfold emit_comment. rewrite Hflags. by apply runs_ret. Qed.

(** The text before a line break or the end. *)
Lemma line_unique v rest v' rest' :
  v ++ rest = v' ++ rest' -> Forall (fun c => stops c = false) v -> Forall (fun c => stops c = false) v' ->
  rest = [] \/ stops (front rest) = true -> rest' = [] \/ stops (front rest') = true -> v = v' /\ rest = rest'.
Proof.
  intros Heq Hv. revert v' Heq. induction Hv as [|c v Hc _ IH]; intros v' Heq Hv' Hr Hr'.
  - destruct Hv' as [|d v' Hd _]; [done|]. cbn in Heq. subst rest. destruct Hr as [|Hr]; [done|].
    cbn in Hr. congruence.
  - destruct Hv' as [|d v' Hd Hv'].
    + cbn in Heq. subst rest'. destruct Hr' as [|Hr']; [done|]. cbn in Hr'. congruence.
    + cbn in Heq. injection Heq as <- Heq. by destruct (IH _ Heq Hv' Hr Hr') as [-> ->].
Qed.

Lemma reads_line_comment pre v rest :
  txt = pre ++ ("/" :: "/" :: v) ++ rest -> Forall (fun c => stops c = false) v ->
  rest = [] \/ front rest = newline -> reads (on_slash source_ flags_ tab_size_) ("/" :: "/" :: v) rest [].
Proof.
  intros Ht Hv Hr. unfold reads, on_slash. cbn [app] in *.
  apply (runs_get_offset_and_advance source_ Hsize) with (pre := pre); [done|].
  apply runs_match; [|by intros Hno; destruct (Hno (v ++ rest))]. intros it' [= <-].
  eapply runs_bind; [apply runs_consume_line_comment|].
  intros _ tr it2 Hit (v' & -> & Hv' & Hr'). cbn in Hit.
  destruct (line_unique _ _ _ _ Hit Hv Hv') as [<- <-]; [|done|].
  { destruct Hr as [?|Hr]; [by left|right]. by rewrite Hr. }
  apply runs_no_comment. by rewrite tapp_nil_r.
Qed.

Lemma reads_block_comment pre v rest :
  txt = pre ++ ("/" :: "*" :: v) ++ rest -> comment_rest 1 (v ++ rest) = Some rest ->
  reads (on_slash source_ flags_ tab_size_) ("/" :: "*" :: v) rest [].
Proof.
  intros Ht Hc. unfold reads, on_slash. cbn [app] in *.
  apply (runs_get_offset_and_advance source_ Hsize) with (pre := pre); [done|].
  apply runs_match; [by intros it'|]. intros _.
  apply runs_match; [|by intros Hno; destruct (Hno (v ++ rest))]. intros it' [= <-].
  eapply runs_bind.
  { apply (runs_consume_block_comment source_ tab_size_ Hsize Htab (pre ++ ["/"; "*"])); [rewrite Ht; app_eq|apply len_nonneg]. }
  intros _ tr it2 Hit (w & reps & -> & Hrest). rewrite Hc in Hrest. destruct Hrest as [-> ->].
  cbn in Hit. apply app_inv_tail in Hit as <-. apply runs_no_comment. by rewrite tapp_nil_r.
Qed.

(** ** Names, keywords and operators *)

Lemma keyword_identifier w kind : keyword_kind w = Some kind -> identifier_text w.
Proof.
  intros (Hl & Hp & Hf)%keyword_kind_ok. destruct Hp as [|c w Hc Hp]; [cbn in Hl; lia|].
  apply identifier_text_ascii.
  - unfold identifier_start. rewrite Hc. cbn in Hf.
    pose proof (forall_ascii (fun c => implb (char_between "a" "z" c) (negb (is_decimal_digit c)))
      ltac:(vm_compute; reflexivity) c) as Hb. cbv beta in Hb. by rewrite Hf in Hb.
  - clear Hl Hf. induction Hp as [|d w Hd _ IH]; [constructor|]. by apply identifier_rest_ascii.
Qed.

Lemma reads_name pre w rest :
  txt = pre ++ w ++ rest -> identifier_text w -> ends_word rest ->
  reads (handle_next_character source_ flags_ tab_size_ (front w)) w rest [word_token pre w].
Proof.
  intros Ht Hw Hr. eapply runs_post; [by eapply (runs_identifier_text source_ flags_ tab_size_ pre w rest)|].
  intros _ [r e reps] it' Hit (-> & He & Hrep). cbn in Hit, He, Hrep. subst e reps.
  apply app_inv_tail in Hit as <-. done.
Qed.

Lemma spelled_operator kind c w :
  spelling kind = Some (c :: w) -> operator_tree c <> None \/ c = "/" -> c :: w ∈ operators.
Proof.
  intros Hs Hc. unfold operators. apply list_elem_of_omap. exists kind.
  split; [eapply list_elem_of_lookup_2, TokenKind.all_index|]. rewrite Hs.
  assert (Hn : char_between "a" "z" c = false); [|by rewrite Hn].
  destruct Hc as [Hc| ->]; [|done]. destruct (char_between "a" "z" c) eqn:Hl; [|done].
  exfalso. apply Hc. by destruct c as [[] [] [] [] [] [] [] []].
Qed.

Lemma prefixes_of_text (v w r r' : text) : v ++ r = w ++ r' -> length v = length w -> v = w /\ r = r'.
Proof. intros Heq Hl. by apply app_inj_1. Qed.

(** The run of an operator's handler reads the operator that ends there. *)
Lemma reads_operator pre kind c w rest :
  txt = pre ++ (c :: w) ++ rest -> spelling kind = Some (c :: w) -> operator_tree c <> None ->
  ends_operator (c :: w) rest ->
  reads (handle_next_character source_ flags_ tab_size_ c) (c :: w) rest [fixed_token kind (len pre)].
Proof.
  intros Ht Hs Hc (Hlong & Hangle & _). destruct (operator_tree c) as [tree|] eqn:Htree; [|done].
  unfold reads. cbn [app]. rewrite (operator_handler source_ flags_ tab_size_ tree) by done.
  eapply runs_post; [by eapply (runs_operator_tree source_ Hsize tree pre c (w ++ rest))|].
  intros _ [r e reps] it' Hit (Hrep & Hne & Htoks & Hlong'). cbn in Hit, Hrep, Hne, Htoks, Hlong'. subst reps.
  assert (Hle : (length (c :: w) <= length r)%nat).
  { apply Hlong'; [|by exists rest]. apply (spelled_operator kind); [done|]. left. by rewrite Htree. }
  assert (Hsame : (length r <= length (c :: w))%nat -> r = c :: w /\ rest = it').
  { intros Hge. destruct (prefixes_of_text r (c :: w) it' rest) as [-> ->]; [by rewrite <-Hit|lia|done]. }
  destruct Htoks as [(kind' & -> & Hs')|[-> ->]].
  - destruct Hsame as [-> ->].
    { destruct r as [|d r]; [done|]. injection Hit as <- Hit. apply Hlong; [|by exists it'; cbn; rewrite Hit].
      apply (spelled_operator kind'); [done|]. left. by rewrite Htree. }
    by rewrite (spelling_inj kind' kind _ Hs' Hs).
  - exfalso. injection Hit as -> Hit. destruct w as [|d w].
    + apply Hangle; [done|]. cbn in Hit. by subst rest.
    + injection Hit as -> Hit. destruct w; [|cbn in Hle; lia]. by destruct kind.
Qed.

Lemma reads_slash pre kind w rest :
  txt = pre ++ ("/" :: w) ++ rest -> spelling kind = Some ("/" :: w) -> ends_operator ("/" :: w) rest ->
  reads (on_slash source_ flags_ tab_size_) ("/" :: w) rest [fixed_token kind (len pre)].
Proof.
  intros Ht Hs (Hlong & _ & Hslash). unfold reads, on_slash. cbn [app] in *.
  apply (runs_get_offset_and_advance source_ Hsize) with (pre := pre); [done|].
  destruct kind; try discriminate Hs; injection Hs as <-; cbn [app] in *.
  - destruct Hslash as [Hs1 Hs2]; [done|].
    apply runs_match; [intros it' ->; by destruct Hs1|]. intros _.
    apply runs_match; [intros it' ->; by destruct Hs2|]. intros _.
    apply runs_match; [intros it' ->|intros _; by apply runs_put_last].
    exfalso. specialize (Hlong ["/"; "="] ltac:(by apply (spelled_operator TokenKind.slash_eq); [|right])).
    cbn in Hlong. enough (2 <= 1)%nat by lia. apply Hlong. by exists it'.
  - apply runs_match; [by intros it'|]. intros _.
    apply runs_match; [by intros it'|]. intros _.
    apply runs_match; [intros it' [= <-]; by apply runs_put_last|]. intros Hno. by destruct (Hno rest).
Qed.

Lemma reads_shift_right pre rest :
  txt = pre ++ [">"; ">"] ++ rest -> front rest <> "=" ->
  reads on_right_angle [">"; ">"] rest (word_tokens (len pre) shift_right).
Proof.
  intros Ht Hr. unfold reads, on_right_angle. cbn [app] in *.
  apply (runs_get_offset_and_advance source_ Hsize) with (pre := pre); [done|].
  apply runs_match; [|by intros Hno; destruct (Hno rest)]. intros it' [= <-].
  apply runs_match; [by intros it' ->|]. intros _.
  apply runs_put, runs_put_last. done.
Qed.

(** ** Numbers *)

Lemma runs_digits_exact pred pre w v ws rest :
  (forall c, pred c = true -> is_ascii_whitespace c = false) -> pred Ascii.zero = false ->
  txt = pre ++ w ++ v ++ ws ++ rest -> digit_run pred v -> all_whitespace ws -> ends_digits pred rest ->
  runs (consume_digit_sequence pred (len pre)) (v ++ ws ++ rest) (fun n tr it' =>
    n = len (w ++ v) /\ tr = tread (v ++ ws) /\ it' = rest).
Proof.
  intros Hpred Hz Ht Hv Hws Hr. eapply runs_post; [by apply (runs_digits source_ Hsize pred pre w)|].
  intros n tr it' Hit (v' & ws' & -> & -> & Hv' & Hws' & Hr'). cbn in Hit. rewrite <-app_assoc in Hit.
  by destruct (digit_runs_equal pred Hpred _ _ _ _ _ _ Hit Hv Hv' Hws Hws' Hr Hr') as (<- & <- & <-).
Qed.

(** The length that ends a literal is read after the white space. *)
Lemma reads_radix pre kind prefix pred v ws rest :
  txt = pre ++ ((prefix ++ v) ++ ws) ++ rest -> (kind, prefix, pred) ∈ radix_literals ->
  digit_run pred v -> all_whitespace ws -> ends_digits pred rest ->
  reads on_zero ((prefix ++ v) ++ ws) rest [make_token kind (len pre) (len (prefix ++ v))].
Proof.
  intros Ht Hin Hv Hws Hr. unfold reads, on_zero. rewrite <-!app_assoc in *.
  assert (Hlit : forall m, (forall c, pred c = true -> is_ascii_whitespace c = false) -> pred Ascii.zero = false ->
    m = (length <- consume_digit_sequence pred (len pre) ;; put_token (make_token kind (len pre) length)) ->
    runs m (v ++ ws ++ rest) (fun _ tr it' =>
      tr = quiet (v ++ ws) [make_token kind (len pre) (len (prefix ++ v))] /\ it' = rest)).
  { intros m Hpred Hz ->. eapply runs_bind; [by apply (runs_digits_exact pred pre prefix v ws rest)|].
    intros n tr it' _ (-> & -> & ->). apply runs_put_last. by rewrite tread_quiet, app_nil_r. }
  unfold radix_literals in Hin. rewrite !elem_of_cons in Hin.
  assert (Hyes : forall b (k : bool -> L unit),
    runs (k true) (v ++ ws ++ rest) (fun _ tr it' =>
      tr = quiet (v ++ ws) [make_token kind (len pre) (len (prefix ++ v))] /\ it' = rest) ->
    runs (bind (cursor_match b) k) (b :: v ++ ws ++ rest) (fun _ tr it' =>
      tr = quiet (b :: v ++ ws) [make_token kind (len pre) (len (prefix ++ v))] /\ it' = rest)).
  { intros b k Hk. apply runs_match; [|by intros Hno; destruct (Hno (v ++ ws ++ rest))].
    intros it' [= <-]. eapply runs_post; [exact Hk|]. by intros [] tr it' _ (-> & ->). }
  destruct Hin as [[= -> -> ->]|[[= -> -> ->]|[[= -> -> ->]|Hin%elem_of_nil]]]; try done; cbn [app] in *;
    apply (runs_get_offset_and_advance source_ Hsize) with (pre := pre); try done;
    repeat (apply runs_match; [by intros it'|intros _]);
    (eapply runs_post; [apply Hyes, Hlit; eauto|by intros [] tr it' _ (-> & ->)]).
Qed.

(** ** Decimal numbers *)

Lemma runs_decimal_exact pre w v ws rest :
  txt = pre ++ w ++ v ++ ws ++ rest -> digit_run is_decimal_digit v -> all_whitespace ws ->
  ends_digits is_decimal_digit rest ->
  runs (consume_digit_sequence is_decimal_digit (len pre)) (v ++ ws ++ rest) (fun n tr it' =>
    n = len (w ++ v) /\ tr = tread (v ++ ws) /\ it' = rest).
Proof. intros. apply runs_digits_exact; auto. Qed.

Lemma reads_decimal_rest pre d v ws rest :
  txt = pre ++ d :: v ++ ws ++ rest -> digit_run is_decimal_digit v -> all_whitespace ws ->
  ends_digits is_decimal_digit rest -> front rest <> "." ->
  runs (handle_decimal_literal (len pre)) (v ++ ws ++ rest) (fun _ tr it' =>
    tr = quiet (v ++ ws) [make_token TokenKind.dec_int_literal (len pre) (len (d :: v))] /\ it' = rest).
Proof.
  intros Ht Hv Hws Hr Hdot. unfold handle_decimal_literal.
  eapply runs_bind; [by apply (runs_decimal_exact pre [d] v ws rest)|].
  intros n tr it' _ (-> & -> & ->). apply runs_peek. change (match rest with [] => _ | _ => _ end) with (front rest).
  destruct (Ascii.eqb_spec (front rest) "."); [done|].
  apply runs_put_last. by rewrite tread_quiet, app_nil_r.
Qed.

Lemma reads_float_rest pre d v ws1 b ws2 rest :
  txt = pre ++ d :: v ++ ws1 ++ ("." :: b) ++ ws2 ++ rest -> digit_run is_decimal_digit v -> all_whitespace ws1 ->
  b <> [] -> digit_run is_decimal_digit b -> all_whitespace ws2 -> ends_digits is_decimal_digit rest ->
  runs (handle_decimal_literal (len pre)) (v ++ ws1 ++ ("." :: b) ++ ws2 ++ rest) (fun _ tr it' =>
    tr = quiet (v ++ ws1 ++ ("." :: b) ++ ws2)
      [make_token TokenKind.float_literal (len pre) (len (d :: v ++ ws1 ++ "." :: b))] /\ it' = rest).
Proof.
  intros Ht Hv Hws1 Hb Hrun Hws2 Hr. unfold handle_decimal_literal. pose proof Hsize as Hs.
  eapply runs_bind; [by apply (runs_decimal_exact pre [d] v ws1 (("." :: b) ++ ws2 ++ rest))|].
  intros n tr it' _ (-> & -> & ->). apply runs_peek. cbn [app Ascii.eqb Bool.eqb].
  set (a := d :: v ++ ws1). assert (Ht2 : txt = (pre ++ a) ++ "." :: b ++ ws2 ++ rest) by (rewrite Ht; unfold a; app_eq).
  apply (runs_get_offset_and_advance source_ Hsize) with (pre := pre ++ a); [done|].
  eapply runs_bind; [by apply (runs_decimal_exact (pre ++ a) ["."] b ws2 rest)|].
  intros n tr it' _ (-> & -> & ->). rewrite Ht2 in Hs. change source_size_max with (2 ^ 24 - 1) in Hs.
  destruct (Z.ltb_spec 1 (len (["."] ++ b))) as [Hlt|Hle]; [|destruct b; [done|len_lia]].
  assert (Hlen : u32 (u32 (len (pre ++ a) - len pre) + len (["."] ++ b)) = len (d :: v ++ ws1 ++ "." :: b)).
  { rewrite (u32_small (_ - _)) by len_lia. rewrite u32_small by len_lia. unfold a. len_lia. }
  rewrite Hlen. apply runs_put_last. rewrite !tread_quiet. split; [|done]. f_equal. app_eq.
Qed.

(** The handlers of a number's first digit. *)
Lemma reads_digit pre d it (R : unit -> Trace -> text -> Prop) :
  is_decimal_digit d = true -> txt = pre ++ d :: it -> (d = "0" -> front it ∉ ["x"; "b"; "o"]) ->
  runs (handle_decimal_literal (len pre)) it (fun b tr => R b (tread [d] +++ tr)) ->
  runs (handle_next_character source_ flags_ tab_size_ d) (d :: it) R.
Proof.
  intros Hd Ht Hz Hrun. destruct (Ascii.eqb_spec d "0") as [->|Hne].
  - change (handle_next_character source_ flags_ tab_size_ "0") with on_zero. unfold on_zero.
    apply (runs_get_offset_and_advance source_ Hsize) with (pre := pre); [done|].
    specialize (Hz eq_refl). rewrite !not_elem_of_cons in Hz. destruct Hz as (Hx & Hb & Ho & _).
    apply runs_match; [by intros it' ->|intros _]. apply runs_match; [by intros it' ->|intros _].
    apply runs_match; [by intros it' ->|intros _]. exact Hrun.
  - assert (Hh : handle_next_character source_ flags_ tab_size_ d = on_nonzero).
    { clear Hz Ht Hrun. destruct d as [[] [] [] [] [] [] [] []]; try discriminate Hd; done. }
    rewrite Hh. unfold on_nonzero.
    by apply (runs_get_offset_and_advance source_ Hsize) with (pre := pre).
Qed.

Lemma reads_dot pre b ws rest token :
  txt = pre ++ (("." :: b) ++ ws) ++ rest -> digit_run is_decimal_digit b -> all_whitespace ws ->
  ends_digits is_decimal_digit rest ->
  token = (match b with [] => fixed_token TokenKind.dot (len pre)
           | _ => make_token TokenKind.float_literal (len pre) (len ("." :: b)) end) ->
  reads on_dot (("." :: b) ++ ws) rest [token].
Proof.
  intros Ht Hb Hws Hr ->. unfold reads, on_dot. rewrite <-!app_assoc in *. cbn [app] in *.
  apply (runs_get_offset_and_advance source_ Hsize) with (pre := pre); [done|].
  eapply runs_bind; [by apply (runs_decimal_exact pre ["."] b ws rest)|].
  intros n tr it' _ (-> & -> & ->).
  destruct (Z.ltb_spec 1 (len (["."] ++ b))) as [Hlt|Hle]; (destruct b as [|c b]; [try len_lia|try len_lia]);
    apply runs_put_last; rewrite !tread_quiet; by rewrite app_nil_r.
Qed.

(** ** Quoted literals *)

Lemma reads_quoted pre kind quote v rest :
  txt = pre ++ (quote :: v) ++ rest -> quote <> "\" -> quote_scan quote (v ++ rest) = (v, closed) ->
  reads (on_quote source_ tab_size_ kind quote) (quote :: v) rest [make_token kind (len pre) (len (quote :: v))].
Proof.
  intros Ht Hq Hscan. unfold reads, on_quote. cbn [app] in *.
  apply (runs_get_offset_and_advance source_ Hsize) with (pre := pre); [done|].
  eapply runs_bind; [apply (runs_consume_quoted source_ tab_size_ Hsize Htab (pre ++ [quote])); [by rewrite <-app_assoc|done]|].
  intros _ tr it' Hit (reps & -> & Hreps). rewrite Hscan in Hit, Hreps. cbn in Hit, Hreps. subst reps.
  apply app_inv_head in Hit as <-. rewrite Hscan. cbn [fst].
  apply (runs_length_from source_ Hsize) with (w := quote :: v); [done|].
  apply runs_put_last. split; [|done]. unfold quiet, tapp, tread, scan. cbn. by rewrite app_nil_r.
Qed.

(** ** Any chunk, any text *)

Lemma reads_chunk pre v rest word :
  txt = pre ++ v ++ rest -> chunk v rest word ->
  reads (handle_next_character source_ flags_ tab_size_ (front v)) v rest (chunk_tokens (len pre) word).
Proof.
  intros Ht Hc. destruct Hc as
    [c rest Hc|v rest Hv Hr|v rest Hr|w rest Hw Hk Hr|w kind rest Hk Hr|kind w rest Hs Hf Hr|rest Hr Hr2
    |ws rest Hws Hr|kind prefix pred v ws rest Hin Hv Hws Hr|d v ws rest Hd Hv Hws Hr Hdot Hz
    |d v ws1 b ws2 rest Hd Hv Hws1 Hb Hrun Hws2 Hr|b ws rest Hb Hrun Hws Hr|kind quote v rest Hin Hscan].
  - by apply reads_space.
  - by apply (reads_line_comment pre).
  - by apply (reads_block_comment pre).
  - cbn [chunk_tokens word_tokens]. pose proof (reads_name pre w rest Ht Hw Hr) as Hreads.
    unfold word_token in Hreads. by rewrite Hk in Hreads.
  - cbn [chunk_tokens word_tokens].
    pose proof (reads_name pre w rest Ht (keyword_identifier w kind Hk) Hr) as Hreads.
    unfold word_token in Hreads. by rewrite Hk in Hreads.
  - destruct w as [|c w]; [destruct Hf as [Hf|Hf]; done|]. cbn [front] in *.
    destruct (operator_tree c) as [tree|] eqn:Htree.
    + apply (reads_operator pre); try done. by rewrite Htree.
    + destruct Hf as [Hf| ->]; [done|]. by apply (reads_slash pre).
  - by apply (reads_shift_right pre).
  - by apply (reads_dot pre [] ws); [|constructor|..].
  - pose proof (reads_radix pre kind prefix pred v ws rest Ht Hin Hv Hws Hr) as Hreads.
    assert (Hfront : front ((prefix ++ v) ++ ws) = "0").
    { clear Hreads Ht. unfold radix_literals in Hin. rewrite !elem_of_cons in Hin.
      destruct Hin as [[= -> -> ->]|[[= -> -> ->]|[[= -> -> ->]|Hin%elem_of_nil]]]; done. }
    by rewrite Hfront.
  - unfold reads. cbn [app front]. rewrite <-app_assoc. apply (reads_digit pre); [done| |done|].
    + rewrite Ht. app_eq.
    + eapply runs_post; [apply reads_decimal_rest; try done; rewrite Ht; app_eq|].
      by intros [] tr it' _ (-> & ->).
  - unfold reads. cbn [app front].
    replace (((v ++ ws1 ++ "." :: b) ++ ws2) ++ rest) with (v ++ ws1 ++ ("." :: b) ++ ws2 ++ rest) by app_eq.
    apply (reads_digit pre); [done|rewrite Ht; app_eq| |].
    + intros _. clear -Hv Hws1. 
      assert (Hx : forall c, (is_decimal_digit c || is_ascii_whitespace c || Ascii.eqb c ".") = true -> c ∉ ["x"; "b"; "o"]).
      { intros c Hc. rewrite !not_elem_of_cons. repeat split; try (intros ->; discriminate Hc). apply not_elem_of_nil. }
      apply Hx. pose proof (digit_run_chars is_decimal_digit v ws1 Hv Hws1) as Hall.
      rewrite app_assoc. destruct (v ++ ws1) as [|c it]; [done|]. inversion Hall as [|? ? Hc]; subst.
      unfold digit_or_space in Hc. cbn [app front]. by rewrite Hc.
    + eapply runs_post; [apply reads_float_rest; try done; rewrite Ht; app_eq|].
      intros [] tr it' _ (-> & ->). split; [|done]. unfold tapp, tread, quiet. cbn. f_equal. app_eq.
  - apply (reads_dot pre b ws); [done..|]. by destruct b.
  - unfold quoted_literals in Hin. rewrite !elem_of_cons in Hin.
    destruct Hin as [[= -> ->]|[[= -> ->]|Hin%elem_of_nil]]; [..|done]; by apply (reads_quoted pre).
Qed.

Lemma identifier_text_front w : identifier_text w -> is_null (front w) = false.
Proof.
  destruct 1 as [c w Hc _|s w Hs _ _].
  - cbn. destruct (is_null c) eqn:Hn; [|done]. by rewrite (is_null_spec c Hn) in Hc.
  - destruct (utf8_text_cons s Hs) as (c & v & -> & Hc). cbn. destruct (is_null c) eqn:Hn; [|done].
    by rewrite (is_null_spec c Hn) in Hc.
Qed.

Lemma chunk_front v rest word : chunk v rest word -> is_null (front v) = false.
Proof.
  intros Hc. destruct Hc as
    [c rest Hc|v rest Hv Hr|v rest Hr|w rest Hw Hk Hr|w kind rest Hk Hr|kind w rest Hs Hf Hr|rest Hr Hr2
    |ws rest Hws Hr|kind prefix pred v ws rest Hin Hv Hws Hr|d v ws rest Hd Hv Hws Hr Hdot Hz
    |d v ws1 b ws2 rest Hd Hv Hws1 Hb Hrun Hws2 Hr|b ws rest Hb Hrun Hws Hr|kind quote v rest Hin Hscan]; try done.
  - by apply whitespace_not_null.
  - by apply identifier_text_front.
  - by eapply identifier_text_front, keyword_identifier.
  - destruct (is_null (front w)) eqn:Hn; [|done]. rewrite (is_null_spec _ Hn) in Hf. by destruct Hf.
  - unfold radix_literals in Hin. rewrite !elem_of_cons in Hin.
    destruct Hin as [[= -> -> ->]|[[= -> -> ->]|[[= -> -> ->]|Hin%elem_of_nil]]]; done.
  - cbn. destruct (is_null d) eqn:Hn; [|done]. by rewrite (is_null_spec _ Hn) in Hd.
  - cbn. destruct (is_null d) eqn:Hn; [|done]. by rewrite (is_null_spec _ Hn) in Hd.
  - unfold quoted_literals in Hin. rewrite !elem_of_cons in Hin.
    destruct Hin as [[= -> ->]|[[= -> ->]|Hin%elem_of_nil]]; done.
Qed.

Lemma spells_inv off it words toks : spells off it words toks -> it <> [] ->
  exists v rest word words' toks', it = v ++ rest /\ chunk v rest word /\
    words = option_list word ++ words' /\ toks = chunk_tokens off word ++ toks' /\
    spells (off + len v) rest words' toks'.
Proof. destruct 1 as [off|off v rest word words toks Hc Hs]; [done|]. intros _. by exists v, rest, word, words, toks. Qed.

Lemma spells_end_inv off words toks : spells off [] words toks -> toks = [].
Proof.
  intros Hs. remember [] as it eqn:Hit. destruct Hs as [off|off v rest word words toks Hc _]; [done|].
  apply app_eq_nil in Hit as [-> _]. by apply chunk_front in Hc.
Qed.

Lemma runs_spelled words toks :
  spells 0 txt words toks ->
  runs (handle_source source_ flags_ tab_size_) txt (fun _ tr it' => tr = quiet txt toks /\ it' = []).
Proof.
  intros Hspells. unfold handle_source. eapply runs_bind.
  - apply runs_loop with
      (I := fun _ tr => exists words1 toks1 toks2, emitted tr = toks1 /\ reported tr = [] /\ toks = toks1 ++ toks2 /\
              forall it', txt = read_ tr ++ it' -> spells (len (read_ tr)) it' words1 toks2)
      (R := fun _ tr it' => tr = quiet txt toks /\ it' = []).
    { exists words, [], toks. split_and!; [done..|]. intros it' Hit. cbn in Hit. by subst it'. }
    intros [] [w e reps] it' Hit (words1 & toks1 & toks2 & He & Hrep & -> & Hrest). cbn [read_ emitted reported] in *.
    subst e reps. specialize (Hrest it' Hit). apply runs_peek.
    change (match it' with [] => _ | _ => _ end) with (front it').
    destruct (decide (it' = [])) as [->|Hne].
    { apply spells_end_inv in Hrest as ->. cbn. apply runs_ret. rewrite tapp_nil_r. split; [|done].
      unfold quiet. by rewrite Hit, !app_nil_r. }
    destruct (spells_inv _ _ _ _ Hrest Hne) as (v & rest & word & words' & toks' & -> & Hc & -> & -> & Hrest').
    pose proof (chunk_front _ _ _ Hc) as Hn. assert (Hf : front (v ++ rest) = front v) by (by destruct v).
    rewrite Hf, Hn. eapply runs_bind; [by apply (reads_chunk w v rest word)|].
    intros [] tr it2 _ (-> & ->). apply runs_ret. rewrite tapp_nil_r. cbn [read_ quiet]. split; [by destruct v|].
    exists words', (toks1 ++ chunk_tokens (len w) word), toks'. cbn [emitted reported read_ tapp quiet].
    split_and!; [done|done|by rewrite app_assoc|]. intros it3 Hit3.
    rewrite Hit, <-app_assoc in Hit3. apply app_inv_head, app_inv_head in Hit3. subst it3. by rewrite len_app.
  - intros [] tr it' _ (-> & ->). apply runs_valid, runs_ret. by rewrite tapp_nil_r.
Qed.

End Reading.

(** A text is read as the tokens of its words. *)
Lemma run_lexer_spelled `{Fmt} source flags tab_size reports words toks :
  len (SourceView.get_text source) <= source_size_max -> 0 <= tab_size < 256 ->
  has_flags flags LexerFlags.emit_comments = false ->
  spells 0 (SourceView.get_text source) words toks ->
  run_lexer source flags tab_size reports =
  Done (toks ++ [fixed_token TokenKind.end_of_file (len (SourceView.get_text source))]) reports.
Proof.
  intros Hsize Htab Hflags Hspells. unfold run_lexer.
  change {| tokens_ := _; cursor_ := _; reports_ := _ |} with (st source [] (source_text_ source) reports).
  unfold run. change (Z.of_nat (length (source_text_ source))) with (len (source_text_ source)).
  destruct (Z.leb_spec (len (source_text_ source)) source_size_max) as [_|Hlt];
    [|unfold source_text_ in Hlt; lia].
  destruct (runs_spelled source flags tab_size Hsize Htab Hflags words toks Hspells)
    as ([] & tr & it' & Hit & (-> & ->) & Hrun).
  unfold bind at 1. rewrite Hrun. unfold bind, cursor_offset, read. unfold st at 1. cbn [cursor_ emitted quiet].
  pose proof (cursor_offset_spec (source_text_ source) []) as Hoff. rewrite app_nil_r in Hoff.
  rewrite Hoff by done. cbn [reported quiet put_token modify tokens_ reports_ st]. unfold put_token, modify. cbn.
  by rewrite app_nil_r.
Qed.

(** * Writing words *)

(** The words that have a text of their own. *)
Inductive valid_word : Word -> Prop :=
| valid_name w :
    identifier_text w -> keyword_kind w = None -> valid_word (open_word TokenKind.identifier w)
| valid_fixed kind :
    variable_kind kind = false -> kind <> TokenKind.end_of_file -> valid_word (fixed_word kind)
| valid_shift_right : valid_word shift_right
| valid_radix kind prefix pred v :
    (kind, prefix, pred) ∈ radix_literals -> digit_run pred v -> valid_word (open_word kind (prefix ++ v))
| valid_decimal d v :
    is_decimal_digit d = true -> digit_run is_decimal_digit v ->
    valid_word (open_word TokenKind.dec_int_literal (d :: v))
| valid_float d v ws b :
    is_decimal_digit d = true -> digit_run is_decimal_digit v -> all_whitespace ws ->
    b <> [] -> digit_run is_decimal_digit b ->
    valid_word (open_word TokenKind.float_literal (d :: v ++ ws ++ "." :: b))
| valid_fraction b :
    b <> [] -> digit_run is_decimal_digit b -> valid_word (open_word TokenKind.float_literal ("." :: b))
| valid_quoted kind quote v :
    (kind, quote) ∈ quoted_literals -> quote_scan quote v = (v, closed) ->
    valid_word (open_word kind (quote :: v)).

(** What separates any two words. *)
Definition gap : text := lit " /**/ ".

(** The words, each followed by a gap. *)
Definition spell (words : list Word) : text := flat_map (fun word => word_text word ++ gap) words.

(** The tokens of [spell words], when this text starts at the offset [off]. *)
Fixpoint place (off : Z) (words : list Word) : list Token :=
  match words with
  | [] => []
  | word :: words => word_tokens off word ++ place (off + len (word_text word ++ gap)) words
  end.

Lemma operators_without_spaces o : o ∈ operators -> " " ∉ o.
Proof.
  assert (Hall : forallb (fun o => bool_decide (" " ∉ o)) operators = true) by (vm_compute; reflexivity).
  rewrite forallb_forall in Hall. intros Ho%list_elem_of_In. specialize (Hall o Ho).
  by apply bool_decide_eq_true in Hall.
Qed.

Lemma ends_operator_space w rest : ends_operator w (" " :: rest).
Proof.
  split; [|done]. intros o Ho [k Hk].
  destruct (Nat.le_gt_cases (length o) (length w)) as [|Hlt]; [done|exfalso].
  apply (operators_without_spaces o Ho). apply app_eq_inv in Hk as [(k' & -> & Hk)|(k' & -> & Hk)].
  - rewrite length_app in Hlt. lia.
  - destruct k' as [|c k']; [rewrite app_nil_r in Hlt; lia|]. injection Hk as <- _.
    apply elem_of_app. right. by left.
Qed.

(** Every fixed spelling is a keyword, a dot, or read as an operator. *)
Lemma fixed_spelling kind :
  variable_kind kind = false -> kind <> TokenKind.end_of_file ->
  exists w, spelling kind = Some w /\
    (keyword_kind w = Some kind \/ kind = TokenKind.dot \/ operator_tree (front w) <> None \/ front w = "/").
Proof.
  intros Hv Hne. pose proof (TokenKind.forall_kind (fun kind =>
    match spelling kind with
    | Some w => TokenKind.eqb kind TokenKind.end_of_file || bool_decide (keyword_kind w = Some kind) ||
                TokenKind.eqb kind TokenKind.dot || Ascii.eqb (front w) "/" ||
                match operator_tree (front w) with Some _ => true | None => false end
    | None => true
    end)) as Hall.
  specialize (Hall ltac:(vm_compute; reflexivity) kind). cbv beta in Hall. unfold variable_kind in Hv.
  destruct (spelling kind) as [w|]; [|done]. exists w. split; [done|].
  apply orb_prop in Hall as [Hall|Htree].
  - apply orb_prop in Hall as [Hall|Hs%Ascii.eqb_eq]; [|auto].
    apply orb_prop in Hall as [Hall|Hd%TokenKind.eqb_eq]; [|auto].
    apply orb_prop in Hall as [He%TokenKind.eqb_eq|Hk%bool_decide_eq_true]; [done|auto].
  - right. right. left. by destruct (operator_tree (front w)).
Qed.

Lemma quote_scan_closed quote v rest : quote_scan quote v = (v, closed) -> quote_scan quote (v ++ rest) = (v, closed).
Proof.
  induction v as [v IH] using (induction_ltof1 _ (@length ascii)). unfold ltof in IH.
  destruct v as [|c v]; [done|]. cbn [app quote_scan]. destruct (stops c); [done|].
  destruct (Ascii.eqb c "\") eqn:Hb.
  - destruct v as [|d v]; [done|]. cbn [app]. destruct (stops d); [done|].
    destruct (quote_scan quote v) as [v' e] eqn:Hv. intros [= -> ->]. by rewrite IH; [|cbn; lia|].
  - destruct (Ascii.eqb c quote); [by intros [= <-]|].
    destruct (quote_scan quote v) as [v' e] eqn:Hv. intros [= -> ->]. by rewrite IH; [|cbn; lia|].
Qed.

(** A word before a gap is a chunk, which takes some of the gap's white space. *)
Lemma word_chunk_before_gap word rest :
  valid_word word ->
  exists ws tail, gap = ws ++ tail /\ (tail = gap \/ tail = lit "/**/ ") /\
    chunk (word_text word ++ ws) (tail ++ rest) (Some word).
Proof.
  assert (Hspace : all_whitespace [" "]) by by repeat constructor.
  assert (Hslash : forall pred, pred "/" = false -> ends_digits pred (lit "/**/ " ++ rest)) by done.
  intros Hw. destruct Hw as [w Hw Hk|kind Hv Hne| |kind prefix pred v Hin Hv|d v Hd Hv|d v ws b Hd Hv Hws Hb Hrun
    |b Hb Hrun|kind quote v Hin Hscan]; cbn [word_text].
  - exists [], gap. rewrite app_nil_r. split_and!; [done|by left|]. by apply chunk_name.
  - destruct (fixed_spelling kind Hv Hne) as (w & Hs & Hcase). rewrite Hs.
    destruct Hcase as [Hk|[->|Hop]].
    + exists [], gap. rewrite app_nil_r. split_and!; [done|by left|]. by apply chunk_keyword.
    + injection Hs as <-. exists [" "], (lit "/**/ "). split_and!; [done|by right|]. by apply chunk_dot.
    + exists [], gap. rewrite app_nil_r. split_and!; [done|by left|].
      apply chunk_operator; [done|done|apply ends_operator_space].
  - exists [], gap. split_and!; [done|by left|]. by apply chunk_shift_right.
  - exists [" "], (lit "/**/ "). split_and!; [done|by right|]. eapply chunk_radix; [done..|].
    apply Hslash. unfold radix_literals in Hin. rewrite !elem_of_cons in Hin.
    destruct Hin as [[= -> -> ->]|[[= -> -> ->]|[[= -> -> ->]|Hin%elem_of_nil]]]; done.
  - exists [" "], (lit "/**/ "). split_and!; [done|by right|]. apply chunk_decimal; try done.
    intros _. rewrite !not_elem_of_cons. destruct v as [|c v]; [repeat split; try done; apply not_elem_of_nil|].
    pose proof (digit_run_chars is_decimal_digit (c :: v) [] Hv ltac:(constructor)) as Hall.
    inversion Hall as [|? ? Hc]; subst. cbn [app front].
    repeat split; try (intros ->; discriminate Hc). apply not_elem_of_nil.
  - exists [" "], (lit "/**/ "). split_and!; [done|by right|]. by apply chunk_float.
  - exists [" "], (lit "/**/ "). split_and!; [done|by right|]. by apply chunk_fraction.
  - exists [], gap. rewrite app_nil_r. split_and!; [done|by left|]. apply chunk_quoted; [done|].
    by apply quote_scan_closed.
Qed.

(** The rest of a gap is white space and comments. *)
Lemma spells_gap tail off rest words toks :
  tail = gap \/ tail = lit "/**/ " -> spells (off + len tail) rest words toks ->
  spells off (tail ++ rest) words toks.
Proof.
  assert (Hcomment : forall off, spells (off + len (lit "/**/ ")) rest words toks ->
    spells off (lit "/**/ " ++ rest) words toks).
  { intros off' Hs. change (lit "/**/ " ++ rest) with (lit "/**/" ++ [" "] ++ rest).
    apply (spells_chunk _ _ _ None); [by apply chunk_block_comment|].
    apply (spells_chunk _ _ _ None); [by apply chunk_space|].
    change (len (lit "/**/ ")) with (4 + 1) in Hs. rewrite Z.add_assoc in Hs. exact Hs. }
  intros [->| ->] Hs; [|by apply Hcomment]. change (gap ++ rest) with ([" "] ++ lit "/**/ " ++ rest).
  apply (spells_chunk _ _ _ None); [by apply chunk_space|]. apply Hcomment.
  change (len gap) with (1 + 5) in Hs. rewrite Z.add_assoc in Hs. exact Hs.
Qed.

Lemma spells_spell words off : Forall valid_word words -> spells off (spell words) words (place off words).
Proof.
  intros Hall. revert off. induction Hall as [|word words Hw _ IH]; intros off; [constructor|].
  change (spell (word :: words)) with ((word_text word ++ gap) ++ spell words). cbn [place].
  destruct (word_chunk_before_gap word (spell words) Hw) as (ws & tail & Hg & Htail & Hc).
  replace ((word_text word ++ gap) ++ spell words) with ((word_text word ++ ws) ++ tail ++ spell words)
    by (rewrite Hg; app_eq).
  apply (spells_chunk off _ _ (Some word)); [done|]. apply spells_gap; [done|].
  replace (off + len (word_text word ++ ws) + len tail) with (off + len (word_text word ++ gap)); [done|].
  rewrite Hg. len_lia.
Qed.

(** * Round trip *)

(** C6. Written words are read back: the lexer turns the text of any sequence of
    valid words (names, keywords, operators, [>>], integer, floating-point and
    quoted literals) with gaps between them into exactly the tokens of these
    words, each at the place of its word, and reports nothing. *)
Theorem written_words_read_back : forall `{Fmt} source flags tab_size reports words,
  Forall valid_word words -> SourceView.get_text source = spell words ->
  len (SourceView.get_text source) <= source_size_max -> 0 <= tab_size < 256 ->
  has_flags flags LexerFlags.emit_comments = false ->
  run_lexer source flags tab_size reports =
  Done (place 0 words ++ [fixed_token TokenKind.end_of_file (len (spell words))]) reports.
Proof.
  intros F source flags tab_size reports words Hwords Htext Hsize Htab Hflags.
  rewrite (run_lexer_spelled source flags tab_size reports words (place 0 words)); [by rewrite Htext|done..|].
  rewrite Htext. by apply spells_spell.
Qed.

Definition example_words : list Word :=
  [open_word TokenKind.identifier (lit "x1"); fixed_word TokenKind.plus_eq;
   open_word TokenKind.hex_int_literal (lit "0xfF"); shift_right;
   open_word TokenKind.float_literal (lit "1 0 .5"); fixed_word TokenKind.dot; fixed_word TokenKind.kw_return;
   open_word TokenKind.char_literal (lit "'\''"); fixed_word TokenKind.slash].

Lemma example_words_valid : Forall valid_word example_words.
Proof.
  assert (Hzero : digit_run is_decimal_digit (lit " 0")).
  { apply (digit_run_snoc is_decimal_digit [] [" "] "0"); [constructor|by repeat constructor|done]. }
  repeat apply Forall_cons_2; [..|apply Forall_nil_2].
  - apply valid_name; [|reflexivity]. apply identifier_text_ascii; [reflexivity|].
    apply identifier_rest_ascii; [reflexivity|constructor].
  - by apply valid_fixed.
  - apply (valid_radix _ ["0"; "x"] is_hexadecimal_digit ["f"; "F"]); [by left|].
    apply (digit_run_snoc _ ["f"] [] "F"); [|constructor|reflexivity].
    apply (digit_run_snoc _ [] [] "f"); [constructor|constructor|reflexivity].
  - apply valid_shift_right.
  - apply (valid_float "1" (lit " 0") [" "] ["5"]); [reflexivity|done|by repeat constructor|done|].
    apply (digit_run_snoc _ [] [] "5"); [constructor|constructor|reflexivity].
  - by apply valid_fixed.
  - by apply valid_fixed.
  - apply (valid_quoted _ "'" (lit "\''")); [by right; left|reflexivity].
  - by apply valid_fixed.
Qed.

Lemma written_words_read_back_witness :
  let source := test_source (spell example_words) (lit "t") in
  Forall valid_word example_words /\ SourceView.get_text source = spell example_words /\
  run_lexer source LexerFlags.none 4 [] =
  Done (place 0 example_words ++ [fixed_token TokenKind.end_of_file (len (spell example_words))]) [].
Proof.
  split; [exact example_words_valid|]. split; [reflexivity|].
  apply (written_words_read_back (test_source (spell example_words) (lit "t")) LexerFlags.none 4 []);
    [exact example_words_valid|reflexivity|vm_compute; discriminate|lia|reflexivity].
Defined.
