(* ===== verification/Layout.v ===== *)
(** The tree that the grammar derives says the same for every layout of its tokens:
    derivations over token sequences of the same kinds and texts, in two sources,
    have the same outline. *)

From S2P Require Import Prelude Report Source Token Ast Outline Parser Grammar GrammarFacts.

Section Layout.
Context (s s' : text).

(** Tokens of the two sources of one kind and one text, at offsets that a node keeps. *)
Record alike_token (t t' : Token) : Prop := {
  alike_kind : kind t = kind t';
  alike_text : substr s (offset t) (variable_length t) = substr s' (offset t') (variable_length t');
  alike_fits : node_offset (offset t) = offset t;
  alike_fits' : node_offset (offset t') = offset t';
}.

(** Sequences of such tokens, with adjacent [>] at the same places. *)
Inductive alike : list Token -> list Token -> Prop :=
| alike_nil : alike [] []
| alike_cons t t' it it' :
    alike_token t t' -> is_shr (t :: it) = is_shr (t' :: it') -> alike it it' ->
    alike (t :: it) (t' :: it').

Definition same (e e' : AstExpression) : Prop := outline_expression s e = outline_expression s' e'.

(** ** What the grammar looks at *)

Lemma alike_inv t it it2 : alike (t :: it) it2 ->
  exists t' it', it2 = t' :: it' /\ alike_token t t' /\ alike it it'.
Proof. inversion 1; subst. eauto 10. Qed.

Lemma alike_next_is k it it' : alike it it' -> next_is k it <-> next_is k it'.
Proof. destruct 1 as [|t t' it it' Ht _ _]; [done|]. cbn. by rewrite (alike_kind _ _ Ht). Qed.

Lemma alike_continuation p it it' : alike it it' -> next_continuation p it = next_continuation p it'.
Proof.
  destruct 1 as [|t t' it it' Ht Hshr _]; [done|]. unfold next_continuation, continuation.
  by rewrite Hshr, (alike_kind _ _ Ht).
Qed.

Lemma alike_starts it it' : alike it it' -> starts_expression it = starts_expression it'.
Proof. destruct 1 as [|t t' it it' Ht _ _]; [done|]. cbn. by rewrite (alike_kind _ _ Ht). Qed.

Lemma alike_tail it it' : alike it it' -> alike (tail it) (tail it').
Proof. destruct 1; [constructor|done]. Qed.

(** ** Nodes of the same outline *)

Lemma alike_get t t' : alike_token t t' ->
  substr s (node_offset (offset t)) (variable_length t) = substr s' (node_offset (offset t')) (variable_length t').
Proof. intros []. congruence. Qed.

Lemma same_map es es' : Forall2 same es es' ->
  map (outline_expression s) es = map (outline_expression s') es'.
Proof. induction 1 as [|e e' es es' He _ IH]; [done|]. cbn. by rewrite He, IH. Qed.

Lemma same_ident t t' : alike_token t t' ->
  same (AstIdentExpr (node_offset (offset t)) (variable_length t))
       (AstIdentExpr (node_offset (offset t')) (variable_length t')).
Proof. intros Ht. unfold same, outline_expression, outline_with. cbn. by rewrite (alike_get _ _ Ht). Qed.

Lemma same_literal k t t' : alike_token t t' ->
  same (AstLiteralExpr (node_offset (offset t)) k (variable_length t))
       (AstLiteralExpr (node_offset (offset t')) k (variable_length t')).
Proof. intros Ht. unfold same, outline_expression, outline_with. cbn. by rewrite (alike_get _ _ Ht). Qed.

Lemma same_block o o' es es' : Forall2 same es es' -> same (AstBlockExpr o es) (AstBlockExpr o' es').
Proof. intros He. unfold same. cbn. by rewrite (same_map _ _ He). Qed.

Lemma same_return o o' es es' : Forall2 same es es' -> same (AstReturnExpr o es) (AstReturnExpr o' es').
Proof. intros He. unfold same. cbn. by rewrite (same_map _ _ He). Qed.

Lemma same_unary o o' op e e' : same e e' -> same (AstUnaryExpr o op e) (AstUnaryExpr o' op e').
Proof. intros He. unfold same. cbn. by rewrite He. Qed.

Lemma same_binary o o' op e1 e1' e2 e2' :
  same e1 e1' -> same e2 e2' -> same (AstBinaryExpr o op e1 e2) (AstBinaryExpr o' op e1' e2').
Proof. intros H1 H2. unfold same. cbn. by rewrite H1, H2. Qed.

Lemma same_call o o' e e' es es' :
  same e e' -> Forall2 same es es' -> same (AstCallExpr o e es) (AstCallExpr o' e' es').
Proof. intros He Hes. unfold same. cbn. by rewrite He, (same_map _ _ Hes). Qed.

#[local] Hint Resolve same_ident same_literal same_block same_return same_unary same_binary same_call : core.

(** ** Expressions and statements *)

Definition expr_moves p (e : AstExpression) (it it1 : list Token) : Prop :=
  forall it', alike it it' -> exists e' it1', parses_expr p e' it' it1' /\ alike it1 it1' /\ same e e'.
Definition head_moves (e : AstExpression) (it it1 : list Token) : Prop :=
  forall it', alike it it' -> exists e' it1', parses_head e' it' it1' /\ alike it1 it1' /\ same e e'.
Definition tails_move p (e0 e : AstExpression) (it it1 : list Token) : Prop :=
  forall e0' it', same e0 e0' -> alike it it' ->
    exists e' it1', parses_tails p e0' e' it' it1' /\ alike it1 it1' /\ same e e'.
Definition list_moves (es : list AstExpression) (it it1 : list Token) : Prop :=
  forall it', alike it it' -> exists es' it1', parses_list es' it' it1' /\ alike it1 it1' /\ Forall2 same es es'.
Definition block_moves (es : list AstExpression) (it it1 : list Token) : Prop :=
  forall it', alike it it' -> exists es' it1', parses_block es' it' it1' /\ alike it1 it1' /\ Forall2 same es es'.
Definition stmt_moves (e : AstExpression) (it it1 : list Token) : Prop :=
  forall it', alike it it' -> exists e' it1', parses_stmt e' it' it1' /\ alike it1 it1' /\ same e e'.

Lemma grammar_moves :
  (forall p e it it1, parses_expr p e it it1 -> expr_moves p e it it1) /\
  (forall e it it1, parses_head e it it1 -> head_moves e it it1) /\
  (forall p e0 e it it1, parses_tails p e0 e it it1 -> tails_move p e0 e it it1) /\
  (forall es it it1, parses_list es it it1 -> list_moves es it it1) /\
  (forall es it it1, parses_block es it it1 -> block_moves es it it1) /\
  (forall e it it1, parses_stmt e it it1 -> stmt_moves e it it1).
Proof.
  apply grammar_ind.
  - intros p e0 e it it1 it2 _ Hhead _ Htails it' Ha.
    destruct (Hhead it' Ha) as (e0' & it1' & Hh & Ha1 & Hs).
    destruct (Htails e0' it1' Hs Ha1) as (e' & it2' & Ht & Ha2 & Hs2).
    exists e', it2'. split; [by eapply parses_expr_intro|done].
  - intros t it Hk it' (t' & it2 & -> & Ht & Ha)%alike_inv. rewrite (alike_kind _ _ Ht) in Hk.
    eexists _, it2. split; [by apply parses_identifier|]. auto.
  - intros t it k Hk it' (t' & it2 & -> & Ht & Ha)%alike_inv. rewrite (alike_kind _ _ Ht) in Hk.
    eexists _, it2. split; [by apply parses_literal|]. auto.
  - intros t es it it1 Hk _ Hes it' (t' & it2 & -> & Ht & Ha)%alike_inv. rewrite (alike_kind _ _ Ht) in Hk.
    destruct (Hes it2 Ha) as (es' & it1' & Hb & Ha1 & Hs).
    eexists _, it1'. split; [by eapply parses_block_expr|]. auto.
  - intros t it Hk Hst it' (t' & it2 & -> & Ht & Ha)%alike_inv. rewrite (alike_kind _ _ Ht) in Hk.
    rewrite (alike_starts _ _ Ha) in Hst. eexists _, it2. split; [by eapply parses_bare_return|]. auto.
  - intros t es it it1 Hk Hst _ Hes it' (t' & it2 & -> & Ht & Ha)%alike_inv. rewrite (alike_kind _ _ Ht) in Hk.
    rewrite (alike_starts _ _ Ha) in Hst. destruct (Hes it2 Ha) as (es' & it1' & Hl & Ha1 & Hs).
    eexists _, it1'. split; [by eapply parses_return|]. auto.
  - intros t op e it it1 Hk _ He it' (t' & it2 & -> & Ht & Ha)%alike_inv. rewrite (alike_kind _ _ Ht) in Hk.
    destruct (He it2 Ha) as (e' & it1' & Hp & Ha1 & Hs).
    eexists _, it1'. split; [by eapply parses_prefix|]. auto.
  - intros p e it Hn e0' it' Hs Ha. rewrite (alike_continuation _ _ _ Ha) in Hn.
    exists e0', it'. split; [by apply parses_no_tail|done].
  - intros p e0 e op right t it it1 it2 it3 Hn Hit1 _ Hright _ Htails e0' it' Hs0 Ha.
    rewrite (alike_continuation _ _ _ Ha) in Hn. apply alike_inv in Ha as (t' & itt & -> & Ht & Ha).
    assert (Ha1 : alike it1 (if bool_decide (op = BinaryOperator.shr) then tail itt else itt))
      by (subst it1; case_bool_decide; [by apply alike_tail|done]).
    destruct (Hright _ Ha1) as (right' & it2' & Hr & Ha2 & Hsr).
    destruct (Htails (AstBinaryExpr (node_offset (token_offset e0')) op e0' right') it2')
      as (e' & it3' & Htl & Ha3 & Hs); [auto|done|].
    exists e', it3'. split; [by eapply parses_binary|done].
  - intros p e0 e op t it it1 Hn _ Htails e0' it' Hs0 Ha.
    rewrite (alike_continuation _ _ _ Ha) in Hn. apply alike_inv in Ha as (t' & itt & -> & Ht & Ha).
    destruct (Htails (AstUnaryExpr (node_offset (token_offset e0')) op e0') itt)
      as (e' & it1' & Htl & Ha1 & Hs); [auto|done|].
    exists e', it1'. split; [by eapply parses_postfix|done].
  - intros p e0 e t t2 it it1 Hn Hk2 _ Htails e0' it' Hs0 Ha.
    rewrite (alike_continuation _ _ _ Ha) in Hn. apply alike_inv in Ha as (t' & itt & -> & Ht & Ha).
    apply alike_inv in Ha as (t2' & itt2 & -> & Ht2 & Ha). rewrite (alike_kind _ _ Ht2) in Hk2.
    destruct (Htails (AstCallExpr (node_offset (token_offset e0')) e0' []) itt2)
      as (e' & it1' & Htl & Ha1 & Hs); [auto|done|].
    exists e', it1'. split; [by eapply parses_empty_call|done].
  - intros p e0 e args t t2 it it2 it3 Hn Hno _ Hargs Hk2 _ Htails e0' it' Hs0 Ha.
    rewrite (alike_continuation _ _ _ Ha) in Hn. apply alike_inv in Ha as (t' & itt & -> & Ht & Ha).
    rewrite (alike_next_is _ _ _ Ha) in Hno. destruct (Hargs itt Ha) as (args' & itx & Hl & Ha2 & Hsa).
    apply alike_inv in Ha2 as (t2' & itt2 & -> & Ht2 & Ha2). rewrite (alike_kind _ _ Ht2) in Hk2.
    destruct (Htails (AstCallExpr (node_offset (token_offset e0')) e0' args') itt2)
      as (e' & it1' & Htl & Ha1 & Hs); [auto|done|].
    exists e', it1'. split; [by eapply parses_call|done].
  - intros e it it1 _ He Hno it' Ha. destruct (He it' Ha) as (e' & it1' & Hp & Ha1 & Hs).
    rewrite (alike_next_is _ _ _ Ha1) in Hno. exists [e'], it1'. split; [by apply parses_one|auto].
  - intros e es t it it1 it2 _ He Hk _ Hes it' Ha. destruct (He it' Ha) as (e' & itx & Hp & Ha1 & Hs).
    apply alike_inv in Ha1 as (t' & it1' & -> & Ht & Ha1). rewrite (alike_kind _ _ Ht) in Hk.
    destruct (Hes it1' Ha1) as (es' & it2' & Hl & Ha2 & Hss).
    exists (e' :: es'), it2'. split; [by eapply parses_more|auto].
  - intros t it Hk it' (t' & it2 & -> & Ht & Ha)%alike_inv. rewrite (alike_kind _ _ Ht) in Hk.
    exists [], it2. split; [by apply parses_close|auto].
  - intros e es it it1 it2 Hno _ He _ Hes it' Ha. rewrite (alike_next_is _ _ _ Ha) in Hno.
    destruct (He it' Ha) as (e' & it1' & Hp & Ha1 & Hs).
    destruct (Hes it1' Ha1) as (es' & it2' & Hb & Ha2 & Hss).
    exists (e' :: es'), it2'. split; [by eapply parses_statement|auto].
  - intros t es it it1 Hk _ Hes it' (t' & it2 & -> & Ht & Ha)%alike_inv. rewrite (alike_kind _ _ Ht) in Hk.
    destruct (Hes it2 Ha) as (es' & it1' & Hb & Ha1 & Hs).
    eexists _, it1'. split; [by eapply parses_block_stmt|]. auto.
  - intros e t it it1 Hno _ He Hk it' Ha. rewrite (alike_next_is _ _ _ Ha) in Hno.
    destruct (He it' Ha) as (e' & itx & Hp & Ha1 & Hs).
    apply alike_inv in Ha1 as (t' & it1' & -> & Ht & Ha1). rewrite (alike_kind _ _ Ht) in Hk.
    exists e', it1'. split; [by eapply parses_expr_stmt|auto].
Qed.

(** ** Definitions *)

Lemma alike_expr p e it it1 it' : parses_expr p e it it1 -> alike it it' ->
  exists e' it1', parses_expr p e' it' it1' /\ alike it1 it1' /\ same e e'.
Proof. intros He Ha. by apply (proj1 grammar_moves) in He; apply He. Qed.

Lemma alike_block es it it1 it' : parses_block es it it1 -> alike it it' ->
  exists es' it1', parses_block es' it' it1' /\ alike it1 it1' /\ Forall2 same es es'.
Proof. intros Hb Ha. destruct grammar_moves as (_ & _ & _ & _ & H & _). by apply (H _ _ _ Hb). Qed.

(** Elements of a nonterminal [R], which say the same when [E] holds. *)
Definition moves {A} (R : A -> list Token -> list Token -> Prop) (E : A -> A -> Prop) : Prop :=
  forall a it it1 it', R a it it1 -> alike it it' -> exists a' it1', R a' it' it1' /\ alike it1 it1' /\ E a a'.

Lemma sep_moves {A} (R : A -> list Token -> list Token -> Prop) (E : A -> A -> Prop) :
  moves R E -> moves (sep R) (Forall2 E).
Proof.
  intros HR l it it1 it' Hl. revert it'.
  induction Hl as [a it it1 Ha Hno|a l t it it1 it2 Ha Hk _ IH]; intros it' Hal.
  - destruct (HR _ _ _ _ Ha Hal) as (a' & it1' & Ha' & Ha1 & He).
    rewrite (alike_next_is _ _ _ Ha1) in Hno. exists [a'], it1'. split; [by apply sep_one|auto].
  - destruct (HR _ _ _ _ Ha Hal) as (a' & itx & Ha' & Ha1 & He).
    apply alike_inv in Ha1 as (t' & it1' & -> & Ht & Ha1). rewrite (alike_kind _ _ Ht) in Hk.
    destruct (IH _ Ha1) as (l' & it2' & Hl & Ha2 & Hs).
    exists (a' :: l'), it2'. split; [by eapply sep_more|auto].
Qed.

Lemma type_moves : moves parses_type same.
Proof.
  intros e it it1 it' [t it2 Hk] (t' & it2' & -> & Ht & Ha)%alike_inv. rewrite (alike_kind _ _ Ht) in Hk.
  eexists _, it2'. split; [by apply parses_type_name|]. auto.
Qed.

Lemma alike_name t t' : alike_token t t' -> AstName_get (name_of t) s = AstName_get (name_of t') s'.
Proof. intros []. unfold AstName_get, name_of. done. Qed.

Lemma parameter_moves : moves parses_parameter (fun p p' => outline_parameter s p = outline_parameter s' p').
Proof.
  intros p it it1 it' [t type t2 it2 it3 Htype Hk] Ha.
  destruct (type_moves _ _ _ _ Htype Ha) as (type' & itx & Htype' & Ha1 & Hs).
  apply alike_inv in Ha as (t' & ity & -> & Ht & Ha).
  apply alike_inv in Ha1 as (t2' & it3' & -> & Ht2 & Ha1). rewrite (alike_kind _ _ Ht2) in Hk.
  eexists _, it3'. split; [by eapply parses_parameter_intro|]. split; [done|].
  unfold outline_parameter, outline_with, node_header. cbn [param_name param_type].
  by rewrite (alike_name _ _ Ht2), Hs.
Qed.

Lemma parameters_moves :
  moves parses_parameters (Forall2 (fun p p' => outline_parameter s p = outline_parameter s' p')).
Proof.
  intros l it it1 it' [t it2 Hk|l' t it2 it3 Hno Hl Hk] Ha.
  - apply alike_inv in Ha as (t' & it2' & -> & Ht & Ha). rewrite (alike_kind _ _ Ht) in Hk.
    exists [], it2'. split; [by apply parses_no_parameters|auto].
  - rewrite (alike_next_is _ _ _ Ha) in Hno.
    destruct (sep_moves _ _ parameter_moves _ _ _ _ Hl Ha) as (l2 & itx & Hl2 & Ha1 & Hs).
    apply alike_inv in Ha1 as (t' & it3' & -> & Ht & Ha1). rewrite (alike_kind _ _ Ht) in Hk.
    exists l2, it3'. split; [by eapply parses_some_parameters|done].
Qed.

Lemma output_moves : moves parses_output (fun o o' => outline_output s o = outline_output s' o').
Proof.
  intros o it it1 it' [t type it2 it3 Htype] Ha.
  destruct (type_moves _ _ _ _ Htype Ha) as (type' & itx & Htype' & Ha1 & Hs).
  apply alike_inv in Ha as (t' & ity & -> & Ht & Ha).
  eexists _, itx. split; [by eapply parses_output_intro|]. split; [done|].
  unfold outline_output, outline_with, node_header. cbn [output_name output_type].
  rewrite Hs. unfold AstName_get, empty_name. cbn [name_offset name_length].
  by rewrite !substr_0_0.
Qed.

Lemma outputs_moves : moves parses_outputs (Forall2 (fun o o' => outline_output s o = outline_output s' o')).
Proof.
  intros l it it1 it' [it2 Hno|l' t it2 it3 Hk Hl] Ha.
  - rewrite (alike_next_is _ _ _ Ha) in Hno. exists [], it'. split; [by apply parses_no_outputs|auto].
  - apply alike_inv in Ha as (t' & itx & -> & Ht & Ha). rewrite (alike_kind _ _ Ht) in Hk.
    destruct (sep_moves _ _ output_moves _ _ _ _ Hl Ha) as (l2 & it3' & Hl2 & Ha1 & Hs).
    exists l2, it3'. split; [by eapply parses_some_outputs|done].
Qed.

Lemma access_moves : moves parses_access eq.
Proof.
  intros access it it1 it' [t it2 Hk|t it2 Hk|it2 Hno Hno2] Ha.
  - apply alike_inv in Ha as (t' & itx & -> & Ht & Ha). rewrite (alike_kind _ _ Ht) in Hk.
    eexists _, itx. split; [by apply parses_private|auto].
  - apply alike_inv in Ha as (t' & itx & -> & Ht & Ha). rewrite (alike_kind _ _ Ht) in Hk.
    eexists _, itx. split; [by apply parses_public|auto].
  - rewrite (alike_next_is _ _ _ Ha) in Hno. rewrite (alike_next_is _ _ _ Ha) in Hno2.
    eexists _, it'. split; [by apply parses_no_access|auto].
Qed.

Lemma maps_agree {A} (f g : A -> option Outline) l l' :
  Forall2 (fun a a' => f a = g a') l l' -> map f l = map g l'.
Proof. induction 1 as [|a a' l l' Ha _ IH]; [done|]. cbn. by rewrite Ha, IH. Qed.

Lemma definition_moves :
  moves parses_definition (fun d d' => outline_definition s d = outline_definition s' d').
Proof.
  intros d it it1 it' [t access name paren brace params outs body it2 it3 it4 it5 it6 Hacc Hkn Hkp Hp Ho Hkb Hb] Ha.
  destruct (access_moves _ _ _ _ Hacc Ha) as (access' & itx & Hacc' & Ha1 & <-).
  apply alike_inv in Ha as (t' & ity & -> & Ht & Ha).
  apply alike_inv in Ha1 as (name' & itz & -> & Hn & Ha1).
  apply alike_inv in Ha1 as (paren' & it2' & -> & Hpa & Ha1).
  destruct (parameters_moves _ _ _ _ Hp Ha1) as (params' & it3' & Hp' & Ha2 & Hsp).
  destruct (outputs_moves _ _ _ _ Ho Ha2) as (outs' & itw & Ho' & Ha3 & Hso).
  apply alike_inv in Ha3 as (brace' & it4' & -> & Hbr & Ha3).
  destruct (alike_block _ _ _ _ Hb Ha3) as (body' & it6' & Hb' & Ha4 & Hsb).
  rewrite (alike_kind _ _ Hn) in Hkn. rewrite (alike_kind _ _ Hpa) in Hkp. rewrite (alike_kind _ _ Hbr) in Hkb.
  eexists _, it6'. split; [by eapply parses_definition_intro|]. split; [done|].
  unfold outline_definition, outline_with, node_header. cbn [def_name access_modifier parameters outputs statements].
  by rewrite (alike_name _ _ Hn), (maps_agree _ _ _ _ Hsp), (maps_agree _ _ _ _ Hso), (same_map _ _ Hsb).
Qed.

Lemma root_moves ds it it' : parses_root ds it -> alike it it' ->
  exists ds', parses_root ds' it' /\
    map (outline_definition s) ds = map (outline_definition s') ds'.
Proof.
  intros Hr. revert it'. induction Hr as [t Hk|d ds it it1 Hno Hd _ IH]; intros it' Ha.
  - apply alike_inv in Ha as (t' & itx & -> & Ht & Ha). inversion Ha; subst.
    rewrite (alike_kind _ _ Ht) in Hk. exists []. split; [by apply parses_end|done].
  - rewrite (alike_next_is _ _ _ Ha) in Hno.
    destruct (definition_moves _ _ _ _ Hd Ha) as (d' & it1' & Hd' & Ha1 & Hs).
    destruct (IH _ Ha1) as (ds' & Hr' & Hss).
    exists (d' :: ds'). split; [by eapply parses_next_definition|]. cbn. by rewrite Hs, Hss.
Qed.

End Layout.

(** Agreement of the tokens of two sources goes both ways. *)
Lemma alike_sym s s' it it' : alike s s' it it' -> alike s' s it' it.
Proof. induction 1 as [|t t' it it' [] Hshr _ IH]; constructor; [|done..]. by constructor. Qed.

