(* ===== verification/LayoutTheorems.v ===== *)
(** Layout does not matter: two sources that consist of the same words, with
    different white space and comments, are both accepted or both rejected, and
    their trees say the same. *)

From Stdlib Require Import Ascii String.
From S2P Require Import Prelude Report Source Testing SourceFacts Unicode Token Keywords Flags.
From S2P Require Import Lexer LexerWords LexerFacts LexerSpec LexerScanners LexerHandlers LexerTokens Spelling.
From S2P Require Import Ast Outline Parser Grammar ParserFacts ParserSound ParserComplete Pipeline Layout.

#[local] Open Scope char_scope.
#[local] Open Scope Z_scope.

(** * Words in a source *)

(** A chunk starts with its word. *)
Lemma chunk_word v rest word : chunk v rest (Some word) -> exists ws, v = word_text word ++ ws.
Proof.
  intros Hc. remember (Some word) as o eqn:Ho. destruct Hc as
    [c rest Hc|v rest Hv Hr|v rest Hr|w rest Hw Hk Hr|w kind rest Hk Hr|kind w rest Hs Hf Hr|rest Hr Hr2
    |ws rest Hws Hr|kind prefix pred v ws rest Hin Hv Hws Hr|d v ws rest Hd Hv Hws Hr Hdot Hz
    |d v ws1 b ws2 rest Hd Hv Hws1 Hb Hrun Hws2 Hr|b ws rest Hb Hrun Hws Hr|kind quote v rest Hin Hscan];
    try discriminate Ho; injection Ho as <-; cbn [word_text]; try (by eexists).
  - exists []. by rewrite app_nil_r.
  - apply keyword_kind_spelling in Hk. rewrite Hk. exists []. by rewrite app_nil_r.
  - rewrite Hs. exists []. by rewrite app_nil_r.
  - exists []. by rewrite app_nil_r.
Qed.

(** After a [>] comes no other. *)
Lemma chunk_angle v rest word :
  chunk v rest (Some word) -> word = fixed_word TokenKind.r_angle \/ word = shift_right ->
  v = word_text word /\ front rest <> ">".
Proof.
  intros Hc Hw. remember (Some word) as o eqn:Ho. destruct Hc as
    [c rest Hc|v rest Hv Hr|v rest Hr|w rest Hw' Hk Hr|w kind rest Hk Hr|kind w rest Hs Hf Hr|rest Hr Hr2
    |ws rest Hws Hr|kind prefix pred v ws rest Hin Hv Hws Hr|d v ws rest Hd Hv Hws Hr Hdot Hz
    |d v ws1 b ws2 rest Hd Hv Hws1 Hb Hrun Hws2 Hr|b ws rest Hb Hrun Hws Hr|kind quote v rest Hin Hscan];
    try discriminate Ho; injection Ho as <-; destruct Hw as [[=]|[=]]; subst; cbn [word_text]; try done.
  - exfalso. apply keyword_kind_ok in Hk as Hok. destruct Hok as (_ & Hp & _).
    apply keyword_kind_spelling in Hk. injection Hk as <-. inversion Hp. discriminate.
  - injection Hs as <-. split; [done|]. by apply Hr.
Qed.

(** The words of a source, with what the parser sees of their tokens. *)
Section Source.
Context (s : text) (Hsize : len s <= source_size_max).

Definition last_token (off : Z) (word : Word) : Token :=
  match word with
  | shift_right => fixed_token TokenKind.r_angle (u32 (off + 1))
  | _ => hd (fixed_token TokenKind.end_of_file 0) (word_tokens off word)
  end.

(** [worded words toks]: these are tokens of these words, each at a place of the
    source where its word is; no two [>] are adjacent but those of a [>>]. *)
Inductive worded : list Word -> list Token -> Prop :=
| worded_nil : worded [] []
| worded_cons off word words toks p q :
    s = p ++ word_text word ++ q -> off = len p -> is_shr (last_token off word :: toks) = false ->
    worded words toks -> worded (word :: words) (word_tokens off word ++ toks).

Lemma offset_small p q : s = p ++ q -> Z.land (len p) 0xffffff = len p.
Proof. intros ->. apply offset_mask. len_lia. Qed.

(** Tokens are not before the start of their text. *)
Lemma spells_offsets off it words toks :
  spells off it words toks -> forall p q, s = p ++ it ++ q -> off = len p ->
  Forall (fun t => off <= offset t) toks.
Proof.
  induction 1 as [off|off v rest word words toks Hc _ IH]; intros p q Hs Hoff; [constructor|].
  apply Forall_app. split.
  - destruct word as [word|]; [|constructor].
    assert (Hsmall : Z.land off 0xffffff = off).
    { rewrite Hoff. eapply offset_small. exact Hs. }
    destruct word as [kind w|kind|]; cbn [chunk_tokens word_tokens]; repeat constructor; cbn;
      rewrite ?Hsmall; try lia.
    apply chunk_word in Hc as [ws ->]. cbn [word_text] in Hs.
    assert (len p + 1 < 2 ^ 24) by (rewrite Hs in Hsize; change source_size_max with (2 ^ 24 - 1) in Hsize; len_lia).
    pose proof (len_nonneg p). rewrite u32_small by lia.
    rewrite offset_mask; [lia|]. change source_size_max with (2 ^ 24 - 1). lia.
  - eapply Forall_impl; [apply (IH (p ++ v) q)|].
    + rewrite Hs. app_eq.
    + len_lia.
    + intros t Ht. cbv beta in Ht. pose proof (len_nonneg v). lia.
Qed.

Lemma chunk_open_word v rest kind w : chunk v rest (Some (open_word kind w)) -> variable_kind kind = true.
Proof.
  intros Hc. inversion Hc; subst; try done.
  - match goal with H : _ ∈ radix_literals |- _ => unfold radix_literals in H; rewrite !elem_of_cons in H;
      destruct H as [[= -> _ _]|[[= -> _ _]|[[= -> _ _]|H%elem_of_nil]]]; done end.
  - match goal with H : _ ∈ quoted_literals |- _ => unfold quoted_literals in H; rewrite !elem_of_cons in H;
      destruct H as [[= -> _]|[[= -> _]|H%elem_of_nil]]; done end.
Qed.

(** The only words whose tokens are [>]. *)
Lemma chunk_angle_word v rest word off :
  chunk v rest (Some word) -> kind (last_token off word) = TokenKind.r_angle ->
  word = fixed_word TokenKind.r_angle \/ word = shift_right.
Proof.
  intros Hc Hk. destruct word as [kind w|kind|]; cbn in Hk; subst; [|by left|by right].
  by apply chunk_open_word in Hc.
Qed.

Lemma spells_angle off it words t toks p q :
  spells off it words (t :: toks) -> s = p ++ it ++ q -> off = len p ->
  kind t = TokenKind.r_angle -> offset t = off -> front it = ">".
Proof.
  intros Hsp Hs Hoff Hk Ho. remember (t :: toks) as l eqn:Hl.
  destruct Hsp as [off|off v rest word words toks' Hc Hrest]; [done|].
  pose proof (chunk_front _ _ _ Hc) as Hn. assert (Hv : v <> []) by (by intros ->).
  assert (Hf : front (v ++ rest) = front v) by (by destruct v). rewrite Hf.
  destruct word as [word|]; cbn [chunk_tokens] in Hl.
  - assert (Hword : word = fixed_word TokenKind.r_angle \/ word = shift_right).
    { destruct word as [kind w|kind|]; cbn in Hl; injection Hl as <- _; cbn in Hk; subst; [|by left|by right].
      by apply chunk_open_word in Hc. }
    destruct (chunk_angle _ _ _ Hc Hword) as [-> _]. by destruct Hword as [-> | ->].
  - cbn in Hl. subst toks'. pose proof (spells_offsets _ _ _ _ Hrest (p ++ v) q) as Hall.
    specialize (Hall ltac:(rewrite Hs; app_eq) ltac:(len_lia)). inversion Hall as [|? ? Hle]; subst.
    destruct v as [|c v]; [done|]. rewrite len_cons in Hle. pose proof (len_nonneg v). lia.
Qed.

Lemma spells_worded off it words toks p :
  spells off it words toks -> s = p ++ it -> off = len p -> worded words toks.
Proof.
  intros Hsp. revert p. induction Hsp as [off|off v rest word words toks Hc Hrest IH]; intros p Hs Hoff; [constructor|].
  specialize (IH (p ++ v) ltac:(rewrite Hs; app_eq) ltac:(len_lia)).
  destruct word as [word|]; [|done]. cbn [option_list chunk_tokens app].
  destruct (chunk_word _ _ _ Hc) as [ws Hv].
  apply worded_cons with p (ws ++ rest); [by rewrite Hs, Hv; app_eq|done| |done].
  destruct toks as [|t toks]; [done|]. cbn [is_shr].
  destruct (TokenKind.eqb_spec (kind (last_token off word)) TokenKind.r_angle) as [Hk|]; [|done].
  destruct (TokenKind.eqb_spec (kind t) TokenKind.r_angle) as [Ht|]; [|done]. cbn [andb].
  destruct (Z.eqb_spec (offset t) (offset (last_token off word) + 1)) as [Ho|]; [exfalso|done].
  pose proof (chunk_angle_word _ _ _ _ Hc Hk) as Hword. destruct (chunk_angle _ _ _ Hc Hword) as [Htext Hno].
  apply Hno, (spells_angle (off + len v) rest words t toks (p ++ v) []); [done| |len_lia|done|].
  - rewrite Hs. app_eq.
  - rewrite Ho, Htext, Hoff. rewrite Htext in Hs. change source_size_max with (2 ^ 24 - 1) in Hsize.
    destruct Hword as [-> | ->]; cbn [last_token word_tokens hd fixed_token make_token offset word_text spelling] in *.
    + rewrite (offset_small p (lit ">" ++ rest)) by (rewrite Hs; done). reflexivity.
    + assert (len p + 1 < 2 ^ 24 - 1) by (rewrite Hs in Hsize; len_lia).
      pose proof (len_nonneg p). rewrite u32_small by lia. rewrite offset_mask; [len_lia|].
      change source_size_max with (2 ^ 24 - 1). lia.
Qed.

End Source.

(** * Sources of the same words *)

(** A token that the lexer made at the place of its text. *)
Lemma placed_token s kind p w q :
  len s <= source_size_max -> s = p ++ w ++ q ->
  let t := make_token kind (len p) (len w) in
  offset t = len p /\ node_offset (offset t) = offset t /\ substr s (offset t) (variable_length t) = Some w.
Proof.
  intros Hsize Hs. assert (Hoff : Z.land (len p) 0xffffff = len p) by (apply offset_mask; rewrite Hs in Hsize; len_lia).
  cbn. unfold node_offset. rewrite !Hoff. split_and!; [done|done|]. rewrite Hs. by apply substr_app.
Qed.

Lemma alike_placed s s' kind p w q p' q' :
  len s <= source_size_max -> len s' <= source_size_max -> s = p ++ w ++ q -> s' = p' ++ w ++ q' ->
  alike_token s s' (make_token kind (len p) (len w)) (make_token kind (len p') (len w)).
Proof.
  intros Hsize Hsize' Hs Hs'. destruct (placed_token s kind p w q Hsize Hs) as (_ & Hfit & Hsub).
  destruct (placed_token s' kind p' w q' Hsize' Hs') as (_ & Hfit' & Hsub').
  split; [done| |done|done]. by rewrite Hsub, Hsub'.
Qed.

Lemma alike_fixed s s' kind p q p' q' :
  len s <= source_size_max -> len s' <= source_size_max -> s = p ++ q -> s' = p' ++ q' ->
  alike_token s s' (fixed_token kind (len p)) (fixed_token kind (len p')).
Proof. intros. by apply (alike_placed s s' kind p [] q p' q'). Qed.

Lemma is_shr_last t toks end_ :
  kind end_ = TokenKind.end_of_file -> is_shr (t :: toks) = false -> is_shr (t :: toks ++ [end_]) = false.
Proof. intros Hk. destruct toks; [|done]. intros _. cbn. by rewrite Hk, andb_false_r. Qed.

Lemma worded_alike s s' words toks toks' :
  len s <= source_size_max -> len s' <= source_size_max -> worded s words toks -> worded s' words toks' ->
  alike s s' (toks ++ [fixed_token TokenKind.end_of_file (len s)])
             (toks' ++ [fixed_token TokenKind.end_of_file (len s')]).
Proof.
  intros Hsize Hsize' Hw. revert toks'.
  induction Hw as [|off word words toks p q Hs Hoff Hshr _ IH]; intros toks' Hw'.
  - inversion Hw'; subst. cbn [app]. constructor; [|done|constructor].
    apply (alike_fixed s s' _ s [] s' []); by rewrite ?app_nil_r.
  - inversion Hw' as [|off' ? ? toks2 p' q' Hs' Hoff' Hshr' Hrest]; subst off off'. specialize (IH _ Hrest).
    apply (is_shr_last _ _ (fixed_token TokenKind.end_of_file (len s)) eq_refl) in Hshr.
    apply (is_shr_last _ _ (fixed_token TokenKind.end_of_file (len s')) eq_refl) in Hshr'.
    destruct word as [kind w|kind|]; cbn [word_tokens last_token hd app word_text] in *.
    + constructor; [by eapply alike_placed|by rewrite Hshr, Hshr'|done].
    + constructor; [by eapply alike_fixed|by rewrite Hshr, Hshr'|done].
    + assert (Hplace : forall s p q, len s <= source_size_max -> s = p ++ [">"; ">"] ++ q ->
        u32 (len p + 1) = len (p ++ [">"]) /\ s = (p ++ [">"]) ++ ">" :: q).
      { clear. intros s p q Hsize ->. change source_size_max with (2 ^ 24 - 1) in Hsize.
        split; [|app_eq]. rewrite u32_small by len_lia. len_lia. }
      destruct (Hplace s p q Hsize Hs) as [Hu Hs2]. destruct (Hplace s' p' q' Hsize' Hs') as [Hu' Hs2'].
      rewrite Hu in *. rewrite Hu' in *.
      assert (Hpair : forall s p q toks, len s <= source_size_max -> s = p ++ [">"; ">"] ++ q ->
        is_shr (fixed_token TokenKind.r_angle (len p) :: fixed_token TokenKind.r_angle (len (p ++ [">"])) :: toks) = true).
      { clear. intros s p q toks Hsize Hs.
        assert (Ho : offset (fixed_token TokenKind.r_angle (len p)) = len p)
          by exact (proj1 (placed_token s TokenKind.r_angle p [] _ Hsize Hs)).
        assert (Ho2 : offset (fixed_token TokenKind.r_angle (len (p ++ [">"]))) = len (p ++ [">"])).
        { refine (proj1 (placed_token s TokenKind.r_angle (p ++ [">"]) [] (">" :: q) Hsize _)). rewrite Hs. app_eq. }
        cbn [is_shr]. rewrite Ho, Ho2. cbn [kind fixed_token make_token].
        rewrite !TokenKind.eqb_refl. cbn [andb]. apply Z.eqb_eq. len_lia. }
      constructor; [by eapply alike_fixed|by rewrite (Hpair s p q), (Hpair s' p' q')|].
      constructor; [by eapply alike_fixed|by rewrite Hshr, Hshr'|done].
Qed.

(** * The theorem *)

(** The front end accepts a source, whose tree has an outline. *)
Definition accepted `{Fmt} (source : SourceView.t) (flags tab_size : Z) (o : option (list Outline)) : Prop :=
  exists tokens root,
    run_lexer source flags tab_size [] = Done tokens [] /\
    run_parser source tab_size tokens [] = Done root [] /\
    outline_root (SourceView.get_text source) root = o.

Section Layouts.
Context `{Fmt} (source source' : SourceView.t) (flags flags' tab_size tab_size' : Z).
Context (words : list Word) (toks toks' : list Token).
Context (Hsize : len (SourceView.get_text source) <= source_size_max) (Htab : 0 <= tab_size < 256).
Context (Hsize' : len (SourceView.get_text source') <= source_size_max) (Htab' : 0 <= tab_size' < 256).
Context (Hflags : has_flags flags LexerFlags.emit_comments = false).
Context (Hflags' : has_flags flags' LexerFlags.emit_comments = false).
Context (Hsp : spells 0 (SourceView.get_text source) words toks).
Context (Hsp' : spells 0 (SourceView.get_text source') words toks').

Lemma accepted_layout o : accepted source flags tab_size o -> accepted source' flags' tab_size' o.
Proof.
  intros (tokens & root & Hlex & Hparse & Ho).
  pose proof (run_lexer_spelled source flags tab_size [] words toks Hsize Htab Hflags Hsp) as Hrun.
  rewrite Hlex in Hrun. injection Hrun as ->.
  pose proof (run_lexer_spelled source' flags' tab_size' [] words toks' Hsize' Htab' Hflags' Hsp') as Hrun'.
  destruct (run_lexer_good source flags tab_size [] Htab) as (ts & reps & Hl & Hg & _).
  rewrite Hlex in Hl. injection Hl as <- _.
  destruct (run_lexer_good source' flags' tab_size' [] Htab') as (ts' & reps' & Hl' & Hg' & _).
  rewrite Hrun' in Hl'. injection Hl' as <- _.
  destruct (run_parser_result source tab_size _ [] Hg) as (root2 & new & Hp & Hroot).
  rewrite Hparse in Hp. injection Hp as <- <-. specialize (Hroot eq_refl).
  assert (Halike : alike (SourceView.get_text source) (SourceView.get_text source')
    (toks ++ [fixed_token TokenKind.end_of_file (len (SourceView.get_text source))])
    (toks' ++ [fixed_token TokenKind.end_of_file (len (SourceView.get_text source'))])).
  { apply (worded_alike _ _ words); [done|done|..].
    - by apply (spells_worded _ Hsize 0 (SourceView.get_text source) words toks []).
    - by apply (spells_worded _ Hsize' 0 (SourceView.get_text source') words toks' []). }
  destruct (root_moves _ _ _ _ _ Hroot Halike) as (ds' & Hroot' & Hsame).
  exists (toks' ++ [fixed_token TokenKind.end_of_file (len (SourceView.get_text source'))]), {| definitions := ds' |}.
  split; [done|]. split; [by apply run_parser_complete|]. rewrite <-Ho. unfold outline_root. cbn. by rewrite Hsame.
Qed.
End Layouts.

(** C4. Layout does not matter: two sources that are layouts of the same words,
    with any white space and comments between them, are both accepted by the lexer
    and the parser or both not, and their syntax trees say the same. *)
Theorem layout_is_irrelevant : forall `{Fmt} source source' flags flags' tab_size tab_size' words toks toks' o,
  spells 0 (SourceView.get_text source) words toks -> spells 0 (SourceView.get_text source') words toks' ->
  len (SourceView.get_text source) <= source_size_max -> len (SourceView.get_text source') <= source_size_max ->
  0 <= tab_size < 256 -> 0 <= tab_size' < 256 ->
  has_flags flags LexerFlags.emit_comments = false -> has_flags flags' LexerFlags.emit_comments = false ->
  accepted source flags tab_size o <-> accepted source' flags' tab_size' o.
Proof. intros. split; intros Ha; eapply accepted_layout; try exact Ha; eassumption. Qed.

(** Two layouts of one function. *)
Definition shift_words : list Word :=
  [open_word TokenKind.identifier (lit "f"); fixed_word TokenKind.l_paren; fixed_word TokenKind.r_paren;
   fixed_word TokenKind.l_brace; open_word TokenKind.identifier (lit "a"); shift_right;
   open_word TokenKind.identifier (lit "b"); fixed_word TokenKind.semicolon; fixed_word TokenKind.r_brace].

Lemma one_letter_identifier c : identifier_start c = true -> identifier_text [c].
Proof. intros Hc. apply identifier_text_ascii; [done|constructor]. Qed.

Lemma longest_operator_b w text_ :
  forallb (fun o => implb (starts o text_) (length o <=? length w)%nat) operators = true ->
  longest_operator w text_.
Proof.
  rewrite forallb_forall. intros Hall o Ho%list_elem_of_In Hp. specialize (Hall o Ho).
  unfold starts in Hall. rewrite bool_decide_true in Hall by done. by apply Nat.leb_le.
Qed.

Ltac spell_name := apply (spells_chunk _ (_ :: []) _ (Some (open_word _ _)));
  [apply chunk_name; [by apply one_letter_identifier|reflexivity|by split]|].
Ltac spell_operator kind := apply (spells_chunk _ (_ :: []) _ (Some (fixed_word kind)));
  [apply chunk_operator; [reflexivity|by left|split; [by apply longest_operator_b|done]]|].

Lemma compact_layout : exists toks, spells 0 (lit "f(){a>>b;}") shift_words toks.
Proof.
  eexists. unfold shift_words. spell_name. spell_operator TokenKind.l_paren. spell_operator TokenKind.r_paren.
  spell_operator TokenKind.l_brace. spell_name.
  apply (spells_chunk _ [">"; ">"] _ (Some shift_right)); [by apply chunk_shift_right|].
  spell_name. spell_operator TokenKind.semicolon. spell_operator TokenKind.r_brace. constructor.
Qed.

Lemma wide_layout : exists toks, spells 0 (spell shift_words) shift_words toks.
Proof.
  assert (Hname : forall c, identifier_start c = true -> valid_word (open_word TokenKind.identifier [c])).
  { intros c Hc. apply valid_name; [by apply one_letter_identifier|]. destruct (keyword_kind [c]) as [k|] eqn:Hk; [|done].
    apply keyword_kind_ok in Hk as ([Hl _] & _). cbn in Hl. lia. }
  assert (Hfixed : forall kind, variable_kind kind = false -> kind <> TokenKind.end_of_file ->
    valid_word (fixed_word kind)) by apply valid_fixed.
  exists (place 0 shift_words). apply spells_spell. unfold shift_words.
  constructor; [by apply Hname|]. constructor; [by apply Hfixed|]. constructor; [by apply Hfixed|].
  constructor; [by apply Hfixed|]. constructor; [by apply Hname|]. constructor; [apply valid_shift_right|].
  constructor; [by apply Hname|]. constructor; [by apply Hfixed|]. constructor; [by apply Hfixed|]. constructor.
Qed.

Lemma layout_is_irrelevant_witness :
  let o := outline_root (lit "f(){a>>b;}") {| definitions := [{|
    def_token_offset := 0; access_modifier := AccessModifier.none;
    def_name := {| name_offset := 0; name_length := 1 |}; parameters := []; outputs := [];
    statements := [AstBinaryExpr 4 BinaryOperator.shr (AstIdentExpr 4 1) (AstIdentExpr 7 1)] |}] |} in
  o <> None /\
  accepted (test_source (lit "f(){a>>b;}") (lit "t")) LexerFlags.none 4 o /\
  accepted (test_source (spell shift_words) (lit "t")) LexerFlags.none 8 o.
Proof.
  assert (Hcompact : accepted (test_source (lit "f(){a>>b;}") (lit "t")) LexerFlags.none 4
    (outline_root (lit "f(){a>>b;}") {| definitions := [{|
      def_token_offset := 0; access_modifier := AccessModifier.none;
      def_name := {| name_offset := 0; name_length := 1 |}; parameters := []; outputs := [];
      statements := [AstBinaryExpr 4 BinaryOperator.shr (AstIdentExpr 4 1) (AstIdentExpr 7 1)] |}] |})).
  { eexists _, _. split; [vm_compute; reflexivity|]. split; [vm_compute; reflexivity|reflexivity]. }
  split; [vm_compute; discriminate|]. split; [exact Hcompact|].
  destruct compact_layout as [toks Hsp]. destruct wide_layout as [toks' Hsp'].
  refine (proj1 (layout_is_irrelevant (test_source (lit "f(){a>>b;}") (lit "t"))
    (test_source (spell shift_words) (lit "t")) LexerFlags.none LexerFlags.none 4 8 shift_words toks toks' _
    Hsp Hsp' _ _ _ _ eq_refl eq_refl) Hcompact); [vm_compute; discriminate|vm_compute; discriminate|lia|lia].
Defined.
