(* ===== verification/TreeTypes.v ===== *)
(** Well-formed syntax trees: which nodes may stand below which, and which texts
    their names and literals have. What the front end accepts is well formed. *)

From Stdlib Require Import Ascii String.
From S2P Require Import Prelude Report Source Testing SourceFacts Token Flags Lexer LexerFacts LexerSpec LexerCorrect.
From S2P Require Import Ast Outline Parser Grammar ParserFacts ParserSound Pipeline LayoutTheorems.

(** * Well-formed outlines *)

Definition literal_token (k : LiteralKind.t) : TokenKind.t :=
  match k with
  | LiteralKind.dec_int => TokenKind.dec_int_literal
  | LiteralKind.hex_int => TokenKind.hex_int_literal
  | LiteralKind.bin_int => TokenKind.bin_int_literal
  | LiteralKind.oct_int => TokenKind.oct_int_literal
  | LiteralKind.float_ => TokenKind.float_literal
  | LiteralKind.char_ => TokenKind.char_literal
  | LiteralKind.string => TokenKind.string_literal
  end.

(** What kind of thing a node is. *)
Inductive Sort_ := a_definition | a_parameter | an_output | an_expression.

Definition sort_of (h : Header) : Sort_ :=
  match h with
  | function_definition _ _ => a_definition
  | function_parameter _ => a_parameter
  | function_output _ => an_output
  | _ => an_expression
  end.

Definition root_header (r : Outline) : Header := match r with outline h _ => h end.
Definition of_sort (sort : Sort_) (r : Outline) : Prop := sort_of (root_header r) = sort.

(** The texts and the number and sorts of the children that a node may have. *)
Definition well_formed_node (h : Header) (rs : list Outline) : Prop :=
  match h with
  | function_definition _ name => is_identifier name /\
      exists ps os ss, rs = ps ++ os ++ ss /\ Forall (of_sort a_parameter) ps /\
        Forall (of_sort an_output) os /\ Forall (of_sort an_expression) ss
  | function_parameter name => is_identifier name /\ exists type, map root_header rs = [ident_expr type]
  | function_output name => name = [] /\ exists type, map root_header rs = [ident_expr type]
  | ident_expr name => is_identifier name /\ rs = []
  | literal_expr k literal => lexical_class true (literal_token k) literal /\ rs = []
  | block_expr | return_expr => Forall (of_sort an_expression) rs
  | unary_expr _ => length rs = 1%nat /\ Forall (of_sort an_expression) rs
  | binary_expr _ => length rs = 2%nat /\ Forall (of_sort an_expression) rs
  | call_expr => (1 <= length rs)%nat /\ Forall (of_sort an_expression) rs
  end.

#[warnings="-register-all"]
Inductive well_formed : Outline -> Prop :=
| well_formed_outline h rs :
    well_formed_node h rs -> Forall well_formed rs -> well_formed (outline h rs).

(** * Trees of derivations *)

Section Derived.
Context (s : text).

(** A token with its text, which is in the class of its kind. *)
Definition classed (t : Token) : Prop :=
  node_offset (offset t) = offset t /\
  exists w, substr s (offset t) (variable_length t) = Some w /\
    (variable_kind (kind t) = true -> lexical_class true (kind t) w).

#[local] Abbreviation all := (Forall classed).

(** A node whose outline exists, is of a sort and is well formed. *)
Definition formed (sort : Sort_) (o : option Outline) : Prop :=
  exists r, o = Some r /\ of_sort sort r /\ well_formed r.

Definition formed_expr (e : AstExpression) : Prop := formed an_expression (outline_expression s e).

Lemma formed_all {A} sort (f : A -> option Outline) l :
  Forall (fun a => formed sort (f a)) l ->
  exists rs, all_some (map f l) = Some rs /\ Forall (of_sort sort) rs /\ Forall well_formed rs.
Proof.
  induction 1 as [|a l (r & Hr & Hsort & Hw) _ (rs & Hrs & Hsorts & Hws)]; [by exists []|].
  exists (r :: rs). cbn. rewrite Hr, Hrs. auto.
Qed.

Lemma all_some_length {A} (f : A -> option Outline) l rs : all_some (map f l) = Some rs -> length rs = length l.
Proof. rewrite all_some_spec. intros Hall. symmetry. by eapply Forall2_length. Qed.

(** How a node is well formed when its children are. *)
Lemma formed_node node h children rs sort :
  node_header s node = Some h -> all_some children = Some rs ->
  sort_of h = sort -> well_formed_node h rs -> Forall well_formed rs ->
  formed sort (outline_with s node children).
Proof.
  intros Hh Hc Hsort Hn Hw. exists (outline h rs). unfold outline_with. rewrite Hh, Hc.
  split; [done|]. split; [done|]. by constructor.
Qed.

Lemma token_text t k : classed t -> kind t = k -> variable_kind k = true ->
  exists w, substr s (node_offset (offset t)) (variable_length t) = Some w /\ lexical_class true k w.
Proof. intros (Ho & w & Hw & Hc) <- Hk. exists w. rewrite Ho. auto. Qed.

Lemma formed_ident t : classed t -> kind t = TokenKind.identifier ->
  exists name, outline_expression s (AstIdentExpr (node_offset (offset t)) (variable_length t)) =
    Some (outline (ident_expr name) []) /\ is_identifier name.
Proof.
  intros Ht Hk. destruct (token_text t _ Ht Hk eq_refl) as (w & Hw & Hc). exists w. cbn. unfold outline_with. cbn.
  by rewrite Hw.
Qed.

Lemma formed_ident_expr t : classed t -> kind t = TokenKind.identifier ->
  formed_expr (AstIdentExpr (node_offset (offset t)) (variable_length t)).
Proof.
  intros Ht Hk. destruct (formed_ident t Ht Hk) as (name & Ho & Hid). exists (outline (ident_expr name) []).
  split; [exact Ho|]. split; [done|]. by constructor.
Qed.

Lemma literal_kind_token kind_ k : literal_kind_of kind_ = Some k -> kind_ = literal_token k /\ variable_kind kind_ = true.
Proof. destruct kind_; intros [= <-]; done. Qed.

Lemma formed_literal t k : classed t -> literal_kind_of (kind t) = Some k ->
  formed_expr (AstLiteralExpr (node_offset (offset t)) k (variable_length t)).
Proof.
  intros Ht [Hk Hv]%literal_kind_token. destruct (token_text t _ Ht eq_refl Hv) as (w & Hw & Hc).
  rewrite Hk in Hc. apply (formed_node _ (literal_expr k w) [] []); cbn; [by rewrite Hw|done..|constructor].
Qed.

Lemma formed_block o es : Forall formed_expr es -> formed_expr (AstBlockExpr o es).
Proof. intros (rs & Hrs & Hsort & Hw)%formed_all. by apply (formed_node (node_expression (AstBlockExpr o es)) block_expr (map (outline_expression s) es) rs). Qed.

Lemma formed_return o es : Forall formed_expr es -> formed_expr (AstReturnExpr o es).
Proof. intros (rs & Hrs & Hsort & Hw)%formed_all. by apply (formed_node (node_expression (AstReturnExpr o es)) return_expr (map (outline_expression s) es) rs). Qed.

Lemma formed_unary o op e : formed_expr e -> formed_expr (AstUnaryExpr o op e).
Proof.
  intros He. destruct (formed_all an_expression (outline_expression s) [e]) as (rs & Hrs & Hsort & Hw); [auto|].
  apply (formed_node (node_expression (AstUnaryExpr o op e)) (unary_expr op) (map (outline_expression s) [e]) rs);
    [done..| |done]. split; [|done]. by apply all_some_length in Hrs.
Qed.

Lemma formed_binary o op e1 e2 : formed_expr e1 -> formed_expr e2 -> formed_expr (AstBinaryExpr o op e1 e2).
Proof.
  intros H1 H2. destruct (formed_all an_expression (outline_expression s) [e1; e2]) as (rs & Hrs & Hsort & Hw); [auto|].
  apply (formed_node (node_expression (AstBinaryExpr o op e1 e2)) (binary_expr op) (map (outline_expression s) [e1; e2]) rs);
    [done..| |done]. split; [|done]. by apply all_some_length in Hrs.
Qed.

Lemma formed_call o e es : formed_expr e -> Forall formed_expr es -> formed_expr (AstCallExpr o e es).
Proof.
  intros He Hes. destruct (formed_all an_expression (outline_expression s) (e :: es)) as (rs & Hrs & Hsort & Hw); [auto|].
  apply (formed_node (node_expression (AstCallExpr o e es)) call_expr (map (outline_expression s) (e :: es)) rs);
    [done..| |done]. split; [|done]. apply all_some_length in Hrs. cbn in Hrs. lia.
Qed.

#[local] Hint Resolve formed_ident_expr formed_literal formed_block formed_return formed_unary formed_binary formed_call : core.

Lemma grammar_formed :
  (forall p e it it1, parses_expr p e it it1 -> all it -> all it1 /\ formed_expr e) /\
  (forall e it it1, parses_head e it it1 -> all it -> all it1 /\ formed_expr e) /\
  (forall p e0 e it it1, parses_tails p e0 e it it1 -> formed_expr e0 -> all it -> all it1 /\ formed_expr e) /\
  (forall es it it1, parses_list es it it1 -> all it -> all it1 /\ Forall formed_expr es) /\
  (forall es it it1, parses_block es it it1 -> all it -> all it1 /\ Forall formed_expr es) /\
  (forall e it it1, parses_stmt e it it1 -> all it -> all it1 /\ formed_expr e).
Proof.
  apply grammar_ind; intros; repeat match goal with
  | H : all (_ :: _) |- _ => apply Forall_cons in H as [? ?]
  | H : all ?it -> _, Ha : all ?it |- _ => destruct (H Ha); clear H
  | H : formed_expr ?e -> all ?it -> _, He : formed_expr ?e, Ha : all ?it |- _ => destruct (H He Ha); clear H
  | H : ?it1 = (if bool_decide _ then tail ?it else ?it), Ha : all ?it |- _ =>
      assert (all it1) by (subst it1; case_bool_decide; [by apply Forall_tail|done]); clear H
  end; eauto 6.
Qed.

Lemma expr_formed p e it it1 : parses_expr p e it it1 -> all it -> all it1 /\ formed_expr e.
Proof. apply grammar_formed. Qed.

Lemma block_formed es it it1 : parses_block es it it1 -> all it -> all it1 /\ Forall formed_expr es.
Proof. apply grammar_formed. Qed.

(** ** Definitions *)

(** What the elements of a nonterminal [R] satisfy. *)
Definition gives {A} (R : A -> list Token -> list Token -> Prop) (E : A -> Prop) : Prop :=
  forall a it it1, R a it it1 -> all it -> all it1 /\ E a.

Lemma sep_gives {A} (R : A -> list Token -> list Token -> Prop) (E : A -> Prop) :
  gives R E -> gives (sep R) (Forall E).
Proof.
  intros HR l it it1 Hl. induction Hl as [a it it1 Ha Hno|a l t it it1 it2 Ha Hk _ IH]; intros Hit.
  - destruct (HR _ _ _ Ha Hit). auto.
  - destruct (HR _ _ _ Ha Hit) as [Ht ?]. apply Forall_cons in Ht as [_ Ht]. destruct (IH Ht). auto.
Qed.

Definition names_type (e : AstExpression) : Prop :=
  exists name, outline_expression s e = Some (outline (ident_expr name) []) /\ is_identifier name.

Lemma type_gives : gives parses_type names_type.
Proof.
  intros e it it1 [t it2 Hk] [Ht Hit]%Forall_cons. split; [done|].
  destruct (formed_ident t Ht Hk) as (name & Ho & Hid). by exists name.
Qed.

Lemma name_text t : classed t -> kind t = TokenKind.identifier ->
  exists name, AstName_get (name_of t) s = Some name /\ is_identifier name.
Proof.
  intros Ht Hk. destruct (token_text t _ Ht Hk eq_refl) as (w & Hw & Hc). destruct Ht as [Ho _].
  rewrite Ho in Hw. by exists w.
Qed.

Lemma ident_well_formed name : is_identifier name -> well_formed (outline (ident_expr name) []).
Proof. intros Hid. by constructor. Qed.

Lemma parameter_gives : gives parses_parameter (fun p => formed a_parameter (outline_parameter s p)).
Proof.
  intros p it it1 [t type t2 it2 it3 Htype Hk] Hit.
  destruct (type_gives _ _ _ Htype Hit) as [[Ht2 Hit3]%Forall_cons (tname & Ho & Htid)]. split; [done|].
  destruct (name_text t2 Ht2 Hk) as (name & Hname & Hid).
  apply (formed_node _ (function_parameter name) _ [outline (ident_expr tname) []]); cbn [param_type param_name node_header].
  - by rewrite Hname.
  - cbn. by rewrite Ho.
  - done.
  - split; [done|]. by exists tname.
  - constructor; [by apply ident_well_formed|constructor].
Qed.

Lemma parameters_gives : gives parses_parameters (Forall (fun p => formed a_parameter (outline_parameter s p))).
Proof.
  intros l it it1 [t it2 Hk|l' t it2 it3 Hno Hl Hk] Hit.
  - apply Forall_cons in Hit as [_ Hit]. auto.
  - destruct (sep_gives _ _ parameter_gives _ _ _ Hl Hit) as [Ht ?]. by apply Forall_cons in Ht as [_ Ht].
Qed.

Lemma output_gives : gives parses_output (fun o => formed an_output (outline_output s o)).
Proof.
  intros o it it1 [t type it2 it3 Htype] Hit.
  destruct (type_gives _ _ _ Htype Hit) as [Hit3 (tname & Ho & Htid)]. split; [done|].
  apply (formed_node _ (function_output []) _ [outline (ident_expr tname) []]); cbn [output_type output_name node_header].
  - unfold AstName_get, empty_name. cbn [name_offset name_length]. by rewrite substr_0_0.
  - cbn. by rewrite Ho.
  - done.
  - split; [done|]. by exists tname.
  - constructor; [by apply ident_well_formed|constructor].
Qed.

Lemma outputs_gives : gives parses_outputs (Forall (fun o => formed an_output (outline_output s o))).
Proof.
  intros l it it1 [it2 Hno|l' t it2 it3 Hk Hl] Hit; [auto|].
  apply Forall_cons in Hit as [_ Hit]. by apply (sep_gives _ _ output_gives _ _ _ Hl).
Qed.

Lemma access_gives : gives parses_access (fun _ => True).
Proof. intros a it it1 [t it2 Hk|t it2 Hk|it2 Hno Hno2] Hit; [apply Forall_cons in Hit as [_ Hit]..|]; auto. Qed.

Lemma definition_gives : gives parses_definition (fun d => formed a_definition (outline_definition s d)).
Proof.
  intros d it it1 [t access name paren brace params outs body it2 it3 it4 it5 it6 Hacc Hkn Hkp Hp Ho Hkb Hb] Hit.
  destruct (access_gives _ _ _ Hacc Hit) as [Hit3 _]. apply Forall_cons in Hit3 as [Hn Hit3].
  apply Forall_cons in Hit3 as [_ Hit3]. destruct (parameters_gives _ _ _ Hp Hit3) as [Hit4 Hps].
  destruct (outputs_gives _ _ _ Ho Hit4) as [Hit5 Hos]. apply Forall_cons in Hit5 as [_ Hit5].
  destruct (block_formed _ _ _ Hb Hit5) as [Hit6 Hss]. split; [done|].
  destruct (name_text name Hn Hkn) as (n & Hname & Hid).
  apply formed_all in Hps as (ps & Hps & Hpsort & Hpw). apply formed_all in Hos as (os & Hos & Hosort & How).
  apply formed_all in Hss as (ss & Hss & Hssort & Hsw).
  apply (formed_node _ (function_definition access n) _ (ps ++ os ++ ss));
    cbn [def_name access_modifier parameters outputs statements node_header].
  - by rewrite Hname.
  - by rewrite !all_some_app, Hps, Hos, Hss.
  - done.
  - split; [done|]. by exists ps, os, ss.
  - apply Forall_app. split; [done|]. by apply Forall_app.
Qed.

Lemma root_gives ds it : parses_root ds it -> all it ->
  Forall (fun d => formed a_definition (outline_definition s d)) ds.
Proof.
  induction 1 as [t Hk|d ds it it1 Hno Hd _ IH]; intros Hit; [constructor|].
  destruct (definition_gives _ _ _ Hd Hit). auto.
Qed.
End Derived.

(** The tokens that the lexer puts when it reports nothing. *)
Lemma lexed_classed source toks :
  len (SourceView.get_text source) <= source_size_max ->
  lexed true 0 (SourceView.get_text source) toks ->
  Forall (classed (SourceView.get_text source))
    (toks ++ [fixed_token TokenKind.end_of_file (len (SourceView.get_text source))]).
Proof.
  intros Hsize Hl. set (s := SourceView.get_text source) in *.
  assert (Hoff : forall p q, s = p ++ q -> node_offset (len p) = len p).
  { intros p q Hs. apply offset_mask. rewrite Hs in Hsize. len_lia. }
  apply Forall_app. split; [|repeat constructor].
  - apply Forall_forall. intros t Hin.
    destruct (lexed_get_text true source [] s [] toks t) as (p & v & q & Hs & Ho & [Hne Hshape] & _);
      [by rewrite app_nil_r|done|done|]. fold s in Hs.
    split; [rewrite Ho; by eapply Hoff|]. rewrite Ho. destruct (variable_kind (kind t)) eqn:Hk.
    + destruct Hshape as [Hlen Hclass]. exists v. split; [|done]. rewrite Hs. by apply substr_app.
    + exists []. split; [|done]. destruct Hshape as [-> _]. rewrite Hs. by apply (substr_app p [] (v ++ q)).
  - cbn. unfold node_offset. by rewrite !(offset_mask (len s)) by (pose proof (len_nonneg s); lia).
  - exists []. cbn. rewrite offset_mask by (pose proof (len_nonneg s); lia). split; [|done].
    rewrite <-(app_nil_r s) at 1. by apply (substr_app s [] []).
Qed.

(** * The theorem *)

(** C7. What the front end accepts is well formed: the outline of its tree exists,
    that is, every name and literal lies inside of the source, and it consists of
    function definitions in which every node has the children that its kind
    allows, every name is an identifier and no keyword, and every literal belongs
    to the lexical class of its kind. *)
Theorem accepted_trees_well_formed : forall `{Fmt} source flags tab_size o,
  0 <= tab_size < 256 -> accepted source flags tab_size o ->
  exists rs, o = Some rs /\ Forall (of_sort a_definition) rs /\ Forall well_formed rs.
Proof.
  intros F source flags tab_size o Htab (tokens & root & Hlex & Hparse & <-).
  destruct (run_lexer_good source flags tab_size [] Htab) as (ts & reps & Hl & Hg & Hclean).
  rewrite Hlex in Hl. injection Hl as <- <-. destruct (Hclean eq_refl) as (toks & Hsize & Hlexed & ->).
  destruct (run_parser_result source tab_size _ [] Hg) as (root2 & new & Hp & Hroot).
  rewrite Hparse in Hp. injection Hp as <- <-.
  pose proof (root_gives _ _ _ (Hroot eq_refl) (lexed_classed source toks Hsize Hlexed)) as Hall.
  apply formed_all in Hall as (rs & Hrs & Hsort & Hw). by exists rs.
Qed.

Lemma accepted_trees_well_formed_witness :
  let source := test_source (lit "public f(T x)->T{return g(x,1),-2.5;}") (lit "t") in
  exists tokens root,
    run_lexer source LexerFlags.none 4 [] = Done tokens [] /\
    run_parser source 4 tokens [] = Done root [] /\
    exists rs, outline_root (SourceView.get_text source) root = Some rs /\
      Forall (of_sort a_definition) rs /\ Forall well_formed rs.
Proof.
  eexists _, _. split; [vm_compute; reflexivity|]. split; [vm_compute; reflexivity|].
  apply (accepted_trees_well_formed (test_source (lit "public f(T x)->T{return g(x,1),-2.5;}") (lit "t"))
    LexerFlags.none 4); [lia|].
  eexists _, _. split; [vm_compute; reflexivity|]. split; [vm_compute; reflexivity|reflexivity].
Defined.
