(* ===== verification/Build.v ===== *)
(** The build pipeline (src/cero/compile/build.cc) over the lexer, the parser and
    the semantic analyzer, which is still empty
    (src/cero/sema/semantic_analyzer.cc, ir_graph.hh). *)

From Stdlib Require Import String.
From S2P Require Import Prelude Report Platform FileView Source Token Flags Lexer Ast Parser.

(** * The semantic analyzer *)

(** [class IrGraph] has no members yet. *)
Inductive IrGraph := ir_graph.

(** [SemanticAnalyzer]: its only member is the graph; [run] does nothing. *)
Record SemanticAnalyzer := { graph_ : IrGraph }.
Definition analyzer_run : M SemanticAnalyzer unit := ret tt.

Definition run_semantic_analyzer (ast : AstRoot) (source : SourceView.t) (tab_size : Z)
    : M (list Report) IrGraph :=
  fun reports =>
    match analyzer_run {| graph_ := ir_graph |} with
    | Done _ analyzer => Done (graph_ analyzer) reports
    | Thrown _ => Thrown reports
    | Aborted => Aborted
    | OutOfFuel => OutOfFuel
    end.

(** * build_source *)

(** The value of [std::errc::no_such_file_or_directory] in the generic category. *)
Definition no_such_file_or_directory : Z := 2.

Section Build.
Context {W : Type} `{Platform W} `{Fmt} `{SystemMessages}.

(** The state of a build: the system and the reports the reporter received. *)
Definition B (A : Type) : Type := M (W * list Report) A.

Definition on_system {A} (m : M W A) : B A := fun s =>
  match m s.1 with
  | Done a w => Done a (w, s.2)
  | Thrown w => Thrown (w, s.2)
  | Aborted => Aborted
  | OutOfFuel => OutOfFuel
  end.

Definition on_reporter {A} (m : M (list Report) A) : B A := fun s =>
  match m s.2 with
  | Done a reports => Done a (s.1, reports)
  | Thrown reports => Thrown (s.1, reports)
  | Aborted => Aborted
  | OutOfFuel => OutOfFuel
  end.

(** [reporter.report(location, message, args)] *)
Definition report (location : CodeLocation) (message : Message) (args : MessageArgs)
    : M (list Report) unit :=
  r <- expect_some (make_report location message args) ;;
  modify (fun reports => reports ++ [r]).

(** The destructor of a source view destroys the file view it may hold. *)
Definition destroy_view (view : SourceView.t) : M W unit :=
  match SourceView.file_view_ view with
  | Some file_view => FileView.destroy file_view
  | None => ret tt
  end.

(** The three stages on a locked source. *)
Definition build_view (source_view : SourceView.t) : M (list Report) unit :=
  token_list <- run_lexer source_view LexerFlags.none default_tab_size ;;
  ast <- run_parser source_view default_tab_size token_list ;;
  cfg <- run_semantic_analyzer ast source_view default_tab_size ;;
  ret tt.

Definition build_source (source : Source.t) : B unit :=
  lock_result <- on_system (Source.lock source) ;;
  match lock_result with
  | inl source_view =>
      on_reporter (build_view source_view) ;;
      on_system (destroy_view source_view)
  | inr error =>
      let location := {| path := Source.get_path source; line := 0; column := 0 |} in
      if error =? no_such_file_or_directory then
        on_reporter (report location file_not_found [])
      else
        on_reporter (report location could_not_open_file [arg_string (error_message error)])
  end.

End Build.
