(* ===== verification/BuildTheorems.v ===== *)
(** The theorems about the whole front end: the tokens of every source can be
    parsed, a build ends and leaves no file open unless the system refuses to close
    it, what it reports when a source cannot be read, and what a build without a
    report means. *)

From Stdlib Require Import Ascii String.
From stdpp Require Import gmap.
From S2P Require Import Prelude Report Platform FileView PosixModel Source SourceFacts Testing Token Flags.
From S2P Require Import Lexer LexerSpec LexerScanners LexerCorrect Ast Parser Grammar.
From S2P Require Import ParserFacts ParserSound ParserComplete Pipeline Build.

(** * Builds *)

Section Pipeline.
Context `{Fmt}.

(** What a build of a locked source does. *)
Lemma build_view_result source reports :
  exists new, build_view source reports = Done tt (reports ++ new) /\
    (new = [] <-> exists toks ds,
       run_lexer source LexerFlags.none default_tab_size reports = Done toks reports /\
       parses_root ds toks).
Proof.
  destruct (run_lexer_good source LexerFlags.none default_tab_size reports ltac:(done))
    as (toks & reps & Hlex & Hg & _).
  destruct (run_parser_result source default_tab_size toks (reports ++ reps) Hg)
    as (root & new & Hparse & Hroot).
  exists (reps ++ new). split; [|split].
  - unfold build_view, bind. rewrite Hlex, Hparse. cbn. by rewrite app_assoc.
  - intros [-> ->]%app_nil. exists toks, (definitions root). split; [|by apply Hroot].
    by rewrite Hlex, app_nil_r.
  - intros (toks' & ds & Hlex' & Hds). rewrite Hlex in Hlex'. injection Hlex' as <- Hreps.
    assert (reps = []) as ->.
    { apply (app_inv_head reports). by rewrite app_nil_r. }
    rewrite app_nil_r in Hparse.
    pose proof (run_parser_complete source default_tab_size ds toks reports Hds Hg) as Hc.
    rewrite Hparse in Hc. injection Hc as _ Hnew. cbn.
    apply (app_inv_head reports). by rewrite app_nil_r.
Qed.

End Pipeline.

(** * Builds *)

Section BuildFacts.
Context {W : Type} `{HL : PlatformLaws W} `{HF : Fmt}.

Lemma lock_spec source w :
  match Source.lock source w with
  | Done (inl view) w1 =>
      releases (open_handles w) (mapped_at w) (destroy_view view)
        (fun _ w2 => open_handles w2 = open_handles w /\ mapped_at w2 = mapped_at w) w1
  | Done (inr _) w1 => open_handles w1 = open_handles w /\ mapped_at w1 = mapped_at w
  | Aborted => release_failed (open_handles w) (mapped_at w)
  | _ => False
  end.
Proof.
  unfold Source.lock. destruct (Source.text_ source) as [s|]; [done|].
  pose proof (from_spec (Source.path_ source) w) as Hr. unfold releases in Hr. unfold bind.
  destruct (FileView.from (Source.path_ source) w) as [[view|e] w1| | |]; try done.
  by apply view_destroy_spec.
Qed.

Lemma report_valid location message args reports :
  valid_for_message args message = true ->
  report location message args reports = Done tt (reports ++
    [{| location := location; level := get_default_message_level message;
        message_text := vformat (get_message_format_string message) args |}]).
Proof. intros Hv. unfold report, make_report, bind. by rewrite Hv. Qed.

End BuildFacts.

(** C12. What the lexer hands over, the parser can process: for every source, flags
    and tab size, both stages return, and the parser's precondition on tokens
    (one end of file at the end, every token locatable and showable) is
    established by the lexer. *)
Theorem run_lexer_feeds_run_parser : forall `{Fmt} source flags tab_size reports,
  0 <= tab_size < 256 ->
  exists toks reps root new,
    run_lexer source flags tab_size reports = Done toks (reports ++ reps) /\
    good source tab_size toks /\
    run_parser source tab_size toks (reports ++ reps) = Done root ((reports ++ reps) ++ new).
Proof.
  intros F source flags tab_size reports Htab.
  destruct (run_lexer_good source flags tab_size reports Htab) as (toks & reps & Hlex & Hg & _).
  destruct (run_parser_result source tab_size toks (reports ++ reps) Hg) as (root & new & Hparse & _).
  by exists toks, reps, root, new.
Qed.

Lemma run_lexer_feeds_run_parser_witness :
  let source := test_source (lit "f( { 'x") (lit "t") in
  0 <= 4 < 256 /\
  exists toks reps root new,
    run_lexer source LexerFlags.emit_comments 4 [] = Done toks ([] ++ reps) /\
    good source 4 toks /\
    run_parser source 4 toks ([] ++ reps) = Done root (([] ++ reps) ++ new).
Proof.
  split; [lia|].
  apply (run_lexer_feeds_run_parser (test_source (lit "f( { 'x") (lit "t")) LexerFlags.emit_comments 4 []).
  lia.
Defined.


Definition example_system : System := mem_system [(lit "a.ce", regular (lit "f() { return; }")); (lit ".", directory)].
#[export] Instance example_messages : SystemMessages := fun error =>
  if error =? ENODEV then lit "No such device" else lit "error".


(** C35. When the source cannot be locked, the build adds exactly one report: an
    error at line 0 and column 0 of the source's path, which says that the file
    was not found if that is the system's error, and otherwise shows the system's
    message for it. Nothing is lexed or parsed. *)
Theorem build_source_reports_lock_failure :
  forall {W : Type} `{P : Platform W} `{Fmt} `{SystemMessages} source w w' error reports,
  Source.lock source w = Done (inr error) w' ->
  build_source source (w, reports) = Done tt (w', reports ++
    [{| location := {| path := Source.get_path source; line := 0; column := 0 |};
        level := MessageLevel.error;
        message_text :=
          if error =? 2 then vformat (lit "file not found") []
          else vformat (get_message_format_string could_not_open_file)
                 [arg_string (error_message error)] |}]).
Proof.
  intros W P F SM source w w' error reports Hlock.
  unfold build_source, bind at 1, on_system. cbn [fst snd]. rewrite Hlock.
  change (error =? no_such_file_or_directory) with (error =? 2).
  destruct (error =? 2); unfold on_reporter; cbn [fst snd]; by rewrite report_valid.
Qed.

Lemma build_source_reports_lock_failure_witness :
  exists w', build_source (Source.from_file (lit ".")) (example_system, []) = Done tt (w', [] ++
    [{| location := {| path := lit "."; line := 0; column := 0 |};
        level := MessageLevel.error;
        message_text := lit "could not open file, system error: " ++ double_quote ::
                          lit "No such device" ++ [double_quote] |}]).
Proof.
  assert (H : exists w', Source.lock (Source.from_file (lit ".")) example_system = Done (inr ENODEV) w')
    by (eexists; vm_compute; reflexivity).
  destruct H as [w' Hlock]. exists w'.
  exact (build_source_reports_lock_failure (Source.from_file (lit ".")) example_system w' ENODEV [] Hlock).
Defined.

(** C1. A build of a source that could be locked, and whose view can be destroyed
    again, adds no report if and only if the lexer reports nothing and the grammar
    derives its tokens. The whole text then consists of tokens, white space and
    comments, up to its end, and the tokens with the end of file are a sequence of
    definitions. *)
Theorem build_source_silent_iff_program :
  forall {W : Type} `{P : Platform W} `{Fmt} `{SystemMessages}
    source w view w1 w2 reports,
  Source.lock source w = Done (inl view) w1 -> destroy_view view w1 = Done tt w2 ->
  exists new,
    build_source source (w, reports) = Done tt (w2, reports ++ new) /\
    (new = [] <-> exists toks ds,
       run_lexer view LexerFlags.none default_tab_size reports = Done toks reports /\
       parses_root ds toks) /\
    (new = [] -> exists toks ds,
       lexed true 0 (SourceView.get_text view) toks /\
       parses_root ds (toks ++ [fixed_token TokenKind.end_of_file (len (SourceView.get_text view))])).
Proof.
  intros W P F SM source w view w1 w2 reports Hlock Hdestroy.
  destruct (build_view_result view reports) as (new & Hbuild & Hiff).
  exists new. split; [|split; [apply Hiff|]].
  - unfold build_source, bind, on_system, on_reporter. cbn [fst snd]. rewrite Hlock. cbn [fst snd].
    rewrite Hbuild. cbn [fst snd]. by rewrite Hdestroy.
  - intros Hnew. apply Hiff in Hnew as (toks & ds & Hlex & Hds).
    destruct (run_lexer_good view LexerFlags.none default_tab_size reports ltac:(done))
      as (toks' & reps & Hlex' & _ & Hclean).
    rewrite Hlex in Hlex'. injection Hlex' as <- Hreps.
    destruct Hclean as (toks2 & _ & Hl & ->); [|by exists toks2, ds].
    apply (app_inv_head reports). by rewrite app_nil_r.
Qed.

(** A source file is locked, built and closed again. *)
Lemma build_source_silent_iff_program_witness :
  exists view w1 w2,
    Source.lock (Source.from_file (lit "a.ce")) example_system = Done (inl view) w1 /\
    destroy_view view w1 = Done tt w2 /\
    exists new,
      build_source (Source.from_file (lit "a.ce")) (example_system, []) = Done tt (w2, [] ++ new) /\
      (new = [] <-> exists toks ds,
         run_lexer view LexerFlags.none default_tab_size [] = Done toks [] /\ parses_root ds toks) /\
      (new = [] -> exists toks ds,
         lexed true 0 (SourceView.get_text view) toks /\
         parses_root ds (toks ++ [fixed_token TokenKind.end_of_file (len (SourceView.get_text view))])).
Proof.
  assert (H : exists view w1 w2, Source.lock (Source.from_file (lit "a.ce")) example_system = Done (inl view) w1 /\
    destroy_view view w1 = Done tt w2).
  { eexists _, _, _. split; vm_compute; reflexivity. }
  destruct H as (view & w1 & w2 & Hlock & Hdestroy). exists view, w1, w2. split; [exact Hlock|]. split; [exact Hdestroy|].
  exact (build_source_silent_iff_program (Source.from_file (lit "a.ce")) example_system view w1 w2 [] Hlock Hdestroy).
Defined.
