(* ===== verification/SymbolTable.v ===== *)
(** The symbol table of the semantic analysis (src/cero/sema/symbol_table.hh,
    symbol_table.cc, type_context.hh) and the theorems about it. *)

From Stdlib Require Import String.
From stdpp Require Import gmap.
From S2P Require Import Prelude Platform.

(** * Data *)

(** [enum class TypeId : uint64_t] has no named values. *)
Definition TypeId : Type := Z.

Module SymbolKind.
Inductive t := function | parameter | output.
End SymbolKind.

Record Symbol := {
  kind : SymbolKind.t;
  type : TypeId;
}.

(** [std::hash<std::string_view>] *)
Class StdHash := std_hash : text -> Z.

(** A name stored with its hash. *)
Record SymbolName := {
  name : text;
  hash : Z;
}.

Definition new_symbol_name `{StdHash} (identifier : text) : SymbolName :=
  {| name := identifier; hash := std_hash identifier |}.

(** [SymbolName::operator==] *)
Definition SymbolName_eqb (a b : SymbolName) : bool := bool_decide (name a = name b).

(** [SymbolName::Hash::operator()] *)
Definition SymbolName_Hash (key : SymbolName) : Z := hash key.

(** * Scope *)

(** The [std::unordered_map]: keys are equal when their names are, so it is a
    finite map from names. *)
Module Scope.

Definition t : Type := gmap text Symbol.
Definition new : t := ∅.

(** [symbols_.emplace(SymbolName(identifier), kind)]: keeps the symbol that is
    there already; the new symbol's [type] is value-initialised. *)
Definition put `{StdHash} (symbols_ : t) (identifier : text) (kind : SymbolKind.t) : t :=
  let key := new_symbol_name identifier in
  match symbols_ !! name key with
  | Some _ => symbols_
  | None => <[name key := {| kind := kind; type := 0 |}]> symbols_
  end.

Definition find (symbols_ : t) (key : SymbolName) : option Symbol := symbols_ !! name key.

End Scope.

(** * SymbolTable *)

(** [scope_stack_], the innermost scope last. *)
Module SymbolTable.

Definition t : Type := list Scope.t.
Definition new : t := [].

Definition push_scope : M t unit := modify (fun scope_stack_ => scope_stack_ ++ [Scope.new]).

Definition empty (scope_stack_ : t) : bool := match scope_stack_ with [] => true | _ => false end.

Definition pop_scope : M t unit :=
  is_empty <- read empty ;;
  cero_assert (negb is_empty) ;;
  modify (@removelast Scope.t).

Definition put (identifier : text) (kind : SymbolKind.t) : M t unit :=
  is_empty <- read empty ;;
  cero_assert (negb is_empty).

(** The loop over the reversed stack. *)
Fixpoint find_in (scopes : list Scope.t) (key : SymbolName) : option Symbol :=
  match scopes with
  | [] => None
  | scope :: rest =>
      match Scope.find scope key with
      | Some symbol => Some symbol
      | None => find_in rest key
      end
  end.

Definition find `{StdHash} (scope_stack_ : t) (identifier : text) : option Symbol :=
  find_in (rev scope_stack_) (new_symbol_name identifier).

End SymbolTable.

(** * Lemmas *)

(** The hash agrees with equality, as [std::unordered_map] requires. *)
Lemma new_symbol_name_hash `{StdHash} a b :
  SymbolName_eqb (new_symbol_name a) (new_symbol_name b) = true ->
  SymbolName_Hash (new_symbol_name a) = SymbolName_Hash (new_symbol_name b).
Proof. intros Heq%bool_decide_eq_true. cbn in *. by rewrite Heq. Qed.

Lemma find_in_app l1 l2 key :
  SymbolTable.find_in (l1 ++ l2) key =
  match SymbolTable.find_in l1 key with Some s => Some s | None => SymbolTable.find_in l2 key end.
Proof. induction l1 as [|sc l1 IH]; cbn; [done|]. by destruct (Scope.find sc key). Qed.

Lemma find_in_none l key :
  SymbolTable.find_in l key = None <-> Forall (fun sc => Scope.find sc key = None) l.
Proof.
  induction l as [|sc l IH]; cbn; [by split|].
  rewrite Forall_cons, <-IH. destruct (Scope.find sc key); split; try done; by intros [? ?].
Qed.

(** The operations that change a table, and runs of them. *)
Inductive Operation :=
| op_push
| op_pop
| op_put (identifier : text) (kind : SymbolKind.t).

Definition run_operation (operation : Operation) : M SymbolTable.t unit :=
  match operation with
  | op_push => SymbolTable.push_scope
  | op_pop => SymbolTable.pop_scope
  | op_put identifier kind => SymbolTable.put identifier kind
  end.

Fixpoint run_operations (operations : list Operation) : M SymbolTable.t unit :=
  match operations with
  | [] => ret tt
  | operation :: rest => run_operation operation ;; run_operations rest
  end.

Lemma removelast_incl {A} (P : A -> Prop) l : Forall P l -> Forall P (removelast l).
Proof. induction 1 as [|x [|y l] Hx Hl IH]; cbn in *; auto. Qed.

Lemma run_operation_empty_scopes operation table table' :
  run_operation operation table = Done tt table' ->
  Forall (fun sc => sc = Scope.new) table -> Forall (fun sc => sc = Scope.new) table'.
Proof.
  destruct operation; cbn; unfold SymbolTable.push_scope, SymbolTable.pop_scope, SymbolTable.put, bind, read, modify.
  - intros [= <-] Hall. apply Forall_app. split; [done|by constructor].
  - destruct (SymbolTable.empty table); [done|]. intros [= <-]. apply removelast_incl.
  - destruct (SymbolTable.empty table); [done|]. by intros [= <-].
Qed.

Lemma run_operations_empty_scopes operations table table' :
  run_operations operations table = Done tt table' ->
  Forall (fun sc => sc = Scope.new) table -> Forall (fun sc => sc = Scope.new) table'.
Proof.
  revert table. induction operations as [|op ops IH]; intros table; [by intros [= <-]|].
  cbn. unfold bind. destruct (run_operation op table) as [[] t1| | |] eqn:Hop; try done.
  eauto using run_operation_empty_scopes.
Qed.

(** * Properties *)

(** [SymbolTable::find] returns a symbol exactly when it is the one that the
    innermost scope which has the name gives to it. *)
Theorem find_innermost_declaration : forall `{StdHash} table identifier symbol,
  SymbolTable.find table identifier = Some symbol <->
  exists outer scope inner,
    table = outer ++ scope :: inner /\
    Scope.find scope (new_symbol_name identifier) = Some symbol /\
    Forall (fun sc => Scope.find sc (new_symbol_name identifier) = None) inner.
Proof.
  intros SH table identifier symbol. unfold SymbolTable.find. split.
  - induction table as [|sc outer IH] using rev_ind; [done|].
    rewrite rev_unit. cbn [SymbolTable.find_in].
    destruct (Scope.find sc (new_symbol_name identifier)) as [s|] eqn:Hs.
    + intros [= ->]. by exists outer, sc, [].
    + intros (o & sc' & i & -> & Hf & Hi)%IH. exists o, sc', (i ++ [sc]).
      rewrite <-app_assoc. split_and!; [done..|]. apply Forall_app. by split; [|constructor].
  - intros (outer & scope & inner & -> & Hf & Hi).
    rewrite rev_app_distr. cbn [rev]. rewrite !find_in_app. cbn [SymbolTable.find_in]. rewrite Hf.
    rewrite (proj2 (find_in_none (rev inner) _)); [done|]. by apply Forall_rev.
Qed.

(** A name keeps the first symbol that is put into a scope under it, all other
    names are left alone, and a symbol starts with type 0. *)
Theorem scope_put_keeps_first : forall `{StdHash} scope identifier kind other,
  Scope.find (Scope.put scope identifier kind) (new_symbol_name other) =
  match Scope.find scope (new_symbol_name other) with
  | Some symbol => Some symbol
  | None => if bool_decide (identifier = other) then Some {| kind := kind; type := 0 |} else None
  end.
Proof.
  intros SH scope identifier kind other. unfold Scope.find, Scope.put, new_symbol_name, Scope.t in *. cbn [name].
  case_bool_decide as Heq.
  - subst other. destruct (scope !! identifier) eqn:Hs; rewrite ?Hs; [done|by rewrite lookup_insert_eq].
  - destruct (scope !! identifier); [by destruct (scope !! other)|].
    rewrite lookup_insert_ne by done. by destruct (scope !! other).
Qed.

(** [SymbolTable::put] declares nothing: with a scope on the stack it returns and
    leaves the table as it was, and without one its assertion fails. So a table
    that starts empty, after any sequence of its operations that returns, finds
    no name at all, whatever was put into it. *)
Theorem symbol_table_put_declares_nothing : forall `{StdHash} operations table,
  run_operations operations SymbolTable.new = Done tt table ->
  (forall identifier, SymbolTable.find table identifier = None) /\
  (forall identifier kind,
     SymbolTable.put identifier kind table = match table with [] => Aborted | _ => Done tt table end).
Proof.
  intros SH operations table Hrun. split.
  - intros identifier. unfold SymbolTable.find. rewrite find_in_none. apply Forall_rev.
    eapply Forall_impl; [apply (run_operations_empty_scopes operations SymbolTable.new _ Hrun); constructor|].
    intros sc ->. apply lookup_empty.
  - intros identifier kind. by destruct table.
Qed.

Lemma symbol_table_put_declares_nothing_witness :
  let hash : StdHash := fun _ => 0 in
  let operations := [op_push; op_put (lit "x") SymbolKind.parameter] in
  run_operations operations SymbolTable.new = Done tt [Scope.new] /\
  (forall identifier, SymbolTable.find [Scope.new] identifier = None) /\
  (forall identifier kind, SymbolTable.put identifier kind [Scope.new] = Done tt [Scope.new]).
Proof.
  split; [reflexivity|].
  exact (symbol_table_put_declares_nothing (H := fun _ => 0)
    [op_push; op_put (lit "x") SymbolKind.parameter] [Scope.new] eq_refl).
Defined.

(** Leaving a scope restores the table from before it was entered, and a scope
    hides nothing until something is put into it; leaving when no scope is open
    fails the assertion. *)
Theorem push_scope_pop_scope : forall `{StdHash} table,
  (SymbolTable.push_scope ;; SymbolTable.pop_scope) table = Done tt table /\
  SymbolTable.pop_scope [] = Aborted /\
  exists table', SymbolTable.push_scope table = Done tt table' /\
    forall identifier, SymbolTable.find table' identifier = SymbolTable.find table identifier.
Proof.
  intros SH table. split_and!.
  - unfold bind, SymbolTable.push_scope, SymbolTable.pop_scope, modify, read, cero_assert, bind.
    assert (He : SymbolTable.empty (table ++ [Scope.new]) = false) by by destruct table.
    rewrite He. cbn. by rewrite removelast_last.
  - done.
  - exists (table ++ [Scope.new]). split; [done|]. intros identifier.
    unfold SymbolTable.find. by rewrite rev_unit.
Qed.
