(* ===== verification/TypeChecker.v ===== *)
(** The type checker as far as it goes (src/cero/sema/type_checker.cc) with its
    output (src/cero/sema/tir_tree.hh, tir_tree.cc): it is a visitor of the syntax
    tree that keeps a symbol table. *)

From Stdlib Require Import String.
From S2P Require Import Prelude Report Source SymbolTable Ast.

(** * TIR *)

Module TirNodeKind.
Inductive t := function.
End TirNodeKind.

(** [TirNode]; a [TirFunction] has no other members. *)
Record TirNode := {
  tir_node_kind : TirNodeKind.t;
  tir_token_offset : Z;
}.

Definition new_tir_function (offset : Z) : TirNode :=
  {| tir_node_kind := TirNodeKind.function; tir_token_offset := Z.land offset 0xffffff |}.

Record TirTree := { symbols : list TirNode }.
Definition new_tir_tree : TirTree := {| symbols := [] |}.

(** * TypeChecker *)

Record TypeChecker := {
  tir_ : TirTree;
  sym_table_ : SymbolTable.t;
}.

Definition T (A : Type) : Type := M TypeChecker A.

(** A member function of [sym_table_]. *)
Definition on_sym_table {A} (m : M SymbolTable.t A) : T A := fun s =>
  match m (sym_table_ s) with
  | Done a t => Done a {| tir_ := tir_ s; sym_table_ := t |}
  | Thrown t => Thrown {| tir_ := tir_ s; sym_table_ := t |}
  | Aborted => Aborted
  | OutOfFuel => OutOfFuel
  end.

(** [put(tir_.root_->symbols, fn)] *)
Definition put_symbol (node : TirNode) : T unit :=
  modify (fun s => {| tir_ := {| symbols := symbols (tir_ s) ++ [node] |}; sym_table_ := sym_table_ s |}).

(** [for (auto x : l) f(x);] *)
Fixpoint for_each {S A} (l : list A) (f : A -> M S unit) : M S unit :=
  match l with
  | [] => ret tt
  | x :: l => f x ;; for_each l f
  end.

(** The member functions have the names of the virtual functions they override. *)
Module Checker.
Section Checker.
Context `{StdHash} (source_ : SourceView.t).
#[local] Abbreviation source_text_ := (SourceView.get_text source_).

Definition visit_function_parameter (param : AstFunctionParameter) : T unit :=
  name <- expect_some (AstName_get (param_name param) source_text_) ;;
  on_sym_table (SymbolTable.put name SymbolKind.parameter).

Definition visit_function_output (output : AstFunctionOutput) : T unit :=
  name <- expect_some (AstName_get (output_name output) source_text_) ;;
  on_sym_table (SymbolTable.put name SymbolKind.output).

(** The symbol that is found is not used. *)
Definition visit_ident_expr (offset length : Z) : T unit :=
  name <- expect_some (substr source_text_ offset length) ;;
  symbol <- on_sym_table (read (fun table => SymbolTable.find table name)) ;;
  ret tt.

(** The visitor, given its handler of function definitions. *)
Definition visitor (visit_function_definition : AstFunctionDefinition -> T unit) : AstVisitor (T unit) := {|
  Ast.visit_function_definition := visit_function_definition;
  Ast.visit_function_parameter := visit_function_parameter;
  Ast.visit_function_output := visit_function_output;
  Ast.visit_ident_expr := visit_ident_expr;
  visit_literal_expr _ _ _ := ret tt;
  visit_block_expr _ _ := ret tt;
  visit_return_expr _ _ := ret tt;
  visit_unary_expr _ _ _ := ret tt;
  visit_binary_expr _ _ _ _ := ret tt;
  visit_call_expr _ _ _ := ret tt;
|}.

(** The call of [visit] on a statement. Statements are expressions, so that the visitor's handler
    of function definitions is not reached. *)
Definition visit_statement (statement : AstExpression) : T unit :=
  visit (H := visitor (fun _ => abort)) (node_expression statement).

Definition visit_function_definition (fn_def : AstFunctionDefinition) : T unit :=
  let fn := new_tir_function (def_token_offset fn_def) in
  on_sym_table SymbolTable.push_scope ;;
  for_each (parameters fn_def) visit_function_parameter ;;
  for_each (outputs fn_def) visit_function_output ;;
  for_each (statements fn_def) visit_statement ;;
  put_symbol fn ;;
  on_sym_table SymbolTable.pop_scope.

#[export] Instance checker_visitor : AstVisitor (T unit) := visitor visit_function_definition.

Definition run (root : AstRoot) : T unit :=
  for_each (definitions root) (fun def => visit (node_function_definition def)).

(** [run_type_checker] on a reporter that has received [reports]; nothing is
    reported yet. *)
Definition run_type_checker (root : AstRoot) : M (list Report) TirTree := fun reports =>
  match run root {| tir_ := new_tir_tree; sym_table_ := SymbolTable.new |} with
  | Done _ type_checker => Done (tir_ type_checker) reports
  | Thrown _ => Thrown reports
  | Aborted => Aborted
  | OutOfFuel => OutOfFuel
  end.

End Checker.
End Checker.

(** * Lemmas *)

(** The statements' dispatch is that of the whole visitor. *)
Lemma visit_statement_visitor `{StdHash} source statement :
  Checker.visit_statement source statement =
  visit (H := Checker.checker_visitor source) (node_expression statement).
Proof. by destruct statement. Qed.

(** An offset that [substr] accepts. *)
Definition readable (source : SourceView.t) (offset : Z) : Prop :=
  offset <= Z.of_nat (length (SourceView.get_text source)).

Definition statement_readable (source : SourceView.t) (statement : AstExpression) : Prop :=
  match statement with AstIdentExpr o _ => readable source o | _ => True end.

(** The names that the type checker reads. *)
Record function_readable (source : SourceView.t) (fn_def : AstFunctionDefinition) : Prop := {
  parameters_readable : Forall (fun p => readable source (name_offset (param_name p))) (parameters fn_def);
  outputs_readable : Forall (fun p => readable source (name_offset (output_name p))) (outputs fn_def);
  statements_readable : Forall (statement_readable source) (statements fn_def);
}.

Section Facts.
Context `{StdHash} (source : SourceView.t).

Lemma substr_readable o n : readable source o -> is_Some (substr (SourceView.get_text source) o n).
Proof.
  intros Ho. unfold substr, readable in *.
  destruct (Z.ltb_spec (Z.of_nat (length (SourceView.get_text source))) o); [lia|eauto].
Qed.

(** A step that leaves the state alone, as long as a scope is open. *)
Definition stays (m : T unit) : Prop :=
  forall tir sc table, m {| tir_ := tir; sym_table_ := sc :: table |} =
    Done tt {| tir_ := tir; sym_table_ := sc :: table |}.

Lemma stays_for_each {A} (l : list A) f : Forall (fun x => stays (f x)) l -> stays (for_each l f).
Proof.
  induction 1 as [|x l Hx _ IH]; intros tir sc table; cbn; [done|].
  unfold bind. rewrite Hx. apply IH.
Qed.

Lemma stays_put o n kind :
  readable source o ->
  stays (name <- expect_some (substr (SourceView.get_text source) o n) ;;
         on_sym_table (SymbolTable.put name kind)).
Proof.
  intros Ho tir sc table. destruct (substr_readable o n Ho) as [name Hname].
  unfold bind. by rewrite Hname.
Qed.

Lemma stays_statement e : statement_readable source e -> stays (Checker.visit_statement source e).
Proof.
  intros He tir sc table. destruct e as [o n|o k n|o es|o es|o op e|o op e1 e2|o e es]; try done.
  destruct (substr_readable o n He) as [name Hname].
  unfold Checker.visit_statement. cbn. unfold Checker.visit_ident_expr, bind. by rewrite Hname.
Qed.

Lemma pop_pushed table sc rest :
  table ++ [Scope.new] = sc :: rest -> SymbolTable.pop_scope (sc :: rest) = Done tt table.
Proof.
  intros <-. unfold SymbolTable.pop_scope, bind, read, modify.
  destruct (SymbolTable.empty (table ++ [Scope.new])) eqn:He; [by destruct table|].
  cbn. by rewrite removelast_last.
Qed.

Lemma visit_function_definition_readable fn_def tir table :
  function_readable source fn_def ->
  Checker.visit_function_definition source fn_def {| tir_ := tir; sym_table_ := table |} =
  Done tt {| tir_ := {| symbols := symbols tir ++ [new_tir_function (def_token_offset fn_def)] |};
             sym_table_ := table |}.
Proof.
  intros [Hp Ho Hs]. unfold Checker.visit_function_definition, bind at 1.
  cbn [on_sym_table SymbolTable.push_scope modify tir_ sym_table_].
  assert (Hstays : stays (
    for_each (parameters fn_def) (Checker.visit_function_parameter source) ;;
    for_each (outputs fn_def) (Checker.visit_function_output source) ;;
    for_each (statements fn_def) (Checker.visit_statement source))).
  { intros tir0 sc table0. unfold bind. rewrite !stays_for_each; [done|..].
    - eapply Forall_impl; [exact Hs|]. apply stays_statement.
    - eapply Forall_impl; [exact Ho|]. intros. by apply stays_put.
    - eapply Forall_impl; [exact Hp|]. intros. by apply stays_put. }
  destruct (table ++ [Scope.new]) as [|sc rest] eqn:Htable; [by destruct table|].
  specialize (Hstays tir sc rest). unfold bind in *.
  destruct (for_each (parameters fn_def) _ _) as [[] s1| | |]; try done.
  destruct (for_each (outputs fn_def) _ s1) as [[] s2| | |]; try done. rewrite Hstays.
  unfold put_symbol, modify, on_sym_table. cbn [sym_table_ tir_]. by rewrite (pop_pushed table sc rest).
Qed.

Lemma run_readable ds tir table :
  Forall (function_readable source) ds ->
  Checker.run source {| definitions := ds |} {| tir_ := tir; sym_table_ := table |} =
  Done tt {| tir_ := {| symbols := symbols tir ++ (new_tir_function ∘ def_token_offset <$> ds) |};
             sym_table_ := table |}.
Proof.
  intros Hds. unfold Checker.run. cbn [definitions]. revert tir.
  induction Hds as [|d ds Hd _ IH]; intros tir; cbn [for_each fmap list_fmap].
  - rewrite app_nil_r. by destruct tir.
  - unfold bind. change (visit (node_function_definition d)) with (Checker.visit_function_definition source d).
    rewrite visit_function_definition_readable by done. rewrite IH. cbn [symbols]. by rewrite <-app_assoc.
Qed.

End Facts.
