(* ===== verification/TypeCheckerTheorems.v ===== *)
(** The theorem about the type checker: a program that the front end accepts is
    type checked without failure, and its TIR has the program's functions. *)

From Stdlib Require Import String.
From S2P Require Import Prelude Report Source SourceFacts Testing Token Flags SymbolTable.
From S2P Require Import Lexer LexerSpec LexerCorrect Ast Parser Grammar ParserFacts ParserSound.
From S2P Require Import Pipeline BuildTheorems TypeChecker.

(** * Names of derived trees *)

(** The offsets of identifiers in a derived tree are offsets of its tokens. *)
Section Names.
Context (source : SourceView.t).

Definition token_readable (t : Token) : Prop := 0 <= offset t /\ readable source (offset t).

#[local] Abbreviation all := (Forall token_readable).
#[local] Abbreviation named := (statement_readable source).

Lemma node_offset_readable t : token_readable t -> readable source (node_offset (offset t)).
Proof.
  intros [H0 H1]. unfold readable, node_offset in *.
  change 0xffffff with (Z.ones 24). rewrite Z.land_ones by done.
  pose proof (Z.mod_le (offset t) (2 ^ 24) H0 eq_refl). lia.
Qed.

Lemma grammar_readable :
  (forall p e it it', parses_expr p e it it' -> all it -> named e /\ all it') /\
  (forall e it it', parses_head e it it' -> all it -> named e /\ all it') /\
  (forall p e0 e it it', parses_tails p e0 e it it' -> all it -> named e0 -> named e /\ all it') /\
  (forall es it it', parses_list es it it' -> all it -> all it') /\
  (forall es it it', parses_block es it it' -> all it -> Forall named es /\ all it') /\
  (forall e it it', parses_stmt e it it' -> all it -> named e /\ all it').
Proof.
  apply grammar_ind.
  - intros p e0 e it it1 it' _ IH1 _ IH2 Hit. destruct (IH1 Hit). auto.
  - intros t it _ Hit. inversion Hit; subst. split; [by apply node_offset_readable|done].
  - intros t it k _ Hit. by inversion Hit.
  - intros t es it it' _ _ IH Hit. inversion Hit; subst. split; [done|]. by apply IH.
  - intros t it _ _ Hit. by inversion Hit.
  - intros t es it it' _ _ _ IH Hit. inversion Hit; subst. split; [done|]. by apply IH.
  - intros t op e it it' _ _ IH Hit. inversion Hit; subst. split; [done|]. by apply IH.
  - done.
  - intros p e0 e op right t it it1 it2 it' _ Hit1 _ IHr _ IHt Hit _. inversion Hit as [|? ? _ Hall]; subst.
    apply IHt; [|done]. apply IHr. case_bool_decide; [|done]. by destruct Hall.
  - intros p e0 e op t it it' _ _ IH Hit _. inversion Hit; subst. by apply IH.
  - intros p e0 e t t2 it it' _ _ _ IH Hit _. inversion Hit as [|? ? _ Hall]; subst. inversion Hall; subst. by apply IH.
  - intros p e0 e args t t2 it it2 it' _ _ _ IHl _ _ IH Hit _. inversion Hit as [|? ? _ Hall]; subst.
    specialize (IHl Hall). inversion IHl; subst. by apply IH.
  - intros e it it' _ IH _ Hit. by apply IH.
  - intros e es t it it1 it' _ IH1 _ _ IH2 Hit. destruct (IH1 Hit) as [_ Hall]. inversion Hall; subst. auto.
  - intros t it _ Hit. by inversion Hit.
  - intros e es it it1 it' _ _ IH1 _ IH2 Hit. destruct (IH1 Hit) as [He Hall]. destruct (IH2 Hall). auto.
  - intros t es it it' _ _ IH Hit. inversion Hit; subst. split; [done|]. by apply IH.
  - intros e t it it' _ _ IH _ Hit. destruct (IH Hit) as [He Hall]. by inversion Hall.
Qed.

(** Elements separated by commas, whose derivations keep the tokens readable. *)
Lemma sep_readable {A} (R : A -> list Token -> list Token -> Prop) (Q : A -> Prop) l it it' :
  (forall a it it', R a it it' -> all it -> Q a /\ all it') ->
  sep R l it it' -> all it -> Forall Q l /\ all it'.
Proof.
  intros HR. induction 1 as [a it it' Ha _|a l t it it1 it' Ha _ _ IH]; intros Hit.
  - destruct (HR _ _ _ Ha Hit). auto.
  - destruct (HR _ _ _ Ha Hit) as [? Hall]. inversion Hall; subst. destruct IH; auto.
Qed.

Lemma parameter_readable p it it' :
  parses_parameter p it it' -> all it -> readable source (name_offset (param_name p)) /\ all it'.
Proof.
  destruct 1 as [t type t2 it it' Htype _]. intros Hit. inversion Htype; subst.
  inversion Hit as [|? ? _ Hall]; subst. inversion Hall as [|? ? [_ Ht] ?]; subst. done.
Qed.

Lemma parameters_readable' ps it it' :
  parses_parameters ps it it' -> all it ->
  Forall (fun p => readable source (name_offset (param_name p))) ps /\ all it'.
Proof.
  destruct 1 as [t it _|l t it it' _ Hsep _]; intros Hit.
  - by inversion Hit.
  - destruct (sep_readable _ _ _ _ _ parameter_readable Hsep Hit) as [Hl Hall]. by inversion Hall.
Qed.

Lemma output_readable p it it' :
  parses_output p it it' -> all it -> readable source (name_offset (output_name p)) /\ all it'.
Proof.
  destruct 1 as [t type it it' Htype]. intros Hit. inversion Htype; subst.
  inversion Hit; subst. split; [|done]. cbn. unfold readable. lia.
Qed.

Lemma outputs_readable' os it it' :
  parses_outputs os it it' -> all it ->
  Forall (fun p => readable source (name_offset (output_name p))) os /\ all it'.
Proof.
  destruct 1 as [it _|l t it it' _ Hsep]; intros Hit; [split; [constructor|done]|].
  inversion Hit; subst. by eapply (sep_readable _ _ _ _ _ output_readable Hsep).
Qed.

Lemma access_readable a it it' : parses_access a it it' -> all it -> all it'.
Proof. destruct 1; intros Hit; [by inversion Hit..|done]. Qed.

Lemma definition_readable d it it' :
  parses_definition d it it' -> all it -> function_readable source d /\ all it'.
Proof.
  destruct 1 as [t access name paren brace params outs body it it1 it2 it3 it' Ha _ _ Hp Ho _ Hb].
  intros Hit. apply (access_readable _ _ _ Ha) in Hit.
  inversion Hit as [|? ? _ Hit2]; subst. inversion Hit2 as [|? ? _ Hit3]; subst.
  destruct (parameters_readable' _ _ _ Hp Hit3) as [Hps Hit4].
  destruct (outputs_readable' _ _ _ Ho Hit4) as [Hos Hit5]. inversion Hit5 as [|? ? _ Hit6]; subst.
  destruct grammar_readable as (_ & _ & _ & _ & Hblock & _).
  by destruct (Hblock _ _ _ Hb Hit6).
Qed.

Lemma root_readable ds it : parses_root ds it -> all it -> Forall (function_readable source) ds.
Proof.
  induction 1 as [t _|d ds it it' _ Hd _ IH]; intros Hit; [constructor|].
  destruct (definition_readable _ _ _ Hd Hit). auto.
Qed.

End Names.

(** The lexer's tokens start inside the text. *)
Lemma run_lexer_readable `{Fmt} source flags tab_size reports toks reports' :
  0 <= tab_size < 256 -> run_lexer source flags tab_size reports = Done toks reports' ->
  Forall (token_readable source) toks.
Proof.
  intros Htab Hrun.
  destruct (Z.le_gt_cases (len (SourceView.get_text source)) source_size_max) as [Hs|Hs].
  - destruct (run_lexer_result _ _ _ _ _ _ Hs Htab Hrun)
      as (w & rest & toks' & last & reps & Htxt & Hl & -> & _ & Hlast & _ & _).
    apply Forall_app. split; [|constructor; [|constructor]].
    + apply Forall_forall. intros t Hin.
      destruct (lexed_get_text _ _ _ _ _ _ _ Htxt Hl Hin) as (p & v & q & Hcut & Ho & _).
      change (0 <= offset t /\ offset t <= len (SourceView.get_text source)). rewrite Hcut, Ho. len_lia.
    + change (0 <= offset last /\ offset last <= len (SourceView.get_text source)). rewrite Hlast, Htxt. len_lia.
  - destruct (run_lexer_too_large source flags tab_size reports Hs) as (r & _ & Hrun').
    rewrite Hrun in Hrun'. injection Hrun' as -> _.
    constructor; [|constructor]. change (0 <= 0 /\ 0 <= len (SourceView.get_text source)). len_lia.
Qed.

(** * Property *)

(** C34. Every program that the parser accepts without a report is type checked to the
    end: every name that the type checker reads lies inside the source, the scopes
    it opens are closed again, nothing is reported, and the TIR has exactly one
    function for each definition, in their order and with their offsets. *)
Theorem type_checker_translates_definitions :
  forall `{Fmt} `{StdHash} source flags tab_size toks reports reports' root,
  0 <= tab_size < 256 ->
  run_lexer source flags tab_size reports = Done toks reports' ->
  run_parser source tab_size toks reports' = Done root reports' ->
  Checker.run source root {| tir_ := new_tir_tree; sym_table_ := SymbolTable.new |} =
    Done tt {| tir_ := {| symbols := new_tir_function ∘ def_token_offset <$> definitions root |};
               sym_table_ := SymbolTable.new |} /\
  Checker.run_type_checker source root reports' =
    Done {| symbols := new_tir_function ∘ def_token_offset <$> definitions root |} reports'.
Proof.
  intros F SH source flags tab_size toks reports reports' root Htab Hlex Hparse.
  destruct (run_lexer_good source flags tab_size reports Htab) as (toks' & reps & Hlex' & Hg & _).
  rewrite Hlex in Hlex'. injection Hlex' as <- ->.
  destruct (run_parser_result source tab_size toks (reports ++ reps) Hg) as (root' & new & Hparse' & Hroot).
  rewrite Hparse in Hparse'. injection Hparse' as <- Hnew.
  assert (new = []) as ->.
  { apply (app_inv_head (reports ++ reps)). by rewrite app_nil_r. }
  assert (Hread : Forall (function_readable source) (definitions root)).
  { eapply root_readable; [by apply Hroot|]. by eapply run_lexer_readable. }
  destruct root as [ds]. pose proof (run_readable source ds new_tir_tree SymbolTable.new Hread) as Hrun.
  split; [exact Hrun|]. unfold Checker.run_type_checker. by rewrite Hrun.
Qed.

Lemma type_checker_translates_definitions_witness :
  let source := test_source (lit "f() { x; } g(Int a) -> Int { return a; }") (lit "t") in
  exists toks root,
    run_lexer source LexerFlags.none 4 [] = Done toks [] /\
    run_parser source 4 toks [] = Done root [] /\
    Checker.run_type_checker (H := fun _ => 0) source root [] =
      Done {| symbols := [new_tir_function 0; new_tir_function 11] |} [].
Proof.
  set (source := test_source (lit "f() { x; } g(Int a) -> Int { return a; }") (lit "t")).
  assert (Hlex : exists toks, run_lexer source LexerFlags.none 4 [] = Done toks [] /\
    exists root, run_parser source 4 toks [] = Done root [] /\
    def_token_offset <$> definitions root = [0; 11])
    by (eexists; split; [vm_compute; reflexivity|];
        eexists; split; [vm_compute; reflexivity|vm_compute; reflexivity]).
  destruct Hlex as (toks & Hlex & root & Hparse & Hds). exists toks, root.
  split; [exact Hlex|]. split; [exact Hparse|].
  destruct (type_checker_translates_definitions (H0 := fun _ => 0) source LexerFlags.none 4 toks [] [] root
    ltac:(lia) Hlex Hparse) as [_ ->].
  by rewrite list_fmap_compose, Hds.
Defined.
