(* ===== verification/TestSuite.v ===== *)
(** The repository's own tests of the lexer, the parser and the build
    (src/tests/syntax, src/tests/compile) as examples: the definitions evaluate to
    what the tests expect of the program. *)

From Stdlib Require Import Ascii String.
From S2P Require Import Prelude Report Platform FileView PosixModel WindowsModel Source Testing Token.
From S2P Require Import Flags Lexer Ast Outline AstCompare Parser Build BuildTheorems.

#[local] Open Scope char_scope.
#[local] Open Scope Z_scope.

(** * Helpers of the tests (src/tests/syntax/common.cc, src/tests/common/test.cc) *)

#[export] Instance Token_eq_dec : EqDecision Token.
Proof. solve_decision. Defined.

(** [TestReporter r;] without expectations. *)
Definition silent_reporter : TestReporter := new_test_reporter [].

(** [check_tokens_equal] *)
Definition check_tokens_equal (source_text : text) (expected_tokens : list Token) : bool :=
  let source := test_source source_text [] in
  match run_lexer source LexerFlags.emit_comments default_tab_size [] with
  | Done tokens reports =>
      bool_decide (get_array tokens = expected_tokens) && test_passes (deliver reports silent_reporter)
  | _ => false
  end.

(** [parse_source]; [None] when a report arrives or the run fails. *)
Definition parse_source (source_text : text) : option AstRoot :=
  let source := test_source source_text [] in
  match run_lexer source LexerFlags.none default_tab_size [] with
  | Done token_list reports =>
      match run_parser source default_tab_size token_list reports with
      | Done ast reports => if test_passes (deliver reports silent_reporter) then Some ast else None
      | _ => None
      end
  | _ => None
  end.

(** A build of any source against the expectations of a reporter. *)
Definition build_expecting {W} `{Platform W} (source : Source.t) (w : W) (r : TestReporter) : bool :=
  match build_source source (w, []) with
  | Done _ (_, reports) => test_passes (deliver reports r)
  | _ => false
  end.

(** [build_test_source] *)
Definition build_test_source (r : TestReporter) (source_text : text) : bool :=
  build_expecting (Source.from_string source_text (source_name_ r)) example_system r.

(** * Lexer results (src/tests/syntax/lexer_results.cc) *)

Example lexer_empty_source : check_tokens_equal
    ([])
    [make_token TokenKind.end_of_file 0 0] = true.
Proof. vm_compute. reflexivity. Qed.

Example lexer_pi_const : check_tokens_equal
    (lit "
const π = 3.1415926535 8979323846 2643383279 5028841971 6939937510 5820974944 5923078164 0628620899 8628034825 3421170679
            8214808651 3282306647 0938446095 5058223172 5359408128 4811174502 8410270193 8521105559 6446229489 5493038196
            4428810975 6659334461 2847564823 3786783165 2712019091 4564856692 3460348610 4543266482;
")
    [make_token TokenKind.kw_const 1 0;
     make_token TokenKind.identifier 7 2;
     make_token TokenKind.eq 10 0;
     make_token TokenKind.float_literal 12 333;
     make_token TokenKind.semicolon 345 0;
     make_token TokenKind.end_of_file 347 0] = true.
Proof. vm_compute. reflexivity. Qed.

(** * Identifiers (src/tests/syntax/lexer_identifiers.cc) *)

Example lexer_ascii_identifiers : check_tokens_equal
    (lit "a _ _a z_ abc abc09 a0b0c0 A1B2C3 _0 _111 _1ac something_something_123 ___________________________________")
    [make_token TokenKind.identifier 0 1;
     make_token TokenKind.identifier 2 1;
     make_token TokenKind.identifier 4 2;
     make_token TokenKind.identifier 7 2;
     make_token TokenKind.identifier 10 3;
     make_token TokenKind.identifier 14 5;
     make_token TokenKind.identifier 20 6;
     make_token TokenKind.identifier 27 6;
     make_token TokenKind.identifier 34 2;
     make_token TokenKind.identifier 37 4;
     make_token TokenKind.identifier 42 4;
     make_token TokenKind.identifier 47 23;
     make_token TokenKind.identifier 71 35;
     make_token TokenKind.end_of_file 106 0] = true.
Proof. vm_compute. reflexivity. Qed.

Example lexer_unicode_identifiers : check_tokens_equal
    (lit "Москва()東京()München()Vrå()Østerbro()Δ()")
    [make_token TokenKind.identifier 0 12;
     make_token TokenKind.l_paren 12 0;
     make_token TokenKind.r_paren 13 0;
     make_token TokenKind.identifier 14 6;
     make_token TokenKind.l_paren 20 0;
     make_token TokenKind.r_paren 21 0;
     make_token TokenKind.identifier 22 8;
     make_token TokenKind.l_paren 30 0;
     make_token TokenKind.r_paren 31 0;
     make_token TokenKind.identifier 32 4;
     make_token TokenKind.l_paren 36 0;
     make_token TokenKind.r_paren 37 0;
     make_token TokenKind.identifier 38 9;
     make_token TokenKind.l_paren 47 0;
     make_token TokenKind.r_paren 48 0;
     make_token TokenKind.identifier 49 2;
     make_token TokenKind.l_paren 51 0;
     make_token TokenKind.r_paren 52 0;
     make_token TokenKind.end_of_file 53 0] = true.
Proof. vm_compute. reflexivity. Qed.

(** * Literals and comments (src/tests/syntax/lexer_literals.cc) *)

Example lexer_dec_int_literals : check_tokens_equal
    (lit "0;1;15;100;1234567890;0123456789;1 000 000 000;1 234 567 890;0 000 000 000;2 000 125 000 ;  123 456  ")
    [make_token TokenKind.dec_int_literal 0 1;
     make_token TokenKind.semicolon 1 0;
     make_token TokenKind.dec_int_literal 2 1;
     make_token TokenKind.semicolon 3 0;
     make_token TokenKind.dec_int_literal 4 2;
     make_token TokenKind.semicolon 6 0;
     make_token TokenKind.dec_int_literal 7 3;
     make_token TokenKind.semicolon 10 0;
     make_token TokenKind.dec_int_literal 11 10;
     make_token TokenKind.semicolon 21 0;
     make_token TokenKind.dec_int_literal 22 10;
     make_token TokenKind.semicolon 32 0;
     make_token TokenKind.dec_int_literal 33 13;
     make_token TokenKind.semicolon 46 0;
     make_token TokenKind.dec_int_literal 47 13;
     make_token TokenKind.semicolon 60 0;
     make_token TokenKind.dec_int_literal 61 13;
     make_token TokenKind.semicolon 74 0;
     make_token TokenKind.dec_int_literal 75 13;
     make_token TokenKind.semicolon 89 0;
     make_token TokenKind.dec_int_literal 92 7;
     make_token TokenKind.end_of_file 101 0] = true.
Proof. vm_compute. reflexivity. Qed.

Example lexer_hex_int_literals : check_tokens_equal
    (lit "0x1234567890ABCDEF;0x1 A B 3 C;0x FA 34 B3 FB;0xAC5 FB2 67A 91E;0x;0xABCD  0197  2562  7810;0xABCDEFGHIJKLMNOPQRSTUVWXYZ;0x0;0x1i;0x02 ")
    [make_token TokenKind.hex_int_literal 0 18;
     make_token TokenKind.semicolon 18 0;
     make_token TokenKind.hex_int_literal 19 11;
     make_token TokenKind.semicolon 30 0;
     make_token TokenKind.hex_int_literal 31 14;
     make_token TokenKind.semicolon 45 0;
     make_token TokenKind.hex_int_literal 46 17;
     make_token TokenKind.semicolon 63 0;
     make_token TokenKind.hex_int_literal 64 2;
     make_token TokenKind.semicolon 66 0;
     make_token TokenKind.hex_int_literal 67 24;
     make_token TokenKind.semicolon 91 0;
     make_token TokenKind.hex_int_literal 92 8;
     make_token TokenKind.identifier 100 20;
     make_token TokenKind.semicolon 120 0;
     make_token TokenKind.hex_int_literal 121 3;
     make_token TokenKind.semicolon 124 0;
     make_token TokenKind.hex_int_literal 125 3;
     make_token TokenKind.identifier 128 1;
     make_token TokenKind.semicolon 129 0;
     make_token TokenKind.hex_int_literal 130 4;
     make_token TokenKind.end_of_file 135 0] = true.
Proof. vm_compute. reflexivity. Qed.

Example lexer_bin_int_literals : check_tokens_equal
    (lit "0b1010 ;   0b1111 0000  ;0b1010 1100 0011;0b0;0b1 ; 0b;0b2 ; 0b01101102; 0b1104 3100; 0b1i;0b 001")
    [make_token TokenKind.bin_int_literal 0 6;
     make_token TokenKind.semicolon 7 0;
     make_token TokenKind.bin_int_literal 11 11;
     make_token TokenKind.semicolon 24 0;
     make_token TokenKind.bin_int_literal 25 16;
     make_token TokenKind.semicolon 41 0;
     make_token TokenKind.bin_int_literal 42 3;
     make_token TokenKind.semicolon 45 0;
     make_token TokenKind.bin_int_literal 46 3;
     make_token TokenKind.semicolon 50 0;
     make_token TokenKind.bin_int_literal 52 2;
     make_token TokenKind.semicolon 54 0;
     make_token TokenKind.bin_int_literal 55 3;
     make_token TokenKind.semicolon 59 0;
     make_token TokenKind.bin_int_literal 61 10;
     make_token TokenKind.semicolon 71 0;
     make_token TokenKind.bin_int_literal 73 11;
     make_token TokenKind.semicolon 84 0;
     make_token TokenKind.bin_int_literal 86 3;
     make_token TokenKind.identifier 89 1;
     make_token TokenKind.semicolon 90 0;
     make_token TokenKind.bin_int_literal 91 6;
     make_token TokenKind.end_of_file 97 0] = true.
Proof. vm_compute. reflexivity. Qed.

Example lexer_oct_int_literals : check_tokens_equal
    (lit "0o1234567;  0o1 2 3 4  ;0o765 432 100;0o0;0o7 ; 0o;0o8 ; 0o01234568; 0o 7i")
    [make_token TokenKind.oct_int_literal 0 9;
     make_token TokenKind.semicolon 9 0;
     make_token TokenKind.oct_int_literal 12 9;
     make_token TokenKind.semicolon 23 0;
     make_token TokenKind.oct_int_literal 24 13;
     make_token TokenKind.semicolon 37 0;
     make_token TokenKind.oct_int_literal 38 3;
     make_token TokenKind.semicolon 41 0;
     make_token TokenKind.oct_int_literal 42 3;
     make_token TokenKind.semicolon 46 0;
     make_token TokenKind.oct_int_literal 48 2;
     make_token TokenKind.semicolon 50 0;
     make_token TokenKind.oct_int_literal 51 3;
     make_token TokenKind.semicolon 55 0;
     make_token TokenKind.oct_int_literal 57 10;
     make_token TokenKind.semicolon 67 0;
     make_token TokenKind.oct_int_literal 69 4;
     make_token TokenKind.identifier 73 1;
     make_token TokenKind.end_of_file 74 0] = true.
Proof. vm_compute. reflexivity. Qed.

Example lexer_float_literals : check_tokens_equal
    (lit "1.0;1.; .4 ; .045;100 000.000 231;  234 5 . 23 948  ;1..z;234.s;1.0.a")
    [make_token TokenKind.float_literal 0 3;
     make_token TokenKind.semicolon 3 0;
     make_token TokenKind.dec_int_literal 4 1;
     make_token TokenKind.dot 5 0;
     make_token TokenKind.semicolon 6 0;
     make_token TokenKind.float_literal 8 2;
     make_token TokenKind.semicolon 11 0;
     make_token TokenKind.float_literal 13 4;
     make_token TokenKind.semicolon 17 0;
     make_token TokenKind.float_literal 18 15;
     make_token TokenKind.semicolon 33 0;
     make_token TokenKind.float_literal 36 14;
     make_token TokenKind.semicolon 52 0;
     make_token TokenKind.dec_int_literal 53 1;
     make_token TokenKind.dot 54 0;
     make_token TokenKind.dot 55 0;
     make_token TokenKind.identifier 56 1;
     make_token TokenKind.semicolon 57 0;
     make_token TokenKind.dec_int_literal 58 3;
     make_token TokenKind.dot 61 0;
     make_token TokenKind.identifier 62 1;
     make_token TokenKind.semicolon 63 0;
     make_token TokenKind.float_literal 64 3;
     make_token TokenKind.dot 67 0;
     make_token TokenKind.identifier 68 1;
     make_token TokenKind.end_of_file 69 0] = true.
Proof. vm_compute. reflexivity. Qed.

Example lexer_string_literals : check_tokens_equal
    (lit "
" ++ [double_quote] ++ lit "123\" ++ [double_quote] ++ [double_quote] ++ lit "
" ++ [double_quote] ++ lit "\" ++ [double_quote] ++ [double_quote] ++ lit "
" ++ [double_quote] ++ [double_quote] ++ lit "
" ++ [double_quote] ++ lit "\\" ++ [double_quote] ++ lit "
" ++ [double_quote] ++ lit "\a" ++ [double_quote] ++ lit "
" ++ [double_quote] ++ lit "\np" ++ [double_quote] ++ lit "
" ++ [double_quote] ++ lit "\" ++ [double_quote] ++ lit "\\a\a" ++ [double_quote] ++ lit "
" ++ [double_quote] ++ lit "\" ++ [double_quote] ++ lit "\\\" ++ [double_quote] ++ lit "\\\\a\\a\" ++ [double_quote] ++ [double_quote] ++ lit "
" ++ [double_quote] ++ lit "something something something dark side" ++ [double_quote] ++ lit "
")
    [make_token TokenKind.string_literal 1 7;
     make_token TokenKind.string_literal 9 4;
     make_token TokenKind.string_literal 14 2;
     make_token TokenKind.string_literal 17 4;
     make_token TokenKind.string_literal 22 4;
     make_token TokenKind.string_literal 27 5;
     make_token TokenKind.string_literal 33 9;
     make_token TokenKind.string_literal 43 18;
     make_token TokenKind.string_literal 62 41;
     make_token TokenKind.end_of_file 104 0] = true.
Proof. vm_compute. reflexivity. Qed.

Example lexer_char_literals : check_tokens_equal
    (lit "
'a'
'0'
'\0'
''
'\\'
'\n'
'abc'
'\''
'" ++ [double_quote] ++ lit "'
")
    [make_token TokenKind.char_literal 1 3;
     make_token TokenKind.char_literal 5 3;
     make_token TokenKind.char_literal 9 4;
     make_token TokenKind.char_literal 14 2;
     make_token TokenKind.char_literal 17 4;
     make_token TokenKind.char_literal 22 4;
     make_token TokenKind.char_literal 27 5;
     make_token TokenKind.char_literal 33 4;
     make_token TokenKind.char_literal 38 3;
     make_token TokenKind.end_of_file 42 0] = true.
Proof. vm_compute. reflexivity. Qed.

Example lexer_line_comments : check_tokens_equal
    (lit "
//
// abc
// //
// there must be trailing whitespace here -> 
// // //
")
    [make_token TokenKind.line_comment 1 2;
     make_token TokenKind.line_comment 4 6;
     make_token TokenKind.line_comment 11 5;
     make_token TokenKind.line_comment 17 45;
     make_token TokenKind.line_comment 63 8;
     make_token TokenKind.end_of_file 72 0] = true.
Proof. vm_compute. reflexivity. Qed.

Example lexer_block_comments : check_tokens_equal
    (lit "
/**/
/* abc
*/
/*


*/
/*/**/*/
/*a/*b*/c*/
/*/*/**/*/*/
/***/
/* **** */
/*/ */
/*// */
")
    [make_token TokenKind.block_comment 1 4;
     make_token TokenKind.block_comment 6 9;
     make_token TokenKind.block_comment 16 7;
     make_token TokenKind.block_comment 24 8;
     make_token TokenKind.block_comment 33 11;
     make_token TokenKind.block_comment 45 12;
     make_token TokenKind.block_comment 58 5;
     make_token TokenKind.block_comment 64 10;
     make_token TokenKind.block_comment 75 6;
     make_token TokenKind.block_comment 82 7;
     make_token TokenKind.end_of_file 90 0] = true.
Proof. vm_compute. reflexivity. Qed.

(** * Operators (src/tests/syntax/lexer_operators.cc) *)

Example lexer_brackets : check_tokens_equal
    (lit "()[]{}(())[[]]{{}}")
    [make_token TokenKind.l_paren 0 0;
     make_token TokenKind.r_paren 1 0;
     make_token TokenKind.l_bracket 2 0;
     make_token TokenKind.r_bracket 3 0;
     make_token TokenKind.l_brace 4 0;
     make_token TokenKind.r_brace 5 0;
     make_token TokenKind.l_paren 6 0;
     make_token TokenKind.l_paren 7 0;
     make_token TokenKind.r_paren 8 0;
     make_token TokenKind.r_paren 9 0;
     make_token TokenKind.l_bracket 10 0;
     make_token TokenKind.l_bracket 11 0;
     make_token TokenKind.r_bracket 12 0;
     make_token TokenKind.r_bracket 13 0;
     make_token TokenKind.l_brace 14 0;
     make_token TokenKind.l_brace 15 0;
     make_token TokenKind.r_brace 16 0;
     make_token TokenKind.r_brace 17 0;
     make_token TokenKind.end_of_file 18 0] = true.
Proof. vm_compute. reflexivity. Qed.

Example lexer_comma : check_tokens_equal
    (lit ", ,, ,,, ,a, b,b ,c,c d,d,d")
    [make_token TokenKind.comma 0 0;
     make_token TokenKind.comma 2 0;
     make_token TokenKind.comma 3 0;
     make_token TokenKind.comma 5 0;
     make_token TokenKind.comma 6 0;
     make_token TokenKind.comma 7 0;
     make_token TokenKind.comma 9 0;
     make_token TokenKind.identifier 10 1;
     make_token TokenKind.comma 11 0;
     make_token TokenKind.identifier 13 1;
     make_token TokenKind.comma 14 0;
     make_token TokenKind.identifier 15 1;
     make_token TokenKind.comma 17 0;
     make_token TokenKind.identifier 18 1;
     make_token TokenKind.comma 19 0;
     make_token TokenKind.identifier 20 1;
     make_token TokenKind.identifier 22 1;
     make_token TokenKind.comma 23 0;
     make_token TokenKind.identifier 24 1;
     make_token TokenKind.comma 25 0;
     make_token TokenKind.identifier 26 1;
     make_token TokenKind.end_of_file 27 0] = true.
Proof. vm_compute. reflexivity. Qed.

Example lexer_semicolon : check_tokens_equal
    (lit "; ;; ;;; ;a; b;b ;c;c d;d;d")
    [make_token TokenKind.semicolon 0 0;
     make_token TokenKind.semicolon 2 0;
     make_token TokenKind.semicolon 3 0;
     make_token TokenKind.semicolon 5 0;
     make_token TokenKind.semicolon 6 0;
     make_token TokenKind.semicolon 7 0;
     make_token TokenKind.semicolon 9 0;
     make_token TokenKind.identifier 10 1;
     make_token TokenKind.semicolon 11 0;
     make_token TokenKind.identifier 13 1;
     make_token TokenKind.semicolon 14 0;
     make_token TokenKind.identifier 15 1;
     make_token TokenKind.semicolon 17 0;
     make_token TokenKind.identifier 18 1;
     make_token TokenKind.semicolon 19 0;
     make_token TokenKind.identifier 20 1;
     make_token TokenKind.identifier 22 1;
     make_token TokenKind.semicolon 23 0;
     make_token TokenKind.identifier 24 1;
     make_token TokenKind.semicolon 25 0;
     make_token TokenKind.identifier 26 1;
     make_token TokenKind.end_of_file 27 0] = true.
Proof. vm_compute. reflexivity. Qed.

Example lexer_caret : check_tokens_equal
    (lit "^ ^^ ^^^ ^a^ b^b ^c^c d^d^d")
    [make_token TokenKind.caret 0 0;
     make_token TokenKind.caret 2 0;
     make_token TokenKind.caret 3 0;
     make_token TokenKind.caret 5 0;
     make_token TokenKind.caret 6 0;
     make_token TokenKind.caret 7 0;
     make_token TokenKind.caret 9 0;
     make_token TokenKind.identifier 10 1;
     make_token TokenKind.caret 11 0;
     make_token TokenKind.identifier 13 1;
     make_token TokenKind.caret 14 0;
     make_token TokenKind.identifier 15 1;
     make_token TokenKind.caret 17 0;
     make_token TokenKind.identifier 18 1;
     make_token TokenKind.caret 19 0;
     make_token TokenKind.identifier 20 1;
     make_token TokenKind.identifier 22 1;
     make_token TokenKind.caret 23 0;
     make_token TokenKind.identifier 24 1;
     make_token TokenKind.caret 25 0;
     make_token TokenKind.identifier 26 1;
     make_token TokenKind.end_of_file 27 0] = true.
Proof. vm_compute. reflexivity. Qed.

Example lexer_left_angle : check_tokens_equal
    (lit "< << <<=a<<b<c<<<<=<<< <= <=<")
    [make_token TokenKind.l_angle 0 0;
     make_token TokenKind.l_angle_angle 2 0;
     make_token TokenKind.l_angle_angle_eq 5 0;
     make_token TokenKind.identifier 8 1;
     make_token TokenKind.l_angle_angle 9 0;
     make_token TokenKind.identifier 11 1;
     make_token TokenKind.l_angle 12 0;
     make_token TokenKind.identifier 13 1;
     make_token TokenKind.l_angle_angle 14 0;
     make_token TokenKind.l_angle_angle_eq 16 0;
     make_token TokenKind.l_angle_angle 19 0;
     make_token TokenKind.l_angle 21 0;
     make_token TokenKind.l_angle_eq 23 0;
     make_token TokenKind.l_angle_eq 26 0;
     make_token TokenKind.l_angle 28 0;
     make_token TokenKind.end_of_file 29 0] = true.
Proof. vm_compute. reflexivity. Qed.

Example lexer_right_angle : check_tokens_equal
    (lit "> >> >>=a>>b>c>>>>=>>> >= >=>")
    [make_token TokenKind.r_angle 0 0;
     make_token TokenKind.r_angle 2 0;
     make_token TokenKind.r_angle 3 0;
     make_token TokenKind.r_angle_angle_eq 5 0;
     make_token TokenKind.identifier 8 1;
     make_token TokenKind.r_angle 9 0;
     make_token TokenKind.r_angle 10 0;
     make_token TokenKind.identifier 11 1;
     make_token TokenKind.r_angle 12 0;
     make_token TokenKind.identifier 13 1;
     make_token TokenKind.r_angle 14 0;
     make_token TokenKind.r_angle 15 0;
     make_token TokenKind.r_angle_angle_eq 16 0;
     make_token TokenKind.r_angle 19 0;
     make_token TokenKind.r_angle 20 0;
     make_token TokenKind.r_angle 21 0;
     make_token TokenKind.r_angle_eq 23 0;
     make_token TokenKind.r_angle_eq 26 0;
     make_token TokenKind.r_angle 28 0;
     make_token TokenKind.end_of_file 29 0] = true.
Proof. vm_compute. reflexivity. Qed.

Example lexer_dot : check_tokens_equal
    (lit ". .. ... .5.25.. .5 .25.")
    [make_token TokenKind.dot 0 0;
     make_token TokenKind.dot 2 0;
     make_token TokenKind.dot 3 0;
     make_token TokenKind.dot 5 0;
     make_token TokenKind.dot 6 0;
     make_token TokenKind.dot 7 0;
     make_token TokenKind.float_literal 9 2;
     make_token TokenKind.float_literal 11 3;
     make_token TokenKind.dot 14 0;
     make_token TokenKind.dot 15 0;
     make_token TokenKind.float_literal 17 2;
     make_token TokenKind.float_literal 20 3;
     make_token TokenKind.dot 23 0;
     make_token TokenKind.end_of_file 24 0] = true.
Proof. vm_compute. reflexivity. Qed.

Example lexer_colon : check_tokens_equal
    (lit ": :: :::a::b:c::d: :e:")
    [make_token TokenKind.colon 0 0;
     make_token TokenKind.colon_colon 2 0;
     make_token TokenKind.colon_colon 5 0;
     make_token TokenKind.colon 7 0;
     make_token TokenKind.identifier 8 1;
     make_token TokenKind.colon_colon 9 0;
     make_token TokenKind.identifier 11 1;
     make_token TokenKind.colon 12 0;
     make_token TokenKind.identifier 13 1;
     make_token TokenKind.colon_colon 14 0;
     make_token TokenKind.identifier 16 1;
     make_token TokenKind.colon 17 0;
     make_token TokenKind.colon 19 0;
     make_token TokenKind.identifier 20 1;
     make_token TokenKind.colon 21 0;
     make_token TokenKind.end_of_file 22 0] = true.
Proof. vm_compute. reflexivity. Qed.

Example lexer_equals : check_tokens_equal
    (lit "= == => === ==> =>= >== ====")
    [make_token TokenKind.eq 0 0;
     make_token TokenKind.eq_eq 2 0;
     make_token TokenKind.thick_arrow 5 0;
     make_token TokenKind.eq_eq 8 0;
     make_token TokenKind.eq 10 0;
     make_token TokenKind.eq_eq 12 0;
     make_token TokenKind.r_angle 14 0;
     make_token TokenKind.thick_arrow 16 0;
     make_token TokenKind.eq 18 0;
     make_token TokenKind.r_angle_eq 20 0;
     make_token TokenKind.eq 22 0;
     make_token TokenKind.eq_eq 24 0;
     make_token TokenKind.eq_eq 26 0;
     make_token TokenKind.end_of_file 28 0] = true.
Proof. vm_compute. reflexivity. Qed.

Example lexer_plus : check_tokens_equal
    (lit "+ ++ +++ += +=+ =+= +a++b+++c+=d")
    [make_token TokenKind.plus 0 0;
     make_token TokenKind.plus_plus 2 0;
     make_token TokenKind.plus_plus 5 0;
     make_token TokenKind.plus 7 0;
     make_token TokenKind.plus_eq 9 0;
     make_token TokenKind.plus_eq 12 0;
     make_token TokenKind.plus 14 0;
     make_token TokenKind.eq 16 0;
     make_token TokenKind.plus_eq 17 0;
     make_token TokenKind.plus 20 0;
     make_token TokenKind.identifier 21 1;
     make_token TokenKind.plus_plus 22 0;
     make_token TokenKind.identifier 24 1;
     make_token TokenKind.plus_plus 25 0;
     make_token TokenKind.plus 27 0;
     make_token TokenKind.identifier 28 1;
     make_token TokenKind.plus_eq 29 0;
     make_token TokenKind.identifier 31 1;
     make_token TokenKind.end_of_file 32 0] = true.
Proof. vm_compute. reflexivity. Qed.

Example lexer_minus : check_tokens_equal
    (lit "-> --> ->- >-> ---> - -- --- -= -=- =-= -a--b---c-=d")
    [make_token TokenKind.thin_arrow 0 0;
     make_token TokenKind.minus_minus 3 0;
     make_token TokenKind.r_angle 5 0;
     make_token TokenKind.thin_arrow 7 0;
     make_token TokenKind.minus 9 0;
     make_token TokenKind.r_angle 11 0;
     make_token TokenKind.thin_arrow 12 0;
     make_token TokenKind.minus_minus 15 0;
     make_token TokenKind.thin_arrow 17 0;
     make_token TokenKind.minus 20 0;
     make_token TokenKind.minus_minus 22 0;
     make_token TokenKind.minus_minus 25 0;
     make_token TokenKind.minus 27 0;
     make_token TokenKind.minus_eq 29 0;
     make_token TokenKind.minus_eq 32 0;
     make_token TokenKind.minus 34 0;
     make_token TokenKind.eq 36 0;
     make_token TokenKind.minus_eq 37 0;
     make_token TokenKind.minus 40 0;
     make_token TokenKind.identifier 41 1;
     make_token TokenKind.minus_minus 42 0;
     make_token TokenKind.identifier 44 1;
     make_token TokenKind.minus_minus 45 0;
     make_token TokenKind.minus 47 0;
     make_token TokenKind.identifier 48 1;
     make_token TokenKind.minus_eq 49 0;
     make_token TokenKind.identifier 51 1;
     make_token TokenKind.end_of_file 52 0] = true.
Proof. vm_compute. reflexivity. Qed.

Example lexer_star : check_tokens_equal
    (lit "*a**b***c*=d* ** *** *= *=* =*=")
    [make_token TokenKind.star 0 0;
     make_token TokenKind.identifier 1 1;
     make_token TokenKind.star 2 0;
     make_token TokenKind.star 3 0;
     make_token TokenKind.identifier 4 1;
     make_token TokenKind.star 5 0;
     make_token TokenKind.star 6 0;
     make_token TokenKind.star 7 0;
     make_token TokenKind.identifier 8 1;
     make_token TokenKind.star_eq 9 0;
     make_token TokenKind.identifier 11 1;
     make_token TokenKind.star 12 0;
     make_token TokenKind.star 14 0;
     make_token TokenKind.star 15 0;
     make_token TokenKind.star 17 0;
     make_token TokenKind.star 18 0;
     make_token TokenKind.star 19 0;
     make_token TokenKind.star_eq 21 0;
     make_token TokenKind.star_eq 24 0;
     make_token TokenKind.star 26 0;
     make_token TokenKind.eq 28 0;
     make_token TokenKind.star_eq 29 0;
     make_token TokenKind.end_of_file 31 0] = true.
Proof. vm_compute. reflexivity. Qed.

Example lexer_slash : check_tokens_equal
    (lit "/ /a/b/c/=d/ / /a/b/c/=/=/ =")
    [make_token TokenKind.slash 0 0;
     make_token TokenKind.slash 2 0;
     make_token TokenKind.identifier 3 1;
     make_token TokenKind.slash 4 0;
     make_token TokenKind.identifier 5 1;
     make_token TokenKind.slash 6 0;
     make_token TokenKind.identifier 7 1;
     make_token TokenKind.slash_eq 8 0;
     make_token TokenKind.identifier 10 1;
     make_token TokenKind.slash 11 0;
     make_token TokenKind.slash 13 0;
     make_token TokenKind.slash 15 0;
     make_token TokenKind.identifier 16 1;
     make_token TokenKind.slash 17 0;
     make_token TokenKind.identifier 18 1;
     make_token TokenKind.slash 19 0;
     make_token TokenKind.identifier 20 1;
     make_token TokenKind.slash_eq 21 0;
     make_token TokenKind.slash_eq 23 0;
     make_token TokenKind.slash 25 0;
     make_token TokenKind.eq 27 0;
     make_token TokenKind.end_of_file 28 0] = true.
Proof. vm_compute. reflexivity. Qed.

Example lexer_percent : check_tokens_equal
    (lit "%=d% % %=%=% = %a%b%c% %a%b%c%")
    [make_token TokenKind.percent_eq 0 0;
     make_token TokenKind.identifier 2 1;
     make_token TokenKind.percent 3 0;
     make_token TokenKind.percent 5 0;
     make_token TokenKind.percent_eq 7 0;
     make_token TokenKind.percent_eq 9 0;
     make_token TokenKind.percent 11 0;
     make_token TokenKind.eq 13 0;
     make_token TokenKind.percent 15 0;
     make_token TokenKind.identifier 16 1;
     make_token TokenKind.percent 17 0;
     make_token TokenKind.identifier 18 1;
     make_token TokenKind.percent 19 0;
     make_token TokenKind.identifier 20 1;
     make_token TokenKind.percent 21 0;
     make_token TokenKind.percent 23 0;
     make_token TokenKind.identifier 24 1;
     make_token TokenKind.percent 25 0;
     make_token TokenKind.identifier 26 1;
     make_token TokenKind.percent 27 0;
     make_token TokenKind.identifier 28 1;
     make_token TokenKind.percent 29 0;
     make_token TokenKind.end_of_file 30 0] = true.
Proof. vm_compute. reflexivity. Qed.

Example lexer_ampersand : check_tokens_equal
    (lit "& && &= &&= &a&&b&&&c&=d&&=e &&&&=")
    [make_token TokenKind.ampersand 0 0;
     make_token TokenKind.and_and 2 0;
     make_token TokenKind.ampersand_eq 5 0;
     make_token TokenKind.and_and_eq 8 0;
     make_token TokenKind.ampersand 12 0;
     make_token TokenKind.identifier 13 1;
     make_token TokenKind.and_and 14 0;
     make_token TokenKind.identifier 16 1;
     make_token TokenKind.and_and 17 0;
     make_token TokenKind.ampersand 19 0;
     make_token TokenKind.identifier 20 1;
     make_token TokenKind.ampersand_eq 21 0;
     make_token TokenKind.identifier 23 1;
     make_token TokenKind.and_and_eq 24 0;
     make_token TokenKind.identifier 27 1;
     make_token TokenKind.and_and 29 0;
     make_token TokenKind.and_and_eq 31 0;
     make_token TokenKind.end_of_file 34 0] = true.
Proof. vm_compute. reflexivity. Qed.

Example lexer_pipe : check_tokens_equal
    (lit "| || ||||| ||= |= a|b||c|||d|=e||=f")
    [make_token TokenKind.pipe 0 0;
     make_token TokenKind.pipe_pipe 2 0;
     make_token TokenKind.pipe_pipe 5 0;
     make_token TokenKind.pipe_pipe 7 0;
     make_token TokenKind.pipe 9 0;
     make_token TokenKind.pipe_pipe_eq 11 0;
     make_token TokenKind.pipe_eq 15 0;
     make_token TokenKind.identifier 18 1;
     make_token TokenKind.pipe 19 0;
     make_token TokenKind.identifier 20 1;
     make_token TokenKind.pipe_pipe 21 0;
     make_token TokenKind.identifier 23 1;
     make_token TokenKind.pipe_pipe 24 0;
     make_token TokenKind.pipe 26 0;
     make_token TokenKind.identifier 27 1;
     make_token TokenKind.pipe_eq 28 0;
     make_token TokenKind.identifier 30 1;
     make_token TokenKind.pipe_pipe_eq 31 0;
     make_token TokenKind.identifier 34 1;
     make_token TokenKind.end_of_file 35 0] = true.
Proof. vm_compute. reflexivity. Qed.

Example lexer_tilde : check_tokens_equal
    (lit "~ ~= ~a~b~~c~=d ~~= ~=~")
    [make_token TokenKind.tilde 0 0;
     make_token TokenKind.tilde_eq 2 0;
     make_token TokenKind.tilde 5 0;
     make_token TokenKind.identifier 6 1;
     make_token TokenKind.tilde 7 0;
     make_token TokenKind.identifier 8 1;
     make_token TokenKind.tilde 9 0;
     make_token TokenKind.tilde 10 0;
     make_token TokenKind.identifier 11 1;
     make_token TokenKind.tilde_eq 12 0;
     make_token TokenKind.identifier 14 1;
     make_token TokenKind.tilde 16 0;
     make_token TokenKind.tilde_eq 17 0;
     make_token TokenKind.tilde_eq 20 0;
     make_token TokenKind.tilde 22 0;
     make_token TokenKind.end_of_file 23 0] = true.
Proof. vm_compute. reflexivity. Qed.

Example lexer_bang : check_tokens_equal
    (lit "! != !a!b!!c!=d !!= !=! !!!")
    [make_token TokenKind.bang 0 0;
     make_token TokenKind.bang_eq 2 0;
     make_token TokenKind.bang 5 0;
     make_token TokenKind.identifier 6 1;
     make_token TokenKind.bang 7 0;
     make_token TokenKind.identifier 8 1;
     make_token TokenKind.bang 9 0;
     make_token TokenKind.bang 10 0;
     make_token TokenKind.identifier 11 1;
     make_token TokenKind.bang_eq 12 0;
     make_token TokenKind.identifier 14 1;
     make_token TokenKind.bang 16 0;
     make_token TokenKind.bang_eq 17 0;
     make_token TokenKind.bang_eq 20 0;
     make_token TokenKind.bang 22 0;
     make_token TokenKind.bang 24 0;
     make_token TokenKind.bang 25 0;
     make_token TokenKind.bang 26 0;
     make_token TokenKind.end_of_file 27 0] = true.
Proof. vm_compute. reflexivity. Qed.

(** * Keywords (src/tests/syntax/lexer_keywords.cc) *)

Example lexer_keyword_break : check_tokens_equal
    (lit "b br bre brea break break_")
    [make_token TokenKind.identifier 0 1;
     make_token TokenKind.identifier 2 2;
     make_token TokenKind.identifier 5 3;
     make_token TokenKind.identifier 9 4;
     make_token TokenKind.kw_break 14 0;
     make_token TokenKind.identifier 20 6;
     make_token TokenKind.end_of_file 26 0] = true.
Proof. vm_compute. reflexivity. Qed.

Example lexer_keyword_catch : check_tokens_equal
    (lit "c ca cat catc catch catch_")
    [make_token TokenKind.identifier 0 1;
     make_token TokenKind.identifier 2 2;
     make_token TokenKind.identifier 5 3;
     make_token TokenKind.identifier 9 4;
     make_token TokenKind.kw_catch 14 0;
     make_token TokenKind.identifier 20 6;
     make_token TokenKind.end_of_file 26 0] = true.
Proof. vm_compute. reflexivity. Qed.

Example lexer_keyword_const : check_tokens_equal
    (lit "c co con cons const const_")
    [make_token TokenKind.identifier 0 1;
     make_token TokenKind.identifier 2 2;
     make_token TokenKind.identifier 5 3;
     make_token TokenKind.identifier 9 4;
     make_token TokenKind.kw_const 14 0;
     make_token TokenKind.identifier 20 6;
     make_token TokenKind.end_of_file 26 0] = true.
Proof. vm_compute. reflexivity. Qed.

Example lexer_keyword_continue : check_tokens_equal
    (lit "c co con cont conti contin continu continue continue_")
    [make_token TokenKind.identifier 0 1;
     make_token TokenKind.identifier 2 2;
     make_token TokenKind.identifier 5 3;
     make_token TokenKind.identifier 9 4;
     make_token TokenKind.identifier 14 5;
     make_token TokenKind.identifier 20 6;
     make_token TokenKind.identifier 27 7;
     make_token TokenKind.kw_continue 35 0;
     make_token TokenKind.identifier 44 9;
     make_token TokenKind.end_of_file 53 0] = true.
Proof. vm_compute. reflexivity. Qed.

Example lexer_keyword_do : check_tokens_equal
    (lit "d do do_")
    [make_token TokenKind.identifier 0 1;
     make_token TokenKind.kw_do 2 0;
     make_token TokenKind.identifier 5 3;
     make_token TokenKind.end_of_file 8 0] = true.
Proof. vm_compute. reflexivity. Qed.

Example lexer_keyword_else : check_tokens_equal
    (lit "e el els else else_")
    [make_token TokenKind.identifier 0 1;
     make_token TokenKind.identifier 2 2;
     make_token TokenKind.identifier 5 3;
     make_token TokenKind.kw_else 9 0;
     make_token TokenKind.identifier 14 5;
     make_token TokenKind.end_of_file 19 0] = true.
Proof. vm_compute. reflexivity. Qed.

Example lexer_keyword_enum : check_tokens_equal
    (lit "e en enu enum enum_")
    [make_token TokenKind.identifier 0 1;
     make_token TokenKind.identifier 2 2;
     make_token TokenKind.identifier 5 3;
     make_token TokenKind.kw_enum 9 0;
     make_token TokenKind.identifier 14 5;
     make_token TokenKind.end_of_file 19 0] = true.
Proof. vm_compute. reflexivity. Qed.

Example lexer_keyword_for : check_tokens_equal
    (lit "f fo for for_")
    [make_token TokenKind.identifier 0 1;
     make_token TokenKind.identifier 2 2;
     make_token TokenKind.kw_for 5 0;
     make_token TokenKind.identifier 9 4;
     make_token TokenKind.end_of_file 13 0] = true.
Proof. vm_compute. reflexivity. Qed.

Example lexer_keyword_if : check_tokens_equal
    (lit "i if if_")
    [make_token TokenKind.identifier 0 1;
     make_token TokenKind.kw_if 2 0;
     make_token TokenKind.identifier 5 3;
     make_token TokenKind.end_of_file 8 0] = true.
Proof. vm_compute. reflexivity. Qed.

Example lexer_keyword_in : check_tokens_equal
    (lit "i in in_")
    [make_token TokenKind.identifier 0 1;
     make_token TokenKind.kw_in 2 0;
     make_token TokenKind.identifier 5 3;
     make_token TokenKind.end_of_file 8 0] = true.
Proof. vm_compute. reflexivity. Qed.

Example lexer_keyword_interface : check_tokens_equal
    (lit "i in int inte inter interf interfa interfac interface interface_")
    [make_token TokenKind.identifier 0 1;
     make_token TokenKind.kw_in 2 0;
     make_token TokenKind.identifier 5 3;
     make_token TokenKind.identifier 9 4;
     make_token TokenKind.identifier 14 5;
     make_token TokenKind.identifier 20 6;
     make_token TokenKind.identifier 27 7;
     make_token TokenKind.identifier 35 8;
     make_token TokenKind.kw_interface 44 0;
     make_token TokenKind.identifier 54 10;
     make_token TokenKind.end_of_file 64 0] = true.
Proof. vm_compute. reflexivity. Qed.

Example lexer_keyword_let : check_tokens_equal
    (lit "l le let let_")
    [make_token TokenKind.identifier 0 1;
     make_token TokenKind.identifier 2 2;
     make_token TokenKind.kw_let 5 0;
     make_token TokenKind.identifier 9 4;
     make_token TokenKind.end_of_file 13 0] = true.
Proof. vm_compute. reflexivity. Qed.

Example lexer_keyword_mut : check_tokens_equal
    (lit "m mu mut mut_")
    [make_token TokenKind.identifier 0 1;
     make_token TokenKind.identifier 2 2;
     make_token TokenKind.kw_mut 5 0;
     make_token TokenKind.identifier 9 4;
     make_token TokenKind.end_of_file 13 0] = true.
Proof. vm_compute. reflexivity. Qed.

Example lexer_keyword_private : check_tokens_equal
    (lit "p pr pri priv priva privat private private_")
    [make_token TokenKind.identifier 0 1;
     make_token TokenKind.identifier 2 2;
     make_token TokenKind.identifier 5 3;
     make_token TokenKind.identifier 9 4;
     make_token TokenKind.identifier 14 5;
     make_token TokenKind.identifier 20 6;
     make_token TokenKind.kw_private 27 0;
     make_token TokenKind.identifier 35 8;
     make_token TokenKind.end_of_file 43 0] = true.
Proof. vm_compute. reflexivity. Qed.

Example lexer_keyword_public : check_tokens_equal
    (lit "p pu pub publ publi public public_")
    [make_token TokenKind.identifier 0 1;
     make_token TokenKind.identifier 2 2;
     make_token TokenKind.identifier 5 3;
     make_token TokenKind.identifier 9 4;
     make_token TokenKind.identifier 14 5;
     make_token TokenKind.kw_public 20 0;
     make_token TokenKind.identifier 27 7;
     make_token TokenKind.end_of_file 34 0] = true.
Proof. vm_compute. reflexivity. Qed.

Example lexer_keyword_raise : check_tokens_equal
    (lit "r ra rai rais raise raise_")
    [make_token TokenKind.identifier 0 1;
     make_token TokenKind.identifier 2 2;
     make_token TokenKind.identifier 5 3;
     make_token TokenKind.identifier 9 4;
     make_token TokenKind.kw_raise 14 0;
     make_token TokenKind.identifier 20 6;
     make_token TokenKind.end_of_file 26 0] = true.
Proof. vm_compute. reflexivity. Qed.

Example lexer_keyword_return : check_tokens_equal
    (lit "r re ret retu retur return return_")
    [make_token TokenKind.identifier 0 1;
     make_token TokenKind.identifier 2 2;
     make_token TokenKind.identifier 5 3;
     make_token TokenKind.identifier 9 4;
     make_token TokenKind.identifier 14 5;
     make_token TokenKind.kw_return 20 0;
     make_token TokenKind.identifier 27 7;
     make_token TokenKind.end_of_file 34 0] = true.
Proof. vm_compute. reflexivity. Qed.

Example lexer_keyword_static : check_tokens_equal
    (lit "s st sta stat stati static static_")
    [make_token TokenKind.identifier 0 1;
     make_token TokenKind.identifier 2 2;
     make_token TokenKind.identifier 5 3;
     make_token TokenKind.identifier 9 4;
     make_token TokenKind.identifier 14 5;
     make_token TokenKind.kw_static 20 0;
     make_token TokenKind.identifier 27 7;
     make_token TokenKind.end_of_file 34 0] = true.
Proof. vm_compute. reflexivity. Qed.

Example lexer_keyword_struct : check_tokens_equal
    (lit "s st str stru struc struct struct_")
    [make_token TokenKind.identifier 0 1;
     make_token TokenKind.identifier 2 2;
     make_token TokenKind.identifier 5 3;
     make_token TokenKind.identifier 9 4;
     make_token TokenKind.identifier 14 5;
     make_token TokenKind.kw_struct 20 0;
     make_token TokenKind.identifier 27 7;
     make_token TokenKind.end_of_file 34 0] = true.
Proof. vm_compute. reflexivity. Qed.

Example lexer_keyword_switch : check_tokens_equal
    (lit "s sw swi swit switc switch switch_")
    [make_token TokenKind.identifier 0 1;
     make_token TokenKind.identifier 2 2;
     make_token TokenKind.identifier 5 3;
     make_token TokenKind.identifier 9 4;
     make_token TokenKind.identifier 14 5;
     make_token TokenKind.kw_switch 20 0;
     make_token TokenKind.identifier 27 7;
     make_token TokenKind.end_of_file 34 0] = true.
Proof. vm_compute. reflexivity. Qed.

Example lexer_keyword_try : check_tokens_equal
    (lit "t tr try try_")
    [make_token TokenKind.identifier 0 1;
     make_token TokenKind.identifier 2 2;
     make_token TokenKind.kw_try 5 0;
     make_token TokenKind.identifier 9 4;
     make_token TokenKind.end_of_file 13 0] = true.
Proof. vm_compute. reflexivity. Qed.

Example lexer_keyword_unchecked : check_tokens_equal
    (lit "u un unc unch unche unchec uncheck unchecke unchecked unchecked_")
    [make_token TokenKind.identifier 0 1;
     make_token TokenKind.identifier 2 2;
     make_token TokenKind.identifier 5 3;
     make_token TokenKind.identifier 9 4;
     make_token TokenKind.identifier 14 5;
     make_token TokenKind.identifier 20 6;
     make_token TokenKind.identifier 27 7;
     make_token TokenKind.identifier 35 8;
     make_token TokenKind.kw_unchecked 44 0;
     make_token TokenKind.identifier 54 10;
     make_token TokenKind.end_of_file 64 0] = true.
Proof. vm_compute. reflexivity. Qed.

Example lexer_keyword_while : check_tokens_equal
    (lit "w wh whi whil while while_")
    [make_token TokenKind.identifier 0 1;
     make_token TokenKind.identifier 2 2;
     make_token TokenKind.identifier 5 3;
     make_token TokenKind.identifier 9 4;
     make_token TokenKind.kw_while 14 0;
     make_token TokenKind.identifier 20 6;
     make_token TokenKind.end_of_file 26 0] = true.
Proof. vm_compute. reflexivity. Qed.

(** * Errors of the lexer (src/tests/syntax/lexer_errors.cc) *)

Example lexer_string_literal_missing_closing_quote : build_test_source
    (expect_report 3 15 missing_closing_quote [] silent_reporter)
    (lit "
foo() {
	" ++ [double_quote] ++ lit "Oh no...;
	;
}
") = true.
Proof. vm_compute. reflexivity. Qed.

Example lexer_char_literal_missing_closing_quote : build_test_source
    (expect_report 3 8 missing_closing_quote [] silent_reporter)
    (lit "
foo() {
	'x;
	;
}
") = true.
Proof. vm_compute. reflexivity. Qed.

Example lexer_unterminated_block_comment : build_test_source
    (expect_report 2 1 unterminated_block_comment [] silent_reporter)
    (lit "
/* abc
") = true.
Proof. vm_compute. reflexivity. Qed.

Example lexer_invalid_character_ascii_control_char : build_test_source
    (expect_report 1 7 invalid_character [arg_int 0x7] (
     expect_report 1 6 invalid_character [arg_int 0x7] (
     expect_report 1 5 invalid_character [arg_int 0x7] silent_reporter)))
    (bytes_text [109; 97; 105; 110; 7; 7; 7; 40; 41; 32; 123; 125]) = true.
Proof. vm_compute. reflexivity. Qed.

Example lexer_invalid_character_non_unicode : build_test_source
    (expect_report 1 12 invalid_character [arg_int 0xff] (
     expect_report 1 11 invalid_character [arg_int 0xff] (
     expect_report 1 10 invalid_character [arg_int 0xff] silent_reporter)))
    (bytes_text [115; 111; 109; 101; 116; 104; 105; 110; 103; 255; 255; 255; 40; 41; 32; 123; 125]) = true.
Proof. vm_compute. reflexivity. Qed.

Example lexer_invalid_character_emoji : build_test_source
    (expect_report 1 25 invalid_character [arg_int 0xa0929ff0] (
     expect_report 1 21 invalid_character [arg_int 0xa0929ff0] (
     expect_report 1 17 invalid_character [arg_int 0xa0929ff0] (
     expect_report 1 13 invalid_character [arg_int 0xa0929ff0] (
     expect_report 1 9 invalid_character [arg_int 0xa0929ff0] (
     expect_report 1 5 invalid_character [arg_int 0xa0929ff0] (
     expect_report 1 1 invalid_character [arg_int 0xa0929ff0] silent_reporter)))))))
    (lit "💠💠💠💠💠💠💠") = true.
Proof. vm_compute. reflexivity. Qed.

Example lexer_invalid_character_non_xid : build_test_source
    (expect_report 1 11 invalid_character [arg_int 0xa793e2] silent_reporter)
    (lit "oopsie() {ⓧ}") = true.
Proof. vm_compute. reflexivity. Qed.

(** * Errors of the parser (src/tests/syntax/parser_errors.cc) *)

Example parser_expect_function_struct_or_enum : build_test_source
    (expect_report 5 1 expect_function_struct_or_enum [arg_string (lit "`(`")] silent_reporter)
    (lit "
main() {
}

() {
}

foo() {
}
") = true.
Proof. vm_compute. reflexivity. Qed.

Example parser_expect_paren_after_function_name : build_test_source
    (expect_report 2 5 expect_paren_after_function_name [arg_string (lit "`)`")] silent_reporter)
    (lit "
main) {
}
") = true.
Proof. vm_compute. reflexivity. Qed.

Example parser_expect_parameter_type : build_test_source
    (expect_report 2 5 expect_parameter_type [arg_string (lit "`,`")] silent_reporter)
    (lit "
foo(, bool x) -> bool {
	return x;
}
") = true.
Proof. vm_compute. reflexivity. Qed.

Example parser_expect_parameter_name : build_test_source
    (expect_report 2 9 expect_parameter_name [arg_string (lit "`,`")] silent_reporter)
    (lit "
foo(bool, bool x) -> bool {
	return x;
}
") = true.
Proof. vm_compute. reflexivity. Qed.

Example parser_expect_paren_after_parameters : build_test_source
    (expect_report 6 19 expect_paren_after_parameters [arg_string (lit "`}`")] (
     expect_report 2 20 expect_paren_after_parameters [arg_string (lit "`->`")] silent_reporter))
    (lit "
private foo(bool x -> bool {
	return x;
}

private goo(bool x} -> bool {
	return x;
}
") = true.
Proof. vm_compute. reflexivity. Qed.

Example parser_expect_return_type : build_test_source
    (expect_report 6 18 expect_return_type [arg_string (lit "`%`")] (
     expect_report 2 24 expect_return_type [arg_string (lit "`{`")] silent_reporter))
    (lit "
private foo(bool x) -> {
	return x;
}

private goo() -> % {
}
") = true.
Proof. vm_compute. reflexivity. Qed.

Example parser_expect_brace_before_function_body : build_test_source
    (expect_report 9 14 expect_brace_before_function_body [arg_string (lit "`-`")] (
     expect_report 7 1 expect_brace_before_function_body [arg_string (lit "`}`")] (
     expect_report 3 5 expect_brace_before_function_body [arg_string (lit "`return`")] silent_reporter)))
    (lit "
foo(bool x) -> bool
	return x;
}

public goo() -> void
}

public hoo() -< void {
}
") = true.
Proof. vm_compute. reflexivity. Qed.

Example expect_expression : build_test_source
    (expect_report 11 5 expect_expression [arg_string (lit "`+=`")] (
     expect_report 8 1 expect_expression [arg_string (lit "`}`")] (
     expect_report 3 5 expect_expression [arg_string (lit "`]`")] silent_reporter)))
    (lit "
a() {
    ]
}

c() {
	foo(
}

b() {
    += x
}

foo() {
}
") = true.
Proof. vm_compute. reflexivity. Qed.

Example expect_semicolon : build_test_source
    (expect_report 4 1 expect_semicolon [arg_string (lit "`}`")] silent_reporter)
    (lit "
a() {
    return 0
}

b() {
    return 0;
}
") = true.
Proof. vm_compute. reflexivity. Qed.

Example expect_closing_paren_after_function_call : build_test_source
    (expect_report 7 1 expect_closing_paren_in_call [arg_string (lit "`}`")] silent_reporter)
    (lit "
foo(int32 _) {
}

f() {
	foo(1
}

g() {
	foo(2);
}
") = true.
Proof. vm_compute. reflexivity. Qed.

(** * Syntax trees (src/tests/syntax/parser_results_operators.cc and others) *)

(** A test case that records what it expects of the tree of a source. *)
Definition compare_source (source : text) (body : AstCompare.C unit) : AstCompare.Verdict :=
  match parse_source source with
  | Some root => AstCompare.test_case root body
  | None => AstCompare.crashed
  end.

Example parser_empty_source : compare_source [] (ret tt) = AstCompare.passed.
Proof. vm_compute. reflexivity. Qed.

Example parser_empty_function :
  let source := lit "main() {}" in
  compare_source source (AstCompare.function_definition source AccessModifier.none (lit "main") (ret tt))
    = AstCompare.passed.
Proof. vm_compute. reflexivity. Qed.

Example parser_comparison_and_logical_operators :
  let source := lit "
baz(int32 a, int32 b, int32 c, int32 d) -> bool {
	return a + b == b + c && b + c != c + d && a < c && a > d;
}
" in
  let function_parameter s cs := AstCompare.function_parameter source (lit s) cs in
  let ident_expr s := AstCompare.ident_expr source (lit s) in
  let binary_expr op cs := AstCompare.binary_expr source op cs in
  compare_source source (
    AstCompare.function_definition source AccessModifier.none (lit "baz") (
      function_parameter "a" (ident_expr "int32") ;;
      function_parameter "b" (ident_expr "int32") ;;
      function_parameter "c" (ident_expr "int32") ;;
      function_parameter "d" (ident_expr "int32") ;;
      AstCompare.function_output source [] (ident_expr "bool") ;;
      AstCompare.return_expr source (
        binary_expr BinaryOperator.logic_and (
          binary_expr BinaryOperator.logic_and (
            binary_expr BinaryOperator.logic_and (
              binary_expr BinaryOperator.eq (
                binary_expr BinaryOperator.add (ident_expr "a" ;; ident_expr "b") ;;
                binary_expr BinaryOperator.add (ident_expr "b" ;; ident_expr "c")) ;;
              binary_expr BinaryOperator.neq (
                binary_expr BinaryOperator.add (ident_expr "b" ;; ident_expr "c") ;;
                binary_expr BinaryOperator.add (ident_expr "c" ;; ident_expr "d"))) ;;
            binary_expr BinaryOperator.less (ident_expr "a" ;; ident_expr "c")) ;;
          binary_expr BinaryOperator.greater (ident_expr "a" ;; ident_expr "d"))))%string) = AstCompare.passed.
Proof. vm_compute. reflexivity. Qed.

(** * Builds (src/tests/compile) *)

Example build_source_file_not_found :
  let r := set_source_name (lit "file_should_not_exist.ce") silent_reporter in
  build_expecting (Source.from_file (lit "file_should_not_exist.ce")) example_system
    (expect_report 0 0 file_not_found [] r) = true.
Proof. vm_compute. reflexivity. Qed.

Example build_source_could_not_open_file :
  let r := set_source_name (lit ".") silent_reporter in
  build_expecting (Source.from_file (lit ".")) example_system
    (expect_report 0 0 could_not_open_file [arg_string (error_message ENODEV)] r) = true.
Proof. vm_compute. reflexivity. Qed.

(** The same two cases with the Windows files; there the error for a directory is
    permission_denied. *)
Example build_source_file_not_found_windows :
  let r := set_source_name (lit "file_should_not_exist.ce") silent_reporter in
  build_expecting (Source.from_file (lit "file_should_not_exist.ce")) (windows_system [])
    (expect_report 0 0 file_not_found [] r) = true.
Proof. vm_compute. reflexivity. Qed.

Example build_source_could_not_open_file_windows :
  let r := set_source_name (lit ".") silent_reporter in
  build_expecting (Source.from_file (lit ".")) (windows_system [(lit ".", directory)])
    (expect_report 0 0 could_not_open_file [arg_string (error_message 13)] r) = true.
Proof. vm_compute. reflexivity. Qed.

Example build_source_non_empty_file_windows :
  build_expecting (Source.from_file (lit "non_empty_file.ce"))
    (windows_system [(lit "non_empty_file.ce", regular (lit "main() {
}
"))]) silent_reporter = true.
Proof. vm_compute. reflexivity. Qed.

Example build_source_empty_file :
  build_expecting (Source.from_file (lit "empty_file.ce"))
    (mem_system [(lit "empty_file.ce", regular [])]) silent_reporter = true.
Proof. vm_compute. reflexivity. Qed.

Example build_source_non_empty_file :
  build_expecting (Source.from_file (lit "non_empty_file.ce"))
    (mem_system [(lit "non_empty_file.ce", regular (lit "main() {
}
"))]) silent_reporter = true.
Proof. vm_compute. reflexivity. Qed.

(** A null byte in a file (src/tests/syntax/lexer_errors.cc). *)
Example lexer_embedded_null :
  let r := set_source_name (lit "embedded_null.ce") silent_reporter in
  build_expecting (Source.from_file (lit "embedded_null.ce"))
    (mem_system [(lit "embedded_null.ce", regular (bytes_text [0; 109; 97; 105; 110; 40; 41; 10; 123; 10; 125; 10]))])
    (expect_report 1 1 invalid_character [arg_int 0] r) = true.
Proof. vm_compute. reflexivity. Qed.
